(* ===== verification/_CoqProject ===== *)
-Q . S2P
Prelude.v
GoLib.v
Float64.v
Caps.v
Velocity.v
Redis.v
Whitelist.v
Review.v
Sha256.v
Json.v
AuditLog.v
Metrics.v
Engine.v
JsonDecode.v
Format.v
Evaluate.v
EvaluateProps.v
Policy.v
RiskScore.v
Concurrent.v
RedisConcurrent.v
HotReload.v
Loops.v
Auth.v
Api.v
ApiProps.v
Unmarshal.v
Wire.v
Db.v
DbTables.v
DbProps.v
DbConcurrent.v
Production.v
Traffic.v
Startup.v
Lifecycle.v
