(* ===== verification/Prelude.v ===== *)
(** * Verification of the policy / risk engine

    ** The program

    The policy / risk engine (Go, [src/]) decides whether a crypto on-ramp
    transaction is allowed, denied or sent to manual review.  Its core is the
    synchronous decision path [internal/evaluate], which calls, in this order,
    source authentication and the destination whitelist ([internal/whitelist]),
    the daily velocity counter ([internal/velocity]), the transaction caps
    ([internal/caps]) and the Rego policy engine ([internal/engine]); it then
    counts the decision ([internal/metrics]), emits a signed audit record
    ([internal/audit]) and parks manual_review decisions ([internal/review]).
    The REST and gRPC transports ([internal/api]) expose it, and policies are
    replaced at run time by publishing or by the hot reloader ([internal/engine]).
    In production whitelist, review queue, audit trail and policy versions are
    tables of one PostgreSQL database ([internal/db]); [cmd/policy-engine] wires
    the parts from the environment and [cmd/migrate] runs migrations.

    ** The files

    Every component is a module of a file of its own; its records have the fields
    of the Go structs and its functions the names of the Go functions ([ms_] and
    [mc_] mark methods of in-memory implementations, [wl_], [rev_] and [aud_]
    those of the database stores, [rc_] those of the Redis counter).  A method that changes its
    receiver takes it as an argument and returns the changed one; a call that can
    fail returns an [error]; the clock readings, fresh ids and outcomes of network
    calls that a method reads are arguments.

    - [Prelude]: errors, slices, wrap-around, tactics, hint databases, shared
      lemmas.
    - [GoLib], [Float64], [Sha256], [Json], [JsonDecode], [Format]: what the
      program uses of the Go standard library: [strings], [strconv],
      [time.Duration], IEEE binary64 values with [ParseFloat], SHA-256 and
      hexadecimal text, [json.Marshal], the parser of [json.Unmarshal], the texts
      of numbers and times.
    - [Caps]: [caps.go].  [Velocity]: [velocity.go].  [Redis]: [redis.go], against
      a class of the server's commands.
    - [Whitelist]: [whitelist.go].  [Review]: [review.go], [notifier.go].  Both
      state what a store promises as a class ([StoreSpec]), prove their service
      against it, and show that the in-memory store keeps it; the whitelist of
      the database keeps it too.
    - [AuditLog] (module [Audit]): [audit.go]; queue and worker are a transition
      system.
    - [Metrics]: [metrics.go].  [Engine]: [engine.go].
    - [Evaluate]: [evaluate.go]; [EvaluateProps]: its properties.
    - [Policy]: [policies/decisions.rego] and [policies/caps.yaml], as a syntax
      tree with the semantics of the fragment of Rego it uses, put behind the
      engine and the decision path.  [RiskScore]: its risk score.
    - [Concurrent]: the calls of [Evaluate] as threads of atomic steps over the
      shared state, and their interleavings.  [RedisConcurrent]: the velocity
      checks of several replicas on one Redis server, command by command.
    - [HotReload]: [bundlepoll.go], [hotreload.go].  [Loops]: starting and stopping
      their goroutines.
    - [Auth]: [auth.go].  [Api]: [api.go], [rules.go], [grpc.go]; [ApiProps]:
      their properties.
    - [Unmarshal]: the types that JSON is decoded into (request bodies, token
      header and claims, key sets, bundle data), with the instances of the
      decoders that [Auth] and [Api] take.  [Wire]: the texts that are sent and
      signed, as trees.
    - [Db]: [internal/db] less connecting.  The database is its tables, with the
      constraints of [migrations/], and an oracle that says for each statement
      whether it fails before or after it was executed, and which ids are made.
      [DbTables]: lemmas on tables, statements and constraints, and the instance
      of the whitelist's [StoreSpec]; [DbProps]: the properties.
      [DbConcurrent]: the transactions of policy activation, statement by
      statement, interleaved as READ COMMITTED allows.
    - [Production]: the decision path and the steps of the service when all
      stores are tables of one database.  [Traffic]: the handlers of [Api] on that
      database; requests, reloads and the audit worker as steps, simulated by the
      steps of [Production].
    - [Startup]: [main.go] of both commands, [db.go], and the server constructor
      of [grpc.go].  [Lifecycle]: what comes after the start: serving, the signal,
      and the shutdown, as a state machine of the main goroutine, the calls in
      flight and the background goroutines.

    ** What the theorems show

    - Decision path: an allow has passed every check, and the decision is the one
      of the first check in a fixed priority; no user exceeds the daily limit
      within a window; allowed destinations were added and verified, where the
      store keeps them apart (in memory: no bar in user or chain); allowed
      amounts are below the cap of the tier; in memory exactly manual_review
      decisions are parked; metrics balance; what each error means.
    - Concurrency: a call run alone does what [Evaluate] does; in every
      interleaving of any number of calls the daily limit is never exceeded, and
      an allow has passed every check, the count included, in some state the
      server went through.  On a shared Redis server the limit holds under every
      interleaving of single commands and every failure and retry, up to one call
      for each INCR that fails and one for each repeated execution of a rollback.
    - The shipped policy: its three rules as a decision table; what an allow of
      the whole service implies when this policy is loaded; that it fails closed
      on missing fields; that scores lie between 0 and 1.
    - The wire: which bodies are accepted and what is read from them, in whatever
      order, spacing and case of the keys; that a request written out is read back,
      unchanged where it is UTF-8; that answers are JSON with the values of the handler; what a
      client that reads an allow can conclude; that a signed text determines the
      decision, up to bytes that are not UTF-8.
    - Counter, caps, whitelist, review queue, audit queue: refinement of
      independent counters, bounds, monotonicity, permanence, finality of
      resolutions one after the other, bounded notification; that the sink gets the
      accepted audit records, each once and in order.
    - Policy: precedence of the three queries; the hot reloader keeps engine and
      reported version together, swaps only good bundles and is idempotent;
      publishing puts the text in force.
    - Database: the tables stay well formed under every sequence of operations
      and faults; activation is all or nothing, with the lost answer of a commit
      as the only error that can leave it done, and round trips; the whitelist
      refines a map under every fault; decisions are never changed or written twice.  Concurrent
      activations are serializable where their scopes have a policy, are committed
      whole, and never deadlock.
    - The service on the database: its stores stay coherent, no decision is
      queued twice, every item refers to a recorded decision; an answer without
      an error is in the audit table, with a signature for what was signed, and in
      the review queue unless that insertion failed; all this holds for whatever requests arrive over
      REST and gRPC, from any successful start and across restarts.
    - Redis: the counter reads the same as the in-memory one while nothing fails
      and away from the expiry of a counter.
    - Start: the wait for the database ends; production refuses to start without
      its infrastructure; client certificates are verified when configured.
    - Shutdown: nothing is closed while a call that needs it is running, except
      past the deadline; the main goroutine can always go on or waits for something
      that can end, and when calls and goroutines end, in any order, the process
      returns.
    - Access: with authentication enabled no request changes anything without an
      accepted token, nor administrative state without an admin scope; the
      transports agree when it is off.
    - Deviations the model brought to light (not-a-number amounts, key
      collisions, concurrent resolutions, unchecked signatures and policies, and
      others) are stated as theorems of what the code does.

    ** Parameters

    Code outside the repository is a class with the behaviour relied on: the Open
    Policy Agent ([Engine.OPA]), Ed25519 ([Audit.Ed25519], [Audit.Ed25519Ok]: a
    signature has 64 bytes and verifies), the Kafka writer ([Audit.Writer]), the
    texts of decoding errors and of quoted strings ([Unmarshal.Texts]), the
    resolution of a time column
    ([Db.Postgres]), the Redis server ([Redis.RedisServer], with the documented
    effect of its commands in [Redis.RedisOk]) and the connection of its client
    ([Redis.Link]: the time each attempt takes, which ones fail, and after which
    errors and how often go-redis sends a command again), and in [Startup] the files, the
    driver, the migration library, certificates and the listener
    ([Startup.outside]).  The handlers of [Api] take the policy database as a
    class, [Api.PolicyDB], of which [Traffic.database_PolicyDB] is the instance,
    and the evaluate service as [Evaluate.Evaluator], with an instance for
    independent stores and one for the shared database.  Decoding and formatting
    are classes too ([Auth.Decoder], [Api.BodyDecoder], [Json.Fmt]), with the
    library's behaviour as instances ([Unmarshal.token_decoder],
    [Unmarshal.body_decoder], [Format.go_fmt], the last one for any time zone).
    [Policy] assumes of the Open Policy Agent that it evaluates the rules of the
    file as Rego defines them ([Policy.runs_decisions]), and that its mean of three
    numbers lies between them ([RiskScore.runs_score]).
    Witnesses instantiate all of them with concrete functions.

    ** Bounds and fuel

    All functions are total.  [Review.notify_loop] has the three attempts of the
    code as fuel; [Startup.wait_loop] the seconds to the deadline and two more,
    which is shown to be enough while each turn takes the second it sleeps; [Sha256.blocks] and the decimal printers recurse on the length
    of their input.  The JSON parser has twice the length of its text as
    fuel, which [JsonDecode.parse_terminates] shows to be enough.  [Format] tries
    one to seventeen digits for a number and falls back to all of them.  The step
    relations of [Concurrent], [RedisConcurrent], [DbConcurrent], [Loops] and [Lifecycle]
    need no fuel; a transaction that is not interrupted ends within seven steps.  Integers wrap at 64 bits where the code's do; the theorems
    on counters assume fewer than 2^63 calls.

    ** Not modelled

    The generated protobuf code, which only carries the fields of the messages;
    logging; the constructors and test hooks that only set a clock ([WithNow],
    [WithID]) and the accessors that forward to a library; YAML parsing, a
    third-party library; the texts of decoding errors.  Go's
    data races are not modelled: [Concurrent] interleaves the decision path with
    everything else at the granularity of its locks, [RedisConcurrent] and
    [DbConcurrent] at that of commands and statements; elsewhere calls of one
    component are sequences, and where the code leaves a window open between two
    calls (the resolution of reviews, the audit worker, faults between two
    statements) the interleaving is explicit.  In particular a request on the
    database is one step of [Production]; that its stores hold one handle is how
    [Production.share] and [Traffic.share_services] model the connection pool.
    PostgreSQL's checks of the text of a parameter (NUL, UTF-8) are not part of the
    statements of [Db]: a refusal for that reason is one of the faults. *)
From Stdlib Require Import ZArith Lia Ascii String.
From stdpp Require Import base gmap strings list pretty.

Open Scope Z_scope.

(** ** Notations of the development *)

Declare Scope go_scope.
Delimit Scope go_scope with go.
Open Scope go_scope.

(** Boolean equality of two values of a type with decidable equality: Go's [==]. *)
Notation "a == b" := (bool_decide (a = b)) (at level 70, no associativity) : go_scope.
Notation "a != b" := (negb (bool_decide (a = b))) (at level 70, no associativity) : go_scope.

(** ** Errors

    A Go [error] value.  [Errorf] is an anonymous error made by [errors.New] or
    by [fmt.Errorf] without [%w]; [Wrapf ctx e] is [fmt.Errorf("ctx: %w", e)];
    [Sentinel] is one of the package-level error variables, compared by
    identity; [AppErr] is a [*api.AppError]; [PqErr] is a [*pq.Error] with the
    SQLSTATE the server sent. *)

Inductive sentinel :=
| VelErrNegativeCounter
| WlErrNotFound
| WlErrAlreadyVerified
| WlErrDuplicate
| RevErrNotFound
| RevErrAlreadyResolved
| RevErrInvalidResolution
| RevErrDuplicate
| AudErrDropped
| AudErrDuplicateDecision
| SqlErrNoRows
| DbErrMissingDBURL
| DbErrNoActiveVersion
| RedisNil.

Definition sentinel_msg (s : sentinel) : string :=
  match s with
  | VelErrNegativeCounter => "velocity counter would be negative"
  | WlErrNotFound => "whitelist entry not found"
  | WlErrAlreadyVerified => "whitelist entry already verified"
  | WlErrDuplicate => "whitelist entry already exists"
  | RevErrNotFound => "review item not found"
  | RevErrAlreadyResolved => "review item already resolved"
  | RevErrInvalidResolution => "invalid resolution; must be allow or deny"
  | RevErrDuplicate => "review item already exists"
  | AudErrDropped => "audit record dropped"
  | AudErrDuplicateDecision => "audit decision already exists"
  | SqlErrNoRows => "sql: no rows in result set"
  | DbErrMissingDBURL => "DB_URL is required"
  | DbErrNoActiveVersion => "no active policy version"
  | RedisNil => "redis: nil"
  end.

Inductive error :=
| Errorf (msg : string)
| Wrapf (ctx : string) (e : error)
| Sentinel (s : sentinel)
| AppErr (code msg : string) (status : Z)
| PqErr (code msg : string).

#[export] Instance sentinel_eq_dec : EqDecision sentinel.
Proof. solve_decision. Defined.

#[export] Instance error_eq_dec : EqDecision error.
Proof. solve_decision. Defined.

(** [err.Error()]. *)
Fixpoint error_msg (e : error) : string :=
  match e with
  | Errorf m => m
  | Wrapf ctx e' => ctx +:+ ": " +:+ error_msg e'
  | Sentinel s => sentinel_msg s
  | AppErr _ m _ => m
  | PqErr _ m => "pq: " +:+ m
  end.

(** [errors.Is(err, target)] for a sentinel target: walk the [%w] chain. *)
Fixpoint errors_is (e : error) (target : sentinel) : bool :=
  match e with
  | Sentinel s => s == target
  | Wrapf _ e' => errors_is e' target
  | _ => false
  end.

(** The type of a call that either fails or returns: [(T, error)] where the
    value is the zero value whenever the error is not nil. *)
Abbreviation Res A := (error + A)%type.

Notation "'let?' x ':=' c 'in' k" :=
  (match c with inl e => inl e | inr x => k end)
  (at level 10, x name, c at level 100, k at level 200) : go_scope.

(** ** Slices

    A Go slice, with [None] the nil slice: [encoding/json] and the database
    driver tell a nil slice from an empty one. *)
Abbreviation slice A := (option (list A)).

Definition elems {A} (s : slice A) : list A := default [] s.

(** [append(s, xs...)]: stays nil only when nothing is appended to nil. *)
Definition append_all {A} (s : slice A) (xs : list A) : slice A :=
  match s, xs with
  | None, [] => None
  | _, _ => Some (elems s ++ xs)
  end.

Definition append1 {A} (s : slice A) (x : A) : slice A := append_all s [x].

(** ** Machine integers, time *)

(** Two's-complement wrap-around of an [int64]. *)
Definition wrap64 (z : Z) : Z := (z + 2^63) mod 2^64 - 2^63.

Definition int64_range (z : Z) : Prop := -2^63 <= z < 2^63.

(** [time.Time] as nanoseconds since the Unix epoch; the zero [time.Time] is
    1 January of year 1, UTC.  [time.Duration] is an [int64] of nanoseconds. *)
Abbreviation time := Z (only parsing).
Abbreviation duration := Z (only parsing).
Definition zero_time : time := -62135596800 * 1000000000.
Definition is_zero_time (t : time) : bool := t =? zero_time.
Definition second : duration := 1000000000.

(** ** Environment variables

    [os.Getenv] as a function: an unset variable reads as the empty string. *)
Definition environ := string -> string.

(** ** Tactics *)

Create HintDb go.
Create Rewrite HintDb go.

(** Case analysis on every scrutinee of a [match] or [if] in the goal or in a
    hypothesis, keeping the equation, innermost first. *)
Ltac go_case :=
  match goal with
  | |- context [match ?x with _ => _ end] =>
      lazymatch x with
      | context [match _ with _ => _ end] => fail
      | _ => destruct x eqn:?
      end
  end.

Ltac go_case_in H :=
  match type of H with
  | context [match ?x with _ => _ end] =>
      lazymatch x with
      | context [match _ with _ => _ end] => fail
      | _ => destruct x eqn:?
      end
  end.

(** Turn boolean facts about [==] and connectives into propositions. *)
Ltac go_bool :=
  repeat match goal with
  | H : bool_decide _ = true |- _ => apply bool_decide_eq_true in H
  | H : bool_decide _ = false |- _ => apply bool_decide_eq_false in H
  | H : negb _ = true |- _ => apply negb_true_iff in H
  | H : negb _ = false |- _ => apply negb_false_iff in H
  | H : (_ && _)%bool = true |- _ => apply andb_true_iff in H as [? ?]
  | H : (_ || _)%bool = false |- _ => apply orb_false_iff in H as [? ?]
  | H : (_ <=? _) = true |- _ => apply Z.leb_le in H
  | H : (_ <=? _) = false |- _ => apply Z.leb_gt in H
  | H : (_ <? _) = true |- _ => apply Z.ltb_lt in H
  | H : (_ <? _) = false |- _ => apply Z.ltb_ge in H
  | H : (_ =? _) = true |- _ => apply Z.eqb_eq in H
  | H : (_ =? _) = false |- _ => apply Z.eqb_neq in H
  end.

Ltac go_crush := repeat (go_case; simplify_eq/=); go_bool; try done; eauto with go.

(** ** Integers *)

Lemma wrap64_id z : int64_range z -> wrap64 z = z.
Proof. unfold wrap64, int64_range. intros H. rewrite Z.mod_small; lia. Qed.

Lemma wrap64_range z : int64_range (wrap64 z).
Proof.
  unfold wrap64, int64_range. pose proof (Z.mod_pos_bound (z + 2^63) (2^64)). lia.
Qed.

Lemma wrap64_add_l a b : wrap64 (wrap64 a + b) = wrap64 (a + b).
Proof.
  unfold wrap64. f_equal.
  replace ((a + 2^63) mod 2^64 - 2^63 + b + 2^63) with ((a + 2^63) mod 2^64 + b) by lia.
  rewrite Zplus_mod_idemp_l. f_equal. lia.
Qed.

Lemma wrap64_add_r a b : wrap64 (a + wrap64 b) = wrap64 (a + b).
Proof. rewrite Z.add_comm, wrap64_add_l. f_equal. lia. Qed.

#[export] Hint Resolve wrap64_range : go.
#[export] Hint Rewrite wrap64_add_l wrap64_add_r : go.

(** ** Slices and lists *)

Lemma elems_append_all {A} (s : slice A) xs : elems (append_all s xs) = elems s ++ xs.
Proof. destruct s, xs; simpl; rewrite ?app_nil_r; done. Qed.

Lemma elems_append1 {A} (s : slice A) x : elems (append1 s x) = elems s ++ [x].
Proof. apply elems_append_all. Qed.

#[export] Hint Rewrite @elems_append_all @elems_append1 : go.

(** [List.find] meets its predicate and returns the first such element. *)
Lemma find_Some_split {A} (f : A -> bool) l x :
  List.find f l = Some x <->
  exists l1 l2, l = l1 ++ x :: l2 /\ f x = true /\ Forall (fun y => f y = false) l1.
Proof.
  split.
  - induction l as [|y l IH]; simpl; [done|]. destruct (f y) eqn:Hy.
    + intros [= ->]. exists [], l. done.
    + intros H. destruct (IH H) as (l1 & l2 & -> & Hx & Hl1).
      exists (y :: l1), l2. split_and!; [done..|]. constructor; done.
  - intros (l1 & l2 & -> & Hx & Hl1). induction Hl1 as [|y l1 Hy Hl1 IH]; simpl.
    + by rewrite Hx.
    + by rewrite Hy.
Qed.

Lemma find_None_Forall {A} (f : A -> bool) l :
  List.find f l = None <-> Forall (fun y => f y = false) l.
Proof.
  induction l as [|y l IH]; simpl; [done|]. destruct (f y) eqn:Hy.
  - split; [done|]. intros H. inversion H. congruence.
  - rewrite IH. split; [by constructor|]. by inversion 1.
Qed.

Lemma last_cons {A} (x d : A) l : List.last (x :: l) d = List.last l x.
Proof.
  revert x d. induction l as [|y l IH]; intros x d; [done|].
  change (List.last (y :: l) d = List.last (y :: l) x). by rewrite !IH.
Qed.

Lemma filter_all {A} (P : A -> Prop) `{!forall x, Decision (P x)} (l : list A) :
  Forall P l -> filter P l = l.
Proof.
  induction 1 as [|x l Hx _ IH]; [done|]. by rewrite filter_cons_True, IH.
Qed.

Lemma filter_none {A} (P : A -> Prop) `{!forall x, Decision (P x)} (l : list A) :
  Forall (fun x => ~ P x) l -> filter P l = [].
Proof.
  induction 1 as [|x l Hx _ IH]; [done|]. by rewrite filter_cons_False.
Qed.

(** ** Strings *)

#[local] Arguments String.append : simpl nomatch.

Lemma string_app_assoc (a b c : string) : (a +:+ b) +:+ c = a +:+ (b +:+ c).
Proof. induction a; simpl; congruence. Qed.

Lemma string_app_nil_r (a : string) : a +:+ "" = a.
Proof. induction a; simpl; congruence. Qed.

(** [free c s]: the character [c] does not occur in [s]. *)
Fixpoint free (c : ascii) (s : string) : bool :=
  match s with
  | EmptyString => true
  | String a s' => (a != c) && free c s'
  end.

Lemma free_app c a b : free c (a +:+ b) = free c a && free c b.
Proof. induction a; simpl; [done|]. rewrite IHa. by destruct (_ != _). Qed.

(** Fields joined by a separator can be taken apart again when the first field
    does not hold the separator. *)
Lemma join_inj_l c s1 s2 t1 t2 :
  free c s1 = true -> free c s2 = true ->
  s1 +:+ String c t1 = s2 +:+ String c t2 -> s1 = s2 /\ t1 = t2.
Proof.
  revert s2. induction s1 as [|a s1 IH]; intros [|b s2] H1 H2 Heq; simpl in *;
    simplify_eq; go_bool; try done.
  destruct (IH s2) as [-> ->]; done.
Qed.

(** The same when the last field does not hold the separator. *)
Lemma join_inj_r c s1 s2 t1 t2 :
  free c t1 = true -> free c t2 = true ->
  s1 +:+ String c t1 = s2 +:+ String c t2 -> s1 = s2 /\ t1 = t2.
Proof.
  revert s2. induction s1 as [|a s1 IH]; intros [|b s2] H1 H2 Heq; simpl in *;
    simplify_eq; try done.
  - rewrite free_app in H1; simpl in H1. go_bool. done.
  - rewrite free_app in H2; simpl in H2. go_bool. done.
  - destruct (IH s2) as [-> ->]; done.
Qed.

(** ** Counting *)

Definition b2z (b : bool) : Z := if b then 1 else 0.

(** How many elements satisfy a test. *)
Definition count {A} (f : A -> bool) (ts : list A) : Z := Z.of_nat (length (List.filter f ts)).

Lemma count_nonneg {A} (f : A -> bool) ts : 0 <= count f ts.
Proof. unfold count. lia. Qed.

Lemma count_app {A} (f : A -> bool) ts ts' : count f (ts ++ ts') = count f ts + count f ts'.
Proof. unfold count. rewrite List.filter_app, length_app. lia. Qed.

Lemma count_insert {A} (f : A -> bool) ts i t t' :
  ts !! i = Some t -> count f (<[i := t']> ts) = count f ts - b2z (f t) + b2z (f t').
Proof.
  unfold count. revert i. induction ts as [|x ts IH]; intros [|i]; simpl; intros Hi; simplify_eq.
  - destruct (f t), (f t'); simpl; lia.
  - specialize (IH i Hi). destruct (f x); simpl; lia.
Qed.

Lemma count_le {A} (f g : A -> bool) ts : (forall t, f t = true -> g t = true) -> count f ts <= count g ts.
Proof.
  intros Hfg. unfold count. induction ts as [|t ts IH]; simpl; [done|].
  destruct (f t) eqn:Hf; [rewrite (Hfg t Hf); simpl; lia|]. destruct (g t); simpl; lia.
Qed.

Lemma count_length {A} (f : A -> bool) ts : count f ts <= Z.of_nat (length ts).
Proof. unfold count. induction ts as [|t ts IH]; simpl; [done|]. destruct (f t); simpl; lia. Qed.

Lemma count_lookup {A} (f : A -> bool) ts i t : ts !! i = Some t -> b2z (f t) <= count f ts.
Proof.
  revert i. unfold count. induction ts as [|x ts IH]; intros [|i]; simpl; intros Hi; simplify_eq.
  - destruct (f t); simpl; lia.
  - specialize (IH i Hi). destruct (f x); simpl; lia.
Qed.
