(* ===== verification/GoLib.v ===== *)
(** * The parts of Go's standard library the program calls

    Byte-level models of functions of [strings], [strconv] and [time]:
    a Go string is a sequence of bytes, here a [string] of 8-bit characters.
    - [TrimSpace], [ToUpperASCII], [EqualFoldASCII], [HasPrefix], [HasSuffix],
      [TrimPrefix], [Split], [Fields] of package [strings];
    - [Atoi], [Itoa] of package [strconv];
    - [duration_string], the [String] method of [time.Duration]. *)
From Stdlib Require Import ZArith Lia Ascii String.
From stdpp Require Import base gmap strings list pretty.
From S2P Require Import Prelude.

Open Scope Z_scope.
Open Scope go_scope.

(** ** Characters *)

Definition code (c : ascii) : Z := Z.of_N (N_of_ascii c).

Definition is_digit (c : ascii) : bool := (48 <=? code c) && (code c <=? 57).
Definition digit_val (c : ascii) : Z := code c - 48.

(** [lower(c) = c | ('x' - 'X')] of package [strconv]. *)
Definition lower (c : ascii) : ascii := ascii_of_N (N.lor (N_of_ascii c) 32).

Definition in_range (lo hi : Z) (c : ascii) : bool := (lo <=? code c) && (code c <=? hi).

(** ** Package strings *)

(** The encodings of the runes for which [unicode.IsSpace] holds: the six ASCII
    ones, U+0085 and U+00A0 (two bytes), and U+1680, U+2000 to U+200A, U+2028,
    U+2029, U+202F, U+205F, U+3000 (three bytes). *)
Definition space1 (a : ascii) : bool := in_range 9 13 a || (code a =? 32).
Definition space2 (a b : ascii) : bool :=
  (code a =? 194) && ((code b =? 133) || (code b =? 160)).
Definition space3 (a b c : ascii) : bool :=
  ((code a =? 225) && (code b =? 154) && (code c =? 128)) ||
  ((code a =? 226) && (code b =? 128) &&
     (in_range 128 138 c || (code c =? 168) || (code c =? 169) || (code c =? 175))) ||
  ((code a =? 226) && (code b =? 129) && (code c =? 159)) ||
  ((code a =? 227) && (code b =? 128) && (code c =? 128)).

Fixpoint trim_left (s : string) : string :=
  match s with
  | String a s1 =>
      if space1 a then trim_left s1 else
      match s1 with
      | String b s2 =>
          if space2 a b then trim_left s2 else
          match s2 with
          | String c s3 => if space3 a b c then trim_left s3 else s
          | EmptyString => s
          end
      | EmptyString => s
      end
  | EmptyString => s
  end.

(** The same from the other end, on the reversed string. *)
Fixpoint trim_left_rev (s : string) : string :=
  match s with
  | String a s1 =>
      if space1 a then trim_left_rev s1 else
      match s1 with
      | String b s2 =>
          if space2 b a then trim_left_rev s2 else
          match s2 with
          | String c s3 => if space3 c b a then trim_left_rev s3 else s
          | EmptyString => s
          end
      | EmptyString => s
      end
  | EmptyString => s
  end.

Definition TrimSpace (s : string) : string :=
  String.rev (trim_left_rev (String.rev (trim_left s))).

(** [strings.ToUpper], exact on every string whose upper-case form is ASCII:
    ASCII letters, and the two other runes whose upper case is an ASCII letter,
    U+017F (bytes C5 BF, upper case S) and U+0131 (bytes C4 B1, upper case I).
    Every other byte is kept, and stays outside ASCII as its image does. *)
Fixpoint ToUpperASCII (s : string) : string :=
  match s with
  | EmptyString => EmptyString
  | String a s1 =>
      if in_range 97 122 a then String (ascii_of_N (N_of_ascii a - 32)) (ToUpperASCII s1)
      else match s1 with
           | String b s2 =>
               if (code a =? 197) && (code b =? 191) then String "S" (ToUpperASCII s2)
               else if (code a =? 196) && (code b =? 177) then String "I" (ToUpperASCII s2)
               else String a (ToUpperASCII s1)
           | EmptyString => String a EmptyString
           end
  end.

Definition lower_ascii (c : ascii) : ascii :=
  if in_range 65 90 c then ascii_of_N (N_of_ascii c + 32) else c.

Fixpoint ToLowerASCII (s : string) : string :=
  match s with
  | EmptyString => EmptyString
  | String a s' => String (lower_ascii a) (ToLowerASCII s')
  end.

(** [strings.EqualFold(s, t)] for an ASCII [t] without k and s, the two letters
    that fold with a rune outside ASCII. *)
Definition EqualFoldASCII (s t : string) : bool := ToLowerASCII s == ToLowerASCII t.

Fixpoint HasPrefix (s p : string) : bool :=
  match p, s with
  | EmptyString, _ => true
  | String a p', String b s' => (a == b) && HasPrefix s' p'
  | _, EmptyString => false
  end.

Definition HasSuffix (s p : string) : bool := HasPrefix (String.rev s) (String.rev p).

Fixpoint drop (n : nat) (s : string) : string :=
  match n, s with
  | O, _ => s
  | S n', String _ s' => drop n' s'
  | S _, EmptyString => EmptyString
  end.

Definition TrimPrefix (s p : string) : string :=
  if HasPrefix s p then drop (String.length p) s else s.

(** [strings.Split(s, sep)] for a one-byte separator. *)
Fixpoint Split (sep : ascii) (s : string) : list string :=
  match s with
  | EmptyString => [""]
  | String a s' =>
      if a == sep then "" :: Split sep s'
      else match Split sep s' with
           | h :: t => String a h :: t
           | [] => [String a ""]
           end
  end.

(** [strings.Fields]: maximal runs of non-space characters.  [cur] is the field
    being read, reversed. *)
Definition flush (cur : string) : list string :=
  match cur with EmptyString => [] | _ => [String.rev cur] end.

Fixpoint fields_go (s cur : string) : list string :=
  match s with
  | EmptyString => flush cur
  | String a s1 =>
      if space1 a then flush cur ++ fields_go s1 "" else
      match s1 with
      | String b s2 =>
          if space2 a b then flush cur ++ fields_go s2 "" else
          match s2 with
          | String c s3 =>
              if space3 a b c then flush cur ++ fields_go s3 ""
              else fields_go s1 (String a cur)
          | EmptyString => fields_go s1 (String a cur)
          end
      | EmptyString => fields_go s1 (String a cur)
      end
  end.

Definition Fields (s : string) : list string := fields_go s "".

(** ** Package strconv *)

Definition Itoa (n : Z) : string := pretty n.

(** Decimal digits only; [None] on any other character. *)
Fixpoint digits_val (acc : Z) (s : string) : option Z :=
  match s with
  | EmptyString => Some acc
  | String c s' => if is_digit c then digits_val (acc * 10 + digit_val c) s' else None
  end.

(** [strconv.Atoi] on a 64-bit platform: an optional sign, at least one digit,
    and a value in range; [None] is the error (syntax or range). *)
Definition Atoi (s : string) : option Z :=
  let '(neg, ds) :=
    match s with
    | String c s' => if (c == "-"%char) then (true, s') else
                     if (c == "+"%char) then (false, s') else (false, s)
    | EmptyString => (false, s)
    end in
  if ds == "" then None else
  match digits_val 0 ds with
  | None => None
  | Some n =>
      let v := if (neg : bool) then - n else n in
      if (-2^63 <=? v) && (v <? 2^63) then Some v else None
  end.

(** ** Package time: the String method of Duration *)

(** [fmtFrac(buf, v, prec)]: the [prec] low decimal digits of [v] without
    trailing zeros, with a leading dot when any is left, written in front of
    [tail]; returns the digits above. *)
Fixpoint fmt_frac (prec : nat) (v : Z) (print : bool) (tail : string) : string * Z :=
  match prec with
  | O => ((if print then String "." tail else tail), v)
  | S p =>
      let digit := v mod 10 in
      let print' := print || negb (digit =? 0) in
      let tail' := if print' then String (ascii_of_N (Z.to_N (digit + 48))) tail else tail in
      fmt_frac p (v / 10) print' tail'
  end.

Definition micro_sign : string := String "194" (String "181" "").

Definition duration_string (d : duration) : string :=
  let u := Z.abs d in
  let body :=
    if u <? second then
      if u =? 0 then "0s"
      else if u <? 1000 then Itoa u +:+ "ns"
      else if u <? 1000000 then
        let '(f, v) := fmt_frac 3 u false (micro_sign +:+ "s") in Itoa v +:+ f
      else let '(f, v) := fmt_frac 6 u false "ms" in Itoa v +:+ f
    else
      let '(f, secs) := fmt_frac 9 u false "s" in
      let s1 := Itoa (secs mod 60) +:+ f in
      let mins := secs / 60 in
      if mins =? 0 then s1
      else let s2 := Itoa (mins mod 60) +:+ "m" +:+ s1 in
           let hours := mins / 60 in
           if hours =? 0 then s2 else Itoa hours +:+ "h" +:+ s2 in
  if d <? 0 then "-" +:+ body else body.

(** ** Evaluation on concrete inputs *)

Example trim_ex : TrimSpace (String "009" "  usd ") = "usd".
Proof. reflexivity. Qed.
Example upper_ex : ToUpperASCII (String "u" (String "197" (String "191" "d"))) = "USD".
Proof. reflexivity. Qed.
Example split_ex : Split "." "a.b." = ["a"; "b"; ""].
Proof. reflexivity. Qed.
Example fields_ex : Fields " policy:admin  policy:review" = ["policy:admin"; "policy:review"].
Proof. reflexivity. Qed.
Example duration_ex :
  map duration_string [86400 * second; 60 * second; 1500000; 90061 * second + 500000000; 0; -1]
  = ["24h0m0s"; "1m0s"; "1.5ms"; "25h1m1.5s"; "0s"; "-1ns"].
Proof. vm_compute. reflexivity. Qed.
Example atoi_ex :
  map Atoi ["42"; "-7"; "+1"; ""; "-"; "1_0"; "9223372036854775808"; "-9223372036854775808"]
  = [Some 42; Some (-7); Some 1; None; None; None; None; Some (-2^63)].
Proof. vm_compute. reflexivity. Qed.

(** ** Decimal printing *)

Lemma pretty_N_char_digit x : is_digit (pretty_N_char x) = true.
Proof. unfold pretty_N_char. repeat case_match; reflexivity. Qed.

Lemma pretty_N_char_val x : (x < 10)%N -> digit_val (pretty_N_char x) = Z.of_N x.
Proof.
  intros H. destruct x as [|p]; [done|].
  do 4 (destruct p as [p|p|]; try done; try (exfalso; lia)).
Qed.

Lemma digits_val_pretty_N_go x s :
  digits_val 0 (pretty_N_go x s) = digits_val (Z.of_N x) s.
Proof.
  revert s. induction (N.lt_wf_0 x) as [x _ IH]; intros s.
  destruct (decide (x = 0%N)) as [->|Hx]; [done|].
  rewrite pretty_N_go_step, IH by (try apply N.div_lt; lia). simpl.
  rewrite pretty_N_char_digit, pretty_N_char_val by (apply N.mod_lt; lia).
  f_equal. rewrite N2Z.inj_div, N2Z.inj_mod. pose proof (Z.div_mod (Z.of_N x) 10). lia.
Qed.

Lemma digits_val_pretty (n : N) : digits_val 0 (pretty n) = Some (Z.of_N n).
Proof.
  unfold pretty, pretty_N. case_decide as E; [by subst|].
  rewrite digits_val_pretty_N_go. done.
Qed.

Lemma free_pretty_N_go c x s :
  is_digit c = false -> free c (pretty_N_go x s) = free c s.
Proof.
  intros Hc. revert s. induction (N.lt_wf_0 x) as [x _ IH]; intros s.
  destruct (decide (x = 0%N)) as [->|Hx]; [done|].
  rewrite pretty_N_go_step, IH by (try apply N.div_lt; lia). simpl.
  case_bool_decide as E; [|done].
  rewrite <- E, pretty_N_char_digit in Hc. done.
Qed.

Lemma free_pretty_N c (n : N) : is_digit c = false -> free c (pretty n) = true.
Proof.
  intros Hc. unfold pretty, pretty_N. case_decide.
  - simpl. case_bool_decide; [by subst c|done].
  - by rewrite free_pretty_N_go.
Qed.

Lemma Itoa_nonneg z : 0 <= z -> Itoa z = pretty (Z.to_N z).
Proof. destruct z; done. Qed.

Lemma free_Itoa c z : is_digit c = false -> 0 <= z -> free c (Itoa z) = true.
Proof. intros Hc Hz. rewrite Itoa_nonneg by done. by apply free_pretty_N. Qed.

Lemma pretty_N_head (n : N) : exists c s, pretty n = String c s /\ is_digit c = true.
Proof.
  assert (forall x s, (exists c s', s = String c s' /\ is_digit c = true) ->
    exists c s', pretty_N_go x s = String c s' /\ is_digit c = true) as Hgo.
  { intros x. induction (N.lt_wf_0 x) as [x _ IH]; intros s Hs.
    destruct (decide (x = 0%N)) as [->|Hx]; [done|].
    rewrite pretty_N_go_step by lia. apply IH; [apply N.div_lt; lia|].
    eauto using pretty_N_char_digit. }
  unfold pretty, pretty_N. case_decide as Hn; [by exists "0"%char, ""|].
  rewrite pretty_N_go_step by lia. apply Hgo. eauto using pretty_N_char_digit.
Qed.

Lemma Itoa_neg z : z < 0 -> Itoa z = String "-" (pretty (Z.to_N (- z))).
Proof. destruct z; done. Qed.

(** Reading back a printed [int64] gives the number: [Atoi] inverts [Itoa]. *)
Lemma Atoi_Itoa z : int64_range z -> Atoi (Itoa z) = Some z.
Proof.
  intros Hz. unfold int64_range in Hz.
  destruct (Z_lt_ge_dec z 0) as [Hneg|Hpos].
  - rewrite Itoa_neg by done. unfold Atoi. simpl.
    destruct (pretty_N_head (Z.to_N (- z))) as (c & s & Hs & _).
    case_bool_decide as E; [congruence|].
    rewrite digits_val_pretty, Z2N.id by lia. simpl.
    replace (- - z) with z by lia. destruct (_ <=? z) eqn:?, (z <? _) eqn:?; go_bool; try lia. done.
  - rewrite Itoa_nonneg by lia. unfold Atoi.
    destruct (pretty_N_head (Z.to_N z)) as (c & s & Hs & Hc). rewrite Hs.
    assert (c <> "-"%char /\ c <> "+"%char) as [? ?] by (split; intros ->; done).
    rewrite (bool_decide_eq_false_2 (c = "-"%char)), (bool_decide_eq_false_2 (c = "+"%char)) by done.
    rewrite <- Hs, digits_val_pretty, Z2N.id by lia.
    rewrite bool_decide_eq_false_2 by congruence.
    destruct (_ <=? z) eqn:?, (z <? _) eqn:?; go_bool; try lia. done.
Qed.

(** ** The characters of a printed duration *)

Lemma fmt_frac_free c p v b tail f v' :
  is_digit c = false -> c <> "."%char -> 0 <= v -> fmt_frac p v b tail = (f, v') ->
  free c tail = true -> free c f = true /\ 0 <= v'.
Proof.
  intros Hc Hdot. revert v b tail. induction p as [|p IH]; intros v b tail Hv Hf Ht; simpl in Hf.
  - simplify_eq. destruct b; simpl; rewrite ?Ht, ?bool_decide_eq_false_2; done.
  - apply IH in Hf; [done|apply Z.div_pos; lia|].
    destruct (b || negb (v mod 10 =? 0)); [|done]. simpl. rewrite Ht.
    pose proof (Z.mod_pos_bound v 10).
    case_bool_decide as E; [|done]. exfalso. subst c.
    unfold is_digit, code in Hc. rewrite N_ascii_embedding in Hc by lia.
    rewrite Z2N.id in Hc by lia. apply andb_false_iff in Hc as [?|?]; go_bool; lia.
Qed.

Lemma duration_string_free d : free ":" (duration_string d) = true.
Proof.
  assert (forall p v tail f v', 0 <= v -> fmt_frac p v false tail = (f, v') ->
    free ":" tail = true -> free ":" f = true /\ 0 <= v') as Hf.
  { intros p v tail f v' Hv Hff. eapply fmt_frac_free; done. }
  assert (forall n, 0 <= n -> free ":" (Itoa n) = true) as Hn by (intros; by apply free_Itoa).
  unfold duration_string.
  match goal with |- context [if d <? 0 then "-" +:+ ?b else ?b] => set (body := b) end.
  assert (free ":" body = true) as Hb; [|by destruct (d <? 0)].
  subst body. repeat go_case; go_bool; rewrite ?free_app, ?Hn;
    try (eapply Hf in Heqp as [Hs Hz]; [|lia|done]); rewrite ?Hs; try done;
    try (apply Z.mod_pos_bound; lia); try (apply Z.div_pos; lia); try lia.
  apply Z.div_pos; [apply Z.div_pos|]; lia.
Qed.

(** ** Prefixes, suffixes and splitting *)

Lemma rev_app_app (a b c : string) : String.rev_app a (b +:+ c) = String.rev_app a b +:+ c.
Proof. revert b. induction a as [|x a IH]; intros b; simpl; [done|]. exact (IH (String x b)). Qed.

Lemma rev_cons c (s : string) : String.rev (String c s) = String.rev s +:+ String c "".
Proof. unfold String.rev. simpl. exact (rev_app_app s "" (String c "")). Qed.

Lemma rev_append (a b : string) : String.rev (a +:+ b) = String.rev b +:+ String.rev a.
Proof.
  induction a as [|c a IH].
  - simpl. by rewrite string_app_nil_r.
  - change (String c a +:+ b) with (String c (a +:+ b)). rewrite !rev_cons, IH. apply string_app_assoc.
Qed.

Lemma HasPrefix_app (p s : string) : HasPrefix (p +:+ s) p = true.
Proof.
  induction p as [|c p IH]; [by destruct s|].
  change (String c p +:+ s) with (String c (p +:+ s)). simpl. rewrite IH.
  by rewrite bool_decide_eq_true_2.
Qed.

Lemma HasSuffix_app (s p : string) : HasSuffix (s +:+ p) p = true.
Proof. unfold HasSuffix. rewrite rev_append. apply HasPrefix_app. Qed.

Lemma Split_cons sep s : exists h t, Split sep s = h :: t.
Proof.
  induction s as [|a s (h & t & IH)]; simpl; [eauto|]. rewrite IH. case_bool_decide; eauto.
Qed.

Lemma Split_free sep a : free sep a = true -> Split sep a = [a].
Proof.
  induction a as [|c a IH]; simpl; [done|]. intros Hf. go_bool.
  rewrite IH by done. by rewrite bool_decide_eq_false_2.
Qed.

Lemma Split_app sep a b : free sep a = true -> Split sep (a +:+ String sep b) = a :: Split sep b.
Proof.
  induction a as [|c a IH]; simpl; intros Hf.
  - by rewrite bool_decide_eq_true_2.
  - go_bool. rewrite (bool_decide_eq_false_2 (c = sep)) by done. by rewrite IH.
Qed.
