(* ===== verification/Float64.v ===== *)
(** * float64

    Go's [float64] is IEEE 754 binary64 with round to nearest even: a
    [spec_float] of the Standard Library at precision 53 and exponent 1024.
    The file holds the operations and comparisons the program uses, the
    conversion to [int64], and [strconv.ParseFloat]. *)
From Stdlib Require Import ZArith Lia Ascii String SpecFloat.
From stdpp Require Import base gmap strings list pretty.
From S2P Require Import Prelude GoLib.

Open Scope Z_scope.
Open Scope go_scope.

(** ** Operations *)

Abbreviation float64 := spec_float.

Definition prec64 : Z := 53.
Definition emax64 : Z := 1024.

Definition NaN : float64 := S754_nan.
Definition Inf (neg : bool) : float64 := S754_infinity neg.
Definition f0 : float64 := S754_zero false.

Definition fmul (x y : float64) : float64 := SFmul prec64 emax64 x y.

(** Go's [<], [<=], [>], [>=]: all false when an operand is a NaN. *)
Definition flt (x y : float64) : bool := SFltb x y.
Definition fle (x y : float64) : bool := SFleb x y.
Definition fgt (x y : float64) : bool := flt y x.
Definition fge (x y : float64) : bool := fle y x.

Definition is_nan (x : float64) : bool := match x with S754_nan => true | _ => false end.
Definition is_finite (x : float64) : bool :=
  match x with S754_zero _ | S754_finite _ _ _ => true | _ => false end.

(** The float64 nearest to [m * 2^e], and to [m * 10^e]. *)
Definition round_bin (neg : bool) (m : Z) (e : Z) : float64 :=
  match m with
  | Zpos p => binary_round prec64 emax64 neg p e
  | _ => S754_zero neg
  end.

Definition round_dec (neg : bool) (m : Z) (e : Z) : float64 :=
  match m with
  | Zpos p =>
      if 0 <=? e then round_bin neg (m * 10 ^ e) 0
      else let '(q, e', l) := SFdiv_core_binary prec64 emax64 m 0 (10 ^ (- e)) 0 in
           binary_round_aux prec64 emax64 neg q e' l
  | _ => S754_zero neg
  end.

(** A decimal literal [m * 10^e] of the source. *)
Definition lit (m e : Z) : float64 := round_dec (m <? 0) (Z.abs m) e.

(** [float64(n)] of an integer. *)
Definition f64_of_Z (n : Z) : float64 := round_bin (n <? 0) (Z.abs n) 0.

(** [int64(x)]: truncation towards zero.  Out of range (and on a NaN) Go leaves
    the result to the implementation; amd64 gives the least [int64]. *)
Definition f64_to_int64 (x : float64) : Z :=
  match x with
  | S754_zero _ => 0
  | S754_finite s m e =>
      let a := if 0 <=? e then Zpos m * 2 ^ e else Zpos m / 2 ^ (- e) in
      let v := if s then - a else a in
      if (-2^63 <=? v) && (v <? 2^63) then v else -2^63
  | _ => -2^63
  end.

(** ** strconv.ParseFloat *)

(** State of the mantissa scan: the digits read as an integer, the number of
    digits after the dot, and what was seen. *)
Record mant := {
  m_val : Z; m_frac : Z; m_dot : bool; m_digits : bool; m_under : bool
}.

Definition mant0 : mant :=
  {| m_val := 0; m_frac := 0; m_dot := false; m_digits := false; m_under := false |}.

Definition hex_val (c : ascii) : option Z :=
  if is_digit c then Some (digit_val c)
  else if in_range 97 102 (lower c) then Some (code (lower c) - 87)
  else None.

Definition mant_digit (base d : Z) (m : mant) : mant :=
  {| m_val := m_val m * base + d;
     m_frac := if m_dot m then m_frac m + 1 else m_frac m;
     m_dot := m_dot m; m_digits := true; m_under := m_under m |}.

(** The loop of [readFloat]: returns the state and the unread rest. *)
Fixpoint scan_mant (hex : bool) (s : string) (m : mant) : mant * string :=
  match s with
  | EmptyString => (m, s)
  | String c s' =>
      if c == "_"%char then
        scan_mant hex s' {| m_val := m_val m; m_frac := m_frac m; m_dot := m_dot m;
                            m_digits := m_digits m; m_under := true |}
      else if c == "."%char then
        if m_dot m then (m, s)
        else scan_mant hex s' {| m_val := m_val m; m_frac := m_frac m; m_dot := true;
                                 m_digits := m_digits m; m_under := m_under m |}
      else match (if hex then hex_val c else if is_digit c then Some (digit_val c) else None) with
           | Some d => scan_mant hex s' (mant_digit (if hex then 16 else 10) d m)
           | None => (m, s)
           end
  end.

(** The digits of the exponent; the value stops growing once it passes 10000. *)
Fixpoint scan_exp (s : string) (e : Z) (under : bool) : Z * bool * string :=
  match s with
  | EmptyString => (e, under, s)
  | String c s' =>
      if is_digit c then scan_exp s' (if e <? 10000 then e * 10 + digit_val c else e) under
      else if c == "_"%char then scan_exp s' e true
      else (e, under, s)
  end.

(** [underscoreOK]: an underscore stands only between digits, or between the
    base prefix and a digit. *)
Inductive saw := SawStart | SawDigit | SawUnder | SawOther.

Fixpoint under_ok (hex : bool) (s : string) (w : saw) : bool :=
  match s with
  | EmptyString => match w with SawUnder => false | _ => true end
  | String c s' =>
      if is_digit c || (hex && in_range 97 102 (lower c)) then under_ok hex s' SawDigit
      else if c == "_"%char then
        match w with SawDigit => under_ok hex s' SawUnder | _ => false end
      else match w with SawUnder => false | _ => under_ok hex s' SawOther end
  end.

Definition split_sign (s : string) : bool * string :=
  match s with
  | String c s' => if c == "+"%char then (false, s')
                   else if c == "-"%char then (true, s') else (false, s)
  | EmptyString => (false, s)
  end.

Definition hex_prefix (s : string) : option string :=
  match s with
  | String a (String b ((String _ _) as s')) =>
      if (a == "0"%char) && (lower b == "x"%char) then Some s' else None
  | _ => None
  end.

(** The underscore check, on the text after the sign. *)
Definition underscoreOK (s : string) : bool :=
  match s with
  | String a (String b s') =>
      if (a == "0"%char) && ((lower b == "b"%char) || (lower b == "o"%char) || (lower b == "x"%char))
      then under_ok (lower b == "x"%char) s' SawDigit
      else under_ok false s SawStart
  | _ => under_ok false s SawStart
  end.

(** [special]: the infinities, possibly signed, and NaN, in any case. *)
Definition special (s : string) : option float64 :=
  let '(neg, r) := split_sign s in
  let l := ToLowerASCII r in
  if (l == "inf") || (l == "infinity") then Some (Inf neg)
  else if ToLowerASCII s == "nan" then Some NaN
  else None.

(** The exponent part after the mantissa: [None] is a syntax error. *)
Definition read_exp (expChar : ascii) (s : string) : option (Z * bool * string) :=
  match s with
  | String c s' =>
      if lower c == expChar then
        let '(neg, r) := split_sign s' in
        match r with
        | String d _ =>
            if is_digit d then
              let '(e, u, rest) := scan_exp r 0 false in Some ((if neg then - e else e), u, rest)
            else None
        | EmptyString => None
        end
      else Some (0, false, s)
  | EmptyString => Some (0, false, s)
  end.

Inductive parse_err := ErrSyntax | ErrRange.

(** [strconv.ParseFloat(s, 64)]: the value with the error, if any.  A syntax
    error comes with 0, a range error with an infinity. *)
Definition ParseFloat (s : string) : float64 * option parse_err :=
  match special s with
  | Some f => (f, None)
  | None =>
      let bad := (f0, Some ErrSyntax) in
      let '(neg, r) := split_sign s in
      let '(hex, body) := match hex_prefix r with Some b => (true, b) | None => (false, r) end in
      let '(m, rest) := scan_mant hex body mant0 in
      if negb (m_digits m) then bad else
      match read_exp (if hex then "p"%char else "e"%char) rest with
      | None => bad
      | Some (e, u, rest') =>
          if hex && (match rest with String c _ => lower c != "p"%char | _ => true end) then bad
          else if rest' != "" then bad
          else if (m_under m || u) && negb (underscoreOK r) then bad
          else
            let f := if hex then round_bin neg (m_val m) (e - 4 * m_frac m)
                     else round_dec neg (m_val m) (e - m_frac m) in
            match f with
            | S754_infinity _ => (f, Some ErrRange)
            | _ => (f, None)
            end
      end
  end.

(** ** Evaluation on concrete inputs *)

Definition f_one : float64 := Eval vm_compute in lit 1 0.

Example parse_ok :
  map ParseFloat ["1"; "1.5"; "-0"; ".5e1"; "0x1.8p1"; "1_0"; "+Inf"; "nan"; "1e400"; "4.9e-324"]
  = [(f_one, None); (lit 15 (-1), None); (S754_zero true, None); (lit 5 0, None);
     (lit 3 0, None); (lit 10 0, None); (Inf false, None); (NaN, None);
     (Inf false, Some ErrRange); (S754_finite false 1 (-1074), None)].
Proof. vm_compute. reflexivity. Qed.

Example parse_bad :
  map (fun s => snd (ParseFloat s)) [""; "+"; "1e"; "_1"; "1__0"; "0x1"; "1.2.3"; "12a"; "-nan"; " 1"]
  = repeat (Some ErrSyntax) 10.
Proof. vm_compute. reflexivity. Qed.

Example to_int64_ex :
  map f64_to_int64 [lit 10000 0; lit (-25) (-1); lit 1 19; NaN] = [10000; -2; -2^63; -2^63].
Proof. vm_compute. reflexivity. Qed.

(** ** The order

    Away from NaN the comparisons are those of a lexicographic order on three
    integers, which turns every order fact into linear arithmetic. *)

Definition fkey (x : float64) : Z * Z * Z :=
  match x with
  | S754_nan => (0, 0, 0)
  | S754_zero _ => (0, 0, 0)
  | S754_infinity s => (if s then -2 else 2, 0, 0)
  | S754_finite s m e => if s then (-1, - e, - Zpos m) else (1, e, Zpos m)
  end.

Definition lex_lt (a b : Z * Z * Z) : Prop :=
  let '(a1, a2, a3) := a in let '(b1, b2, b3) := b in
  a1 < b1 \/ (a1 = b1 /\ (a2 < b2 \/ (a2 = b2 /\ a3 < b3))).

Lemma SFcompare_key x y :
  is_nan x = false -> is_nan y = false ->
  match SFcompare x y with
  | Some Lt => lex_lt (fkey x) (fkey y)
  | Some Eq => fkey x = fkey y
  | Some Gt => lex_lt (fkey y) (fkey x)
  | None => False
  end.
Proof.
  destruct x as [[]|[]| |[] mx ex], y as [[]|[]| |[] my ey]; try done; simpl; intros _ _;
    try lia; change (Pos.compare_cont Eq mx my) with (Pos.compare mx my);
    destruct (Z.compare_spec ex ey), (Pos.compare_spec mx my); simpl; subst; try lia; done.
Qed.

Lemma flt_key x y :
  flt x y = true <-> is_nan x = false /\ is_nan y = false /\ lex_lt (fkey x) (fkey y).
Proof.
  unfold flt, SFltb. destruct (is_nan x) eqn:Hx; [destruct x; naive_solver|].
  destruct (is_nan y) eqn:Hy; [destruct y; try done; destruct x; naive_solver|].
  pose proof (SFcompare_key x y Hx Hy) as H.
  destruct (SFcompare x y) as [[]|]; try done.
  - rewrite H. destruct (fkey y) as [[??]?]; simpl. split; [done|]. lia.
  - destruct (fkey x) as [[??]?], (fkey y) as [[??]?]; simpl in *. split; [done|]. lia.
Qed.

Lemma fle_key x y :
  fle x y = true <-> is_nan x = false /\ is_nan y = false /\ ~ lex_lt (fkey y) (fkey x).
Proof.
  unfold fle, SFleb. destruct (is_nan x) eqn:Hx; [destruct x; naive_solver|].
  destruct (is_nan y) eqn:Hy; [destruct y; try done; destruct x; naive_solver|].
  pose proof (SFcompare_key x y Hx Hy) as H.
  destruct (SFcompare x y) as [[]|]; try done.
  - rewrite H. destruct (fkey y) as [[??]?]; simpl. split; [|done]. lia.
  - destruct (fkey x) as [[??]?], (fkey y) as [[??]?]; simpl in *. split; [|done]. lia.
  - destruct (fkey x) as [[??]?], (fkey y) as [[??]?]; simpl in *. split; [done|]. lia.
Qed.

(** Solve a goal about the order of floats from hypotheses about it. *)
Ltac forder :=
  repeat match goal with
  | H : fgt _ _ = _ |- _ => unfold fgt in H
  | H : fge _ _ = _ |- _ => unfold fge in H
  | H : flt _ _ = true |- _ => apply flt_key in H as (? & ? & ?)
  | H : fle _ _ = true |- _ => apply fle_key in H as (? & ? & ?)
  | H : flt _ _ = false |- _ => apply not_true_iff_false in H; rewrite flt_key in H
  | H : fle _ _ = false |- _ => apply not_true_iff_false in H; rewrite fle_key in H
  end;
  unfold fgt, fge;
  match goal with
  | |- flt _ _ = true => apply flt_key
  | |- fle _ _ = true => apply fle_key
  | |- flt _ _ = false => apply not_true_iff_false; rewrite flt_key
  | |- fle _ _ = false => apply not_true_iff_false; rewrite fle_key
  | |- False => idtac
  end;
  repeat match goal with
  | |- context [fkey ?x] => destruct (fkey x) as [[??]?]
  | H : context [fkey ?x] |- _ => destruct (fkey x) as [[??]?]
  end; unfold lex_lt in *; intuition lia.

Lemma flt_irrefl x : flt x x = false.
Proof. forder. Qed.

Lemma flt_asym x y : flt x y = true -> flt y x = false.
Proof. intros H. forder. Qed.

Lemma flt_not_fle x y : flt x y = true -> fle y x = false.
Proof. intros H. forder. Qed.

Lemma flt_fle x y : flt x y = true -> fle x y = true.
Proof. intros H. forder. Qed.

Lemma fle_total x y :
  is_nan x = false -> is_nan y = false -> flt x y = false -> fle y x = true.
Proof. intros Hx Hy H. forder. Qed.

Lemma fle_trans x y z : fle x y = true -> fle y z = true -> fle x z = true.
Proof. intros H1 H2. forder. Qed.

Lemma fle_flt_trans x y z : fle x y = true -> flt y z = true -> flt x z = true.
Proof. intros H1 H2. forder. Qed.

Lemma flt_fle_trans x y z : flt x y = true -> fle y z = true -> flt x z = true.
Proof. intros H1 H2. forder. Qed.

Lemma flt_nan_l x : flt NaN x = false.
Proof. reflexivity. Qed.

Lemma flt_nan_r x : flt x NaN = false.
Proof. unfold flt, SFltb. by destruct x. Qed.

Lemma fle_nan_l x : fle NaN x = false.
Proof. reflexivity. Qed.

Lemma fle_nan_r x : fle x NaN = false.
Proof. unfold fle, SFleb. by destruct x. Qed.

#[export] Hint Rewrite flt_nan_l flt_nan_r fle_nan_l fle_nan_r flt_irrefl : go.

Lemma f64_to_int64_range x : int64_range (f64_to_int64 x).
Proof.
  unfold f64_to_int64, int64_range. destruct x; try lia.
  match goal with |- context [if ?b then _ else _] => destruct b eqn:Hb end; go_bool; try lia.
Qed.
