(* ===== verification/Caps.v ===== *)
(** * Package caps: per-transaction USD caps ([internal/caps/caps.go])

    [Rule] and [Config] are the Go structs; [matchRule], [effectiveCap],
    [Evaluate], [HighValue2FARequired] and [FXToUSD] the functions of the file.
    A [*Rule] result is an [option Rule]: the code only reads through it. *)
From Stdlib Require Import ZArith Lia Ascii String SpecFloat.
From stdpp Require Import base gmap strings list.
From S2P Require Import Prelude GoLib Float64.

Open Scope Z_scope.
Open Scope go_scope.

Module Caps.

(** ** Data *)

Definition Tier1 : string := "tier_1".
Definition Tier2 : string := "tier_2".
Definition Tier3 : string := "tier_3".
Definition TierInstitutional : string := "institutional".

Record Rule := {
  ID : string;
  Tier : string;
  Rail : string;
  Asset : string;
  Window : string;
  USDCap : float64;
  OnExceed : string;
  USDThreshold : float64;
  Requires2FA : bool
}.

Record Config := {
  DefaultDailyCapUSD : float64;
  DefaultTXCapUSD : float64;
  NearCapThreshold : float64;
  Rules : list Rule
}.

Record EvaluateResult := {
  Exceeded : bool;
  NearCap : bool;
  AppliedRule : option Rule;
  Decision : string;
  Reason : string
}.

(** ** Operations *)

(** A struct literal of [SeedRules] that sets a tier, a window and a cap. *)
Definition tier_rule (id tier window : string) (usd : Z) : Rule :=
  {| ID := id; Tier := tier; Rail := ""; Asset := ""; Window := window;
     USDCap := lit usd 0; OnExceed := "deny"; USDThreshold := f0; Requires2FA := false |}.

Definition card_2fa_rule : Rule :=
  {| ID := "cap.tx.card.high_value_2fa"; Tier := ""; Rail := "card"; Asset := "";
     Window := "tx"; USDCap := f0; OnExceed := "manual_review";
     USDThreshold := lit 1000 0; Requires2FA := true |}.

Definition SeedRules : list Rule :=
  [ tier_rule "cap.daily.tier_1" Tier1 "1d" 2500;
    tier_rule "cap.tx.tier_1" Tier1 "tx" 1000;
    tier_rule "cap.daily.tier_2" Tier2 "1d" 25000;
    tier_rule "cap.tx.tier_2" Tier2 "tx" 5000;
    tier_rule "cap.daily.tier_3" Tier3 "1d" 100000;
    tier_rule "cap.tx.tier_3" Tier3 "tx" 25000;
    tier_rule "cap.daily.institutional" TierInstitutional "1d" 1000000;
    tier_rule "cap.tx.institutional" TierInstitutional "tx" 250000;
    card_2fa_rule ].

Definition envFloat (env : environ) (key : string) (def : float64) : float64 :=
  let v := env key in
  if v != "" then
    match ParseFloat v with
    | (n, None) => n
    | (_, Some _) => def
    end
  else def.

Definition DefaultConfig (env : environ) : Config :=
  {| DefaultDailyCapUSD := envFloat env "DEFAULT_DAILY_CAP_USD" (lit 10000 0);
     DefaultTXCapUSD := envFloat env "DEFAULT_TX_CAP_USD" (lit 2500 0);
     NearCapThreshold := lit 9 (-1);
     Rules := SeedRules |}.

Definition tier_match (tier window : string) (r : Rule) : bool :=
  (Tier r == tier) && (Window r == window) && (Rail r == "") && (Asset r == "").
Definition rail_match (rail window : string) (r : Rule) : bool :=
  (Rail r == rail) && (Window r == window) && (Tier r == "").
Definition asset_match (asset window : string) (r : Rule) : bool :=
  (Asset r == asset) && (Window r == window) && (Tier r == "") && (Rail r == "").

(** Three passes over the rules, each returning the first match. *)
Definition matchRule (c : Config) (tier rail asset window : string) : option Rule :=
  match List.find (tier_match tier window) (Rules c) with
  | Some r => Some r
  | None =>
      match List.find (rail_match rail window) (Rules c) with
      | Some r => Some r
      | None => List.find (asset_match asset window) (Rules c)
      end
  end.

Definition default_cap (c : Config) (window : string) : float64 :=
  if window == "1d" then DefaultDailyCapUSD c
  else if window == "tx" then DefaultTXCapUSD c
  else f0.

Definition effectiveCap (c : Config) (rule : option Rule) (window : string) : float64 :=
  match rule with
  | Some r => if fgt (USDCap r) f0 then USDCap r else default_cap c window
  | None => default_cap c window
  end.

Definition exceed_decision (rule : option Rule) : string :=
  match rule with
  | Some r => if OnExceed r == "manual_review" then "manual_review" else "deny"
  | None => "deny"
  end.

Definition Evaluate (c : Config) (tier rail asset window : string) (amountUSD : float64)
  : EvaluateResult :=
  let rule := matchRule c tier rail asset window in
  let cap := effectiveCap c rule window in
  if fle cap f0 then
    {| Exceeded := false; NearCap := false; AppliedRule := None; Decision := ""; Reason := "" |}
  else if fgt amountUSD cap then
    {| Exceeded := true; NearCap := false; AppliedRule := rule;
       Decision := exceed_decision rule; Reason := "cap_" +:+ window +:+ "_exceeded" |}
  else if fge amountUSD (fmul cap (NearCapThreshold c)) then
    {| Exceeded := false; NearCap := true; AppliedRule := rule;
       Decision := "manual_review"; Reason := "near_cap_" +:+ window |}
  else
    {| Exceeded := false; NearCap := false; AppliedRule := rule; Decision := ""; Reason := "" |}.

Definition requires_2fa_match (rail : string) (amountUSD : float64) (r : Rule) : bool :=
  (Rail r == rail) && Requires2FA r && fge amountUSD (USDThreshold r).

Definition HighValue2FARequired (c : Config) (rail : string) (amountUSD : float64) : bool :=
  existsb (requires_2fa_match rail amountUSD) (Rules c).

Definition FXToUSD (amount : float64) (currency : string) (fxRateToUSD : float64) : float64 :=
  let c := ToUpperASCII (TrimSpace currency) in
  if (c == "USD") || fle fxRateToUSD f0 then amount
  else fmul amount fxRateToUSD.

(** ** Rule selection *)

(** What it takes for a rule to apply to a request, by specificity. *)
Inductive applies (tier rail asset window : string) (r : Rule) : Prop :=
| applies_tier :
    Tier r = tier -> Window r = window -> Rail r = "" -> Asset r = "" ->
    applies tier rail asset window r
| applies_rail :
    Rail r = rail -> Window r = window -> Tier r = "" -> applies tier rail asset window r
| applies_asset :
    Asset r = asset -> Window r = window -> Tier r = "" -> Rail r = "" ->
    applies tier rail asset window r.

Lemma applies_match tier rail asset window r :
  applies tier rail asset window r <->
  tier_match tier window r = true \/ rail_match rail window r = true \/
  asset_match asset window r = true.
Proof.
  unfold tier_match, rail_match, asset_match. split.
  - rewrite !andb_true_iff, !bool_decide_eq_true. destruct 1; naive_solver.
  - intros [H|[H|H]]; go_bool.
    + by apply applies_tier.
    + by apply applies_rail.
    + by apply applies_asset.
Qed.

Lemma find_In {A} (f : A -> bool) l x : List.find f l = Some x -> x ∈ l /\ f x = true.
Proof.
  intros (l1 & l2 & -> & Hx & _)%find_Some_split. split; [set_solver|done].
Qed.

Lemma matchRule_sound c tier rail asset window r :
  matchRule c tier rail asset window = Some r ->
  r ∈ Rules c /\ applies tier rail asset window r.
Proof.
  unfold matchRule. rewrite applies_match. intros H.
  destruct (List.find (tier_match _ _) _) eqn:H1;
    [|destruct (List.find (rail_match _ _) _) eqn:H2]; simplify_eq.
  - apply find_In in H1 as [? ?]; auto.
  - apply find_In in H2 as [? ?]; auto.
  - apply find_In in H as [? ?]; auto.
Qed.

Lemma matchRule_None c tier rail asset window :
  matchRule c tier rail asset window = None <->
  forall r, r ∈ Rules c -> ~ applies tier rail asset window r.
Proof.
  unfold matchRule. split.
  - intros H r Hr Ha.
    destruct (List.find (tier_match _ _) _) eqn:H1; [done|].
    destruct (List.find (rail_match _ _) _) eqn:H2; [done|].
    apply find_None_Forall in H, H1, H2. rewrite Forall_forall in H, H1, H2.
    apply applies_match in Ha as [Ha|[Ha|Ha]]; naive_solver congruence.
  - intros H. repeat match goal with
    | |- context [List.find ?f ?l] =>
        destruct (List.find f l) eqn:?; [exfalso|]
    end; try done;
    match goal with E : List.find _ _ = Some ?r |- _ => apply find_In in E as [? ?];
      apply (H r); [done|]; apply applies_match; auto end.
Qed.

(** An unqualified rule for the user's tier is never shadowed. *)
Lemma matchRule_tier_first c tier rail asset window r :
  List.find (tier_match tier window) (Rules c) = Some r ->
  matchRule c tier rail asset window = Some r.
Proof. unfold matchRule. by intros ->. Qed.

(** ** Outcome of the cap check *)

(** How severe an outcome is: 0 within the cap, 1 near it, 2 above it. *)
Definition severity (r : EvaluateResult) : Z :=
  if Exceeded r then 2 else if NearCap r then 1 else 0.

Lemma evaluate_cases c tier rail asset window a :
  let rule := matchRule c tier rail asset window in
  let cap := effectiveCap c rule window in
  let res := Evaluate c tier rail asset window a in
  (fle cap f0 = true /\ severity res = 0 /\ Decision res = "") \/
  (fle cap f0 = false /\ fgt a cap = true /\ severity res = 2 /\
     Decision res = exceed_decision rule) \/
  (fle cap f0 = false /\ fgt a cap = false /\ fge a (fmul cap (NearCapThreshold c)) = true /\
     severity res = 1 /\ Decision res = "manual_review") \/
  (fle cap f0 = false /\ fgt a cap = false /\ fge a (fmul cap (NearCapThreshold c)) = false /\
     severity res = 0 /\ Decision res = "").
Proof.
  unfold Evaluate. cbn zeta. destruct (fle _ f0); [tauto|].
  destruct (fgt a _); [tauto|]. destruct (fge a _); tauto.
Qed.

Lemma exceed_decision_cases rule :
  exceed_decision rule = "deny" \/ exceed_decision rule = "manual_review".
Proof. unfold exceed_decision. destruct rule; [case_bool_decide|]; auto. Qed.

(** The reason names the window and the outcome. *)
Lemma evaluate_reason c tier rail asset window a :
  let res := Evaluate c tier rail asset window a in
  (Exceeded res = true -> Reason res = "cap_" +:+ window +:+ "_exceeded") /\
  (NearCap res = true -> Reason res = "near_cap_" +:+ window /\ Exceeded res = false).
Proof.
  unfold Evaluate. cbn zeta. destruct (fle _ f0); [done|].
  destruct (fgt a _); [done|]. by destruct (fge a _).
Qed.

(** ** The seed rules *)

(** The per-transaction caps the seed rules give to the four tiers. *)
Definition seed_tx_caps : list (string * Z) :=
  [(Tier1, 1000); (Tier2, 5000); (Tier3, 25000); (TierInstitutional, 250000)].

Lemma seed_match env tier usd rail asset :
  (tier, usd) ∈ seed_tx_caps ->
  exists id, matchRule (DefaultConfig env) tier rail asset "tx" = Some (tier_rule id tier "tx" usd) /\
    fgt (lit usd 0) f0 = true /\ fle (lit usd 0) f0 = false /\
    is_nan (fmul (lit usd 0) (lit 9 (-1))) = false.
Proof.
  unfold seed_tx_caps. rewrite !elem_of_cons, elem_of_nil.
  intros [[= -> ->]|[[= -> ->]|[[= -> ->]|[[= -> ->]|[]]]]]; eexists; split_and!; reflexivity.
Qed.

(** An amount the check lets through is below nine tenths of the tier's cap. *)
Lemma seed_severity_0 env tier usd rail asset a :
  (tier, usd) ∈ seed_tx_caps -> is_nan a = false ->
  severity (Evaluate (DefaultConfig env) tier rail asset "tx" a) = 0 ->
  flt a (fmul (lit usd 0) (lit 9 (-1))) = true.
Proof.
  intros Hin Ha. unfold Evaluate.
  destruct (seed_match env tier usd rail asset Hin) as (id & -> & Hp & Hz & Hn).
  cbn zeta. simpl effectiveCap. simpl NearCapThreshold. rewrite Hp, Hz. unfold severity.
  destruct (fgt a _); [done|]. destruct (fge a _) eqn:Hge; [done|]. intros _.
  set (y := fmul _ _) in *. clearbody y. clear Hp Hz.
  destruct (flt a y) eqn:Hlt; [done|]. pose proof (fle_total a y Ha Hn Hlt) as Hle. unfold fge in Hge. congruence.
Qed.

(** ** Properties *)

(** The rule chosen by [matchRule] is one of the configured rules and
    applies to the request's tier, rail, asset and window; when an unqualified
    rule exists for the tier it is such a rule that is chosen, whatever the rail
    and the asset; no rule is returned exactly when none applies. *)
Theorem matchRule_spec c tier rail asset window :
  match matchRule c tier rail asset window with
  | Some r =>
      r ∈ Rules c /\ applies tier rail asset window r /\
      ((exists r', r' ∈ Rules c /\ tier_match tier window r' = true) ->
       Tier r = tier /\ Rail r = "" /\ Asset r = "")
  | None => forall r, r ∈ Rules c -> ~ applies tier rail asset window r
  end.
Proof.
  destruct (matchRule _ _ _ _ _) as [r|] eqn:H; [|by apply matchRule_None].
  destruct (matchRule_sound _ _ _ _ _ _ H) as [Hin Ha]. split_and!; [done..|].
  intros (r' & Hr' & Hm). destruct (List.find (tier_match tier window) (Rules c)) as [r0|] eqn:H0.
  - rewrite (matchRule_tier_first _ _ _ _ _ _ H0) in H. simplify_eq.
    apply find_In in H0 as [_ H0]. unfold tier_match in H0. by go_bool.
  - apply find_None_Forall in H0. rewrite Forall_forall in H0. naive_solver congruence.
Qed.

(** The cap check is monotone: a larger amount never gets a milder outcome
    (within, near, above) for the same user, rail, asset and window. *)
Theorem evaluate_monotone c tier rail asset window a b :
  fle a b = true ->
  severity (Evaluate c tier rail asset window a) <= severity (Evaluate c tier rail asset window b).
Proof.
  intros Hab.
  destruct (evaluate_cases c tier rail asset window a) as [H|[H|[H|H]]];
  destruct (evaluate_cases c tier rail asset window b) as [H'|[H'|[H'|H']]];
    destruct_and?; cbn zeta in *; try lia; try congruence; exfalso; forder.
Qed.

Lemma evaluate_monotone_witness :
  fle (lit 950 0) (lit 1001 0) = true /\
  severity (Evaluate (DefaultConfig (fun _ => "")) Tier1 "ach" "USDC" "tx" (lit 950 0)) <=
  severity (Evaluate (DefaultConfig (fun _ => "")) Tier1 "ach" "USDC" "tx" (lit 1001 0)).
Proof. split; [reflexivity|]. apply evaluate_monotone. reflexivity. Defined.

(** A user whose tier is not one of the four falls through to the card
    rule, whose on_exceed is manual_review: above the default transaction cap
    such a card transaction is routed to review and not denied. *)
Theorem seed_unknown_tier_card env tier asset a :
  tier ∉ (seed_tx_caps.*1) ->
  fgt a (DefaultTXCapUSD (DefaultConfig env)) = true ->
  fle (DefaultTXCapUSD (DefaultConfig env)) f0 = false ->
  let res := Evaluate (DefaultConfig env) tier "card" asset "tx" a in
  Exceeded res = true /\ Decision res = "manual_review".
Proof.
  intros Hn Ha Hz. unfold Evaluate.
  assert (matchRule (DefaultConfig env) tier "card" asset "tx" = Some card_2fa_rule) as ->.
  { unfold matchRule. simpl in Hn.
    rewrite !not_elem_of_cons in Hn. destruct Hn as (? & ? & ? & ? & _).
    simpl. unfold tier_match; simpl.
    repeat (rewrite (bool_decide_eq_false_2 (_ = tier)) by done; simpl).
    by rewrite andb_false_r. }
  cbn zeta. change (effectiveCap (DefaultConfig env) (Some card_2fa_rule) "tx")
    with (DefaultTXCapUSD (DefaultConfig env)).
  by rewrite Ha, Hz.
Qed.

Lemma seed_unknown_tier_card_witness :
  ("gold" ∉ seed_tx_caps.*1) /\
  let res := Evaluate (DefaultConfig (fun _ => "")) "gold" "card" "USDC" "tx" (lit 1000000 0) in
  Exceeded res = true /\ Decision res = "manual_review".
Proof.
  assert ("gold" ∉ (seed_tx_caps.*1)) as H by (apply (bool_decide_unpack _); exact I).
  split; [exact H|]. apply seed_unknown_tier_card; [exact H|reflexivity|reflexivity].
Defined.

(** An amount that is not a number passes every cap and asks for no second
    factor, under every configuration. *)
Theorem nan_amount_unchecked c tier rail asset window :
  severity (Evaluate c tier rail asset window NaN) = 0 /\
  HighValue2FARequired c rail NaN = false.
Proof.
  split.
  - unfold severity, Evaluate. cbn zeta. unfold fgt, fge. rewrite flt_nan_r, fle_nan_r.
    by destruct (fle _ f0).
  - unfold HighValue2FARequired. induction (Rules c) as [|r l IH]; simpl; [done|]. rewrite IH.
    unfold requires_2fa_match, fge. by rewrite fle_nan_r, andb_false_r.
Qed.

End Caps.
