(* ===== verification/Velocity.v ===== *)
(** * Package velocity: counters with a time to live ([internal/velocity])

    [Counter] is the Go interface; [MemoryCounter] its in-memory implementation.
    Each method takes the reading of the counter's clock as an argument.  The
    methods hold the mutex for their whole body, so a run of the counter is a
    sequence of calls, whatever goroutines they come from. *)
From Stdlib Require Import ZArith Lia Ascii String.
From stdpp Require Import base gmap strings list.
From S2P Require Import Prelude GoLib.

Open Scope Z_scope.
Open Scope go_scope.

Module Velocity.

(** ** Windows and configuration *)

Abbreviation Window := duration (only parsing).

Definition WindowMinute : Window := 60 * second.
Definition WindowHour : Window := 3600 * second.
Definition WindowDay : Window := 24 * 3600 * second.

Definition Suffix (w : Window) : string :=
  if w =? WindowMinute then "60s"
  else if w =? WindowHour then "1h"
  else if w =? WindowDay then "1d"
  else duration_string w.

Record Config := { WindowMinSec : Z; WindowHourSec : Z; WindowDaySec : Z }.

Definition envInt (env : environ) (key : string) (def : Z) : Z :=
  let v := env key in
  if v != "" then
    match Atoi v with
    | Some n => n
    | None => def
    end
  else def.

Definition DefaultConfig (env : environ) : Config :=
  {| WindowMinSec := envInt env "VELOCITY_WINDOW_MIN_SEC" 60;
     WindowHourSec := envInt env "VELOCITY_WINDOW_HOUR_SEC" 3600;
     WindowDaySec := envInt env "VELOCITY_WINDOW_DAY_SEC" 86400 |}.

(** Each product is an [int64] multiplication. *)
Definition WindowsFromConfig (cfg : Config) : Window * Window * Window :=
  (wrap64 (WindowMinSec cfg * second),
   wrap64 (WindowHourSec cfg * second),
   wrap64 (WindowDaySec cfg * second)).

Definition key (userID : string) (w : Window) : string :=
  "vel:" +:+ userID +:+ ":" +:+ Suffix w.

(** ** The Counter interface *)

Class Counter (C : Type) := {
  Increment : C -> time -> string -> Window -> C * (Z * option error);
  Rollback : C -> time -> string -> Window -> C * (Z * option error);
  Get : C -> time -> string -> Window -> Z * option error
}.

(** ** MemoryCounter *)

Record memEntry := { value : Z; expiresAt : time }.

Record MemoryCounter := { mem : gmap string memEntry }.

Definition NewMemoryCounter : MemoryCounter := {| mem := ∅ |}.

(** The live entry of a key at [now]: absent entries and those past their
    expiry ([now.After(e.expiresAt)]) are treated alike. *)
Definition live (e : option memEntry) (now : time) : option memEntry :=
  match e with
  | Some e => if expiresAt e <? now then None else Some e
  | None => None
  end.

Definition mc_increment (c : MemoryCounter) (now : time) (userID : string) (w : Window)
  : MemoryCounter * (Z * option error) :=
  let k := key userID w in
  let v := match live (mem c !! k) now with
           | Some e => value e
           | None => 0
           end in
  let e := {| value := wrap64 (v + 1); expiresAt := now + w |} in
  ({| mem := <[k := e]> (mem c) |}, (value e, None)).

Definition mc_rollback (c : MemoryCounter) (now : time) (userID : string) (w : Window)
  : MemoryCounter * (Z * option error) :=
  let k := key userID w in
  match live (mem c !! k) now with
  | None => (c, (0, None))
  | Some e =>
      let v := wrap64 (value e - 1) in
      if v <? 0 then
        ({| mem := <[k := {| value := 0; expiresAt := expiresAt e |}]> (mem c) |},
         (0, Some (Sentinel VelErrNegativeCounter)))
      else
        ({| mem := <[k := {| value := v; expiresAt := expiresAt e |}]> (mem c) |}, (v, None))
  end.

Definition mc_get (c : MemoryCounter) (now : time) (userID : string) (w : Window)
  : Z * option error :=
  match live (mem c !! key userID w) now with
  | None => (0, None)
  | Some e => (value e, None)
  end.

Definition Len (c : MemoryCounter) : nat := size (mem c).

#[global] Instance MemoryCounter_Counter : Counter MemoryCounter := {|
  Increment := mc_increment; Rollback := mc_rollback; Get := mc_get |}.

(** ** Keys *)

Lemma Suffix_free w : free ":" (Suffix w) = true.
Proof.
  unfold Suffix. repeat case_match; try reflexivity. apply duration_string_free.
Qed.

(** Two users never share a key, and one user's keys differ by suffix. *)
Lemma key_inj u1 w1 u2 w2 : key u1 w1 = key u2 w2 -> u1 = u2 /\ Suffix w1 = Suffix w2.
Proof.
  unfold key. intros H%(inj (String.append "vel:")).
  apply (join_inj_r ":"); auto using Suffix_free.
Qed.

(** ** Runs of a counter

    A call of one of the two mutating methods, and the effect of a sequence of
    calls. *)
Inductive call :=
| Inc (now : time) (userID : string) (w : Window)
| Roll (now : time) (userID : string) (w : Window).

Definition call_key (o : call) : string :=
  match o with Inc _ u w | Roll _ u w => key u w end.

Definition do_call {C} `{Counter C} (c : C) (o : call) : C :=
  match o with
  | Inc now u w => fst (Increment c now u w)
  | Roll now u w => fst (Rollback c now u w)
  end.

Definition run {C} `{Counter C} (c : C) (os : list call) : C := fold_left do_call os c.

(** The specification of one key: what a call does to that key's entry, with no
    map and no other key in sight. *)
Definition spec_step (e : option memEntry) (o : call) : option memEntry :=
  match o with
  | Inc now _ w =>
      Some {| value := wrap64 (default 0 (value <$> live e now) + 1); expiresAt := now + w |}
  | Roll now _ _ =>
      match live e now with
      | None => e
      | Some e' => Some {| value := Z.max 0 (wrap64 (value e' - 1)); expiresAt := expiresAt e' |}
      end
  end.

Definition spec_run (e : option memEntry) (os : list call) : option memEntry :=
  fold_left spec_step os e.

Lemma do_call_lookup c o k :
  mem (do_call c o) !! k = if decide (call_key o = k) then spec_step (mem c !! k) o else mem c !! k.
Proof.
  case_decide as Hk.
  - subst k. destruct o; simpl.
    + rewrite lookup_insert_eq. by destruct (live _ _).
    + unfold mc_rollback. destruct (live _ _) as [e|]; simpl; [|done].
      destruct (_ <? 0) eqn:Hv; go_bool; simpl; rewrite lookup_insert_eq;
        do 2 f_equal; lia.
  - destruct o; simpl in *.
    + by rewrite lookup_insert_ne.
    + unfold mc_rollback. destruct (live _ _) as [e|]; simpl; [|done].
      destruct (_ <? 0); simpl; by rewrite lookup_insert_ne.
Qed.

Lemma run_lookup c os k :
  mem (run c os) !! k = spec_run (mem c !! k) (filter (fun o => call_key o = k) os).
Proof.
  revert c. induction os as [|o os IH]; intros c; [done|].
  unfold run in *. simpl. rewrite IH, do_call_lookup, filter_cons.
  by destruct (decide (call_key o = k)).
Qed.

(** ** Invariant *)

Definition entry_ok (e : memEntry) : Prop := 0 <= value e < 2^63.

Definition counter_ok (c : MemoryCounter) : Prop := map_Forall (fun _ e => entry_ok e) (mem c).

(** How far a run is from overflowing: every counter is at most [n]. *)
Definition bounded_by (n : Z) (c : MemoryCounter) : Prop :=
  map_Forall (fun _ e => 0 <= value e <= n) (mem c).

Lemma live_Some e now e' : live e now = Some e' -> e = Some e'.
Proof. unfold live. destruct e; [destruct (_ <? _)|]; congruence. Qed.

Lemma do_call_bounded n c o :
  0 <= n < 2^63 - 1 -> bounded_by n c -> bounded_by (n + 1) (do_call c o).
Proof.
  intros Hn Hc k e. rewrite do_call_lookup. intros Hk. pose proof (Hc k) as Hck.
  destruct (decide _); [|specialize (Hck _ Hk); simpl in *; lia].
  destruct o; simpl in Hk.
  - destruct (live _ _) as [e'|] eqn:Hl; simpl in Hk; simplify_eq/=.
    + apply live_Some in Hl. specialize (Hck _ Hl). simpl in Hck.
      rewrite wrap64_id by (unfold int64_range; lia). lia.
    + rewrite wrap64_id by (unfold int64_range; lia). lia.
  - destruct (live _ _) as [e'|] eqn:Hl; simplify_eq/=.
    + apply live_Some in Hl. specialize (Hck _ Hl). simpl in Hck.
      rewrite wrap64_id by (unfold int64_range; lia). lia.
    + specialize (Hck _ Hk). simpl in Hck. lia.
Qed.

Lemma run_bounded n c os :
  0 <= n -> n + Z.of_nat (length os) < 2^63 -> bounded_by n c ->
  bounded_by (n + Z.of_nat (length os)) (run c os).
Proof.
  revert n c. induction os as [|o os IH]; intros n c Hn Hlt Hc.
  - simpl. by rewrite Z.add_0_r.
  - simpl length in *. rewrite Nat2Z.inj_succ in *.
    replace (n + Z.succ (Z.of_nat (length os))) with ((n + 1) + Z.of_nat (length os)) by lia.
    apply (IH (n + 1) (do_call c o)); [lia|lia|]. apply do_call_bounded; [lia|done].
Qed.

(** ** Properties *)

Definition call_user (o : call) : string := match o with Inc _ u _ | Roll _ u _ => u end.
Definition call_window (o : call) : Window := match o with Inc _ _ w | Roll _ _ w => w end.

(** The calls about one user's counter of one window. *)
Definition calls_of (u : string) (w : Window) (os : list call) : list call :=
  filter (fun o => call_user o = u /\ Suffix (call_window o) = Suffix w) os.

Lemma call_key_iff o u w :
  call_key o = key u w <-> call_user o = u /\ Suffix (call_window o) = Suffix w.
Proof.
  split; [destruct o; apply key_inj|].
  destruct o; simpl; intros [-> H]; unfold key; by rewrite H.
Qed.

Lemma run_calls_of os u w :
  mem (run NewMemoryCounter os) !! key u w = spec_run None (calls_of u w os).
Proof.
  rewrite run_lookup. simpl. rewrite lookup_empty. f_equal. unfold calls_of. apply list_filter_iff.
  intros o. apply call_key_iff.
Qed.

Lemma get_run os now u w :
  Get (run NewMemoryCounter os) now u w =
  (default 0 (value <$> live (spec_run None (calls_of u w os)) now), None).
Proof. simpl. unfold mc_get. rewrite run_calls_of. by destruct (live _ _). Qed.

(** Refinement of the per-counter specification: after any sequence of
    increments and rollbacks for any users and windows, reading a user's counter
    for a window gives what the calls about that user and window alone give.
    Other users and other windows cannot interfere with it. *)
Theorem counter_refines_spec os now u w :
  Get (run NewMemoryCounter os) now u w =
  (default 0 (value <$> live (spec_run None (calls_of u w os)) now), None).
Proof. apply get_run. Qed.

(** No counter goes negative or overflows: after fewer than 2^63 calls from
    the empty counter, each reading is between 0 and the number of calls, and it
    never reports an error. *)
Theorem counter_bounds os now u w :
  Z.of_nat (length os) < 2^63 ->
  0 <= fst (Get (run NewMemoryCounter os) now u w) <= Z.of_nat (length os) /\
  snd (Get (run NewMemoryCounter os) now u w) = None.
Proof.
  intros Hlen. simpl. unfold mc_get. destruct (live _ _) as [e|] eqn:He; simpl; [|split; [lia|done]].
  apply live_Some in He. split; [|done].
  apply (run_bounded 0 NewMemoryCounter os) in He; simpl in *; try lia.
  apply map_Forall_empty.
Qed.

Lemma counter_bounds_witness :
  let os := [Inc 0 "u" WindowDay; Roll 1 "u" WindowDay; Roll 2 "u" WindowDay] in
  Z.of_nat (length os) < 2^63 /\
  (0 <= fst (Get (run NewMemoryCounter os) 3 "u" WindowDay) <= 3 /\
   snd (Get (run NewMemoryCounter os) 3 "u" WindowDay) = None).
Proof.
  split; [reflexivity|].
  apply (counter_bounds [Inc 0 "u" WindowDay; Roll 1 "u" WindowDay; Roll 2 "u" WindowDay]
           3 "u" WindowDay). reflexivity.
Defined.

(** A rollback undoes an increment: if the counter is read as [v] when it is
    incremented, a rollback within the window returns [v] without an error and
    leaves the counter at [v]. *)
Theorem rollback_undoes_increment c now now' u w v :
  mc_get c now u w = (v, None) -> 0 <= v < 2^63 - 1 -> now' <= now + w ->
  let c1 := fst (mc_increment c now u w) in
  let '(c2, res) := mc_rollback c1 now' u w in
  snd (mc_increment c now u w) = (v + 1, None) /\ res = (v, None) /\ mc_get c2 now' u w = (v, None).
Proof.
  intros Hg Hv Hnow. cbn zeta.
  assert (default 0 (value <$> live (mem c !! key u w) now) = v) as Hv'.
  { unfold mc_get in Hg. destruct (live _ _); simpl in *; congruence. }
  unfold mc_increment, mc_rollback; simpl. rewrite lookup_insert_eq. simpl.
  rewrite (proj2 (Z.ltb_ge _ _)) by lia.
  replace (match live (mem c !! key u w) now with Some e => value e | None => 0 end) with v
    by (rewrite <- Hv'; by destruct (live _ _)).
  simpl. rewrite (wrap64_id (v + 1)) by (unfold int64_range; lia).
  replace (v + 1 - 1) with v by lia. rewrite wrap64_id by (unfold int64_range; lia).
  rewrite (proj2 (Z.ltb_ge _ _)) by lia. split_and!; [done..|].
  unfold mc_get; simpl. rewrite lookup_insert_eq. simpl.
  by rewrite (proj2 (Z.ltb_ge _ _)) by lia.
Qed.

Lemma rollback_undoes_increment_witness :
  let c := fst (mc_increment NewMemoryCounter 0 "u" WindowDay) in
  let '(c2, res) := mc_rollback (fst (mc_increment c 5 "u" WindowDay)) 9 "u" WindowDay in
  snd (mc_increment c 5 "u" WindowDay) = (1 + 1, None) /\ res = (1, None) /\
  mc_get c2 9 "u" WindowDay = (1, None).
Proof.
  apply rollback_undoes_increment; [vm_compute; reflexivity|lia|].
  unfold WindowDay, second. lia.
Defined.

(** Each time is at most [w] after the one before it. *)
Fixpoint chained (w : Window) (t : time) (ts : list time) : Prop :=
  match ts with
  | [] => True
  | t' :: ts' => t' <= t + w /\ chained w t' ts'
  end.

Lemma spec_run_chained w u t ts v :
  chained w t ts -> 0 <= v -> v + Z.of_nat (length ts) < 2^63 ->
  spec_run (Some {| value := v; expiresAt := t + w |}) ((fun t' => Inc t' u w) <$> ts) =
  Some {| value := v + Z.of_nat (length ts); expiresAt := List.last ts t + w |}.
Proof.
  revert t v. induction ts as [|t' ts IH]; intros t v Hc Hv Hlt.
  - simpl. by rewrite Z.add_0_r.
  - destruct Hc as [Ht Hc]. simpl length in *. rewrite Nat2Z.inj_succ in *.
    unfold spec_run in *. simpl. rewrite (proj2 (Z.ltb_ge _ _)) by lia. simpl.
    rewrite wrap64_id by (unfold int64_range; lia). rewrite IH by (done || lia).
    f_equal. f_equal; [lia|]. f_equal. symmetry. apply (last_cons t' t ts).
Qed.

(** The window is not a rolling one: every increment renews the expiry, so
    increments that follow each other within [w] are all counted, however long
    the run of them lasts, and the reading is their number and not the number of
    those in the last [w]. *)
Theorem window_slides u w t ts :
  chained w t ts -> 0 <= w -> Z.of_nat (length ts) < 2^63 - 1 ->
  Get (run NewMemoryCounter ((fun t' => Inc t' u w) <$> (t :: ts))) (List.last ts t) u w
  = (1 + Z.of_nat (length ts), None).
Proof.
  intros Hc Hw Hlt. rewrite get_run.
  assert (calls_of u w ((fun t' => Inc t' u w) <$> (t :: ts)) = (fun t' => Inc t' u w) <$> (t :: ts))
    as ->.
  { unfold calls_of. apply filter_all. rewrite Forall_fmap. by apply Forall_true. }
  change (spec_run None _) with
    (spec_run (Some {| value := 1; expiresAt := t + w |}) ((fun t' => Inc t' u w) <$> ts)).
  rewrite spec_run_chained by (done || lia). simpl.
  by rewrite (proj2 (Z.ltb_ge _ _)) by lia.
Qed.

Lemma window_slides_witness :
  let ts := [WindowDay; 2 * WindowDay; 3 * WindowDay] in
  chained WindowDay 0 ts /\
  Get (run NewMemoryCounter ((fun t' => Inc t' "u" WindowDay) <$> (0 :: ts))) (3 * WindowDay) "u" WindowDay
  = (4, None).
Proof.
  cbn zeta. assert (chained WindowDay 0 [WindowDay; 2 * WindowDay; 3 * WindowDay]) as H
    by (simpl; unfold WindowDay, second; lia).
  split; [exact H|].
  apply (window_slides "u" WindowDay 0 [WindowDay; 2 * WindowDay; 3 * WindowDay] H);
    unfold WindowDay, second; simpl; lia.
Defined.

End Velocity.
