(* ===== verification/Redis.v ===== *)
(** * Package velocity: the counter kept in Redis
    ([internal/velocity/redis.go])

    The server is a parameter: the commands the code sends, and as hypotheses
    what their documentation says of them ([RedisOk]).  The Lua script of
    [Rollback] is translated; it runs on the server as one command.

    So is the connection ([Link]): how long each attempt at a command takes to be
    executed, which attempts fail, before or after the server has executed the
    command, and after which errors the client sends the command again, as the
    go-redis client does up to [MaxRetries] times. *)
From Stdlib Require Import ZArith Lia Ascii String Sorted.
From stdpp Require Import base gmap strings list sorting.
From S2P Require Import Prelude GoLib Velocity.

Open Scope Z_scope.
Open Scope go_scope.

Module Redis.
Import Velocity.

(** ** The server *)

(** A reply is a value or an error message. *)
Class RedisServer (R : Type) := {
  cmd_incr : R -> time -> string -> R * (string + Z);
  cmd_decr : R -> time -> string -> R * (string + Z);
  cmd_set : R -> time -> string -> string -> R * (string + unit);
  cmd_expire : R -> time -> string -> duration -> R * (string + unit);
  cmd_get : R -> time -> string -> string + option string
}.

(** What a key holds at a time: its value and the time it expires, if any. *)
Abbreviation rentry := (string * option time)%type.

(** The documented behaviour on keys that hold an integer: INCR and DECR start
    from 0 for a missing key and keep the time to live; SET drops it; EXPIRE sets
    it and does nothing to a missing key; a key is there before its deadline and gone after it; a command changes
    no other key. *)
Class RedisOk (R : Type) `{RedisServer R} := {
  entry : R -> time -> string -> option rentry;
  entry_later r t t' k : t <= t' ->
    match entry r t k with
    | None => entry r t' k = None
    | Some (v, None) => entry r t' k = Some (v, None)
    | Some (v, Some d) =>
        (t' < d -> entry r t' k = Some (v, Some d)) /\ (d < t' -> entry r t' k = None) /\
        (entry r t' k = Some (v, Some d) \/ entry r t' k = None)
    end;
  incr_some r t k n d : entry r t k = Some (Itoa n, d) -> -2^63 <= n < 2^63 - 1 ->
    exists r', cmd_incr r t k = (r', inr (n + 1)) /\ entry r' t k = Some (Itoa (n + 1), d);
  incr_none r t k : entry r t k = None ->
    exists r', cmd_incr r t k = (r', inr 1) /\ entry r' t k = Some (Itoa 1, None);
  incr_other r t k k' t' : k' <> k -> t <= t' -> entry (fst (cmd_incr r t k)) t' k' = entry r t' k';
  decr_some r t k n d : entry r t k = Some (Itoa n, d) -> -2^63 < n < 2^63 ->
    exists r', cmd_decr r t k = (r', inr (n - 1)) /\ entry r' t k = Some (Itoa (n - 1), d);
  decr_none r t k : entry r t k = None ->
    exists r', cmd_decr r t k = (r', inr (-1)) /\ entry r' t k = Some (Itoa (-1), None);
  decr_other r t k k' t' : k' <> k -> t <= t' -> entry (fst (cmd_decr r t k)) t' k' = entry r t' k';
  set_ok r t k v : exists r', cmd_set r t k v = (r', inr tt) /\ entry r' t k = Some (v, None);
  set_other r t k v k' t' : k' <> k -> t <= t' -> entry (fst (cmd_set r t k v)) t' k' = entry r t' k';
  expire_ok r t k v d w : entry r t k = Some (v, d) -> 0 < w -> w mod second = 0 ->
    exists r', cmd_expire r t k w = (r', inr tt) /\ entry r' t k = Some (v, Some (t + w));
  expire_none r t k w : entry r t k = None ->
    exists r', cmd_expire r t k w = (r', inr tt) /\ entry r' t k = None;
  expire_other r t k w k' t' : k' <> k -> t <= t' ->
    entry (fst (cmd_expire r t k w)) t' k' = entry r t' k';
  get_ok r t k : cmd_get r t k = inr (fst <$> entry r t k)
}.

(** ** The client *)

Inductive fault :=
| NotExecuted (msg : string)
| ReplyLost (msg : string).

(** The connection, by the number of the attempt; [retryable] and [maxRetries] are
    the client's ([redis.Options]: 3 unless set). *)
Record Link := {
  faults : nat -> option fault;
  lag : nat -> duration;
  retryable : string -> bool;
  maxRetries : nat
}.

Section Counter.
Context {R : Type} `{RedisServer R}.

(** [sent] counts the attempts that were made. *)
Record RedisCounter := {
  client : R;
  prefix : string;
  sent : nat;
  link : Link
}.

Definition NewRedisCounterFromClient (cl : R) (prefix_ : string) (l : Link) : RedisCounter :=
  {| client := cl; prefix := if prefix_ == "" then "vel" else prefix_; sent := 0; link := l |}.

(** [dial] is [redis.NewClient] on an address. *)
Definition NewRedisCounter (dial : string -> R) (addr prefix_ : string) (l : Link) : RedisCounter :=
  {| client := dial addr; prefix := if prefix_ == "" then "vel" else prefix_; sent := 0; link := l |}.

Definition k (c : RedisCounter) (userID : string) (w : Window) : string :=
  prefix c +:+ ":" +:+ userID +:+ ":" +:+ Suffix w.

(** One attempt: what the server holds after it, and what the client gets. *)
Definition attempt {A} (f : option fault) (cmd : R -> R * (string + A)) (r : R) : R * (string + A) :=
  match f with
  | Some (NotExecuted m) => (r, inl m)
  | Some (ReplyLost m) => (fst (cmd r), inl m)
  | None => cmd r
  end.

(** The attempts at one command, the next one after an error that the client
    retries; with the time of the last one. *)
Fixpoint attempts {A} (retries : nat) (c : RedisCounter) (now : time) (cmd : time -> R -> R * (string + A))
  : RedisCounter * (time * (string + A)) :=
  let t := now + lag (link c) (sent c) in
  let '(r', reply) := attempt (faults (link c) (sent c)) (cmd t) (client c) in
  let c' := {| client := r'; prefix := prefix c; sent := S (sent c); link := link c |} in
  match reply, retries with
  | inl m, S n => if retryable (link c) m then attempts n c' t cmd else (c', (t, reply))
  | _, _ => (c', (t, reply))
  end.

Definition send {A} (c : RedisCounter) (now : time) (cmd : time -> R -> R * (string + A))
  : RedisCounter * (time * Res A) :=
  let '(c', (t, reply)) := attempts (maxRetries (link c)) c now cmd in
  (c', (t, match reply with inl m => inl (Errorf m) | inr a => inr a end)).

Definition rc_increment (c : RedisCounter) (now : time) (userID : string) (w : Window)
  : RedisCounter * (Z * option error) :=
  let key := k c userID w in
  match send c now (fun t r => cmd_incr r t key) with
  | (c1, (_, inl err)) => (c1, (0, Some (Wrapf "redis incr" err)))
  | (c1, (t1, inr v)) =>
      match send c1 t1 (fun t r => cmd_expire r t key w) with
      | (c2, (_, inl err)) => (c2, (v, Some (Wrapf "redis expire" err)))
      | (c2, (_, inr _)) => (c2, (v, None))
      end
  end.

(** The script: DECR, and SET to 0 when the result is negative. *)
Definition rollback_script (now : time) (key : string) (r : R) : R * (string + Z) :=
  match cmd_decr r now key with
  | (r1, inl e) => (r1, inl e)
  | (r1, inr v) =>
      if v <? 0 then
        match cmd_set r1 now key "0" with
        | (r2, inl e) => (r2, inl e)
        | (r2, inr _) => (r2, inr 0)
        end
      else (r1, inr v)
  end.

(** The value is read once more when it is 0; both answers are the same. *)
Definition rc_rollback (c : RedisCounter) (now : time) (userID : string) (w : Window)
  : RedisCounter * (Z * option error) :=
  let key := k c userID w in
  match send c now (fun t r => rollback_script t key r) with
  | (c1, (_, inl err)) => (c1, (0, Some (Wrapf "redis rollback" err)))
  | (c1, (t1, inr n)) =>
      if n =? 0 then
        let cur := match cmd_get (client c1) t1 key with inr (Some s) => s | _ => "" end in
        if cur == "0" then (c1, (0, None)) else (c1, (n, None))
      else (c1, (n, None))
  end.

(** Reading the reply: [redis.Nil] for a missing key. *)
Definition get_reply (c : RedisCounter) (now : time) (key : string) : Res string :=
  match send c now (fun t r => (r, cmd_get r t key)) with
  | (_, (_, inl err)) => inl err
  | (_, (_, inr None)) => inl (Sentinel RedisNil)
  | (_, (_, inr (Some v))) => inr v
  end.

Definition rc_get (c : RedisCounter) (now : time) (userID : string) (w : Window) : Z * option error :=
  match get_reply c now (k c userID w) with
  | inl err => if err == Sentinel RedisNil then (0, None) else (0, Some (Wrapf "redis get" err))
  | inr v =>
      match Atoi v with
      | Some n => (n, None)
      | None => (0, Some (Wrapf "redis get parse" (Errorf "strconv.ParseInt")))
      end
  end.

#[global] Instance RedisCounter_Counter : Counter RedisCounter := {|
  Increment := rc_increment; Rollback := rc_rollback; Get := rc_get |}.

(** The error of a rollback is never [ErrNegativeCounter]: a counter at 0 stays
    there and the call succeeds. *)
Lemma rollback_never_negative c now u w c' v e :
  rc_rollback c now u w = (c', (v, Some e)) -> errors_is e VelErrNegativeCounter = false.
Proof.
  unfold rc_rollback. destruct (send c _ _) as [c1 [t1 [err|n]]] eqn:Hs.
  - intros [= <- <- <-]. unfold send in Hs. destruct (attempts _ _ _ _) as [c2 [t2 [m|a]]]; by simplify_eq/=.
  - cbn zeta. destruct (n =? 0); [destruct (_ == _)|]; done.
Qed.

End Counter.

(** ** Agreement with the in-memory counter

    Key by key: a counter that runs has the same value in both, and deadlines
    that differ by at most the time a call takes; one that is gone or zero may be
    missing, expired or zero in either. *)
Section Agreement.
Context {R : Type} `{RedisOk R}.
Context (delay : duration).

(** The longest time from the start of a call to its last command. *)
Definition slack : duration := 2 * delay.

Definition zero_mem (t : time) (e : option memEntry) : Prop :=
  default 0 (value <$> live e t) = 0.

Definition zero_redis (x : option rentry) : Prop := x = None \/ x = Some ("0", None).

Inductive sim (t : time) : option memEntry -> option rentry -> Prop :=
| sim_kept v d d' : 0 <= v -> t <= d -> d <= d' <= d + slack ->
    sim t (Some {| value := v; expiresAt := d |}) (Some (Itoa v, Some d'))
| sim_zero e x : zero_mem t e -> zero_redis x -> sim t e x.

(** A call that starts at [t] ends before [d], or starts when the other deadline
    has passed as well. *)
Definition far (t d : time) : Prop := t + slack < d \/ d + slack < t.

Definition far_from (t : time) (e : option memEntry) : Prop := forall m, e = Some m -> far t (expiresAt m).

Lemma live_far t s e : far_from t e -> t <= s <= t + slack -> live e s = live e t.
Proof.
  intros Hf Hs. unfold live. destruct e as [m|]; [|done]. specialize (Hf m eq_refl). unfold far in Hf.
  destruct (expiresAt m <? s) eqn:?, (expiresAt m <? t) eqn:?; go_bool; done || lia.
Qed.

Lemma zero_mem_later t t' e : t <= t' -> zero_mem t e -> zero_mem t' e.
Proof.
  unfold zero_mem, live. destruct e as [m|]; [|done]. intros Ht.
  destruct (expiresAt m <? t) eqn:H1, (expiresAt m <? t') eqn:H2; go_bool; simpl; try done; lia.
Qed.

Lemma zero_redis_later r t t' key : t <= t' -> zero_redis (entry r t key) -> zero_redis (entry r t' key).
Proof.
  intros Ht Hz. pose proof (entry_later r t t' key Ht) as Hl. unfold zero_redis in *.
  destruct Hz as [Hz|Hz]; rewrite Hz in Hl; auto.
Qed.

Lemma sim_later r t0 t t' key e :
  t0 <= t -> t <= t' <= t + slack -> far_from t e -> sim t0 e (entry r t0 key) -> sim t' e (entry r t' key).
Proof.
  intros Ht Ht' Hf Hs. inversion Hs as [v d d' Hv Hle Hd He Hx|e' x Hm Hr He Hx]; subst.
  - pose proof (entry_later r t0 t' key ltac:(lia)) as Hl. rewrite <- Hx in Hl. destruct Hl as (Hlive & Hgone & _).
    specialize (Hf _ eq_refl). unfold far in Hf. simpl in Hf. destruct Hf as [Hf|Hf].
    + rewrite Hlive by lia. constructor; lia.
    + rewrite Hgone by lia. apply sim_zero; [|by left]. unfold zero_mem, live. simpl.
      by rewrite (proj2 (Z.ltb_lt _ _)) by lia.
  - apply sim_zero; [eapply zero_mem_later; [|done]; lia|eapply zero_redis_later; [|done]; lia].
Qed.

(** The effect of the two commands and of the script on their key: INCR at [s1],
    EXPIRE at [s2]. *)
Lemma incr_sim r t s1 key e n :
  far_from t e -> t <= s1 <= t + slack -> sim s1 e (entry r s1 key) ->
  (forall m, e = Some m -> 0 <= value m <= n) -> 0 <= n < 2^63 - 1 ->
  exists v r1 d, cmd_incr r s1 key = (r1, inr v) /\ entry r1 s1 key = Some (Itoa v, d) /\
    match d with Some d => t + slack < d | None => True end /\
    v = default 0 (value <$> live e t) + 1 /\ 0 < v < 2^63.
Proof.
  intros Hf Hs1 Hs Hb Hn. rewrite <- (live_far t s1 e Hf Hs1).
  inversion Hs as [v d d' Hv Hle Hd He Hx|e' x Hm Hr He Hx]; subst.
  - specialize (Hb _ eq_refl). simpl in Hb. specialize (Hf _ eq_refl). unfold far in Hf. simpl in Hf.
    destruct (incr_some r s1 key v (Some d')) as (r1 & Hi & He1); [done|lia|].
    exists (v + 1), r1, (Some d'). split_and!; try done; try lia. unfold live. simpl.
    by rewrite (proj2 (Z.ltb_ge _ _)) by lia.
  - rewrite Hm. destruct Hr as [Hr|Hr].
    + destruct (incr_none r s1 key Hr) as (r1 & Hi & He1). by exists 1, r1, None.
    + destruct (incr_some r s1 key 0 None) as (r1 & Hi & He1); [done|lia|]. by exists 1, r1, None.
Qed.

Lemma incr_expire_sim r t s1 s2 key w e n :
  far_from t e -> t <= s1 <= s2 -> s2 <= t + slack -> sim s1 e (entry r s1 key) ->
  (forall m, e = Some m -> 0 <= value m <= n) -> 0 <= n < 2^63 - 1 ->
  0 < w -> w mod second = 0 ->
  exists v r1 r2, cmd_incr r s1 key = (r1, inr v) /\ cmd_expire r1 s2 key w = (r2, inr tt) /\
    v = default 0 (value <$> live e t) + 1 /\ 0 < v /\ int64_range v /\
    entry r2 s2 key = Some (Itoa v, Some (s2 + w)).
Proof.
  intros Hf Hs1 Hs2 Hs Hb Hn Hw Hsec.
  destruct (incr_sim r t s1 key e n) as (v & r1 & d & Hi & He & Hd & Hv & Hr); [done|lia|done..|].
  assert (entry r1 s2 key = Some (Itoa v, d)) as He2.
  { pose proof (entry_later r1 s1 s2 key ltac:(lia)) as Hl. rewrite He in Hl. destruct d as [d|]; [|done].
    destruct Hl as [Hl _]. apply Hl. lia. }
  destruct (expire_ok r1 s2 key _ _ w He2 Hw Hsec) as (r2 & Hx & He3).
  exists v, r1, r2. split_and!; try done; try lia. unfold int64_range. lia.
Qed.

(** The script on a counter that is 0 or missing, and on a positive one. *)
Lemma script_clamp r t key r1 :
  cmd_decr r t key = (r1, inr (-1)) ->
  exists r', rollback_script t key r = (r', inr 0) /\ entry r' t key = Some ("0", None).
Proof.
  intros Hd. unfold rollback_script. rewrite Hd. simpl. destruct (set_ok r1 t key "0") as (r2 & -> & He). by exists r2.
Qed.

Lemma script_pos r t key r1 v :
  cmd_decr r t key = (r1, inr v) -> 0 <= v -> rollback_script t key r = (r1, inr v).
Proof. intros Hd Hv. unfold rollback_script. by rewrite Hd, (proj2 (Z.ltb_ge _ _)). Qed.

Lemma script_sim r t s key e :
  far_from t e -> t <= s <= t + slack -> sim s e (entry r s key) -> (forall m, e = Some m -> 0 <= value m < 2^63) ->
  exists v r', rollback_script s key r = (r', inr v) /\
    sim s (match live e t with
           | None => e
           | Some m => Some {| value := Z.max 0 (wrap64 (value m - 1)); expiresAt := expiresAt m |}
           end) (entry r' s key).
Proof.
  intros Hf Hst Hs Hb. rewrite <- (live_far t s e Hf Hst).
  assert (forall r1, zero_mem s e -> cmd_decr r s key = (r1, inr (-1)) -> exists v r',
    rollback_script s key r = (r', inr v) /\
    sim s (match live e s with
           | None => e
           | Some m => Some {| value := Z.max 0 (wrap64 (value m - 1)); expiresAt := expiresAt m |}
           end) (entry r' s key)) as Hclamp.
  { intros r1 Hm Hd. destruct (script_clamp r s key r1 Hd) as (r2 & Hx & He2). exists 0, r2. split; [done|].
    rewrite He2. apply sim_zero; [|by right]. unfold zero_mem in *.
    destruct (live e s) as [m|] eqn:Hl; simpl in Hm; [|by rewrite Hl]. rewrite Hm.
    unfold live in Hl |- *. destruct e as [m'|]; [|done]. destruct (expiresAt m' <? s) eqn:Hxp; [done|].
    simplify_eq. simpl. by rewrite Hxp. }
  inversion Hs as [v d d' Hv Hle Hd He Hx|e' x Hm Hr He Hx]; subst.
  - specialize (Hb _ eq_refl). simpl in Hb.
    destruct (decr_some r s key v (Some d')) as (r1 & Hdec & He1); [done|lia|].
    destruct (decide (v = 0)) as [->|Hne].
    { apply (Hclamp r1); [|done]. unfold zero_mem, live. simpl. by destruct (d <? s). }
    exists (v - 1), r1. split; [by apply script_pos; [|lia]|].
    unfold live. simpl. rewrite (proj2 (Z.ltb_ge d s)) by lia. simpl.
    rewrite wrap64_id by (unfold int64_range; lia). rewrite Z.max_r by lia. rewrite He1. constructor; lia.
  - destruct Hr as [Hr|Hr].
    + destruct (decr_none r s key Hr) as (r1 & ? & _). by apply (Hclamp r1).
    + destruct (decr_some r s key 0 None) as (r1 & ? & _); [done|lia|]. by apply (Hclamp r1).
Qed.

Lemma script_other r t t' key key' :
  key <> key' -> t <= t' -> entry (fst (rollback_script t key r)) t' key' = entry r t' key'.
Proof.
  intros Hk Ht. unfold rollback_script.
  pose proof (decr_other r t key key' t' ltac:(congruence) Ht) as Hd.
  destruct (cmd_decr r t key) as [r1 [e|v]]; [done|]. destruct (v <? 0); [|done].
  pose proof (set_other r1 t key "0" key' t' ltac:(congruence) Ht) as Hs.
  destruct (cmd_set r1 t key "0") as [r2 [e|]]; simpl in *; congruence.
Qed.

(** *** Runs *)

Definition call_time (o : call) : time := match o with Inc t _ _ | Roll t _ _ => t end.

(** No fault, and each command executed within [delay]. *)
Definition ready (c : RedisCounter (R := R)) : Prop :=
  prefix c = "vel" /\ forall n, faults (link c) n = None /\ 0 <= lag (link c) n <= delay.

Definition agree (t : time) (m : MemoryCounter) (c : RedisCounter (R := R)) : Prop :=
  ready c /\ forall key, sim t (mem m !! key) (entry (client c) t key).

(** [D] holds of the deadlines set so far. *)
Definition deadlines (D : time -> Prop) (m : MemoryCounter) : Prop :=
  map_Forall (fun _ e => D (expiresAt e)) (mem m).

Definition after (c : RedisCounter (R := R)) (r' : R) : RedisCounter :=
  {| client := r'; prefix := prefix c; sent := S (sent c); link := link c |}.

Lemma send_ready {A} c now (cmd : time -> R -> R * (string + A)) r' a :
  ready c -> cmd (now + lag (link c) (sent c)) (client c) = (r', inr a) ->
  send c now cmd = (after c r', (now + lag (link c) (sent c), inr a)).
Proof.
  intros [_ Hf] Hc. unfold send. destruct (maxRetries (link c)); cbn [attempts];
    rewrite (proj1 (Hf (sent c))); cbn [attempt]; by rewrite Hc.
Qed.

Lemma key_k c u w : ready c -> k c u w = key u w.
Proof. intros [Hp _]. unfold k, key. by rewrite Hp. Qed.

Lemma lag_bound c n : ready c -> 0 <= lag (link c) n <= delay.
Proof. intros [_ Hf]. apply Hf. Qed.

Lemma agree_inc n t0 m c t u w :
  agree t0 m c -> t0 <= t -> (forall key, far_from t (mem m !! key)) -> bounded_by n m -> 0 <= n < 2^63 - 1 ->
  slack < w -> w mod second = 0 ->
  exists s, t <= s <= t + slack /\ agree s (do_call m (Inc t u w)) (do_call c (Inc t u w)).
Proof.
  intros [Hr Hs] Ht Hf Hb Hn Hw Hsec. simpl. unfold rc_increment. rewrite (key_k c u w Hr).
  pose proof (lag_bound c (sent c) Hr) as Hl1. pose proof (lag_bound c (S (sent c)) Hr) as Hl2.
  set (s1 := t + lag (link c) (sent c)). set (s2 := s1 + lag (link c) (S (sent c))).
  assert (t <= s1 <= s2 /\ s2 <= t + slack) as [Hs12 Hs2] by (unfold s1, s2, slack; lia).
  destruct (incr_expire_sim (client c) t s1 s2 (key u w) w (mem m !! key u w) n)
    as (v & r1 & r2 & Hi & Hx & Hv & Hpos & Hrg & He); try done; try lia.
  { apply (sim_later _ t0 t); [done|lia|done..]. }
  { intros e He. by apply (Hb (key u w)). }
  rewrite (send_ready c t _ r1 v Hr Hi). cbn [after link sent].
  rewrite (send_ready (after c r1) _ _ r2 tt) by (try done; exact Hx).
  exists s2. split; [lia|]. split; [done|]. intros key'. simpl.
  change (<[key u w:=_]> (mem m)) with (mem (do_call m (Inc t u w))).
  rewrite do_call_lookup. case_decide as Hk; simpl in Hk.
  - subst key'. simpl. rewrite <- Hv, wrap64_id by done. rewrite He. constructor; [lia..|unfold s2, s1, slack; lia].
  - pose proof (incr_other (client c) s1 (key u w) key' s2 ltac:(congruence) ltac:(lia)) as H1.
    pose proof (expire_other r1 s2 (key u w) w key' s2 ltac:(congruence) ltac:(lia)) as H2.
    rewrite Hi in H1. rewrite Hx in H2. simpl in H1, H2. rewrite H2, H1.
    apply (sim_later _ t0 t); [done|lia|done..].
Qed.

Lemma agree_roll n t0 m c t u w :
  agree t0 m c -> t0 <= t -> (forall key, far_from t (mem m !! key)) -> bounded_by n m -> 0 <= n < 2^63 - 1 ->
  exists s, t <= s <= t + slack /\ agree s (do_call m (Roll t u w)) (do_call c (Roll t u w)).
Proof.
  intros [Hr Hs] Ht Hf Hb Hn. simpl. unfold rc_rollback. rewrite (key_k c u w Hr).
  pose proof (lag_bound c (sent c) Hr) as Hl1. set (s := t + lag (link c) (sent c)).
  assert (t <= s <= t + slack) as Hts by (unfold s, slack; lia).
  destruct (script_sim (client c) t s (key u w) (mem m !! key u w)) as (v & r' & Hsc & He); [done..| | |].
  { apply (sim_later _ t0 t); done. }
  { intros e He. specialize (Hb (key u w) e He). simpl in Hb. lia. }
  rewrite (send_ready c t _ r' v Hr Hsc).
  assert (forall x : RedisCounter * (Z * option error),
    x = (after c r', (v, None)) -> agree s (fst (mc_rollback m t u w)) (fst x)) as Hgoal.
  { intros x ->. split; [done|]. intros key'. cbn [fst after client].
    change (fst (mc_rollback m t u w)) with (do_call m (Roll t u w)).
    rewrite do_call_lookup. case_decide as Hk; simpl in Hk; [by subst key'|].
    pose proof (script_other (client c) s s (key u w) key' Hk ltac:(lia)) as Ho. rewrite Hsc in Ho. simpl in Ho.
    rewrite Ho. apply (sim_later _ t0 t); done. }
  exists s. split; [done|]. destruct (v =? 0) eqn:Hv0; [go_bool; subst v; destruct (_ == _)|]; by apply Hgoal.
Qed.

Lemma deadlines_call (D : time -> Prop) m o :
  deadlines D m -> D (call_time o + call_window o) -> deadlines D (do_call m o).
Proof.
  intros Hd HD key e. rewrite do_call_lookup. case_decide; [|by apply Hd].
  destruct o as [t1 u w|t1 u w]; simpl in *; [by intros [= <-]|].
  destruct (live (mem m !! key) t1) as [e'|] eqn:Hl; [|by apply Hd].
  intros [= <-]. simpl. apply live_Some in Hl. by apply (Hd key).
Qed.

Lemma run_agrees (D : time -> Prop) n t m c os now :
  agree t m c -> deadlines D m -> bounded_by n m -> 0 <= n -> n + Z.of_nat (length os) < 2^63 - 1 ->
  Forall (Z.le t) ((call_time <$> os) ++ [now]) ->
  StronglySorted (fun a b => a + slack <= b) ((call_time <$> os) ++ [now]) ->
  Forall (fun o => (forall d, D d -> far (call_time o) d) /\ 0 < call_window o /\ call_window o mod second = 0 /\
            D (call_time o + call_window o)) os ->
  exists s, s <= now /\ agree s (run m os) (run c os) /\ deadlines D (run m os).
Proof.
  revert n t m c. induction os as [|o os IH]; intros n t m c Ha Hd Hb Hn Hlen Hle Hsort Hall.
  - apply Forall_cons in Hle as [Hle _]. by exists t.
  - apply Forall_cons in Hall as [(Ho & Hw & Hsec & HD) Hall].
    rewrite fmap_cons in Hsort, Hle. cbn [app] in Hsort, Hle. apply StronglySorted_inv in Hsort as [Hsort Hgap].
    apply Forall_cons in Hle as [Hle _]. simpl length in Hlen. rewrite Nat2Z.inj_succ in Hlen.
    assert (slack < call_window o) as Hown by (destruct (Ho _ HD); unfold slack in *; lia).
    assert (forall key, far_from (call_time o) (mem m !! key)) as Hf.
    { intros key e He. apply Ho. by apply (Hd key). }
    assert (exists s, call_time o <= s <= call_time o + slack /\ agree s (do_call m o) (do_call c o)) as (s & Hs & Ha').
    { destruct o as [t1 u w|t1 u w]; [apply (agree_inc n t)|apply (agree_roll n t)]; done || lia. }
    apply (IH (n + 1) s (do_call m o) (do_call c o)); try done; try lia.
    + by apply deadlines_call.
    + apply do_call_bounded; [lia|done].
    + eapply Forall_impl; [exact Hgap|]. simpl. intros x Hx. lia.
Qed.

Lemma agree_get t s m c u w :
  agree s m c -> s <= t -> far_from t (mem m !! key u w) -> bounded_by (2^63 - 1) m -> rc_get c t u w = mc_get m t u w.
Proof.
  intros [Hr Hs] Hst Hf Hb. unfold rc_get, get_reply, mc_get. rewrite (key_k c u w Hr).
  pose proof (lag_bound c (sent c) Hr) as Hl. set (t' := t + lag (link c) (sent c)).
  assert (t <= t' <= t + slack) as Ht' by (unfold t', slack; lia).
  rewrite (send_ready c t _ (client c) (fst <$> entry (client c) t' (key u w)) Hr) by (fold t'; by rewrite get_ok).
  rewrite <- (live_far t t' _ Hf Ht').
  assert (sim t' (mem m !! key u w) (entry (client c) t' (key u w))) as Hsim by (by apply (sim_later _ s t)).
  inversion Hsim as [v d d' Hv Hle Hd He Hx|e x Hm Hz He Hx].
  - simpl. specialize (Hb (key u w) _ (eq_sym He)). simpl in Hb.
    rewrite Atoi_Itoa by (unfold int64_range; lia). by rewrite (proj2 (Z.ltb_ge d t')) by lia.
  - subst. unfold zero_mem in Hm.
    assert (match live (mem m !! key u w) t' with None => (0, None) | Some e => (value e, None) end
      = (0, None : option error)) as -> by (destruct (live _ _); simpl in Hm; by rewrite ?Hm).
    by destruct Hz as [->| ->].
Qed.

(** C33. The Redis counter agrees with the in-memory one.  When no command fails
    and each is executed within [delay] of being sent, so that a call takes at
    most twice that: after any calls that do not overlap, for windows of whole
    seconds, both read the same, for every user and window, provided that no call
    and not the reading comes within that time of the expiry of a counter.  (Redis
    keeps a key at 0 where the in-memory counter has none, and reports no error
    where that one says that a counter would be negative.  Within that time of the
    expiry the increment can be lost: [RedisConcurrent.expiry_between_commands].) *)
Theorem redis_agrees_with_memory cl l os now u w :
  (forall t key, entry cl t key = None) ->
  (forall n, faults l n = None /\ 0 <= lag l n <= delay) ->
  Z.of_nat (length os) < 2^63 - 1 ->
  StronglySorted (fun a b => a + slack <= b) ((call_time <$> os) ++ [now]) ->
  Forall (fun o => 0 < call_window o /\ call_window o mod second = 0) os ->
  (forall o t, o ∈ os -> t ∈ (call_time <$> os) ++ [now] ->
     t + slack < call_time o + call_window o \/ call_time o + call_window o + slack < t) ->
  Get (run (NewRedisCounterFromClient cl "" l) os) now u w
  = Get (run NewMemoryCounter os) now u w.
Proof.
  intros Hcl Hlink Hlen Hsort Hwin Hoff. simpl. set (c := NewRedisCounterFromClient cl "" l).
  set (D := fun t => exists o, o ∈ os /\ t = call_time o + call_window o).
  set (t0 := List.hd now (call_time <$> os)).
  assert (0 <= slack) as Hslack by (specialize (Hlink 0%nat); unfold slack; lia).
  assert (agree t0 NewMemoryCounter c) as Hinit.
  { split; [done|]. intros key. simpl. rewrite lookup_empty, Hcl. apply sim_zero; [done|by left]. }
  destruct (run_agrees D 0 t0 NewMemoryCounter c os now) as (s & Hs & Ha & Hd);
    [done|apply map_Forall_empty|apply map_Forall_empty|lia..| |done| |].
  - unfold t0. destruct os as [|o os']; cbn [fmap list_fmap app List.hd] in *; [repeat constructor; lia|].
    apply StronglySorted_inv in Hsort as [_ Hle]. constructor; [lia|].
    eapply Forall_impl; [exact Hle|]. simpl. intros x Hx. lia.
  - rewrite Forall_forall in Hwin |- *. intros o Ho. destruct (Hwin o Ho) as [Hw Hsec].
    split_and!; [|done|done|by exists o]. intros d (o' & Ho' & ->).
    apply (Hoff o' (call_time o)); [done|]. apply elem_of_app. left. apply list_elem_of_fmap. eauto.
  - apply (agree_get now s); [done|done| |].
    + intros e He. destruct (Hd _ _ He) as (o & Ho & ->). apply (Hoff o now Ho). apply elem_of_app. right. by left.
    + intros key e He. apply (run_bounded 0 NewMemoryCounter os) in He; simpl in *; try lia.
      apply map_Forall_empty.
Qed.

End Agreement.

(** ** A server with the documented behaviour *)

Definition ref_entry (r : gmap string rentry) (t : time) (key : string) : option rentry :=
  match r !! key with
  | Some (v, Some d) => if d <=? t then None else Some (v, Some d)
  | x => x
  end.

Definition ref_add (delta : Z) (r : gmap string rentry) (t : time) (key : string)
  : gmap string rentry * (string + Z) :=
  let '(v, d) := default ("0", None) (ref_entry r t key) in
  match Atoi v with
  | None => (r, inl "ERR value is not an integer or out of range")
  | Some n =>
      if (-2^63 <=? n + delta) && (n + delta <? 2^63)
      then (<[key := (Itoa (n + delta), d)]> r, inr (n + delta))
      else (r, inl "ERR increment or decrement would overflow")
  end.

#[global] Instance ref_server : RedisServer (gmap string rentry) := {|
  cmd_incr := ref_add 1;
  cmd_decr := ref_add (-1);
  cmd_set := fun r t key v => (<[key := (v, None)]> r, inr tt);
  cmd_expire := fun r t key w =>
    match ref_entry r t key with
    | None => (r, inr tt)
    | Some (v, _) => (if 0 <? w then <[key := (v, Some (t + w))]> r else delete key r, inr tt)
    end;
  cmd_get := fun r t key => inr (fst <$> ref_entry r t key)
|}.

Lemma ref_entry_insert r t key v d :
  match d with Some d => t < d | None => True end -> ref_entry (<[key := (v, d)]> r) t key = Some (v, d).
Proof.
  intros Hd. unfold ref_entry. rewrite lookup_insert_eq. destruct d as [d|]; [|done].
  by rewrite (proj2 (Z.leb_gt _ _)).
Qed.

Lemma ref_entry_other r t key key' x :
  key' <> key -> ref_entry (<[key := x]> r) t key' = ref_entry r t key'.
Proof. intros Hk. unfold ref_entry. by rewrite lookup_insert_ne. Qed.

Lemma ref_entry_live r t key v d : ref_entry r t key = Some (v, Some d) -> t < d.
Proof.
  unfold ref_entry. destruct (r !! key) as [[v' [d'|]]|]; try done.
  destruct (d' <=? t) eqn:He; [done|]. intros [= _ <-]. go_bool. done.
Qed.

Lemma ref_add_some delta r t key n d :
  ref_entry r t key = Some (Itoa n, d) -> int64_range n -> int64_range (n + delta) ->
  exists r', ref_add delta r t key = (r', inr (n + delta)) /\
    ref_entry r' t key = Some (Itoa (n + delta), d).
Proof.
  intros He Hn Hd. unfold ref_add. rewrite He. simpl. rewrite Atoi_Itoa by done.
  unfold int64_range in *. destruct (-2^63 <=? n + delta) eqn:?, (n + delta <? 2^63) eqn:?; go_bool; try lia.
  simpl. eexists. split; [done|]. apply ref_entry_insert. destruct d; [|done]. by apply ref_entry_live in He.
Qed.

Lemma ref_add_none delta r t key :
  ref_entry r t key = None -> int64_range delta ->
  exists r', ref_add delta r t key = (r', inr delta) /\ ref_entry r' t key = Some (Itoa delta, None).
Proof.
  intros He Hd.
  assert (ref_add delta r t key = if (-2^63 <=? 0 + delta) && (0 + delta <? 2^63)
    then (<[key := (Itoa (0 + delta), None)]> r, inr (0 + delta))
    else (r, inl "ERR increment or decrement would overflow")) as ->
    by (unfold ref_add; rewrite He; reflexivity).
  rewrite Z.add_0_l. unfold int64_range in Hd.
  destruct (-2^63 <=? delta) eqn:?, (delta <? 2^63) eqn:?; go_bool; try lia.
  simpl. eexists. split; [done|]. by apply ref_entry_insert.
Qed.

Lemma ref_add_other delta r t key key' t' :
  key' <> key -> ref_entry (fst (ref_add delta r t key)) t' key' = ref_entry r t' key'.
Proof.
  intros Hk. unfold ref_add. destruct (default _ _) as [v d]. destruct (Atoi v); [|done].
  destruct (_ && _); [|done]. by apply ref_entry_other.
Qed.

#[global] Program Instance ref_server_ok : RedisOk (gmap string rentry) := {| entry := ref_entry |}.
Next Obligation.
  intros r t t' key Ht. unfold ref_entry. destruct (r !! key) as [[v [d|]]|]; try done.
  destruct (d <=? t) eqn:H1, (d <=? t') eqn:H2; go_bool;
    [done|exfalso; lia|split_and!; [intros; lia|done|by right]|split_and!; [done|intros; lia|by left]].
Qed.
Next Obligation. intros. apply ref_add_some; unfold int64_range in *; [done|lia..]. Qed.
Next Obligation. intros. by apply ref_add_none. Qed.
Next Obligation. intros. by apply ref_add_other. Qed.
Next Obligation. intros. apply ref_add_some; unfold int64_range in *; [done|lia..]. Qed.
Next Obligation. intros. by apply ref_add_none. Qed.
Next Obligation. intros. by apply ref_add_other. Qed.
Next Obligation. intros. eexists. split; [done|]. by apply ref_entry_insert. Qed.
Next Obligation. intros. simpl. by apply ref_entry_other. Qed.
Next Obligation.
  intros r t key v d w He Hw Hs. simpl. rewrite He, (proj2 (Z.ltb_lt _ _)) by done.
  eexists. split; [done|]. apply ref_entry_insert. lia.
Qed.
Next Obligation. intros r t key w He. simpl. rewrite He. eauto. Qed.
Next Obligation.
  intros r t key w key' t' Hk Ht. simpl. destruct (ref_entry r t key) as [[v d]|]; [|done].
  simpl. destruct (0 <? w); [by apply ref_entry_other|]. unfold ref_entry. by rewrite lookup_delete_ne.
Qed.
Next Obligation. done. Qed.

(** A connection on which every command takes a nanosecond and none fails. *)
Definition sample_link : Link :=
  {| faults := fun _ => None; lag := fun _ => 1; retryable := fun _ => true; maxRetries := 3 |}.

Lemma redis_agrees_with_memory_witness :
  let os := [Inc 10 "u" WindowDay; Inc 20 "u" WindowDay; Roll 30 "v" WindowDay; Roll 40 "u" WindowDay] in
  Get (run (NewRedisCounterFromClient (∅ : gmap string rentry) "" sample_link) os) 50 "u" WindowDay
  = Get (run NewMemoryCounter os) 50 "u" WindowDay.
Proof.
  cbn zeta. apply (redis_agrees_with_memory 1).
  - intros t key. unfold entry, ref_server_ok, ref_entry. by rewrite lookup_empty.
  - intros n. split; [done|]. simpl. lia.
  - done.
  - unfold slack. simpl. repeat first [apply SSorted_nil|apply SSorted_cons|apply Forall_nil_2|apply Forall_cons_2|lia].
  - repeat constructor.
  - intros o t Ho Ht. left. unfold slack.
    assert (Forall (fun o => 60 < call_time o + call_window o)
      [Inc 10 "u" WindowDay; Inc 20 "u" WindowDay; Roll 30 "v" WindowDay; Roll 40 "u" WindowDay]) as Hf
      by (repeat constructor).
    assert (Forall (fun t => t < 55) [10; 20; 30; 40; 50]) as Hg by (repeat constructor).
    rewrite Forall_forall in Hf. rewrite Forall_forall in Hg. specialize (Hf o Ho). specialize (Hg t Ht). lia.
Defined.

(** A rollback whose first reply is lost is sent again, and the counter goes down
    by two. *)
Example rollback_sent_twice :
  let l := {| faults := fun n => if (n =? 4)%nat then Some (ReplyLost "EOF") else None;
              lag := fun _ => 0; retryable := fun _ => true; maxRetries := 3 |} in
  let c := run (NewRedisCounterFromClient (∅ : gmap string rentry) "" l)
    [Inc 1 "u" WindowDay; Inc 2 "u" WindowDay; Roll 3 "u" WindowDay] in
  Get c 4 "u" WindowDay = (0, None) /\
  Get (run NewMemoryCounter [Inc 1 "u" WindowDay; Inc 2 "u" WindowDay; Roll 3 "u" WindowDay]) 4 "u" WindowDay = (1, None).
Proof. vm_compute. done. Qed.

End Redis.
