(* ===== verification/Whitelist.v ===== *)
(** * Package whitelist: destination allowlist and source authentication
    ([internal/whitelist/whitelist.go])

    [Store] is the Go interface and [StoreSpec] what the service relies on: an
    abstract map from (user, chain, address) to a status and a verification
    time, and how each method reads or changes it, faults included.  The
    service's theorems are proved against [StoreSpec]; [MemoryStore] discharges
    it for users and chains that do not hold the separator of its string keys,
    and the PostgreSQL store (file [Db]) for all of them. *)
From Stdlib Require Import ZArith Lia Ascii String.
From stdpp Require Import base gmap strings list.
From S2P Require Import Prelude GoLib.

Open Scope Z_scope.
Open Scope go_scope.

Module Whitelist.

(** ** Data *)

Definition StatusPending : string := "PENDING".
Definition StatusVerified : string := "VERIFIED".

Record Entry := {
  UserID : string;
  Chain : string;
  Address : string;
  Label : string;
  Status : string;
  VerifiedAt : time;
  CreatedAt : time
}.

#[global] Instance Entry_eq_dec : EqDecision Entry.
Proof. solve_decision. Defined.

Abbreviation dest := (string * string * string)%type.
Definition entry_dest (e : Entry) : dest := (UserID e, Chain e, Address e).

(** ** The Store interface

    [Get] returns the entry when Go's [ok] is true. *)
Class Store (S : Type) := {
  store_Add : S -> Entry -> S * option error;
  store_List : S -> string -> list Entry * option error;
  store_Get : S -> string -> string -> string -> option Entry * option error;
  store_Update : S -> Entry -> S * option error
}.

(** What a store promises, on the destinations [dest_ok] accepts: it behaves
    like the map [view] from destinations to the status and the verification
    time of their entry, and a faulty lookup reports no entry.  A call that
    fails may still have taken effect: the answer of a database can be lost
    after the write.  [stored] is what the store makes of a time. *)
Definition after_write (err : option error) (unchanged changed : Prop) : Prop :=
  match err with
  | None => changed
  | Some _ => unchanged \/ changed
  end.

Definition entry_state (e : Entry) : string * time := (Status e, VerifiedAt e).

Class StoreSpec (S : Type) `{Store S} := {
  dest_ok : dest -> bool;
  stored : time -> time;
  store_inv : S -> Prop;
  view : S -> gmap dest (string * time);
  Get_spec s u c a : store_inv s -> dest_ok (u, c, a) = true ->
    match store_Get s u c a with
    | (Some e, None) => entry_dest e = (u, c, a) /\ view s !! (u, c, a) = Some (entry_state e)
    | (None, None) => view s !! (u, c, a) = None
    | (r, Some _) => r = None
    end;
  Add_spec s e : store_inv s -> dest_ok (entry_dest e) = true ->
    let '(s', err) := store_Add s e in
    store_inv s' /\
    after_write err (view s' = view s)
      (view s !! entry_dest e = None /\
       view s' = <[entry_dest e := (Status e, stored (VerifiedAt e))]> (view s));
  Update_spec s e : store_inv s -> dest_ok (entry_dest e) = true ->
    let '(s', err) := store_Update s e in
    store_inv s' /\
    after_write err (view s' = view s)
      (is_Some (view s !! entry_dest e) /\
       view s' = <[entry_dest e := (Status e, stored (VerifiedAt e))]> (view s))
}.

(** ** The service *)

Section Service.
Context {S : Type} `{Store S}.

Definition zero_entry : Entry :=
  {| UserID := ""; Chain := ""; Address := ""; Label := ""; Status := "";
     VerifiedAt := zero_time; CreatedAt := zero_time |}.

Definition Add (s : S) (now : time) (userID chain address label : string)
  : S * (Entry * option error) :=
  if (userID == "") || (chain == "") || (address == "") then
    (s, (zero_entry, Some (Errorf "user_id, chain, and address are required")))
  else
    let e := {| UserID := userID; Chain := chain; Address := address; Label := label;
                Status := StatusPending; VerifiedAt := zero_time; CreatedAt := now |} in
    match store_Add s e with
    | (s', Some err) => (s', (zero_entry, Some err))
    | (s', None) => (s', (e, None))
    end.

Definition List (s : S) (userID : string) : list Entry * option error := store_List s userID.

Definition mark_verified (e : Entry) (now : time) : Entry :=
  {| UserID := UserID e; Chain := Chain e; Address := Address e; Label := Label e;
     Status := StatusVerified; VerifiedAt := now; CreatedAt := CreatedAt e |}.

Definition Verify (s : S) (now : time) (userID chain address : string)
  : S * (Entry * option error) :=
  match store_Get s userID chain address with
  | (_, Some err) => (s, (zero_entry, Some err))
  | (None, None) => (s, (zero_entry, Some (Sentinel WlErrNotFound)))
  | (Some e, None) =>
      if Status e == StatusVerified then (s, (e, Some (Sentinel WlErrAlreadyVerified)))
      else
        let e' := mark_verified e now in
        match store_Update s e' with
        | (s', Some err) => (s', (zero_entry, Some err))
        | (s', None) => (s', (e', None))
        end
  end.

Definition IsWhitelisted (s : S) (userID chain address : string) : bool :=
  match store_Get s userID chain address with
  | (Some e, _) => Status e == StatusVerified
  | (None, _) => false
  end.

End Service.

(** ** MemoryStore *)

Record MemoryStore := { mem : gmap string Entry }.

Definition NewMemoryStore : MemoryStore := {| mem := ∅ |}.

Definition key (userID chain address : string) : string :=
  userID +:+ "|" +:+ chain +:+ "|" +:+ address.

Definition entry_key (e : Entry) : string := key (UserID e) (Chain e) (Address e).

Definition ms_add (s : MemoryStore) (e : Entry) : MemoryStore * option error :=
  match mem s !! entry_key e with
  | Some _ => (s, Some (Sentinel WlErrDuplicate))
  | None => ({| mem := <[entry_key e := e]> (mem s) |}, None)
  end.

(** Go ranges over the map in an unspecified order; the model's is fixed, and
    the results about it are about which entries occur. *)
Definition ms_list (s : MemoryStore) (userID : string) : list Entry * option error :=
  (filter (fun e => UserID e = userID) (map snd (map_to_list (mem s))), None).

Definition ms_get (s : MemoryStore) (userID chain address : string)
  : option Entry * option error :=
  (mem s !! key userID chain address, None).

Definition ms_update (s : MemoryStore) (e : Entry) : MemoryStore * option error :=
  match mem s !! entry_key e with
  | None => (s, Some (Sentinel WlErrNotFound))
  | Some _ => ({| mem := <[entry_key e := e]> (mem s) |}, None)
  end.

#[global] Instance MemoryStore_Store : Store MemoryStore := {|
  store_Add := ms_add; store_List := ms_list; store_Get := ms_get; store_Update := ms_update |}.

(** ** Source authentication *)

Record SourceAuthResult := {
  OK : bool; Reason : string; res_Requires2FA : bool; TwoFAPassed : bool
}.

Definition CheckSourceAuth (sessionValid requires2FA twoFAPassed : bool) : SourceAuthResult :=
  if negb sessionValid then
    {| OK := false; Reason := "invalid_session"; res_Requires2FA := false; TwoFAPassed := false |}
  else if requires2FA && negb twoFAPassed then
    {| OK := false; Reason := "2fa_required"; res_Requires2FA := true; TwoFAPassed := false |}
  else
    {| OK := true; Reason := ""; res_Requires2FA := requires2FA; TwoFAPassed := twoFAPassed |}.

(** ** MemoryStore implements the interface

    The keys of the store join three fields with a bar: they determine the
    fields when user and chain hold no bar. *)

Definition sep_free (d : dest) : bool :=
  let '(u, c, _) := d in free "|" u && free "|" c.

Definition dest_key (d : dest) : string := let '(u, c, a) := d in key u c a.

Lemma dest_key_inj d1 d2 :
  sep_free d1 = true -> sep_free d2 = true -> dest_key d1 = dest_key d2 -> d1 = d2.
Proof.
  destruct d1 as [[u1 c1] a1], d2 as [[u2 c2] a2]. unfold sep_free. intros H1 H2 Hk.
  go_bool. unfold dest_key, key in Hk.
  apply (join_inj_l "|") in Hk as [-> Hk]; [|done..].
  apply (join_inj_l "|") in Hk as [-> ->]; done.
Qed.

(** Every entry sits under its own key, and that key is separator-free. *)
Definition ms_inv (s : MemoryStore) : Prop :=
  map_Forall (fun k e => k = dest_key (entry_dest e) /\ sep_free (entry_dest e) = true) (mem s).

Definition ms_view (s : MemoryStore) : gmap dest Entry :=
  list_to_map ((fun ke => (entry_dest (snd ke), snd ke)) <$> map_to_list (mem s)).

Lemma ms_view_lookup s d :
  ms_inv s -> sep_free d = true -> ms_view s !! d = mem s !! dest_key d.
Proof.
  intros Hinv Hd.
  assert (forall e, ms_view s !! d = Some e <-> mem s !! dest_key d = Some e) as Hiff.
  { intros e. unfold ms_view. rewrite <- elem_of_list_to_map.
    - rewrite list_elem_of_fmap. split.
      + intros ([k e'] & [= -> ->] & Hke). apply elem_of_map_to_list in Hke.
        destruct (Hinv _ _ Hke) as [-> _]. done.
      + intros He. exists (dest_key d, e). rewrite elem_of_map_to_list. split; [|done].
        destruct (Hinv _ _ He) as [Hk Hs]. simpl. f_equal. by apply dest_key_inj.
    - rewrite <- list_fmap_compose. apply NoDup_fmap_2_strong; [|apply NoDup_map_to_list].
      intros [k1 e1] [k2 e2] H1 H2 Heq. apply elem_of_map_to_list in H1, H2. simpl in Heq.
      destruct (Hinv _ _ H1) as [-> _], (Hinv _ _ H2) as [-> _].
      rewrite Heq in H1 |- *. rewrite H1 in H2. by simplify_eq. }
  apply option_eq. exact Hiff.
Qed.

Lemma ms_inv_insert s e :
  ms_inv s -> sep_free (entry_dest e) = true ->
  ms_inv {| mem := <[entry_key e := e]> (mem s) |}.
Proof. intros Hs He. apply map_Forall_insert_2; done. Qed.

Lemma ms_inv_lookup_bad s d : ms_inv s -> sep_free d = false -> ms_view s !! d = None.
Proof.
  intros Hs Hd. apply not_elem_of_list_to_map_1. rewrite <- list_fmap_compose.
  rewrite list_elem_of_fmap. intros ([k e] & -> & Hke).
  apply elem_of_map_to_list in Hke. destruct (Hs _ _ Hke) as [_ ?]. simpl in *. congruence.
Qed.

Lemma ms_view_insert s e :
  ms_inv s -> sep_free (entry_dest e) = true ->
  ms_view {| mem := <[entry_key e := e]> (mem s) |} = <[entry_dest e := e]> (ms_view s).
Proof.
  intros Hs He. pose proof (ms_inv_insert s e Hs He) as Hs'.
  apply map_eq. intros d. destruct (sep_free d) eqn:Hd.
  - rewrite ms_view_lookup by done. simpl. destruct (decide (entry_dest e = d)) as [<-|Hne].
    + by rewrite !lookup_insert_eq.
    + rewrite (lookup_insert_ne (ms_view s)) by done.
      rewrite lookup_insert_ne, ms_view_lookup; try done.
      intros Hk. apply Hne. by apply dest_key_inj.
  - rewrite ms_inv_lookup_bad by done. destruct (decide (entry_dest e = d)) as [<-|Hne].
    + congruence.
    + by rewrite lookup_insert_ne, ms_inv_lookup_bad.
Qed.

Definition ms_state (s : MemoryStore) : gmap dest (string * time) := entry_state <$> ms_view s.

Lemma ms_state_lookup s d :
  ms_inv s -> sep_free d = true -> ms_state s !! d = entry_state <$> mem s !! dest_key d.
Proof. intros Hs Hd. unfold ms_state. by rewrite lookup_fmap, ms_view_lookup. Qed.

Lemma ms_state_insert s e :
  ms_inv s -> sep_free (entry_dest e) = true ->
  ms_state {| mem := <[entry_key e := e]> (mem s) |} = <[entry_dest e := entry_state e]> (ms_state s).
Proof. intros Hs He. unfold ms_state. by rewrite ms_view_insert, fmap_insert. Qed.

#[global] Program Instance MemoryStore_StoreSpec : StoreSpec MemoryStore := {|
  dest_ok := sep_free; stored := fun t => t; store_inv := ms_inv; view := ms_state |}.
Next Obligation.
  intros s u c a Hs Hd. simpl. pose proof (ms_state_lookup s (u, c, a) Hs Hd) as Hl.
  simpl in Hl. destruct (mem s !! key u c a) as [e|] eqn:He; [|done]. split; [|done].
  destruct (Hs _ _ He) as [Hk Hf]. by apply dest_key_inj.
Qed.
Next Obligation.
  intros s e Hs He. simpl. unfold ms_add.
  pose proof (ms_state_lookup s (entry_dest e) Hs He) as Hl. change (dest_key _) with (entry_key e) in Hl.
  destruct (mem s !! entry_key e) eqn:Hk; [split; [done|by left]|].
  simpl; split_and!; [by apply ms_inv_insert|by rewrite Hl|by apply ms_state_insert].
Qed.
Next Obligation.
  intros s e Hs He. simpl. unfold ms_update.
  pose proof (ms_state_lookup s (entry_dest e) Hs He) as Hl. change (dest_key _) with (entry_key e) in Hl.
  destruct (mem s !! entry_key e) eqn:Hk; [|split; [done|by left]].
  simpl; split_and!; [by apply ms_inv_insert|rewrite Hl; by eexists|by apply ms_state_insert].
Qed.

Lemma ms_inv_new : ms_inv NewMemoryStore.
Proof. apply map_Forall_empty. Qed.

(** ** The life of an entry

    The mutating calls of the service and what a sequence of them does. *)
Inductive op :=
| OpAdd (now : time) (userID chain address label : string)
| OpVerify (now : time) (userID chain address : string).

Definition op_dest (o : op) : dest :=
  match o with OpAdd _ u c a _ | OpVerify _ u c a => (u, c, a) end.

Definition is_add (o : op) : bool := match o with OpAdd _ _ _ _ _ => true | _ => false end.

Section Lifecycle.
Context {S : Type} `{StoreSpec S}.

Definition do_op (s : S) (o : op) : S :=
  match o with
  | OpAdd now u c a l => fst (Add s now u c a l)
  | OpVerify now u c a => fst (Verify s now u c a)
  end.

Definition run_ops (s : S) (os : list op) : S := fold_left do_op os s.

Definition ops_ok (os : list op) : Prop := Forall (fun o => dest_ok (op_dest o) = true) os.

(** [d] was added, and [d] was added and later verified. *)
Definition added (d : dest) (os : list op) : Prop :=
  exists o, o ∈ os /\ is_add o = true /\ op_dest o = d.
Definition added_verified (d : dest) (os : list op) : Prop :=
  exists os1 o os2, os = os1 ++ o :: os2 /\ is_add o = false /\ op_dest o = d /\ added d os1.

(** What the entries of a store say about the calls that made it. *)
Definition history_inv (os : list op) (s : S) : Prop :=
  forall d st t, view s !! d = Some (st, t) ->
    (st = StatusPending /\ added d os) \/ (st = StatusVerified /\ added_verified d os).

Lemma added_snoc d os o : added d os -> added d (os ++ [o]).
Proof. intros (o' & Ho & ?). exists o'. split; [set_solver|done]. Qed.

Lemma added_verified_snoc d os o : added_verified d os -> added_verified d (os ++ [o]).
Proof.
  intros (os1 & o' & os2 & -> & ?). exists os1, o', (os2 ++ [o]).
  by rewrite <- app_assoc.
Qed.

Lemma history_mono os o s : history_inv os s -> history_inv (os ++ [o]) s.
Proof.
  intros Hh d st t Hd. destruct (Hh _ _ _ Hd) as [[? ?]|[? ?]];
    eauto using added_snoc, added_verified_snoc.
Qed.

(** What a verification and an addition may do to the map: nothing, or the one
    change they are for; a call without an error has made it. *)
Lemma Verify_step s now u c a :
  store_inv s -> dest_ok (u, c, a) = true ->
  let '(s', (_, err)) := Verify s now u c a in
  store_inv s' /\
  after_write err (view s' = view s)
    (exists st t, view s !! (u, c, a) = Some (st, t) /\ st <> StatusVerified /\
       view s' = <[(u, c, a) := (StatusVerified, stored now)]> (view s)).
Proof.
  intros Hs Hd. unfold Verify. pose proof (Get_spec s u c a Hs Hd) as Hg.
  destruct (store_Get s u c a) as [[e|] [err|]]; simpl; try (split; [done|by left]).
  destruct Hg as [He Hv]. case_bool_decide as Hst; [split; [done|by left]|].
  pose proof (Update_spec s (mark_verified e now)) as Hup.
  change (entry_dest (mark_verified e now)) with (entry_dest e) in Hup. rewrite He in Hup.
  specialize (Hup Hs Hd). unfold entry_state in Hv.
  destruct (store_Update s (mark_verified e now)) as [s2 err]. destruct Hup as [Hs2 Hup].
  destruct err; simpl in *; (split; [done|]); naive_solver.
Qed.

Lemma Add_step s now u c a l :
  store_inv s -> dest_ok (u, c, a) = true ->
  let '(s', (_, err)) := Add s now u c a l in
  store_inv s' /\
  after_write err (view s' = view s)
    (view s !! (u, c, a) = None /\
     view s' = <[(u, c, a) := (StatusPending, stored zero_time)]> (view s)).
Proof.
  intros Hs Hd. unfold Add. destruct (_ || _); [split; [done|by left]|].
  match goal with |- context [store_Add s ?e] => pose proof (Add_spec s e Hs Hd) as Ha;
    destruct (store_Add s e) as [s' err] end.
  destruct Ha as [Hs' Ha]. by destruct err.
Qed.

(** One call, seen on the map. *)
Inductive view_step (v : gmap dest (string * time)) : op -> gmap dest (string * time) -> Prop :=
| view_same o : view_step v o v
| view_add now u c a l :
    v !! (u, c, a) = None ->
    view_step v (OpAdd now u c a l) (<[(u, c, a) := (StatusPending, stored zero_time)]> v)
| view_verify now u c a st t :
    v !! (u, c, a) = Some (st, t) -> st <> StatusVerified ->
    view_step v (OpVerify now u c a) (<[(u, c, a) := (StatusVerified, stored now)]> v).

Lemma do_op_step s o :
  store_inv s -> dest_ok (op_dest o) = true ->
  store_inv (do_op s o) /\ view_step (view s) o (view (do_op s o)).
Proof.
  intros Hs Hd. destruct o as [now u c a l|now u c a]; simpl in *.
  - pose proof (Add_step s now u c a l Hs Hd) as Ha.
    destruct (Add s now u c a l) as [s' [e err]]; simpl. destruct Ha as [Hs' Ha].
    split; [done|]. destruct err as [err|]; simpl in Ha; [destruct Ha as [->|[? ->]]|destruct Ha as [? ->]];
      by constructor.
  - pose proof (Verify_step s now u c a Hs Hd) as Hv.
    destruct (Verify s now u c a) as [s' [e err]]; simpl. destruct Hv as [Hs' Hv].
    split; [done|].
    destruct err as [err|]; simpl in Hv;
      [destruct Hv as [->|(st & t & ? & ? & ->)]|destruct Hv as (st & t & ? & ? & ->)];
      by econstructor.
Qed.

Lemma run_ops_inv s os : store_inv s -> ops_ok os -> store_inv (run_ops s os).
Proof.
  revert s. induction os as [|o os IH]; intros s Hs Hok; [done|].
  apply Forall_cons in Hok as [Ho Hok]. apply IH; [|done]. by apply do_op_step.
Qed.

Lemma do_op_history os o s :
  store_inv s -> history_inv os s -> dest_ok (op_dest o) = true ->
  history_inv (os ++ [o]) (do_op s o).
Proof.
  intros Hs Hh Hd. pose proof (history_mono os o s Hh) as Hh'.
  destruct (do_op_step s o Hs Hd) as [_ Hstep]. intros d st t.
  revert Hstep. generalize (view (do_op s o)). intros v' Hstep.
  inversion Hstep as [o' Ho Hv|now u c a l Hn Ho Hv|now u c a st0 t0 He Hst Ho Hv]; subst.
  - apply Hh'.
  - intros [[<- [= <- <-]]|[_ ?]]%lookup_insert_Some; [|by eapply Hh'].
    left. split; [done|]. exists (OpAdd now u c a l). split; [set_solver|done].
  - intros [[<- [= <- <-]]|[_ ?]]%lookup_insert_Some; [|by eapply Hh'].
    right. split; [done|]. destruct (Hh _ _ _ He) as [[_ Hadd]|[? _]]; [|done].
    exists os, (OpVerify now u c a), []. done.
Qed.

Lemma run_ops_history os s0 :
  store_inv s0 -> view s0 = ∅ -> ops_ok os -> history_inv os (run_ops s0 os).
Proof.
  intros Hs0 Hv0. unfold run_ops. induction os as [|o os IH] using rev_ind; intros Hok.
  - intros d st t. simpl. by rewrite Hv0, lookup_empty.
  - unfold ops_ok in Hok. rewrite Forall_app, Forall_singleton in Hok. destruct Hok as [Hok Ho].
    rewrite fold_left_app. simpl. apply do_op_history; [by apply run_ops_inv|by apply IH|done].
Qed.

(** What [IsWhitelisted] reads; a failed lookup counts as not whitelisted. *)
Lemma IsWhitelisted_view s u c a :
  store_inv s -> dest_ok (u, c, a) = true ->
  IsWhitelisted s u c a = true <->
  snd (store_Get s u c a) = None /\ exists t, view s !! (u, c, a) = Some (StatusVerified, t).
Proof.
  intros Hs Hd. unfold IsWhitelisted. pose proof (Get_spec s u c a Hs Hd) as Hg.
  destruct (store_Get s u c a) as [[e|] [err|]]; simpl; try done.
  - destruct Hg as [_ ->]. rewrite bool_decide_eq_true. unfold entry_state. split.
    + intros ->. split; [done|by eexists].
    + by intros [_ [t [= ]]].
  - by split; [|intros [? _]].
  - rewrite Hg. by split; [|intros [_ [? ?]]].
Qed.

Lemma IsWhitelisted_history os s0 u c a :
  store_inv s0 -> view s0 = ∅ -> ops_ok os -> dest_ok (u, c, a) = true ->
  IsWhitelisted (run_ops s0 os) u c a = true -> added_verified (u, c, a) os.
Proof.
  intros Hs0 Hv0 Hok Hd Hw. pose proof (run_ops_inv s0 os Hs0 Hok) as Hs.
  apply IsWhitelisted_view in Hw as [_ [t Ht]]; [|done..].
  destruct (run_ops_history os s0 Hs0 Hv0 Hok _ _ _ Ht) as [[? _]|[_ ?]]; done.
Qed.

Lemma run_ops_keeps_verified s os d t :
  store_inv s -> ops_ok os -> view s !! d = Some (StatusVerified, t) ->
  view (run_ops s os) !! d = Some (StatusVerified, t).
Proof.
  revert s. induction os as [|o os IH]; intros s Hs Hok Hd; [done|].
  apply Forall_cons in Hok as [Ho Hok]. destruct (do_op_step s o Hs Ho) as [Hs' Hstep].
  apply IH; [done..|]. revert Hstep. generalize (view (do_op s o)). intros v' Hstep.
  inversion Hstep as [o' E Hv|? u c a l Hn E Hv|? u c a st0 t0 He Hst E Hv]; subst; [done|..];
    (rewrite lookup_insert_ne; [done|congruence]).
Qed.

(** Verification is permanent, in every store that keeps the promises of the
    interface: once [Verify] has succeeded, the address is whitelisted after
    every further sequence of calls, with the same verification time, except
    while the store fails to answer. *)
Theorem verification_permanent s now u c a os :
  store_inv s -> dest_ok (u, c, a) = true -> ops_ok os ->
  snd (snd (Verify s now u c a)) = None ->
  let s' := run_ops (fst (Verify s now u c a)) os in
  view s' !! (u, c, a) = Some (StatusVerified, stored now) /\
  IsWhitelisted s' u c a = match snd (store_Get s' u c a) with None => true | Some _ => false end.
Proof.
  intros Hs Hd Hok Hok'. cbn zeta. pose proof (Verify_step s now u c a Hs Hd) as Hv.
  destruct (Verify s now u c a) as [s1 [e err]]. simpl in *. subst err.
  destruct Hv as (Hs1 & st & t & _ & _ & Hv).
  assert (view (run_ops s1 os) !! (u, c, a) = Some (StatusVerified, stored now)) as Hk
    by (apply run_ops_keeps_verified; [done..|]; by rewrite Hv, lookup_insert_eq).
  split; [done|]. pose proof (IsWhitelisted_view _ u c a (run_ops_inv s1 os Hs1 Hok) Hd) as Hw.
  rewrite Hk in Hw. destruct (snd (store_Get _ u c a)) as [err|] eqn:He.
  - destruct (IsWhitelisted _ u c a); [|done]. by destruct (proj1 Hw eq_refl).
  - apply Hw. eauto.
Qed.

End Lifecycle.

Lemma verification_permanent_witness :
  let s := run_ops NewMemoryStore [OpAdd 1 "u" "btc" "addr" ""] in
  let s' := run_ops (fst (Verify s 2 "u" "btc" "addr"))
    [OpVerify 3 "u" "btc" "addr"; OpAdd 4 "u" "btc" "addr" "again"] in
  view s' !! ("u", "btc", "addr") = Some (StatusVerified, 2) /\
  IsWhitelisted s' "u" "btc" "addr" = true.
Proof.
  refine (verification_permanent (run_ops NewMemoryStore [OpAdd 1 "u" "btc" "addr" ""]) 2
    "u" "btc" "addr" [OpVerify 3 "u" "btc" "addr"; OpAdd 4 "u" "btc" "addr" "again"] _ _ _ _);
    [|reflexivity|repeat constructor|vm_compute; reflexivity].
  apply run_ops_inv; [apply ms_inv_new|repeat constructor].
Defined.

(** The separator of the in-memory store's keys is not escaped: two users
    whose names hold it can share a key, and then an address verified by one
    counts as whitelisted for the other, who never added any. *)
Theorem key_collision_whitelists_other_user :
  exists os u c a, (forall o, o ∈ os -> fst (fst (op_dest o)) <> u) /\
    IsWhitelisted (run_ops NewMemoryStore os) u c a = true.
Proof.
  exists [OpAdd 1 "a" "b|c" "d" ""; OpVerify 2 "a" "b|c" "d"], "a|b", "c", "d".
  split; [|vm_compute; reflexivity].
  intros o Ho. rewrite !elem_of_cons, elem_of_nil in Ho.
  destruct Ho as [->|[->|[]]]; discriminate.
Qed.

End Whitelist.
