(* ===== verification/Review.v ===== *)
(** * Package review: the queue of parked decisions
    ([internal/review/review.go], [internal/review/notifier.go])

    [Store] is the Go interface and [StoreSpec] what the service relies on;
    [MemoryStore] discharges it.  [NotifyResolution] is the webhook with its
    retries: the network is an oracle that gives the outcome of each attempt. *)
From Stdlib Require Import ZArith Lia Ascii String.
From stdpp Require Import base gmap strings list relations.
From S2P Require Import Prelude GoLib.

Open Scope Z_scope.
Open Scope go_scope.

Module Review.

(** ** Data *)

Definition StatusPending : string := "PENDING".
Definition StatusResolved : string := "RESOLVED".
Definition ResolutionAllow : string := "ALLOW".
Definition ResolutionDeny : string := "DENY".

Record Item := {
  DecisionID : string;
  TxID : string;
  Status : string;
  AssignedTo : string;
  CreatedAt : time;
  ResolvedAt : option time;
  Resolution : string
}.

Definition zero_item : Item :=
  {| DecisionID := ""; TxID := ""; Status := ""; AssignedTo := ""; CreatedAt := zero_time;
     ResolvedAt := None; Resolution := "" |}.

(** ** The Store interface *)

Class Store (S : Type) := {
  store_Put : S -> Item -> S * option error;
  store_Get : S -> string -> option Item * option error;
  store_List : S -> string -> list Item * option error;
  store_Update : S -> Item -> S * option error
}.

(** A store behaves like a map from decision ids to items; a failed call
    changes nothing, and a duplicate is refused. *)
Class StoreSpec (S : Type) `{Store S} := {
  store_inv : S -> Prop;
  view : S -> gmap string Item;
  Get_spec s d : store_inv s ->
    match store_Get s d with
    | (r, None) => r = view s !! d
    | (r, Some _) => r = None
    end;
  Put_spec s i : store_inv s ->
    let '(s', err) := store_Put s i in
    store_inv s' /\
    match err with
    | None => view s !! DecisionID i = None /\ view s' = <[DecisionID i := i]> (view s)
    | Some _ => view s' = view s
    end;
  Update_spec s i : store_inv s ->
    let '(s', err) := store_Update s i in
    store_inv s' /\
    match err with
    | None => is_Some (view s !! DecisionID i) /\ view s' = <[DecisionID i := i]> (view s)
    | Some _ => view s' = view s
    end
}.

(** ** Notifier *)

(** What one attempt at the webhook meets: the request cannot be built, the
    client returns an error, or there is a response with a status code. *)
Inductive attempt :=
| BuildError (e : error)
| NetError (e : error)
| Response (status : Z).

(** The outside world of one notification: whether the item can be encoded (a
    time outside the years 0 to 9999 cannot), the outcome of each attempt, and for
    each wait before a retry whether the context was done first. *)
Record network := {
  marshal : Item -> option error;
  reply : nat -> attempt;
  cancelled : nat -> option error
}.

Record Notifier := { url : string }.

Definition NewNotifier (env : environ) : Notifier :=
  {| url := env "TX_ORCHESTRATOR_WEBHOOK_URL" |}.

(** A nil notifier is [None]. *)
Definition Enabled (n : option Notifier) : bool :=
  match n with Some n => url n != "" | None => false end.

(** A POST sent to the webhook, with its idempotency key. *)
Record post := { post_url : string; post_item : Item; idempotency_key : string }.

Definition make_post (n : Notifier) (item : Item) : post :=
  {| post_url := url n; post_item := item; idempotency_key := DecisionID item |}.

(** The loop from attempt [k] with [fuel] attempts left: the POSTs sent and the
    error returned. *)
Fixpoint notify_loop (net : network) (n : Notifier) (item : Item) (fuel k : nat)
    (lastErr : option error) : list post * option error :=
  match fuel with
  | O => ([], lastErr)
  | Datatypes.S fuel' =>
      match (match k with O => None | _ => cancelled net k end) with
      | Some e => ([], Some e)
      | None =>
          match reply net k with
          | BuildError e => ([], Some (Wrapf "build request" e))
          | NetError e =>
              let '(ps, r) := notify_loop net n item fuel' (Datatypes.S k) (Some e) in
              (make_post n item :: ps, r)
          | Response st =>
              if Z.quot st 100 =? 2 then ([make_post n item], None)
              else if Z.quot st 100 =? 4 then
                ([make_post n item],
                 Some (Errorf ("orchestrator webhook rejected: status " +:+ Itoa st)))
              else
                let '(ps, r) := notify_loop net n item fuel' (Datatypes.S k)
                  (Some (Errorf ("orchestrator webhook status " +:+ Itoa st))) in
                (make_post n item :: ps, r)
          end
      end
  end.

Definition NotifyResolution (net : network) (n : option Notifier) (item : Item)
  : list post * option error :=
  match n with
  | None => ([], None)
  | Some n' =>
      if negb (Enabled n) then ([], None)
      else if Status item != StatusResolved then
        ([], Some (Errorf "notifier: item is not resolved"))
      else match marshal net item with
           | Some e => ([], Some (Wrapf "marshal" e))
           | None => notify_loop net n' item 3 0 None
           end
  end.

(** ** The service *)

Section Service.
Context {S : Type} `{Store S}.

Definition Park (s : S) (now : time) (decisionID txID : string) : S * (Item * option error) :=
  if decisionID == "" then (s, (zero_item, Some (Errorf "decision_id is required")))
  else
    let item := {| DecisionID := decisionID; TxID := txID; Status := StatusPending;
                   AssignedTo := ""; CreatedAt := now; ResolvedAt := None; Resolution := "" |} in
    match store_Put s item with
    | (s', Some err) => (s', (zero_item, Some err))
    | (s', None) => (s', (item, None))
    end.

Definition valid_resolution (resolution : string) : bool :=
  (resolution == ResolutionAllow) || (resolution == ResolutionDeny).

Definition resolve_item (item : Item) (now : time) (assignee resolution : string) : Item :=
  {| DecisionID := DecisionID item; TxID := TxID item; Status := StatusResolved;
     AssignedTo := assignee; CreatedAt := CreatedAt item; ResolvedAt := Some now;
     Resolution := resolution |}.

(** The POSTs of the notification are part of the result; its error is dropped. *)
Definition Resolve (s : S) (n : option Notifier) (net : network) (now : time)
    (decisionID assignee resolution : string) : S * (Item * option error) * list post :=
  if negb (valid_resolution resolution) then
    ((s, (zero_item, Some (Sentinel RevErrInvalidResolution))), [])
  else
    match store_Get s decisionID with
    | (_, Some err) => ((s, (zero_item, Some err)), [])
    | (None, None) => ((s, (zero_item, Some (Sentinel RevErrNotFound))), [])
    | (Some item, None) =>
        if Status item == StatusResolved then
          ((s, (zero_item, Some (Sentinel RevErrAlreadyResolved))), [])
        else
          let item' := resolve_item item now assignee resolution in
          match store_Update s item' with
          | (s', Some err) => ((s', (zero_item, Some err)), [])
          | (s', None) =>
              ((s', (item', None)),
               if Enabled n then fst (NotifyResolution net n item') else [])
          end
    end.

Definition Get (s : S) (decisionID : string) : Item * option error :=
  match store_Get s decisionID with
  | (_, Some err) => (zero_item, Some err)
  | (None, None) => (zero_item, Some (Sentinel RevErrNotFound))
  | (Some item, None) => (item, None)
  end.

Definition List (s : S) (status : string) : list Item * option error := store_List s status.

End Service.

(** ** MemoryStore *)

Record MemoryStore := { mem : gmap string Item; order : list string }.

Definition NewMemoryStore : MemoryStore := {| mem := ∅; order := [] |}.

Definition ms_put (s : MemoryStore) (item : Item) : MemoryStore * option error :=
  if DecisionID item == "" then (s, Some (Errorf "decision_id required"))
  else match mem s !! DecisionID item with
       | Some _ => (s, Some (Sentinel RevErrDuplicate))
       | None => ({| mem := <[DecisionID item := item]> (mem s);
                     order := order s ++ [DecisionID item] |}, None)
       end.

Definition ms_get (s : MemoryStore) (decisionID : string) : option Item * option error :=
  (mem s !! decisionID, None).

(** Reading a missing key of a Go map gives the zero item. *)
Definition ms_list (s : MemoryStore) (status : string) : list Item * option error :=
  (filter (fun item => status = "" \/ Status item = status)
     ((fun id => default zero_item (mem s !! id)) <$> order s), None).

Definition ms_update (s : MemoryStore) (item : Item) : MemoryStore * option error :=
  match mem s !! DecisionID item with
  | None => (s, Some (Sentinel RevErrNotFound))
  | Some _ => ({| mem := <[DecisionID item := item]> (mem s); order := order s |}, None)
  end.

#[global] Instance MemoryStore_Store : Store MemoryStore := {|
  store_Put := ms_put; store_Get := ms_get; store_List := ms_list; store_Update := ms_update |}.

(** The order lists each stored id once, and each item sits under its id. *)
Definition ms_inv (s : MemoryStore) : Prop :=
  NoDup (order s) /\ (forall d, d ∈ order s <-> is_Some (mem s !! d)) /\
  map_Forall (fun d i => DecisionID i = d) (mem s).

Lemma queue_inv_new : ms_inv NewMemoryStore.
Proof.
  split_and!; simpl; [constructor| |apply map_Forall_empty].
  intros d. rewrite elem_of_nil, lookup_empty. split; [done|]. by intros [].
Qed.

Lemma ms_put_inv s i : ms_inv s -> ms_inv (fst (ms_put s i)).
Proof.
  intros (Hnd & Hdom & Hid). unfold ms_put. case_bool_decide; [done|].
  destruct (mem s !! DecisionID i) eqn:Hi; [done|]. simpl. split_and!; simpl.
  - apply NoDup_app. split_and!; [done| |apply NoDup_singleton].
    intros d Hd%Hdom [=->]%list_elem_of_singleton. by destruct Hd; congruence.
  - intros d. rewrite elem_of_app, list_elem_of_singleton, Hdom, lookup_insert_is_Some.
    destruct (decide (DecisionID i = d)); naive_solver.
  - by apply map_Forall_insert_2.
Qed.

Lemma ms_update_inv s i : ms_inv s -> ms_inv (fst (ms_update s i)).
Proof.
  intros (Hnd & Hdom & Hid). unfold ms_update.
  destruct (mem s !! DecisionID i) eqn:Hi; [|done]. simpl. split_and!; simpl; [done| |].
  - intros d. rewrite Hdom, lookup_insert_is_Some.
    destruct (decide (DecisionID i = d)) as [<-|]; [|naive_solver].
    rewrite Hi. naive_solver.
  - by apply map_Forall_insert_2.
Qed.

#[global] Program Instance MemoryStore_StoreSpec : StoreSpec MemoryStore := {|
  store_inv := ms_inv; view := mem |}.
Next Obligation. done. Qed.
Next Obligation.
  intros s i Hs. simpl. pose proof (ms_put_inv s i Hs) as Hs'. unfold ms_put in *.
  case_bool_decide; [done|]. by destruct (mem s !! DecisionID i) eqn:Hi.
Qed.
Next Obligation.
  intros s i Hs. simpl. pose proof (ms_update_inv s i Hs) as Hs'. unfold ms_update in *.
  destruct (mem s !! DecisionID i) eqn:Hi; [|done]. by split_and!.
Qed.

(** ** The life of an item *)

Inductive op :=
| OpPark (now : time) (decisionID txID : string)
| OpResolve (n : option Notifier) (net : network) (now : time)
    (decisionID assignee resolution : string).

(** Pending items carry no resolution; resolved ones carry a valid resolution
    and its time. *)
Definition item_ok (i : Item) : Prop :=
  (Status i = StatusPending /\ ResolvedAt i = None /\ Resolution i = "" /\ AssignedTo i = "") \/
  (Status i = StatusResolved /\ is_Some (ResolvedAt i) /\ valid_resolution (Resolution i) = true).

Section Lifecycle.
Context {S : Type} `{StoreSpec S}.

Definition do_op (s : S) (o : op) : S :=
  match o with
  | OpPark now d tx => fst (Park s now d tx)
  | OpResolve n net now d who res => fst (fst (Resolve s n net now d who res))
  end.

Definition run_ops (s : S) (os : list op) : S := fold_left do_op os s.

(** The invariant: items are well formed and sit under their ids. *)
Definition queue_ok (s : S) : Prop :=
  store_inv s /\ map_Forall (fun d i => DecisionID i = d /\ item_ok i) (view s).

Lemma Park_step s now d tx :
  store_inv s ->
  let '(s', (i, err)) := Park s now d tx in
  store_inv s' /\
  match err with
  | Some _ => view s' = view s
  | None => view s !! d = None /\ view s' = <[d := i]> (view s) /\
            DecisionID i = d /\ item_ok i /\ Status i = StatusPending
  end.
Proof.
  intros Hs. unfold Park. case_bool_decide; [done|].
  match goal with |- context [store_Put s ?i] => pose proof (Put_spec s i Hs) as Hp;
    destruct (store_Put s i) as [s' [err|]] end; [done|].
  destruct Hp as (? & ? & ?). split_and!; try done. left. done.
Qed.

Lemma Resolve_step s n net now d who res :
  queue_ok s ->
  let '(s', (i, err), posts) := Resolve s n net now d who res in
  store_inv s' /\
  match err with
  | Some _ => view s' = view s /\ posts = []
  | None => exists i0, view s !! d = Some i0 /\ Status i0 <> StatusResolved /\
              i = resolve_item i0 now who res /\ valid_resolution res = true /\
              view s' = <[d := i]> (view s)
  end.
Proof.
  intros [Hs Hq]. unfold Resolve. destruct (valid_resolution res) eqn:Hres; [|done]. simpl.
  pose proof (Get_spec s d Hs) as Hg.
  destruct (store_Get s d) as [[i0|] [err|]]; simplify_eq/=; try done.
  case_bool_decide; [done|]. destruct (Hq _ _ (eq_sym Hg)) as [Hid _].
  pose proof (Update_spec s (resolve_item i0 now who res) Hs) as Hu.
  simpl in Hu. rewrite Hid in Hu.
  destruct (store_Update s _) as [s2 [err|]]; [naive_solver|].
  destruct Hu as (? & _ & ?). split; [done|]. exists i0. done.
Qed.

Lemma resolve_item_ok i now who res :
  valid_resolution res = true -> item_ok (resolve_item i now who res).
Proof. intros Hr. right. split_and!; [done|by eexists|done]. Qed.

Lemma do_op_queue_ok s o : queue_ok s -> queue_ok (do_op s o).
Proof.
  intros Hq. destruct o as [now d tx|n net now d who res]; simpl.
  - pose proof (Park_step s now d tx (proj1 Hq)) as Hp.
    destruct (Park s now d tx) as [s' [i [err|]]]; simpl; destruct Hp as (Hs & Hp); split; try done.
    + rewrite Hp. apply Hq.
    + destruct Hp as (_ & -> & Hid & Hok & _). apply map_Forall_insert_2; [done|apply Hq].
  - pose proof (Resolve_step s n net now d who res Hq) as Hr.
    destruct (Resolve s n net now d who res) as [[s' [i [err|]]] ps]; simpl;
      destruct Hr as (Hs & Hr); split; try done.
    + destruct Hr as [-> _]. apply Hq.
    + destruct Hr as (i0 & Hi0 & _ & -> & Hv & ->). apply map_Forall_insert_2; [|apply Hq].
      split; [|by apply resolve_item_ok]. simpl. by apply (proj2 Hq).
Qed.

Lemma run_ops_queue_ok s os : queue_ok s -> queue_ok (run_ops s os).
Proof.
  revert s. induction os as [|o os IH]; intros s Hs; [done|]. apply IH. by apply do_op_queue_ok.
Qed.

Lemma do_op_keeps_resolved s o d i :
  queue_ok s -> view s !! d = Some i -> Status i = StatusResolved -> view (do_op s o) !! d = Some i.
Proof.
  intros Hq Hi Hst. destruct o as [now d' tx|n net now d' who res]; simpl.
  - pose proof (Park_step s now d' tx (proj1 Hq)) as Hp.
    destruct (Park s now d' tx) as [s' [i' [err|]]]; simpl; destruct Hp as (_ & Hp).
    + by rewrite Hp.
    + destruct Hp as (Hn & -> & _). rewrite lookup_insert_ne; [done|congruence].
  - pose proof (Resolve_step s n net now d' who res Hq) as Hr.
    destruct (Resolve s n net now d' who res) as [[s' [i' [err|]]] ps]; simpl; destruct Hr as (_ & Hr).
    + destruct Hr as [-> _]. done.
    + destruct Hr as (i0 & Hi0 & Hne & _ & _ & ->). rewrite lookup_insert_ne; [done|congruence].
Qed.

Lemma run_ops_keeps_resolved s os d i :
  queue_ok s -> view s !! d = Some i -> Status i = StatusResolved ->
  view (run_ops s os) !! d = Some i.
Proof.
  revert s. induction os as [|o os IH]; intros s Hs Hi Hst; [done|].
  apply IH; [by apply do_op_queue_ok|by apply do_op_keeps_resolved|done].
Qed.

End Lifecycle.

(** ** Properties *)

Lemma queue_ok_new : queue_ok NewMemoryStore.
Proof. split; [apply queue_inv_new|apply map_Forall_empty]. Qed.

(** Whatever sequence of Park and Resolve calls is made, every item of the
    in-memory queue is either pending, with no assignee, resolution or time, or
    resolved to ALLOW or DENY with a time; ids are unique and match their items. *)
Theorem queue_invariant os :
  let s := run_ops NewMemoryStore os in
  NoDup (order s) /\ (forall d, d ∈ order s <-> is_Some (mem s !! d)) /\
  map_Forall (fun d i => DecisionID i = d /\ item_ok i) (mem s).
Proof.
  cbn zeta. destruct (run_ops_queue_ok NewMemoryStore os queue_ok_new) as [(? & ? & _) ?]. done.
Qed.

(** C39. A resolution is final for calls one after the other: once an item of the
    in-memory queue is resolved, no sequence of calls, each made when the one
    before has returned, changes it, and every later attempt to resolve it is
    refused as already resolved, without a notification.  (Two calls at the same
    time can both succeed: [resolve_race].) *)
Theorem resolution_final os s0 d i n net now who res :
  queue_ok s0 -> mem s0 !! d = Some i -> Status i = StatusResolved ->
  valid_resolution res = true ->
  let s := run_ops s0 os in
  mem s !! d = Some i /\
  Resolve s n net now d who res = ((s, (zero_item, Some (Sentinel RevErrAlreadyResolved))), []).
Proof.
  intros Hq Hi Hst Hv. cbn zeta.
  pose proof (run_ops_keeps_resolved s0 os d i Hq Hi Hst) as Hk. simpl in Hk.
  split; [done|]. unfold Resolve. simpl. rewrite Hv, Hk. simpl.
  by rewrite bool_decide_eq_true_2.
Qed.

Definition quiet_net : network :=
  {| marshal := fun _ => None; reply := fun _ => Response 200; cancelled := fun _ => None |}.

Lemma resolution_final_witness :
  let s0 := run_ops NewMemoryStore
    [OpPark 1 "dec_1" ""; OpResolve None quiet_net 2 "dec_1" "alice" "DENY"] in
  let s := run_ops s0 [OpPark 3 "dec_1" ""; OpPark 4 "dec_2" ""] in
  mem s !! "dec_1" = mem s0 !! "dec_1" /\
  Resolve s None quiet_net 5 "dec_1" "bob" "ALLOW"
  = ((s, (zero_item, Some (Sentinel RevErrAlreadyResolved))), []).
Proof.
  cbn zeta. apply resolution_final; [apply run_ops_queue_ok, queue_ok_new|reflexivity..].
Defined.

(** Listing a reachable queue gives, in the order they were parked, exactly
    the items with the asked status, or all of them for the empty status. *)
Theorem list_spec os status :
  let s := run_ops NewMemoryStore os in
  let '(items, err) := List s status in
  err = None /\
  (forall i, i ∈ items <->
     mem s !! DecisionID i = Some i /\ (status = "" \/ Status i = status)) /\
  DecisionID <$> items `sublist_of` order s.
Proof.
  cbn zeta. destruct (run_ops_queue_ok NewMemoryStore os queue_ok_new) as [(_ & Hdom & _) Hall].
  set (s := run_ops NewMemoryStore os) in *. simpl in *. split_and!; [done| |].
  - intros i. rewrite list_elem_of_filter, list_elem_of_fmap. split.
    + intros [Hst (d & -> & [i' Hi]%Hdom)]. rewrite Hi. simpl in *.
      destruct (Hall _ _ Hi) as [-> _]. by rewrite Hi in Hst.
    + intros [Hi Hst]. split; [done|]. exists (DecisionID i).
      rewrite Hi. split; [done|]. apply Hdom. by eexists.
  - transitivity (DecisionID <$> ((fun id => default zero_item (mem s !! id)) <$> order s)).
    { apply fmap_sublist, sublist_filter. }
    rewrite <- list_fmap_compose.
    assert (Forall (fun d => (DecisionID ∘ (fun id => default zero_item (mem s !! id))) d = d) (order s))
      as Hf.
    { apply Forall_forall. intros d [i Hi]%Hdom. simpl. rewrite Hi. by destruct (Hall _ _ Hi). }
    clear -Hf. induction Hf as [|d l Hd _ IH]; [done|].
    rewrite fmap_cons, Hd. by constructor.
Qed.

(** ** Notification *)

(** Every attempt before the [k]-th one that counts came back with something to
    retry on: a client error, or a status that is neither 2xx nor 4xx. *)
Definition retryable (a : attempt) : bool :=
  match a with
  | NetError _ => true
  | Response st => negb (Z.quot st 100 =? 2) && negb (Z.quot st 100 =? 4)
  | BuildError _ => false
  end.

Definition accepted (a : attempt) : bool :=
  match a with Response st => Z.quot st 100 =? 2 | _ => false end.

Lemma notify_loop_spec net n item fuel k le :
  let '(ps, r) := notify_loop net n item fuel k le in
  (length ps <= fuel)%nat /\ Forall (fun p => p = make_post n item) ps /\
  (forall j, (Datatypes.S j < length ps)%nat -> retryable (reply net (k + j)%nat) = true) /\
  (r = None -> le = None /\ fuel = O \/
     exists j, length ps = Datatypes.S j /\ accepted (reply net (k + j)%nat) = true).
Proof.
  revert k le. induction fuel as [|fuel IH]; intros k le; simpl.
  { split_and!; [lia|constructor|intros; lia|auto]. }
  destruct (match k with O => None | _ => cancelled net k end).
  { split_and!; [simpl; lia|constructor|intros; simpl in *; lia|done]. }
  assert (forall le', retryable (reply net k) = true ->
    let '(ps, r) := (let '(ps, r) := notify_loop net n item fuel (Datatypes.S k) (Some le') in
                     (make_post n item :: ps, r)) in
    (length ps <= Datatypes.S fuel)%nat /\ Forall (fun p => p = make_post n item) ps /\
    (forall j, (Datatypes.S j < length ps)%nat -> retryable (reply net (k + j)%nat) = true) /\
    (r = None -> le = None /\ Datatypes.S fuel = O \/
     exists j, length ps = Datatypes.S j /\ accepted (reply net (k + j)%nat) = true)) as Hretry.
  { intros le' Hr. specialize (IH (Datatypes.S k) (Some le')).
    destruct (notify_loop _ _ _ _ _ _) as [ps r]. destruct IH as (Hl & Hf & Hj & Hn).
    split_and!; [simpl; lia|by constructor| |].
    - intros [|j] Hlt; [by rewrite Nat.add_0_r|]. rewrite <- Nat.add_succ_comm. apply Hj.
      simpl in Hlt. lia.
    - intros Hnone. right. destruct (Hn Hnone) as [[? ?]|(j & Hlen & Ha)]; [done|].
      exists (Datatypes.S j). simpl. rewrite Hlen, <- Nat.add_succ_comm. done. }
  destruct (reply net k) as [e|e|st] eqn:Hk.
  - split_and!; [simpl; lia|constructor|intros; simpl in *; lia|done].
  - by apply Hretry.
  - destruct (Z.quot st 100 =? 2) eqn:H2; [|destruct (Z.quot st 100 =? 4) eqn:H4].
    + split_and!; [simpl; lia|by repeat constructor|intros; simpl in *; lia|].
      intros _. right. exists O. by rewrite Nat.add_0_r, Hk.
    + split_and!; [simpl; lia|by repeat constructor|intros; simpl in *; lia|done].
    + apply Hretry. simpl. by rewrite H2, H4.
Qed.

#[local] Arguments notify_loop : simpl never.

(** A notification makes at most three attempts, all with the decision id as
    idempotency key; it goes on only after a client error or a status outside
    2xx and 4xx, and it reports success only if the last attempt got a 2xx. *)
Theorem notify_bounded net n item :
  let '(ps, r) := NotifyResolution net (Some n) item in
  (length ps <= 3)%nat /\
  Forall (fun p => p = make_post n item /\ idempotency_key p = DecisionID item) ps /\
  (forall j, (Datatypes.S j < length ps)%nat -> retryable (reply net j) = true) /\
  (r = None -> url n <> "" -> exists j, length ps = Datatypes.S j /\ accepted (reply net j) = true).
Proof.
  unfold NotifyResolution. destruct (Enabled (Some n)) eqn:He; simpl in *; go_bool.
  - case_bool_decide; simpl; [destruct (marshal net item); simpl|].
    + split_and!; [lia|constructor|intros; lia|done].
    + pose proof (notify_loop_spec net n item 3 0 None) as Hl.
      destruct (notify_loop net n item 3 0 None) as [ps r]. destruct Hl as (Hlen & Hf & Hj & Hn).
      split_and!; [done| |done|].
      * eapply Forall_impl; [exact Hf|]. by intros p ->.
      * intros Hr _. destruct (Hn Hr) as [[_ ?]|?]; done.
    + split_and!; [lia|constructor|intros; lia|done].
  - split_and!; [lia|constructor|intros; lia|]. intros _ Hu. done.
Qed.

(** ** Concurrent resolutions

    The service does not hold a lock across its read and its write: another
    goroutine can run between them.  A thread is at its start, has read an item,
    or has returned; each step is one call of the store. *)

Record request := { req_now : time; req_who : string; req_res : string }.

Inductive thread :=
| TStart (r : request)
| TRead (r : request) (item : Item)
| TDone (res : Item * option error).

Definition thread_step (d : string) (s : MemoryStore) (t : thread) : option (MemoryStore * thread) :=
  match t with
  | TStart r =>
      Some (s, if negb (valid_resolution (req_res r)) then
                 TDone (zero_item, Some (Sentinel RevErrInvalidResolution))
               else match ms_get s d with
                    | (_, Some err) => TDone (zero_item, Some err)
                    | (None, None) => TDone (zero_item, Some (Sentinel RevErrNotFound))
                    | (Some item, None) =>
                        if Status item == StatusResolved then
                          TDone (zero_item, Some (Sentinel RevErrAlreadyResolved))
                        else TRead r item
                    end)
  | TRead r item =>
      let item' := resolve_item item (req_now r) (req_who r) (req_res r) in
      match ms_update s item' with
      | (s', Some err) => Some (s', TDone (zero_item, Some err))
      | (s', None) => Some (s', TDone (item', None))
      end
  | TDone _ => None
  end.

Inductive step (d : string) : MemoryStore * list thread -> MemoryStore * list thread -> Prop :=
| step_thread s ts i t s' t' :
    ts !! i = Some t -> thread_step d s t = Some (s', t') ->
    step d (s, ts) (s', <[i := t']> ts).

(** Run alone, a thread does what [Resolve] does. *)
Lemma thread_alone d s r :
  exists s' res, rtc (step d) (s, [TStart r]) (s', [TDone res]) /\
    fst (Resolve s None quiet_net (req_now r) d (req_who r) (req_res r)) = (s', res).
Proof.
  unfold Resolve. simpl.
  destruct (thread_step d s (TStart r)) as [[s1 t1]|] eqn:Ht; [|done].
  assert (step d (s, [TStart r]) (s1, [t1])) as H1 by exact (step_thread d s [TStart r] 0 _ _ _ eq_refl Ht).
  simpl in Ht. destruct (valid_resolution (req_res r)); simpl in Ht;
    [|simplify_eq; eexists _, _; split; [by apply rtc_once|done]].
  destruct (mem s !! d) as [item|];
    [|simplify_eq; eexists _, _; split; [by apply rtc_once|done]].
  case_bool_decide; [simplify_eq; eexists _, _; split; [by apply rtc_once|done]|].
  simplify_eq.
  destruct (thread_step d s1 (TRead r item)) as [[s2 t2]|] eqn:Ht2.
  - pose proof (step_thread d s1 [TRead r item] 0 _ _ _ eq_refl Ht2) as H2. simpl in Ht2, H2.
    destruct (ms_update s1 _) as [s3 [err|]]; simplify_eq;
      (eexists _, _; split; [eapply rtc_l; [exact H1|]; apply rtc_once; exact H2|done]).
  - simpl in Ht2. by destruct (ms_update s1 _) as [s3 [err|]].
Qed.

(** Two reviewers resolving the same item at the same time can both be told
    that their resolution was recorded, one ALLOW and one DENY, although
    re-resolving is meant to be refused: the later write wins. *)
Theorem resolve_race :
  exists s s' i1 i2,
    s = run_ops NewMemoryStore [OpPark 1 "dec_1" ""] /\
    rtc (step "dec_1")
      (s, [TStart {| req_now := 2; req_who := "alice"; req_res := "DENY" |};
           TStart {| req_now := 3; req_who := "bob"; req_res := "ALLOW" |}])
      (s', [TDone (i1, None); TDone (i2, None)]) /\
    Resolution i1 = ResolutionDeny /\ Resolution i2 = ResolutionAllow /\
    mem s' !! "dec_1" = Some i2.
Proof.
  eexists _, _, _, _. split; [reflexivity|]. split.
  - eapply rtc_l; [eapply (step_thread _ _ _ 0); reflexivity|]. simpl.
    eapply rtc_l; [eapply (step_thread _ _ _ 1); reflexivity|]. simpl.
    eapply rtc_l; [eapply (step_thread _ _ _ 0); reflexivity|]. simpl.
    eapply rtc_l; [eapply (step_thread _ _ _ 1); reflexivity|]. simpl.
    apply rtc_refl.
  - split_and!; reflexivity.
Qed.

End Review.
