(* ===== verification/Sha256.v ===== *)
(** * SHA-256 and hexadecimal text

    [crypto/sha256] (FIPS 180-4) and [encoding/hex] on byte strings, as called
    by the audit records, the bundle hash and the bundle download. *)
From Stdlib Require Import ZArith Lia Ascii String.
From stdpp Require Import base gmap strings list.
From S2P Require Import Prelude GoLib.

Open Scope Z_scope.
Open Scope go_scope.

(** ** Byte strings and lists of byte values *)

Fixpoint bytes_of (s : string) : list Z :=
  match s with
  | EmptyString => []
  | String c s' => code c :: bytes_of s'
  end.

Fixpoint of_bytes (l : list Z) : string :=
  match l with
  | [] => EmptyString
  | b :: l' => String (ascii_of_N (Z.to_N b)) (of_bytes l')
  end.

(** ** Hexadecimal *)

Definition hex_digit (n : Z) : ascii := ascii_of_N (Z.to_N (if n <? 10 then n + 48 else n + 87)).

Fixpoint hex_encode (s : string) : string :=
  match s with
  | EmptyString => EmptyString
  | String c s' => String (hex_digit (code c / 16)) (String (hex_digit (code c mod 16)) (hex_encode s'))
  end.

(** [hex.DecodeString] takes digits of either case; [None] is its error. *)
Definition from_hex (c : ascii) : option Z :=
  if is_digit c then Some (digit_val c)
  else if in_range 97 102 c then Some (code c - 87)
  else if in_range 65 70 c then Some (code c - 55)
  else None.

Fixpoint hex_decode (s : string) : option string :=
  match s with
  | EmptyString => Some EmptyString
  | String a (String b s') =>
      match from_hex a, from_hex b, hex_decode s' with
      | Some x, Some y, Some r => Some (String (ascii_of_N (Z.to_N (x * 16 + y))) r)
      | _, _, _ => None
      end
  | String _ EmptyString => None
  end.

(** ** SHA-256 *)

Definition w32 (z : Z) : Z := z mod 2^32.
Definition rotr (n x : Z) : Z := Z.lor (Z.shiftr x n) (w32 (Z.shiftl x (32 - n))).
Definition not32 (x : Z) : Z := Z.lxor x (2^32 - 1).

(** The constants are the first 32 bits of the fractional parts of roots of the
    first primes: cube roots for the rounds, square roots for the initial state. *)
Definition is_prime (n : Z) : bool :=
  (1 <? n) && forallb (fun d => negb (n mod d =? 0)) (Z.of_nat <$> seq 2 (Z.to_nat n - 2)).

Definition primes (below : nat) : list Z := List.filter is_prime (Z.of_nat <$> seq 0 below).

(** The largest [r] below [2^n] with [r^3 <= x], bit by bit. *)
Fixpoint cube_root (n : nat) (r x : Z) : Z :=
  match n with
  | O => r
  | S n' =>
      let r' := r + 2 ^ Z.of_nat n' in cube_root n' (if r' * r' * r' <=? x then r' else r) x
  end.

Definition K256 : list Z :=
  Eval vm_compute in (fun p => cube_root 40 0 (p * 2^96) mod 2^32) <$> primes 312.

Definition H256 : list Z :=
  Eval vm_compute in (fun p => Z.sqrt (p * 2^64) mod 2^32) <$> primes 20.

(** The message schedule, newest word first. *)
Fixpoint schedule (n : nat) (ws : list Z) : list Z :=
  match n with
  | O => ws
  | S n' =>
      let w i := nth i ws 0 in
      let s0 := Z.lxor (Z.lxor (rotr 7 (w 14%nat)) (rotr 18 (w 14%nat))) (Z.shiftr (w 14%nat) 3) in
      let s1 := Z.lxor (Z.lxor (rotr 17 (w 1%nat)) (rotr 19 (w 1%nat))) (Z.shiftr (w 1%nat) 10) in
      schedule n' (w32 (s1 + w 6%nat + s0 + w 15%nat) :: ws)
  end.

Definition sha_round (st : list Z) (kw : Z * Z) : list Z :=
  match st with
  | [a; b; c; d; e; f; g; h] =>
      let s1 := Z.lxor (Z.lxor (rotr 6 e) (rotr 11 e)) (rotr 25 e) in
      let ch := Z.lxor (Z.land e f) (Z.land (not32 e) g) in
      let t1 := h + s1 + ch + fst kw + snd kw in
      let s0 := Z.lxor (Z.lxor (rotr 2 a) (rotr 13 a)) (rotr 22 a) in
      let maj := Z.lxor (Z.lxor (Z.land a b) (Z.land a c)) (Z.land b c) in
      [w32 (t1 + s0 + maj); a; b; c; w32 (d + t1); e; f; g]
  | _ => st
  end.

Fixpoint words_of (l : list Z) : list Z :=
  match l with
  | a :: b :: c :: d :: l' => (a * 2^24 + b * 2^16 + c * 2^8 + d) :: words_of l'
  | _ => []
  end.

Definition sha_block (st : list Z) (block : list Z) : list Z :=
  let ws := rev (schedule 48 (rev (words_of block))) in
  zip_with (fun x y => w32 (x + y)) st (fold_left sha_round (zip K256 ws) st).

Fixpoint be_bytes (n : nat) (z : Z) : list Z :=
  match n with
  | O => []
  | S n' => be_bytes n' (z / 256) ++ [z mod 256]
  end.

Definition sha_pad (l : list Z) : list Z :=
  let len := Z.of_nat (length l) in
  l ++ [128] ++ repeat 0 (Z.to_nat ((55 - len) mod 64)) ++ be_bytes 8 (len * 8).

Fixpoint blocks (n : nat) (l : list Z) : list (list Z) :=
  match n with
  | O => []
  | S n' => match l with [] => [] | _ => take 64 l :: blocks n' (list.drop 64 l) end
  end.

Definition sha256 (s : string) : string :=
  let p := sha_pad (bytes_of s) in
  of_bytes (concat (be_bytes 4 <$> fold_left sha_block (blocks (length p) p) H256)).

Example sha256_empty :
  hex_encode (sha256 "") = "e3b0c44298fc1c149afbf4c8996fb92427ae41e4649b934ca495991b7852b855".
Proof. vm_compute. reflexivity. Qed.

Example sha256_two_blocks :
  hex_encode (sha256 "abcdbcdecdefdefgefghfghighijhijkijkljklmklmnlmnomnopnopq")
  = "248d6a61d20638b8e5c026930c3e6039a33ce45964ff2167f6ecedd419db06c1".
Proof. vm_compute. reflexivity. Qed.

(** ** Round trip of the hexadecimal text *)

Lemma code_range c : 0 <= code c < 256.
Proof. unfold code. pose proof (N_ascii_bounded c). lia. Qed.

Lemma ascii_of_code c : ascii_of_N (Z.to_N (code c)) = c.
Proof. unfold code. by rewrite N2Z.id, ascii_N_embedding. Qed.

Lemma from_hex_digit n : 0 <= n < 16 -> from_hex (hex_digit n) = Some n.
Proof.
  intros Hn. destruct n as [|p|p]; [done| |lia].
  do 4 (destruct p as [p|p|]; try done; try lia).
Qed.

(** Decoding an encoded byte string gives it back. *)
Lemma hex_decode_encode s : hex_decode (hex_encode s) = Some s.
Proof.
  induction s as [|c s IH]; [done|]. simpl.
  pose proof (code_range c). pose proof (Z.div_mod (code c) 16).
  rewrite !from_hex_digit, IH by (try apply Z.mod_pos_bound;
    try (split; [apply Z.div_pos|apply Z.div_lt_upper_bound]); lia).
  replace (code c / 16 * 16 + code c mod 16) with (code c) by lia. by rewrite ascii_of_code.
Qed.

Lemma hex_encode_nil s : hex_encode s = "" -> s = "".
Proof. by destruct s. Qed.
