(* ===== verification/Json.v ===== *)
(** * The encoding of [encoding/json]

    [json.Marshal] on the values the program encodes: strings (with Go's
    escaping of quotes, control characters, HTML characters, U+2028, U+2029 and
    invalid UTF-8), slices of strings (a nil slice is [null]), booleans, numbers
    and structs as lists of fields in declaration order.

    The class [Fmt] has the two texts that the results do not depend on, the
    shortest decimal text of a finite float64 and the RFC 3339 text of a time in
    the process's zone; its instance is [Format.go_fmt]. *)
From Stdlib Require Import ZArith Lia Ascii String SpecFloat.
From stdpp Require Import base gmap strings list.
From S2P Require Import Prelude GoLib Float64 Sha256.

Open Scope Z_scope.
Open Scope go_scope.

Module Json.

(** [fmt_time] is [None] where [Time.MarshalJSON] fails: a year outside 0..9999. *)
Class Fmt := {
  fmt_float : float64 -> string;
  fmt_time : time -> option string
}.

(** ** UTF-8 *)

Definition cont (c : ascii) : bool := in_range 128 191 c.

Definition rune2 (a b : ascii) : bool := in_range 194 223 a && cont b.

Definition rune3 (a b c : ascii) : bool :=
  cont c &&
  (((code a =? 224) && in_range 160 191 b) ||
   ((code a =? 237) && in_range 128 159 b) ||
   ((in_range 225 236 a || in_range 238 239 a) && cont b)).

Definition rune4 (a b c d : ascii) : bool :=
  cont c && cont d &&
  (((code a =? 240) && in_range 144 191 b) ||
   ((code a =? 244) && in_range 128 143 b) ||
   (in_range 241 243 a && cont b)).

(** U+2028 and U+2029 are E2 80 A8 and E2 80 A9. *)
Definition line_sep (a b c : ascii) : bool :=
  (code a =? 226) && (code b =? 128) && ((code c =? 168) || (code c =? 169)).

(** ** Strings *)

Definition quote : ascii := "034".
Definition backslash : ascii := "092".
Definition esc (c : ascii) : string := String backslash (String c "").
Definition esc_u00 (c : ascii) : string :=
  String backslash ("u00" +:+ String (hex_digit (code c / 16)) (String (hex_digit (code c mod 16)) "")).

(** One ASCII character. *)
Definition enc_ascii (c : ascii) : string :=
  if (c == backslash) || (c == quote) then esc c
  else if code c =? 8 then esc "b"
  else if code c =? 12 then esc "f"
  else if code c =? 10 then esc "n"
  else if code c =? 13 then esc "r"
  else if code c =? 9 then esc "t"
  else if (code c <? 32) || (c == "<"%char) || (c == ">"%char) || (c == "&"%char) then esc_u00 c
  else String c "".

Definition bad_rune : string := String backslash "ufffd".

Fixpoint enc_chars (s : string) : string :=
  match s with
  | EmptyString => ""
  | String a s1 =>
      if code a <? 128 then enc_ascii a +:+ enc_chars s1 else
      match s1 with
      | String b s2 =>
          if rune2 a b then String a (String b "") +:+ enc_chars s2 else
          match s2 with
          | String c s3 =>
              if line_sep a b c then
                String backslash ("u202" +:+ (if code c =? 168 then "8" else "9")) +:+ enc_chars s3
              else if rune3 a b c then String a (String b (String c "")) +:+ enc_chars s3 else
              match s3 with
              | String d s4 =>
                  if rune4 a b c d then String a (String b (String c (String d ""))) +:+ enc_chars s4
                  else bad_rune +:+ enc_chars s1
              | EmptyString => bad_rune +:+ enc_chars s1
              end
          | EmptyString => bad_rune +:+ enc_chars s1
          end
      | EmptyString => bad_rune +:+ enc_chars s1
      end
  end.

Definition enc_string (s : string) : string := String quote (enc_chars s +:+ String quote "").

(** ** Values

    An encoder gives the text, or the error of an unsupported value. *)

Fixpoint join (sep : string) (l : list string) : string :=
  match l with
  | [] => ""
  | [x] => x
  | x :: l' => x +:+ sep +:+ join sep l'
  end.

Definition enc_strings (s : slice string) : string :=
  match s with
  | None => "null"
  | Some l => "[" +:+ join "," (enc_string <$> l) +:+ "]"
  end.

Definition enc_bool (b : bool) : string := if b then "true" else "false".

Section Encoders.
Context `{Fmt}.

Definition enc_float (x : float64) : Res string :=
  if is_finite x then inr (fmt_float x) else inl (Errorf "json: unsupported value").

Definition enc_time (t : time) : Res string :=
  match fmt_time t with
  | Some s => inr (enc_string s)
  | None => inl (Errorf "json: error calling MarshalJSON for type time.Time")
  end.

End Encoders.

(** A struct: its fields' names and texts, in order. *)
Definition enc_field (f : string * string) : string := enc_string (fst f) +:+ ":" +:+ snd f.
Definition enc_object (fs : list (string * string)) : string :=
  "{" +:+ join "," (enc_field <$> fs) +:+ "}".

Example enc_ex :
  enc_string (String quote (String "010" ("a<" +:+ String "255" "")))
  = String quote (String backslash (String quote (String backslash ("na" +:+
      String backslash ("u003c" +:+ String backslash ("ufffd" +:+ String quote "")))))).
Proof. vm_compute. reflexivity. Qed.

End Json.
