(* ===== verification/AuditLog.v ===== *)
(** * Package audit: signed decision records ([internal/audit/audit.go])

    The record and its canonical encoding, the Ed25519 signer, the emission
    service with its bounded queue and worker goroutine, and the in-memory and
    Kafka ends.  Ed25519 and the Kafka writer are parameters; SHA-256,
    hexadecimal text and the JSON encoding are those of [Sha256] and [Json]. *)
From Stdlib Require Import ZArith Lia Ascii String SpecFloat.
From stdpp Require Import base gmap strings list relations.
From S2P Require Import Prelude GoLib Float64 Sha256 Json.

Open Scope Z_scope.
Open Scope go_scope.

Module Audit.
Import Json.

(** ** Data *)

Definition AuditTopic : string := "audit.v1".

Record DecisionRecord := {
  DecisionID : string;
  PolicyVersion : string;
  RequestHash_ : string;
  Decision : string;
  Reasons : slice string;
  AppliedRules : slice string;
  Score : float64;
  CreatedAt : time;
  Signature : string
}.

Record Request := {
  UserID : string;
  Amount : string;
  Currency : string;
  Asset : string;
  Rail : string;
  DestAddress : string;
  DestChain : string;
  KYTVerdict : string;
  FraudScore : float64;
  KYCStatus : string
}.

Definition with_signature (rec : DecisionRecord) (sig : string) : DecisionRecord :=
  {| DecisionID := DecisionID rec; PolicyVersion := PolicyVersion rec;
     RequestHash_ := RequestHash_ rec; Decision := Decision rec; Reasons := Reasons rec;
     AppliedRules := AppliedRules rec; Score := Score rec; CreatedAt := CreatedAt rec;
     Signature := sig |}.

Definition with_created (rec : DecisionRecord) (t : time) : DecisionRecord :=
  {| DecisionID := DecisionID rec; PolicyVersion := PolicyVersion rec;
     RequestHash_ := RequestHash_ rec; Decision := Decision rec; Reasons := Reasons rec;
     AppliedRules := AppliedRules rec; Score := Score rec; CreatedAt := t;
     Signature := Signature rec |}.

(** ** Interfaces *)

Class Store (S : Type) := {
  store_Put : S -> DecisionRecord -> S * option error;
  store_Get : S -> string -> option DecisionRecord * option error
}.

Class Sink (K : Type) := {
  sink_Publish : K -> DecisionRecord -> K * option error
}.

(** [crypto/ed25519]: keys, signatures and their check. *)
Class Ed25519 := {
  PrivateKey : Type;
  PublicKey : Type;
  public : PrivateKey -> PublicKey;
  ed_sign : PrivateKey -> string -> string;
  ed_verify : PublicKey -> string -> string -> bool
}.

(** What its documentation states: a signature is 64 bytes long, and the check
    accepts the signatures made with the private key. *)
Class Ed25519Ok `{Ed25519} : Prop := {
  ed_sign_size k m : String.length (ed_sign k m) = 64%nat;
  ed_verify_sign k m : ed_verify (public k) m (ed_sign k m) = true
}.

(** ** Encoding *)

Section Encoding.
Context `{Fmt}.

Definition marshal_record (rec : DecisionRecord) : Res string :=
  let? score := enc_float (Score rec) in
  let? created := enc_time (CreatedAt rec) in
  inr (enc_object
    ([ ("decision_id", enc_string (DecisionID rec));
       ("policy_version", enc_string (PolicyVersion rec));
       ("request_hash", enc_string (RequestHash_ rec));
       ("decision", enc_string (Decision rec));
       ("reasons", enc_strings (Reasons rec));
       ("applied_rules", enc_strings (AppliedRules rec));
       ("score", score);
       ("created_at", created) ]
     ++ (if Signature rec == "" then [] else [("signature", enc_string (Signature rec))]))).

Definition canonicalJSON (rec : DecisionRecord) : Res string :=
  marshal_record (with_signature rec "").

Definition marshal_request (req : Request) : Res string :=
  let? fraud := enc_float (FraudScore req) in
  inr (enc_object
    [ ("user_id", enc_string (UserID req));
      ("amount", enc_string (Amount req));
      ("currency", enc_string (Currency req));
      ("asset", enc_string (Asset req));
      ("rail", enc_string (Rail req));
      ("dest_address", enc_string (DestAddress req));
      ("dest_chain", enc_string (DestChain req));
      ("kyt_verdict", enc_string (KYTVerdict req));
      ("fraud_score", fraud);
      ("kyc_status", enc_string (KYCStatus req)) ]).

Definition sha256Bytes (b : string) : string := sha256 b.

(** The error of [json.Marshal] is dropped: the body is then nil. *)
Definition RequestHash (req : Request) : string :=
  let body := match marshal_request req with inr b => b | inl _ => "" end in
  hex_encode (sha256Bytes body).

End Encoding.

(** ** Signer *)

Section Signing.
Context `{Fmt} `{Ed25519}.

Record Signer := { priv : PrivateKey; pub : PublicKey }.

(** The key is the one given, or a generated one when the caller passes nil. *)
Definition NewSigner (given : option PrivateKey) (generated : PrivateKey) : Signer :=
  let k := default generated given in {| priv := k; pub := public k |}.

Definition Sign (s : Signer) (rec : DecisionRecord) : Res string :=
  let? payload := canonicalJSON rec in
  inr (hex_encode (ed_sign (priv s) payload)).

Definition Verify (s : Signer) (rec : DecisionRecord) : option error :=
  if Signature rec == "" then Some (Errorf "missing signature")
  else match hex_decode (Signature rec) with
       | None => Some (Wrapf "decode signature" (Errorf "encoding/hex"))
       | Some sig =>
           match canonicalJSON rec with
           | inl err => Some err
           | inr payload =>
               if ed_verify (pub s) payload sig then None
               else Some (Errorf "signature verification failed")
           end
       end.

End Signing.

(** ** MemoryStore and MemorySink *)

Record MemoryStore := { mem : gmap string DecisionRecord }.

Definition NewMemoryStore : MemoryStore := {| mem := ∅ |}.

Definition ms_put (s : MemoryStore) (rec : DecisionRecord) : MemoryStore * option error :=
  if DecisionID rec == "" then (s, Some (Errorf "decision_id required"))
  else ({| mem := <[DecisionID rec := rec]> (mem s) |}, None).

Definition ms_get (s : MemoryStore) (decisionID : string) : option DecisionRecord * option error :=
  (mem s !! decisionID, None).

Definition Len (s : MemoryStore) : nat := size (mem s).

#[global] Instance MemoryStore_Store : Store MemoryStore := {|
  store_Put := ms_put; store_Get := ms_get |}.

Record MemorySink := { records : list DecisionRecord; fail : bool }.

Definition NewMemorySink : MemorySink := {| records := []; fail := false |}.

Definition SetFail (s : MemorySink) (f : bool) : MemorySink := {| records := records s; fail := f |}.

Definition Publish (s : MemorySink) (rec : DecisionRecord) : MemorySink * option error :=
  if fail s then (s, Some (Errorf "sink unavailable"))
  else ({| records := records s ++ [rec]; fail := fail s |}, None).

Definition Records (s : MemorySink) : list DecisionRecord := records s.

#[global] Instance MemorySink_Sink : Sink MemorySink := {| sink_Publish := Publish |}.

(** ** The emission service *)

Section Service.
Context `{Fmt} `{Ed25519} {S K : Type} `{Store S} `{Sink K}.

(** [queue] holds what the channel holds, oldest first; [stopCh] is true once
    the channel is closed, [exited] once the worker has returned. *)
Record Service := {
  signer : Signer;
  store : option S;
  sink : option K;
  queue : list DecisionRecord;
  queueSize : nat;
  drops : Z;
  syncPersist : bool;
  stopCh : bool;
  exited : bool
}.

Definition NewService (sg : Signer) (st : option S) (sk : option K) (size : Z) : Service :=
  {| signer := sg; store := st; sink := sk; queue := [];
     queueSize := Z.to_nat (if size <=? 0 then 1024 else size);
     drops := 0; syncPersist := false; stopCh := false; exited := false |}.

Definition set_store (a : Service) (st : option S) : Service :=
  {| signer := signer a; store := st; sink := sink a; queue := queue a; queueSize := queueSize a;
     drops := drops a; syncPersist := syncPersist a; stopCh := stopCh a; exited := exited a |}.
Definition set_sink (a : Service) (sk : option K) : Service :=
  {| signer := signer a; store := store a; sink := sk; queue := queue a; queueSize := queueSize a;
     drops := drops a; syncPersist := syncPersist a; stopCh := stopCh a; exited := exited a |}.
Definition set_queue (a : Service) (q : list DecisionRecord) : Service :=
  {| signer := signer a; store := store a; sink := sink a; queue := q; queueSize := queueSize a;
     drops := drops a; syncPersist := syncPersist a; stopCh := stopCh a; exited := exited a |}.
(** [s.drops.Add(1)]. *)
Definition add_drop (a : Service) : Service :=
  {| signer := signer a; store := store a; sink := sink a; queue := queue a;
     queueSize := queueSize a; drops := wrap64 (drops a + 1); syncPersist := syncPersist a;
     stopCh := stopCh a; exited := exited a |}.

Definition WithSyncPersist (a : Service) : Service :=
  {| signer := signer a; store := store a; sink := sink a; queue := queue a;
     queueSize := queueSize a; drops := drops a; syncPersist := true;
     stopCh := stopCh a; exited := exited a |}.

(** The record as it is signed: stamped with the clock unless it has a time. *)
Definition stamp (rec : DecisionRecord) (now : time) : DecisionRecord :=
  if is_zero_time (CreatedAt rec) then with_created rec now else rec.

(** The non-blocking send at the end of Emit. *)
Definition enqueue (a : Service) (rec : DecisionRecord) : Service * option error :=
  if (length (queue a) <? queueSize a)%nat then (set_queue a (queue a ++ [rec]), None)
  else (add_drop a, Some (Sentinel AudErrDropped)).

(** The synchronous [store.Put] of Emit, when it is enabled. *)
Definition persist_sync (a : Service) (rec : DecisionRecord) : Service * option error :=
  match syncPersist a, store a with
  | true, Some st =>
      match store_Put st rec with
      | (st', Some err) => (add_drop (set_store a (Some st')), Some (Wrapf "persist" err))
      | (st', None) => (set_store a (Some st'), None)
      end
  | _, _ => (a, None)
  end.

Definition Emit (a : Service) (now : time) (rec : DecisionRecord) : Service * option error :=
  let rec := stamp rec now in
  match Sign (signer a) rec with
  | inl err => (a, Some (Wrapf "sign" err))
  | inr sig =>
      let rec := with_signature rec sig in
      match persist_sync a rec with
      | (a', Some err) => (a', Some err)
      | (a', None) => enqueue a' rec
      end
  end.

(** The worker publishes a record it has taken off the queue. *)
Definition publish (a : Service) (rec : DecisionRecord) : Service :=
  match sink a with
  | None => a
  | Some sk =>
      match sink_Publish sk rec with
      | (sk', Some _) => add_drop (set_sink a (Some sk'))
      | (sk', None) => set_sink a (Some sk')
      end
  end.

(** One turn of the worker's loop on a received record. *)
Definition work_on (a : Service) (rec : DecisionRecord) : Service :=
  match syncPersist a, store a with
  | false, Some st =>
      match store_Put st rec with
      | (st', Some _) => add_drop (set_store a (Some st'))
      | (st', None) => publish (set_store a (Some st')) rec
      end
  | _, _ => publish a rec
  end.

Definition work (a : Service) : option Service :=
  match exited a, queue a with
  | false, rec :: q => Some (work_on (set_queue a q) rec)
  | _, _ => None
  end.

(** [close(s.stopCh)], once; the caller then waits for the worker. *)
Definition Close (a : Service) : Service :=
  {| signer := signer a; store := store a; sink := sink a; queue := queue a;
     queueSize := queueSize a; drops := drops a; syncPersist := syncPersist a;
     stopCh := true; exited := exited a |}.

(** The [<-s.stopCh] branch of the worker: it returns. *)
Definition exit_worker (a : Service) : Service :=
  {| signer := signer a; store := store a; sink := sink a; queue := queue a;
     queueSize := queueSize a; drops := drops a; syncPersist := syncPersist a;
     stopCh := stopCh a; exited := true |}.

(** ** The service as a transition system

    Callers emit and close; the worker takes a record or, once the stop channel
    is closed, may return: when both are possible Go's select picks either.
    The labels are the calls with their answers, and the turns of the worker. *)
Inductive label :=
| Emitted (now : time) (rec : DecisionRecord) (err : option error)
| Turn
| Closed
| Exited.

Inductive astep : Service -> label -> Service -> Prop :=
| astep_emit a now rec a' err :
    Emit a now rec = (a', err) -> astep a (Emitted now rec err) a'
| astep_work a a' :
    work a = Some a' -> astep a Turn a'
| astep_close a :
    astep a Closed (Close a)
| astep_exit a :
    stopCh a = true -> exited a = false -> astep a Exited (exit_worker a).

Inductive asteps : Service -> list label -> Service -> Prop :=
| asteps_nil a : asteps a [] a
| asteps_snoc a ls a1 l a2 : asteps a ls a1 -> astep a1 l a2 -> asteps a (ls ++ [l]) a2.

(** The record of a call that was answered without error, as it was signed. *)
Definition accepted (sg : Signer) (l : label) : option DecisionRecord :=
  match l with
  | Emitted now rec None =>
      match Sign sg (stamp rec now) with
      | inr sig => Some (with_signature (stamp rec now) sig)
      | inl _ => None
      end
  | _ => None
  end.

End Service.

Arguments Service {_} S K.

(** ** Signatures *)

Lemma canonicalJSON_with_signature `{Fmt} rec sig :
  canonicalJSON (with_signature rec sig) = canonicalJSON rec.
Proof. reflexivity. Qed.

(** A signer made by [NewSigner]: its public key belongs to its private key. *)
Definition signer_ok `{Ed25519} (s : Signer) : Prop := pub s = public (priv s).

Lemma Sign_Verify `{Fmt} `{Ed25519Ok} s rec sig :
  signer_ok s -> Sign s rec = inr sig -> Verify s (with_signature rec sig) = None.
Proof.
  intros Hs Hsig. unfold Sign in Hsig. unfold Verify.
  rewrite canonicalJSON_with_signature. simpl.
  destruct (canonicalJSON rec) as [|payload]; simplify_eq.
  assert (hex_encode (ed_sign (priv s) payload) <> "") as Hne.
  { intros Hn%hex_encode_nil. pose proof (ed_sign_size (priv s) payload) as Hl.
    by rewrite Hn in Hl. }
  rewrite bool_decide_eq_false_2 by done. rewrite hex_decode_encode, Hs, ed_verify_sign. done.
Qed.

Lemma Sign_nonempty `{Fmt} `{Ed25519Ok} s rec sig : Sign s rec = inr sig -> sig <> "".
Proof.
  unfold Sign. destruct (canonicalJSON rec) as [|payload]; intros [= <-] Hn%hex_encode_nil.
  pose proof (ed_sign_size (priv s) payload) as Hl. by rewrite Hn in Hl.
Qed.

(** ** Emission and the queue *)

Section ServiceFacts.
Context `{Fmt} `{Ed25519} {S K : Type} `{Store S} `{Sink K}.

Abbreviation Svc := (Service S K).

(** What emission never touches: configuration, sink and worker. *)
Definition same_io (a a' : Svc) : Prop :=
  signer a' = signer a /\ queueSize a' = queueSize a /\ syncPersist a' = syncPersist a /\
  sink a' = sink a /\ stopCh a' = stopCh a /\ exited a' = exited a.

Lemma same_io_trans a b c : same_io a b -> same_io b c -> same_io a c.
Proof. unfold same_io. intros (?&?&?&?&?&?) (?&?&?&?&?&?). split_and!; congruence. Qed.

Lemma enqueue_shape (a : Svc) rec a' err :
  enqueue a rec = (a', err) ->
  same_io a a' /\ store a' = store a /\
  match err with
  | None => queue a' = queue a ++ [rec] /\ drops a' = drops a /\ (length (queue a) < queueSize a)%nat
  | Some e => queue a' = queue a /\ drops a' = wrap64 (drops a + 1) /\ e = Sentinel AudErrDropped
  end.
Proof.
  unfold enqueue. destruct (_ <? _)%nat eqn:Hlt; intros [= <- <-]; simpl;
    [apply Nat.ltb_lt in Hlt|]; done.
Qed.

Lemma persist_sync_shape (a : Svc) rec a' err :
  persist_sync a rec = (a', err) ->
  same_io a a' /\ queue a' = queue a /\
  drops a' = (match err with None => drops a | Some _ => wrap64 (drops a + 1) end).
Proof.
  unfold persist_sync. destruct (syncPersist a), (store a) as [st|]; try (intros [= <- <-]; done).
  destruct (store_Put st rec) as [st' [e|]]; intros [= <- <-]; done.
Qed.

(** How a call of Emit ends. *)
Lemma Emit_cases (a : Svc) now rec a' err :
  Emit a now rec = (a', err) ->
  (exists e, Sign (signer a) (stamp rec now) = inl e /\ a' = a /\ err = Some (Wrapf "sign" e)) \/
  (exists sig, Sign (signer a) (stamp rec now) = inr sig /\
     let rec' := with_signature (stamp rec now) sig in
     (exists e, persist_sync a rec' = (a', Some e) /\ err = Some e) \/
     (exists a1, persist_sync a rec' = (a1, None) /\ enqueue a1 rec' = (a', err))).
Proof.
  unfold Emit. cbn zeta. destruct (Sign _ _) as [e|sig].
  - intros [= <- <-]. left. eauto.
  - intros He. right. exists sig. split; [done|].
    destruct (persist_sync a _) as [a1 [e|]]; [|eauto].
    simplify_eq. left. eauto.
Qed.

Lemma Emit_shape (a : Svc) now rec a' err :
  Emit a now rec = (a', err) ->
  same_io a a' /\
  match err with
  | None => exists sig, Sign (signer a) (stamp rec now) = inr sig /\
      queue a' = queue a ++ [with_signature (stamp rec now) sig] /\
      (length (queue a) < queueSize a)%nat
  | Some _ => queue a' = queue a
  end.
Proof.
  intros [(e & _ & -> & ->)|(sig & Hsig & Hc)]%Emit_cases; [done|]. cbn zeta in Hc.
  destruct Hc as [(e & Hp & ->)|(a1 & Hp & He)].
  - apply persist_sync_shape in Hp as (? & ? & _). done.
  - apply persist_sync_shape in Hp as (Hio & Hq & _).
    apply enqueue_shape in He as (Hio' & _ & Hm).
    split; [by eapply same_io_trans|]. destruct Hio as (_ & Hsz & _).
    rewrite Hq, Hsz in Hm. destruct err; [tauto|].
    destruct Hm as (? & _ & ?). eauto.
Qed.

(** ** What reaches the sink *)

(** The sink after records were published to it, whatever it answered. *)
Definition sent_all (recs : list DecisionRecord) (sk : K) : K :=
  fold_left (fun k r => fst (sink_Publish k r)) recs sk.

Lemma publish_sink (a : Svc) rec sk :
  sink a = Some sk ->
  sink (publish a rec) = Some (fst (sink_Publish sk rec)) /\ queue (publish a rec) = queue a /\
  queueSize (publish a rec) = queueSize a /\ signer (publish a rec) = signer a /\
  syncPersist (publish a rec) = syncPersist a.
Proof. intros Hk. unfold publish. rewrite Hk. by destruct (sink_Publish sk rec) as [sk' [e|]]. Qed.

(** With synchronous persistence: the records published so far, followed by those
    in the queue, are those of the calls that were answered without error. *)
Definition sent_inv (sg : Signer) (sk : K) (ls : list label) (a : Svc) : Prop :=
  signer a = sg /\ syncPersist a = true /\ (length (queue a) <= queueSize a)%nat /\
  exists sent, sent ++ queue a = omap (accepted sg) ls /\ sink a = Some (sent_all sent sk).

Lemma sent_emit sg sk ls (a : Svc) now rec a' err :
  sent_inv sg sk ls a -> Emit a now rec = (a', err) -> sent_inv sg sk (ls ++ [Emitted now rec err]) a'.
Proof.
  intros (Hsg & Hsy & Hlen & sent & Hq & Hk) He. apply Emit_shape in He as ((Hs & Hsz & Hp & Hk' & _) & Hc).
  unfold sent_inv. rewrite Hs, Hsz, Hp, Hk', omap_app. simpl. rewrite Hsg. split_and!; [done..| |].
  - destruct err; [by rewrite Hc|]. destruct Hc as (sig & _ & -> & Hlt). rewrite length_app. simpl. lia.
  - exists sent. split; [|done]. destruct err; [by rewrite Hc, app_nil_r|].
    destruct Hc as (sig & Hsig & -> & _). rewrite <- Hsg, Hsig, Hsg, (assoc_L (++)), Hq. done.
Qed.

Lemma sent_turn sg sk ls (a : Svc) a' :
  sent_inv sg sk ls a -> work a = Some a' -> sent_inv sg sk (ls ++ [Turn]) a'.
Proof.
  intros (Hsg & Hsy & Hlen & sent & Hq & Hk) Hw. unfold work in Hw.
  destruct (exited a); [done|]. destruct (queue a) as [|rec q] eqn:Hqa; [done|]. injection Hw as <-.
  unfold work_on. cbn [set_queue syncPersist]. rewrite Hsy.
  destruct (publish_sink (set_queue a q) rec (sent_all sent sk) Hk) as (Hp1 & Hp2 & Hp3 & Hp4 & Hp5).
  unfold sent_inv. rewrite Hp1, Hp2, Hp3, Hp4, Hp5, omap_app. simpl in *. rewrite app_nil_r.
  split_and!; [done..|lia|]. exists (sent ++ [rec]). split; [by rewrite <- (assoc_L (++))|].
  unfold sent_all. by rewrite fold_left_app.
Qed.

Lemma asteps_sent sg sk (a : Svc) ls a' : sent_inv sg sk [] a -> asteps a ls a' -> sent_inv sg sk ls a'.
Proof.
  intros Hi Hs. induction Hs as [a|a ls a1 l a2 _ IH Hl]; [done|]. specialize (IH Hi).
  destruct Hl as [a1 now rec a2 err He|a1 a2 Hw|a1|a1 _ _].
  - by eapply sent_emit.
  - by eapply sent_turn.
  - destruct IH as (? & ? & ? & sent & Hq & Hk). unfold sent_inv. rewrite omap_app. simpl. rewrite app_nil_r. eauto 10.
  - destruct IH as (? & ? & ? & sent & Hq & Hk). unfold sent_inv. rewrite omap_app. simpl. rewrite app_nil_r. eauto 10.
Qed.

End ServiceFacts.

(** ** Draining the queue into the in-memory ends *)

Section MemoryFacts.
Context `{Ed25519}.

Abbreviation MemSvc := (Service MemoryStore MemorySink).

Fixpoint work_n {S K} `{Store S} `{Sink K} (n : nat) (a : Service S K) : option (Service S K) :=
  match n with
  | O => Some a
  | Datatypes.S n' => match work a with Some a' => work_n n' a' | None => None end
  end.

Definition put_all (recs : list DecisionRecord) (m : gmap string DecisionRecord) :=
  fold_left (fun m r => <[DecisionID r := r]> m) recs m.

Lemma work_n_drains (a : MemSvc) st sk :
  exited a = false -> syncPersist a = false -> store a = Some st -> sink a = Some sk ->
  fail sk = false -> Forall (fun r => DecisionID r <> "") (queue a) ->
  exists a', work_n (length (queue a)) a = Some a' /\ queue a' = [] /\ drops a' = drops a /\
    store a' = Some {| mem := put_all (queue a) (mem st) |} /\
    sink a' = Some {| records := records sk ++ queue a; fail := false |}.
Proof.
  intros Hex Hsy Hst Hsk Hf. revert st sk Hst Hsk Hf.
  remember (queue a) as q eqn:Hq. revert a Hex Hsy Hq.
  induction q as [|r q IH]; intros a Hex Hsy Hq st sk Hst Hsk Hf Hids; simpl.
  - exists a. destruct st, sk; simpl in *; subst. rewrite app_nil_r. done.
  - inversion Hids as [|? ? Hr Hids']; subst. unfold work. rewrite Hex, <- Hq. simpl.
    unfold work_on. simpl. rewrite Hsy, Hst. simpl. unfold ms_put.
    rewrite bool_decide_eq_false_2 by done. unfold publish. simpl. rewrite Hsk. simpl.
    unfold Publish. rewrite Hf.
    destruct (IH (set_sink (set_store (set_queue a q) (Some {| mem := <[DecisionID r:=r]> (mem st) |}))
                   (Some {| records := records sk ++ [r]; fail := false |}))
                Hex Hsy eq_refl _ _ eq_refl eq_refl eq_refl Hids')
      as (a' & Hw & Hq' & Hd & Hs' & Hk').
    exists a'. simpl in *. rewrite Hk', <- app_assoc. done.
Qed.

End MemoryFacts.

(** ** Durability of a synchronous emission *)

Lemma Emit_durable `{Fmt} `{Ed25519} (Hed : Ed25519Ok) {K} `{Sink K}
    (a : Service MemoryStore K) st now rec a' err :
  signer_ok (signer a) -> syncPersist a = true -> store a = Some st ->
  Emit a now rec = (a', err) -> err = None \/ err = Some (Sentinel AudErrDropped) ->
  exists st' rec', store a' = Some st' /\ mem st' !! DecisionID rec = Some rec' /\
    Verify (signer a') rec' = None /\
    (exists sig, rec' = with_signature (stamp rec now) sig).
Proof.
  intros Hsg Hsy Hst He Herr. apply Emit_cases in He as [(e & _ & _ & ->)|(sig & Hsig & Hc)].
  { naive_solver. }
  cbn zeta in Hc. set (rec' := with_signature (stamp rec now) sig) in *.
  assert (DecisionID rec' = DecisionID rec) as Hid by (unfold rec', stamp; by destruct (is_zero_time _)).
  unfold persist_sync in Hc. rewrite Hsy, Hst in Hc. simpl in Hc. unfold ms_put in Hc. rewrite Hid in Hc.
  case_bool_decide.
  { destruct Hc as [(e & [= _ <-] & ->)|(a1 & ? & _)]; naive_solver. }
  destruct Hc as [(e & ? & _)|(a1 & [= <-] & Henq)]; [done|].
  apply enqueue_shape in Henq as ((Hs' & _) & Hst' & _). simpl in Hst', Hs'.
  eexists _, rec'. split_and!; [exact Hst'|simpl; apply lookup_insert_eq| |by eexists].
  rewrite Hs'. by apply Sign_Verify.
Qed.

(** ** Properties *)

(** Concrete parameters, to show that the hypotheses below can hold. *)
Definition sample_fmt : Fmt := {|
  fmt_float := fun x => if fle x f0 then "0" else "1";
  fmt_time := fun t => Some (Itoa t) |}.

Definition sample_sig : string := of_bytes (repeat 7 64).

Definition sample_ed : Ed25519 := {|
  PrivateKey := unit; PublicKey := unit; public := fun _ => tt;
  ed_sign := fun _ _ => sample_sig; ed_verify := fun _ _ s => s == sample_sig |}.

Lemma sample_ed_ok : @Ed25519Ok sample_ed.
Proof. split; intros; [reflexivity|]. apply bool_decide_eq_true_2. reflexivity. Qed.

Definition sample_signer : @Signer sample_ed := @NewSigner sample_ed None tt.

Definition sample_record : DecisionRecord :=
  {| DecisionID := "dec_1"; PolicyVersion := "v1"; RequestHash_ := "00"; Decision := "deny";
     Reasons := Some ["dest_not_whitelisted"]; AppliedRules := None; Score := lit 5 (-1);
     CreatedAt := zero_time; Signature := "" |}.

(** C40. The sink gets the accepted records in order.  In a service that persists
    synchronously, as the one on the database does, with any store and sink and
    under every interleaving of callers and worker: the records handed to the sink
    so far, followed by those still queued, are the signed records of exactly the
    calls of [Emit] that were answered without error, each once, in the order of
    the calls; and the queue never outgrows its size. *)
Theorem published_in_order `{Fmt} `{Ed25519} {S K} `{Store S} `{Sink K} sg st sk size ls (a : Service S K) :
  asteps (WithSyncPersist (NewService sg st (Some sk) size)) ls a ->
  exists sent, sent ++ queue a = omap (accepted sg) ls /\ sink a = Some (sent_all sent sk) /\
    (length (queue a) <= queueSize a)%nat.
Proof.
  intros Ha. apply (asteps_sent sg sk) in Ha as (_ & _ & Hlen & sent & Hq & Hk); [by exists sent|].
  split_and!; [done..|simpl; lia|]. by exists [].
Qed.

(** The worker empties the queue: with working in-memory ends, as many
    turns as there are queued records store all of them, publish them in order
    behind what was published before, and drop none. *)
Theorem worker_drains `{Ed25519} (a : Service MemoryStore MemorySink) st sk :
  exited a = false -> syncPersist a = false -> store a = Some st -> sink a = Some sk ->
  fail sk = false -> Forall (fun r => DecisionID r <> "") (queue a) ->
  exists a', work_n (length (queue a)) a = Some a' /\ queue a' = [] /\ drops a' = drops a /\
    store a' = Some {| mem := put_all (queue a) (mem st) |} /\
    sink a' = Some {| records := records sk ++ queue a; fail := false |}.
Proof. apply work_n_drains. Qed.

(** The sample service after one emission. *)
Definition sample_service : @Service sample_ed MemoryStore MemorySink :=
  @NewService sample_ed MemoryStore MemorySink sample_signer
    (Some NewMemoryStore) (Some NewMemorySink) 16.

Definition sample_signed : DecisionRecord :=
  with_signature (stamp sample_record 5) (hex_encode sample_sig).

Definition sample_emitted : @Service sample_ed MemoryStore MemorySink :=
  fst (@Emit sample_fmt sample_ed _ _ _ sample_service 5 sample_record).

Lemma sample_emit_step :
  @asteps sample_fmt sample_ed _ _ _ _ sample_service [Emitted 5 sample_record None] sample_emitted.
Proof.
  apply (@asteps_snoc sample_fmt sample_ed _ _ _ _ _ [] sample_service); [constructor|].
  apply (@astep_emit sample_fmt sample_ed). vm_compute. reflexivity.
Qed.

(** Two emissions, between which the worker takes the first record. *)
Definition sample_sync : @Service sample_ed MemoryStore MemorySink :=
  @WithSyncPersist sample_ed _ _ (@NewService sample_ed MemoryStore MemorySink sample_signer
    (Some NewMemoryStore) (Some NewMemorySink) 16).
Definition sample_first := fst (@Emit sample_fmt sample_ed _ _ _ sample_sync 5 sample_record).
Definition sample_turn := default sample_first (@work sample_ed _ _ _ _ sample_first).
Definition sample_second := fst (@Emit sample_fmt sample_ed _ _ _ sample_turn 6 sample_record).

Lemma published_in_order_witness :
  records (default NewMemorySink (sink sample_second)) = [sample_signed] /\
  exists sent, sent ++ queue sample_second
      = [sample_signed; with_signature (stamp sample_record 6) (hex_encode sample_sig)] /\
    sink sample_second = Some (sent_all sent NewMemorySink) /\
    (length (queue sample_second) <= queueSize sample_second)%nat.
Proof.
  split; [vm_compute; reflexivity|].
  apply (@published_in_order sample_fmt sample_ed MemoryStore MemorySink _ _ sample_signer
    (Some NewMemoryStore) NewMemorySink 16
    [Emitted 5 sample_record None; Turn; Emitted 6 sample_record None]).
  apply (@asteps_snoc sample_fmt sample_ed _ _ _ _ _ [Emitted 5 sample_record None; Turn] sample_turn);
    [|apply (@astep_emit sample_fmt sample_ed); vm_compute; reflexivity].
  apply (@asteps_snoc sample_fmt sample_ed _ _ _ _ _ [Emitted 5 sample_record None] sample_first);
    [|apply (@astep_work sample_fmt sample_ed); vm_compute; reflexivity].
  apply (@asteps_snoc sample_fmt sample_ed _ _ _ _ _ [] sample_sync);
    [constructor|apply (@astep_emit sample_fmt sample_ed); vm_compute; reflexivity].
Defined.

Lemma worker_drains_witness :
  exists a', @work_n sample_ed _ _ _ _ 1 sample_emitted = Some a' /\ queue a' = [] /\ drops a' = 0 /\
    store a' = Some {| mem := put_all [sample_signed] ∅ |} /\
    sink a' = Some {| records := [sample_signed]; fail := false |}.
Proof.
  apply (@worker_drains sample_ed sample_emitted NewMemoryStore NewMemorySink);
    try (vm_compute; reflexivity).
  vm_compute. constructor; [discriminate|constructor].
Defined.

(** Close does not drain: the worker may return as soon as the stop channel
    is closed.  A record accepted by Emit can then stay in the queue for ever,
    neither stored nor published nor counted as dropped. *)
Theorem close_loses_records `{Fmt} `{Ed25519} sg now rec sig :
  Sign sg (stamp rec now) = inr sig ->
  exists a' : Service MemoryStore MemorySink,
    asteps (NewService sg (Some NewMemoryStore) (Some NewMemorySink) 16)
      [Emitted now rec None; Closed; Exited] a' /\
    queue a' = [with_signature (stamp rec now) sig] /\ work a' = None /\
    store a' = Some NewMemoryStore /\ sink a' = Some NewMemorySink /\ drops a' = 0.
Proof.
  intros Hsig.
  set (a0 := NewService sg (Some NewMemoryStore) (Some NewMemorySink) 16).
  set (a1 := set_queue a0 [with_signature (stamp rec now) sig]).
  exists (exit_worker (Close a1)). split; [|done].
  apply (asteps_snoc _ [Emitted now rec None; Closed] (Close a1)); [|by constructor].
  apply (asteps_snoc _ [Emitted now rec None] a1); [|constructor].
  apply (asteps_snoc _ [] a0); [constructor|].
  apply astep_emit. unfold Emit. simpl. by rewrite Hsig.
Qed.

Lemma close_loses_records_witness :
  exists a' : @Service sample_ed MemoryStore MemorySink,
    @asteps sample_fmt sample_ed _ _ _ _ sample_service
      [Emitted 5 sample_record None; Closed; Exited] a' /\
    queue a' = [sample_signed] /\ work a' = None /\
    store a' = Some NewMemoryStore /\ sink a' = Some NewMemorySink /\ drops a' = 0.
Proof.
  apply (@close_loses_records sample_fmt sample_ed sample_signer 5 sample_record).
  vm_compute. reflexivity.
Defined.

(** ** KafkaSink

    The Kafka writer is a parameter: what [WriteMessages] does to its state. *)

Record message := { msg_key : string; msg_value : string }.

Class Writer (W : Type) := { WriteMessages : W -> message -> W * option error }.

Section Kafka.
Context `{Fmt} {W : Type} `{Writer W}.

Record KafkaSink := { writer : option W }.

(** [time.Time.Format(RFC3339Nano)] in UTC, of which the encoder's text in UTC is
    the total part. *)
Variable fmt_utc : time -> string.

Definition envelope (rec : DecisionRecord) (payload : string) : string :=
  enc_object
    [ ("action", enc_string "policy.evaluate");
      ("actor_id", enc_string "policy-risk-engine");
      ("id", enc_string (DecisionID rec));
      ("payload", payload);
      ("payload_hash", enc_string ("sha256:" +:+ hex_encode (sha256 payload)));
      ("schema_version", enc_string "1");
      ("source_service", enc_string "policy-risk-engine");
      ("target_id", enc_string (DecisionID rec));
      ("target_type", enc_string "decision");
      ("ts", enc_string (fmt_utc (CreatedAt rec))) ].

Definition kafka_Publish (s : KafkaSink) (now : time) (rec : DecisionRecord)
  : KafkaSink * option error :=
  match writer s with
  | None => (s, Some (Errorf "audit kafka: not connected"))
  | Some w =>
      let rec := if is_zero_time (CreatedAt rec) then with_created rec now else rec in
      match marshal_record rec with
      | inl err => (s, Some err)
      | inr payload =>
          let '(w', err) :=
            WriteMessages w {| msg_key := DecisionID rec; msg_value := envelope rec payload |} in
          ({| writer := Some w' |}, err)
      end
  end.

Definition NewKafkaSink (dial : list string -> W) (brokers : list string) : Res KafkaSink :=
  match brokers with
  | [] => inl (Errorf "audit kafka: no brokers provided")
  | _ => inr {| writer := Some (dial brokers) |}
  end.

End Kafka.

End Audit.
