(* ===== verification/Metrics.v ===== *)
(** * Package metrics: process counters ([internal/metrics/metrics.go])

    The counters are [atomic.Int64]; [render] is the Prometheus text. *)
From Stdlib Require Import ZArith Lia Ascii String.
From stdpp Require Import base gmap strings list.
From S2P Require Import Prelude GoLib.

Open Scope Z_scope.
Open Scope go_scope.

Module Metrics.

Record Metrics := {
  EvaluateTotal : Z;
  EvaluateDurationSum : Z;
  EvaluateDurationCount : Z;
  AllowTotal : Z;
  DenyTotal : Z;
  ManualReviewTotal : Z;
  VelocityRollbacks : Z;
  HotReloadSwaps : Z;
  AuditDrops : Z;
  ReviewPending : Z
}.

Definition zero : Metrics :=
  {| EvaluateTotal := 0; EvaluateDurationSum := 0; EvaluateDurationCount := 0; AllowTotal := 0;
     DenyTotal := 0; ManualReviewTotal := 0; VelocityRollbacks := 0; HotReloadSwaps := 0;
     AuditDrops := 0; ReviewPending := 0 |}.

(** The [Add(1)] of the counters the service changes. *)
Inductive counter := CEvaluate | CAllow | CDeny | CManualReview | CReviewPending | CHotReload.

#[global] Instance counter_eq_dec : EqDecision counter.
Proof. solve_decision. Defined.

Definition bump (c : counter) (m : Metrics) : Metrics :=
  let add k x := if c == k then wrap64 (x + 1) else x in
  {| EvaluateTotal := add CEvaluate (EvaluateTotal m);
     EvaluateDurationSum := EvaluateDurationSum m;
     EvaluateDurationCount := EvaluateDurationCount m;
     AllowTotal := add CAllow (AllowTotal m);
     DenyTotal := add CDeny (DenyTotal m);
     ManualReviewTotal := add CManualReview (ManualReviewTotal m);
     VelocityRollbacks := VelocityRollbacks m;
     HotReloadSwaps := add CHotReload (HotReloadSwaps m);
     AuditDrops := AuditDrops m;
     ReviewPending := add CReviewPending (ReviewPending m) |}.

Definition ObserveEvaluateDuration (nanos : Z) (m : Metrics) : Metrics :=
  {| EvaluateTotal := EvaluateTotal m;
     EvaluateDurationSum := wrap64 (EvaluateDurationSum m + nanos);
     EvaluateDurationCount := wrap64 (EvaluateDurationCount m + 1);
     AllowTotal := AllowTotal m; DenyTotal := DenyTotal m;
     ManualReviewTotal := ManualReviewTotal m; VelocityRollbacks := VelocityRollbacks m;
     HotReloadSwaps := HotReloadSwaps m; AuditDrops := AuditDrops m;
     ReviewPending := ReviewPending m |}.

(** ** The exposition text *)

Definition nl : string := String "010" "".

Definition writeCounter (name : string) (v : Z) : string :=
  "# TYPE " +:+ name +:+ " counter" +:+ nl +:+ name +:+ " " +:+ Itoa v +:+ nl.
Definition writeGauge (name : string) (v : Z) : string :=
  "# TYPE " +:+ name +:+ " gauge" +:+ nl +:+ name +:+ " " +:+ Itoa v +:+ nl.
Definition writeHistogram (name : string) (sum count : Z) : string :=
  "# TYPE " +:+ name +:+ " histogram" +:+ nl +:+ name +:+ "_sum " +:+ Itoa sum +:+ nl +:+
  name +:+ "_count " +:+ Itoa count +:+ nl.

Definition render (m : Metrics) : string :=
  writeCounter "policy_evaluate_total" (EvaluateTotal m) +:+
  writeHistogram "policy_evaluate_duration_seconds" (EvaluateDurationSum m) (EvaluateDurationCount m) +:+
  writeCounter "policy_allow_total" (AllowTotal m) +:+
  writeCounter "policy_deny_total" (DenyTotal m) +:+
  writeCounter "policy_manual_review_total" (ManualReviewTotal m) +:+
  writeCounter "policy_velocity_rollbacks_total" (VelocityRollbacks m) +:+
  writeCounter "policy_hot_reload_swaps_total" (HotReloadSwaps m) +:+
  writeCounter "policy_audit_drops_total" (AuditDrops m) +:+
  writeGauge "policy_review_pending" (ReviewPending m).

End Metrics.
