(* ===== verification/Engine.v ===== *)
(** * Package engine: the decision engine ([internal/engine/engine.go])

    [Engine] is the Go interface; [OPAEngine] wraps the Open Policy Agent.  OPA
    itself (parsing, compiling and evaluating Rego, and its store) is a
    parameter, the class [OPA].  The bundle's data and the engine's input are
    Go values of type [any]. *)
From Stdlib Require Import ZArith Lia Ascii String SpecFloat.
From stdpp Require Import base gmap strings list.
From S2P Require Import Prelude GoLib Float64 Sha256 Json.

Open Scope Z_scope.
Open Scope go_scope.

Module Engine.
Import Json.

(** ** Values of type any

    [ANumber] is a [json.Number], kept as text. *)
Inductive any :=
| ANil
| ABool (b : bool)
| AString (s : string)
| AFloat (x : float64)
| AInt (n : Z)
| ANumber (text : string)
| AArray (l : list any)
| AObject (kvs : list (string * any)).

(** [sort.Strings]: byte order. *)
Fixpoint insert_key {A} (x : string * A) (l : list (string * A)) : list (string * A) :=
  match l with
  | [] => [x]
  | y :: l' => if String.leb (fst x) (fst y) then x :: l else y :: insert_key x l'
  end.

Definition sort_keys {A} (l : list (string * A)) : list (string * A) := foldr insert_key [] l.

Section Encode.
Context `{Fmt}.

(** [json.Marshal] of a generic value: the keys of a map are sorted. *)
Fixpoint enc_any (v : any) : Res string :=
  match v with
  | ANil => inr "null"
  | ABool b => inr (enc_bool b)
  | AString s => inr (enc_string s)
  | AFloat x => enc_float x
  | AInt n => inr (Itoa n)
  | ANumber t => inr (if t == "" then "0" else t)
  | AArray l =>
      let? ts := (fix go (l : list any) : Res (list string) :=
        match l with
        | [] => inr []
        | x :: l' => let? t := enc_any x in let? ts := go l' in inr (t :: ts)
        end) l in
      inr ("[" +:+ join "," ts +:+ "]")
  | AObject kvs =>
      let? ts := (fix go (l : list (string * any)) : Res (list (string * string)) :=
        match l with
        | [] => inr []
        | (k, x) :: l' => let? t := enc_any x in let? ts := go l' in inr ((k, t) :: ts)
        end) kvs in
      inr (enc_object (sort_keys ts))
  end.

End Encode.

(** ** Bundles *)

Record Bundle := {
  Version : string;
  Hash : string;
  Source : gmap string string;
  Data : gmap string any
}.

(** [mergeData(dst, src)]: the entries of [src] win. *)
Definition mergeData (dst src : gmap string any) : gmap string any := src ∪ dst.

Definition nul : string := String "000" "".

Section Hashing.
Context `{Fmt}.

(** What is written to the hash: keys in order, each followed by a zero byte,
    its body and a zero byte; first the sources, then the data.  A data value
    that cannot be encoded contributes an empty body. *)
Definition hash_source (kv : string * string) : string := fst kv +:+ nul +:+ snd kv +:+ nul.
Definition hash_data (kv : string * any) : string :=
  fst kv +:+ nul +:+ (match enc_any (snd kv) with inr b => b | inl _ => "" end) +:+ nul.

Definition hash_input (src : gmap string string) (data : gmap string any) : string :=
  join "" (hash_source <$> sort_keys (map_to_list src)) +:+
  join "" (hash_data <$> sort_keys (map_to_list data)).

Definition hashBundle (src : gmap string string) (data : gmap string any) : string :=
  hex_encode (sha256 (hash_input src data)).

End Hashing.

(** ** Loading a bundle from a directory

    A file of the walk: its path relative to the directory, its extension, and
    its content, or what the parser makes of it.  Reading and parsing files is
    outside the model; the selection and merging are not. *)
Inductive file :=
| RegoFile (rel body : string)
| JsonFile (path : string) (v : Res (gmap string any))
| YamlFile (path : string) (v : Res any)
| OtherFile
| UnreadableFile (path : string) (e : error).

(** One call of the walk function. *)
Definition load_file (acc : gmap string string * gmap string any) (f : file)
  : Res (gmap string string * gmap string any) :=
  let '(src, data) := acc in
  match f with
  | UnreadableFile path e => inl (Wrapf ("read " +:+ path) e)
  | RegoFile rel body => inr (<[rel := body]> src, data)
  | JsonFile path (inl e) => inl (Wrapf ("parse json " +:+ path) e)
  | JsonFile path (inr v) => inr (src, mergeData data v)
  | YamlFile path (inl e) => inl (Wrapf ("parse yaml " +:+ path) e)
  | YamlFile path (inr (AObject kvs)) => inr (src, mergeData data (list_to_map kvs))
  | YamlFile path (inr _) => inr (src, data)
  | OtherFile => inr (src, data)
  end.

Fixpoint load_files (acc : gmap string string * gmap string any) (fs : list file)
  : Res (gmap string string * gmap string any) :=
  match fs with
  | [] => inr acc
  | f :: fs' => let? acc' := load_file acc f in load_files acc' fs'
  end.

Definition LoadBundleFromDir `{Fmt} (fs : list file) : Res Bundle :=
  let? sd := load_files (∅, ∅) fs in
  if bool_decide (fst sd = ∅) then inl (Errorf "no .rego files found in bundle dir")
  else inr {| Version := hashBundle (fst sd) (snd sd); Hash := hashBundle (fst sd) (snd sd);
              Source := fst sd; Data := snd sd |}.

(** ** Results of an evaluation *)

Record Result := {
  Allow : bool;
  ManualReview : bool;
  Deny : bool;
  RiskScore : float64;
  Decision : string;
  AppliedRules : slice string
}.

(** A Rego result set: for each result the values of its expressions. *)
Abbreviation ResultSet := (list (list any)).

Definition truthy (results : ResultSet) : bool :=
  match results with
  | [] => false
  | [] :: _ => false
  | (v :: _) :: _ =>
      match v with
      | ABool x => x
      | ANil => false
      | _ => true
      end
  end.

Definition scoreFloat (results : ResultSet) : float64 :=
  match results with
  | [] => f0
  | [] :: _ => f0
  | (v :: _) :: _ =>
      match v with
      | AFloat x => x
      | AInt n => f64_of_Z n
      | ANumber t => fst (ParseFloat t)
      | _ => f0
      end
  end.

Definition appliedRules (allow mr deny : bool) : slice string :=
  let r1 := if deny then append_all None
      ["deny.fraud_high"; "deny.kyt_sanctioned"; "deny.daily_cap_exceeded";
       "deny.dest_not_whitelisted"; "deny.kyc_not_verified"] else None in
  let r2 := if mr then append_all r1 ["manual_review.fraud_mid"; "manual_review.near_cap"] else r1 in
  if allow then append1 r2 "allow.clean" else r2.

(** Precedence: deny, then manual_review, then allow; manual_review when no flag
    is set. *)
Definition decide_ (allow mr deny : bool) (score : float64) (rules : slice string) : Result :=
  {| Allow := allow; ManualReview := mr; Deny := deny; RiskScore := score;
     Decision := if deny then "deny" else if mr then "manual_review"
                 else if allow then "allow" else "manual_review";
     AppliedRules := rules |}.

(** ** The Engine interface *)

Class Engine (E : Type) := {
  eng_Evaluate : E -> gmap string any -> Res Result;
  eng_Hash : E -> string;
  eng_Version : E -> string
}.

(** ** OPAEngine *)

Class OPA := {
  Module_ : Type;
  Compiler : Type;
  DataStore : Type;
  ParseModule : string -> string -> Res Module_;
  Compile : gmap string Module_ -> Res Compiler;
  NewFromObject : gmap string any -> DataStore;
  RegoEval : Compiler -> DataStore -> gmap string any -> string -> Res ResultSet
}.

Section OPAEngine.
Context `{OPA}.

(** The fields [compiler] and [store] are always assigned together: [compiled] is
    the pair, [None] while the compiler is nil.  The bundle pointer is never nil
    in the program. *)
Record OPAEngine := {
  bundle : Bundle;
  compiled : option (Compiler * DataStore)
}.

Fixpoint parse_all (l : list (string * string)) : Res (gmap string Module_) :=
  match l with
  | [] => inr ∅
  | (name, body) :: l' =>
      match ParseModule name body with
      | inl e => inl (Wrapf ("parse " +:+ name) e)
      | inr m => let? ms := parse_all l' in inr (<[name := m]> ms)
      end
  end.

(** Go visits the sources in an unspecified order: which parse error is
    reported is not determined, whether there is one is. *)
Definition compileModules (src : gmap string string) : Res Compiler :=
  let? modules := parse_all (map_to_list src) in
  match Compile modules with
  | inl e => inl (Errorf ("compile: " +:+ error_msg e))
  | inr c => inr c
  end.

Definition normalizeData (data : gmap string any) : gmap string any := data.

Definition rebuild (e : OPAEngine) : OPAEngine :=
  match compileModules (Source (bundle e)) with
  | inl _ => e
  | inr c => {| bundle := bundle e;
                compiled := Some (c, NewFromObject (normalizeData (Data (bundle e)))) |}
  end.

Definition NewOPAEngine (b : Bundle) : OPAEngine :=
  rebuild {| bundle := b; compiled := None |}.

Definition Swap (e : OPAEngine) (b : Bundle) : OPAEngine :=
  rebuild {| bundle := b; compiled := compiled e |}.

Definition evalBool (c : Compiler) (s : DataStore) (input : gmap string any) (query : string)
  : Res bool :=
  let? results := RegoEval c s input query in inr (truthy results).

Definition evalFloat (c : Compiler) (s : DataStore) (input : gmap string any) (query : string)
  : Res float64 :=
  let? results := RegoEval c s input query in inr (scoreFloat results).

Definition wrap_err {A} (ctx : string) (r : Res A) : Res A :=
  match r with inl e => inl (Wrapf ctx e) | inr x => inr x end.

(** The evaluation of the four queries against one compiled policy. *)
Definition evaluate_with (c : Compiler) (s : DataStore) (input : gmap string any) : Res Result :=
  let? allow := wrap_err "eval allow" (evalBool c s input "data.policy.decisions.allow") in
  let? mr := wrap_err "eval manual_review"
    (evalBool c s input "data.policy.decisions.manual_review") in
  let? deny := wrap_err "eval deny" (evalBool c s input "data.policy.decisions.deny") in
  let score := match evalFloat c s input "data.policy.decisions.risk_score" with
               | inr x => x
               | inl _ => f0
               end in
  inr (decide_ allow mr deny score (appliedRules allow mr deny)).

(** The policy a call runs against: the cached one, or one compiled on demand. *)
Definition policy_of (e : OPAEngine) : Res (Compiler * DataStore) :=
  match compiled e with
  | Some cs => inr cs
  | None =>
      let? c := wrap_err "compile" (compileModules (Source (bundle e))) in
      inr (c, NewFromObject (normalizeData (Data (bundle e))))
  end.

Definition Evaluate (e : OPAEngine) (input : gmap string any) : Res Result :=
  let? cs := policy_of e in evaluate_with (fst cs) (snd cs) input.

#[global] Instance OPAEngine_Engine : Engine OPAEngine := {|
  eng_Evaluate := Evaluate;
  eng_Hash := fun e => Hash (bundle e);
  eng_Version := fun e => Version (bundle e) |}.

End OPAEngine.

(** What the decision path relies on: an engine that returns decides one of
    three ways. *)
Definition decisions : list string := ["allow"; "deny"; "manual_review"].

Class EngineSpec (E : Type) `{Engine E} : Prop := {
  eng_decision e input r : eng_Evaluate e input = inr r -> Decision r ∈ decisions
}.

#[global] Instance OPAEngine_EngineSpec `{OPA} : EngineSpec OPAEngine.
Proof.
  split. simpl. unfold Evaluate, evaluate_with. intros e input r.
  destruct (policy_of e) as [|[c s]]; [done|]. simpl.
  repeat match goal with |- context [wrap_err ?x ?y] => destruct (wrap_err x y) as [?|[]]; try done end;
    intros [= <-]; unfold decisions; set_solver.
Qed.

(** ** Facts about the engine *)

Section Facts.
Context `{OPA}.

Lemma evaluate_with_inv c s input r :
  evaluate_with c s input = inr r ->
  exists ra rm rd,
    RegoEval c s input "data.policy.decisions.allow" = inr ra /\
    RegoEval c s input "data.policy.decisions.manual_review" = inr rm /\
    RegoEval c s input "data.policy.decisions.deny" = inr rd /\
    Allow r = truthy ra /\ ManualReview r = truthy rm /\ Deny r = truthy rd /\
    Decision r = Decision (decide_ (truthy ra) (truthy rm) (truthy rd) f0 None).
Proof.
  unfold evaluate_with, evalBool.
  destruct (RegoEval c s input "data.policy.decisions.allow") as [|ra]; [done|]. simpl.
  destruct (RegoEval c s input "data.policy.decisions.manual_review") as [|rm]; [done|]. simpl.
  destruct (RegoEval c s input "data.policy.decisions.deny") as [|rd]; [done|]. simpl.
  intros [= <-]. exists ra, rm, rd. done.
Qed.

Lemma rebuild_ok e c :
  compileModules (Source (bundle e)) = inr c ->
  rebuild e = {| bundle := bundle e;
                 compiled := Some (c, NewFromObject (normalizeData (Data (bundle e)))) |}.
Proof. unfold rebuild. by intros ->. Qed.

Lemma rebuild_err e err : compileModules (Source (bundle e)) = inl err -> rebuild e = e.
Proof. unfold rebuild. by intros ->. Qed.

(** The engine runs the policy of the bundle it reports. *)
Definition coherent (e : OPAEngine) : Prop :=
  match compileModules (Source (bundle e)) with
  | inr c => policy_of e = inr (c, NewFromObject (normalizeData (Data (bundle e))))
  | inl _ => compiled e = None
  end.

Lemma NewOPAEngine_coherent b : coherent (NewOPAEngine b).
Proof.
  unfold coherent, NewOPAEngine. destruct (compileModules (Source b)) as [err|c] eqn:Hc.
  - erewrite rebuild_err by exact Hc. simpl. by rewrite Hc.
  - erewrite rebuild_ok by exact Hc. simpl. by rewrite Hc.
Qed.

Lemma Swap_coherent e b c : compileModules (Source b) = inr c -> coherent (Swap e b).
Proof.
  intros Hc. unfold coherent, Swap. erewrite rebuild_ok by exact Hc. simpl. by rewrite Hc.
Qed.

End Facts.

(** ** Properties *)

(** A small policy language, to show that the hypotheses below can hold: a module
    is the name of the one flag it raises, and any other text fails to compile. *)
Definition sample_opa : OPA := {|
  Module_ := string; Compiler := gmap string string; DataStore := gmap string any;
  ParseModule := fun _ body => if body == "bad" then inl (Errorf "rego_parse_error") else inr body;
  Compile := fun ms => inr ms;
  NewFromObject := fun d => d;
  RegoEval := fun c _ _ q =>
    match c !! "decisions.rego" with
    | Some flag => inr [[ABool (q == "data.policy.decisions." +:+ flag)]]
    | None => inr []
    end |}.

Definition sample_bundle (v flag : string) : Bundle :=
  {| Version := v; Hash := v; Source := {["decisions.rego" := flag]}; Data := ∅ |}.

(** An evaluation that returns has run all three decision queries against
    one compiled policy, and its decision is deny exactly when the deny query is
    true, allow exactly when only the allow query is true, and manual_review in
    every other case, including when no query is true. *)
Theorem opa_decision_spec `{OPA} e input r :
  Evaluate e input = inr r ->
  exists c s ra rm rd,
    policy_of e = inr (c, s) /\
    RegoEval c s input "data.policy.decisions.allow" = inr ra /\
    RegoEval c s input "data.policy.decisions.manual_review" = inr rm /\
    RegoEval c s input "data.policy.decisions.deny" = inr rd /\
    (Decision r = "deny" <-> truthy rd = true) /\
    (Decision r = "allow" <-> truthy ra = true /\ truthy rm = false /\ truthy rd = false) /\
    (Decision r = "manual_review" <->
       truthy rd = false /\ (truthy rm = true \/ truthy ra = false)).
Proof.
  unfold Evaluate. destruct (policy_of e) as [|[c s]] eqn:Hp; [done|]. simpl. intros Hr.
  destruct (evaluate_with_inv _ _ _ _ Hr) as (ra & rm & rd & Ha & Hm & Hd & _ & _ & _ & Hdec).
  exists c, s, ra, rm, rd. rewrite Hdec. simpl.
  destruct (truthy ra), (truthy rm), (truthy rd); naive_solver.
Qed.

Lemma opa_decision_spec_witness :
  exists c s ra rm rd,
    @policy_of sample_opa (@NewOPAEngine sample_opa (sample_bundle "v1" "allow")) = inr (c, s) /\
    @RegoEval sample_opa c s ∅ "data.policy.decisions.allow" = inr ra /\
    @RegoEval sample_opa c s ∅ "data.policy.decisions.manual_review" = inr rm /\
    @RegoEval sample_opa c s ∅ "data.policy.decisions.deny" = inr rd /\
    ("allow" = "deny" <-> truthy rd = true) /\
    ("allow" = "allow" <-> truthy ra = true /\ truthy rm = false /\ truthy rd = false) /\
    ("allow" = "manual_review" <->
       truthy rd = false /\ (truthy rm = true \/ truthy ra = false)).
Proof.
  apply (@opa_decision_spec sample_opa (@NewOPAEngine sample_opa (sample_bundle "v1" "allow")) ∅
    (decide_ true false false f0 (appliedRules true false false))).
  vm_compute. reflexivity.
Defined.

End Engine.
