(* ===== verification/JsonDecode.v ===== *)
(** * The decoding of [encoding/json]

    The first stage of [json.Unmarshal]: the syntax of RFC 8259 with Go's
    treatment of strings (escapes, surrogate pairs, invalid UTF-8) and its limit
    on nesting, which gives a tree.  The second stage, the assignment of a tree
    to a Go value, is [Unmarshal].

    Parsing always ends within its fuel ([parse_terminates]), and the printer of
    [Json] is inverted by the parser ([parse_print]). *)
From Stdlib Require Import ZArith Lia Ascii String SpecFloat.
From stdpp Require Import base gmap strings list.
From S2P Require Import Prelude GoLib Float64 Sha256 Json Engine.

Open Scope Z_scope.
Open Scope go_scope.

Module JsonDecode.
Import Json.

(** ** Trees *)

(** A number is kept as its text. *)
Inductive json :=
| JNull
| JBool (b : bool)
| JNum (text : string)
| JStr (s : string)
| JArr (l : list json)
| JObj (kvs : list (string * json)).

(** ** Strings *)

(** U+FFFD, which replaces what is not UTF-8. *)
Definition fffd : string := String "239" (String "191" (String "189" "")).

(** What decoding makes of a string that was encoded. *)
Fixpoint to_valid (s : string) : string :=
  match s with
  | EmptyString => ""
  | String a s1 =>
      if code a <? 128 then String a (to_valid s1) else
      match s1 with
      | String b s2 =>
          if rune2 a b then String a (String b (to_valid s2)) else
          match s2 with
          | String c s3 =>
              if rune3 a b c then String a (String b (String c (to_valid s3))) else
              match s3 with
              | String d s4 =>
                  if rune4 a b c d then String a (String b (String c (String d (to_valid s4))))
                  else fffd +:+ to_valid s1
              | EmptyString => fffd +:+ to_valid s1
              end
          | EmptyString => fffd +:+ to_valid s1
          end
      | EmptyString => fffd +:+ to_valid s1
      end
  end.

Definition chr (n : Z) : ascii := ascii_of_N (Z.to_N n).

(** [utf8.EncodeRune]. *)
Definition utf8 (r : Z) : string :=
  if r <? 128 then String (chr r) ""
  else if r <? 2048 then String (chr (192 + r / 64)) (String (chr (128 + r mod 64)) "")
  else if r <? 65536 then
    String (chr (224 + r / 4096)) (String (chr (128 + r / 64 mod 64)) (String (chr (128 + r mod 64)) ""))
  else
    String (chr (240 + r / 262144)) (String (chr (128 + r / 4096 mod 64))
      (String (chr (128 + r / 64 mod 64)) (String (chr (128 + r mod 64)) ""))).

Definition hex4 (a b c d : ascii) : option Z :=
  match from_hex a, from_hex b, from_hex c, from_hex d with
  | Some w, Some x, Some y, Some z => Some (w * 4096 + x * 256 + y * 16 + z)
  | _, _, _, _ => None
  end.

(** [utf16.IsSurrogate], and [utf16.DecodeRune] on two halves. *)
Definition surrogate (r : Z) : bool := (55296 <=? r) && (r <? 57344).
Definition decode_pair (r1 r2 : Z) : option Z :=
  if (55296 <=? r1) && (r1 <? 56320) && (56320 <=? r2) && (r2 <? 57344)
  then Some ((r1 - 55296) * 1024 + (r2 - 56320) + 65536) else None.

Definition unesc (c : ascii) : option ascii :=
  if (c == quote) || (c == backslash) || (c == "/"%char) then Some c
  else if c == "b"%char then Some (chr 8)
  else if c == "f"%char then Some (chr 12)
  else if c == "n"%char then Some (chr 10)
  else if c == "r"%char then Some (chr 13)
  else if c == "t"%char then Some (chr 9)
  else None.

Definition cons_text (t : string) (r : option (string * string)) : option (string * string) :=
  match r with Some (x, rest) => Some (t +:+ x, rest) | None => None end.

(** The characters up to the closing quote, and what follows it. *)
Fixpoint scan_chars (s : string) : option (string * string) :=
  match s with
  | EmptyString => None
  | String a s1 =>
      if a == quote then Some ("", s1)
      else if a == backslash then
        match s1 with
        | EmptyString => None
        | String e s2 =>
            if e == "u"%char then
              match s2 with
              | String h1 (String h2 (String h3 (String h4 s3))) =>
                  match hex4 h1 h2 h3 h4 with
                  | None => None
                  | Some r =>
                      if surrogate r then
                        match s3 with
                        | String x (String y (String g1 (String g2 (String g3 (String g4 s4))))) =>
                            match (if (x == backslash) && (y == "u"%char) then hex4 g1 g2 g3 g4 else None) with
                            | Some r2 =>
                                match decode_pair r r2 with
                                | Some rr => cons_text (utf8 rr) (scan_chars s4)
                                | None => cons_text fffd (scan_chars s3)
                                end
                            | None => cons_text fffd (scan_chars s3)
                            end
                        | _ => cons_text fffd (scan_chars s3)
                        end
                      else cons_text (utf8 r) (scan_chars s3)
                  end
              | _ => None
              end
            else match unesc e with
                 | Some c => cons_text (String c "") (scan_chars s2)
                 | None => None
                 end
        end
      else if code a <? 32 then None
      else if code a <? 128 then cons_text (String a "") (scan_chars s1)
      else match s1 with
           | String b s2 =>
               if rune2 a b then cons_text (String a (String b "")) (scan_chars s2) else
               match s2 with
               | String c s3 =>
                   if rune3 a b c then cons_text (String a (String b (String c ""))) (scan_chars s3) else
                   match s3 with
                   | String d s4 =>
                       if rune4 a b c d
                       then cons_text (String a (String b (String c (String d "")))) (scan_chars s4)
                       else cons_text fffd (scan_chars s1)
                   | EmptyString => cons_text fffd (scan_chars s1)
                   end
               | EmptyString => cons_text fffd (scan_chars s1)
               end
           | EmptyString => cons_text fffd (scan_chars s1)
           end
  end.

(** ** Numbers *)

(** The longest prefix of digits, and the rest. *)
Fixpoint take_digits (s : string) : string * string :=
  match s with
  | String c s' =>
      if is_digit c then let '(d, r) := take_digits s' in (String c d, r) else ("", s)
  | EmptyString => ("", "")
  end.

Definition scan_int (s : string) : option (string * string) :=
  match s with
  | String c s' =>
      if c == "0"%char then Some ("0", s')
      else if is_digit c then Some (take_digits s) else None
  | EmptyString => None
  end.

Definition scan_frac (s : string) : option (string * string) :=
  match s with
  | String c s' =>
      if c == "."%char then
        match take_digits s' with
        | (EmptyString, _) => None
        | (d, r) => Some (String c d, r)
        end
      else Some ("", s)
  | EmptyString => Some ("", "")
  end.

Definition scan_exponent (s : string) : option (string * string) :=
  match s with
  | String c s' =>
      if (c == "e"%char) || (c == "E"%char) then
        let '(sign, r) := match s' with
                          | String x t => if (x == "+"%char) || (x == "-"%char)
                                          then (String x "", t) else ("", s')
                          | EmptyString => ("", s')
                          end in
        match take_digits r with
        | (EmptyString, _) => None
        | (d, r') => Some (String c (sign +:+ d), r')
        end
      else Some ("", s)
  | EmptyString => Some ("", "")
  end.

(** The text of a number and what follows it. *)
Definition scan_number (s : string) : option (string * string) :=
  let '(sign, s1) := match s with
                     | String c t => if c == "-"%char then ("-", t) else ("", s)
                     | EmptyString => ("", s)
                     end in
  match scan_int s1 with
  | None => None
  | Some (i, s2) =>
      match scan_frac s2 with
      | None => None
      | Some (f, s3) =>
          match scan_exponent s3 with
          | None => None
          | Some (e, s4) => Some (sign +:+ i +:+ f +:+ e, s4)
          end
      end
  end.

(** ** Values *)

Definition json_space (c : ascii) : bool :=
  (code c =? 32) || (code c =? 9) || (code c =? 10) || (code c =? 13).

Fixpoint skip_ws (s : string) : string :=
  match s with
  | String c s' => if json_space c then skip_ws s' else s
  | EmptyString => s
  end.

(** Out of fuel, a syntax error, or a value and the rest. *)
Inductive pres A := POut | PBad | POk (a : A) (rest : string).
Arguments POut {A}.
Arguments PBad {A}.
Arguments POk {A} a rest.

Definition pbind {A B} (r : pres A) (k : A -> string -> pres B) : pres B :=
  match r with POut => POut | PBad => PBad | POk a rest => k a rest end.

(** The next character that is not white space, and what follows. *)
Definition next {A} (s : string) (k : ascii -> string -> pres A) : pres A :=
  match skip_ws s with String c t => k c t | EmptyString => PBad end.

Definition of_option {A} (r : option (A * string)) : pres A :=
  match r with Some (a, rest) => POk a rest | None => PBad end.

Definition maxNestingDepth : Z := 10000.

Definition keyword (word : string) (j : json) (s : string) : pres json :=
  if HasPrefix s word then POk j (drop (String.length word) s) else PBad.

Fixpoint p_value (n : nat) (d : Z) (s : string) {struct n} : pres json :=
  match n with
  | O => POut
  | S n' =>
      next s (fun c t =>
        if c == "{"%char then
          if maxNestingDepth <=? d then PBad else
          next t (fun c' t' =>
            if c' == "}"%char then POk (JObj []) t'
            else pbind (p_members n' (d + 1) t) (fun kvs r => POk (JObj kvs) r))
        else if c == "["%char then
          if maxNestingDepth <=? d then PBad else
          next t (fun c' t' =>
            if c' == "]"%char then POk (JArr []) t'
            else pbind (p_elems n' (d + 1) t) (fun l r => POk (JArr l) r))
        else if c == quote then pbind (of_option (scan_chars t)) (fun x r => POk (JStr x) r)
        else if c == "t"%char then keyword "true" (JBool true) (String c t)
        else if c == "f"%char then keyword "false" (JBool false) (String c t)
        else if c == "n"%char then keyword "null" JNull (String c t)
        else pbind (of_option (scan_number (String c t))) (fun x r => POk (JNum x) r))
  end
with p_elems (n : nat) (d : Z) (s : string) {struct n} : pres (list json) :=
  match n with
  | O => POut
  | S n' =>
      pbind (p_value n' d s) (fun v r =>
        next r (fun c t =>
          if c == ","%char then pbind (p_elems n' d t) (fun l r' => POk (v :: l) r')
          else if c == "]"%char then POk [v] t
          else PBad))
  end
with p_members (n : nat) (d : Z) (s : string) {struct n} : pres (list (string * json)) :=
  match n with
  | O => POut
  | S n' =>
      next s (fun q t =>
        if q == quote then
          pbind (of_option (scan_chars t)) (fun k r =>
            next r (fun c t1 =>
              if c == ":"%char then
                pbind (p_value n' d t1) (fun v r1 =>
                  next r1 (fun c2 t2 =>
                    if c2 == ","%char then
                      pbind (p_members n' d t2) (fun l r2 => POk ((k, v) :: l) r2)
                    else if c2 == "}"%char then POk [(k, v)] t2
                    else PBad))
              else PBad))
        else PBad)
  end.

(** Each call reads a character, apart from the first one of an element: two
    calls per character and one more are enough. *)
Definition parse_fuel (s : string) : nat := 2 * String.length s + 1.

Definition parse_value (s : string) : pres json := p_value (parse_fuel s) 0 s.

Definition parse (s : string) : option json :=
  match parse_value s with
  | POk j rest => if skip_ws rest == "" then Some j else None
  | _ => None
  end.

(** ** Evaluation on concrete inputs *)

(** The texts are written with ['] for the quote. *)
Fixpoint q (s : string) : string :=
  match s with
  | String c s' => String (if c == "'"%char then quote else c) (q s')
  | EmptyString => ""
  end.

Example json_parse_ok :
  parse (q " { 'a' : [1, -2.5e+3 ,true,null], 'b':'x\n\u00e9\ud83d\ude00\ud800' } ")
  = Some (JObj [("a", JArr [JNum "1"; JNum "-2.5e+3"; JBool true; JNull]);
                ("b", JStr ("x" +:+ String "010" (String "195" (String "169" (String "240" (String "159"
                        (String "152" (String "128" fffd))))))))]).
Proof. vm_compute. reflexivity. Qed.

Example json_parse_bad :
  map (fun s => parse (q s))
    [""; "01"; "1."; "-"; "[1,]"; "{'a':1,}"; "{a:1}"; "tru"; "'a"; "'\x'"; "1 2"; "{'a' 1}"; "[1"; ".5"; "+1"]
  = repeat None 15.
Proof. vm_compute. reflexivity. Qed.

(** ** Strings round trip *)

Lemma char_code_range c : 0 <= code c < 256.
Proof. unfold code. pose proof (N_ascii_bounded c). lia. Qed.

Lemma code_inj a b : code a = code b -> a = b.
Proof.
  unfold code. intros H%N2Z.inj. rewrite <- (ascii_N_embedding a), <- (ascii_N_embedding b). by rewrite H.
Qed.

Lemma chr_code n c : code c = n -> chr n = c.
Proof. intros <-. unfold chr, code. by rewrite N2Z.id, ascii_N_embedding. Qed.

Lemma append_cons c (a b : string) : String c a +:+ b = String c (a +:+ b).
Proof. done. Qed.

Lemma append_nil (b : string) : "" +:+ b = b.
Proof. done. Qed.

(** One ASCII character. *)
Lemma scan_ascii a t :
  code a < 128 -> scan_chars (enc_ascii a +:+ t) = cons_text (String a "") (scan_chars t).
Proof.
  intros Ha. destruct a as [[] [] [] [] [] [] [] []];
    try (vm_compute in Ha; discriminate); reflexivity.
Qed.

Lemma scan_bad_rune t : scan_chars (bad_rune +:+ t) = cons_text fffd (scan_chars t).
Proof. reflexivity. Qed.

Lemma scan_line_sep a b c t :
  line_sep a b c = true ->
  scan_chars (String backslash ("u202" +:+ (if code c =? 168 then "8" else "9")) +:+ t)
  = cons_text (String a (String b (String c ""))) (scan_chars t).
Proof.
  unfold line_sep. intros H. go_bool.
  rewrite (code_inj a "226"), (code_inj b "128") by done.
  match goal with Hc : (_ || _)%bool = true |- _ => apply orb_true_iff in Hc as [Hc|Hc]; go_bool end.
  - by rewrite (code_inj c "168").
  - by rewrite (code_inj c "169").
Qed.

Lemma line_sep_rune3 a b c : line_sep a b c = true -> rune3 a b c = true.
Proof.
  unfold line_sep. intros H. go_bool.
  rewrite (code_inj a "226"), (code_inj b "128") by done.
  match goal with Hc : (_ || _)%bool = true |- _ => apply orb_true_iff in Hc as [Hc|Hc]; go_bool end.
  - by rewrite (code_inj c "168").
  - by rewrite (code_inj c "169").
Qed.

(** A character outside ASCII is neither a quote nor a backslash. *)
Lemma high_char a : (code a <? 128) = false ->
  (a == quote) = false /\ (a == backslash) = false /\ (code a <? 32) = false.
Proof.
  intros H. go_bool. split_and!; [..|by apply Z.ltb_ge; lia];
    apply bool_decide_eq_false_2; intros ->; vm_compute in H; congruence.
Qed.

Lemma cons_text_app x y r : cons_text x (cons_text y r) = cons_text (x +:+ y) r.
Proof. destruct r as [[t rest]|]; simpl; [by rewrite string_app_assoc|done]. Qed.

(** Decoding an encoded string gives it back, with U+FFFD for what is not UTF-8. *)
Lemma scan_enc_chars s rest :
  scan_chars (enc_chars s +:+ String quote rest) = Some (to_valid s, rest).
Proof.
  remember (String.length s) as n eqn:Hn. revert s Hn.
  induction (lt_wf n) as [n _ IH]. intros s ->.
  assert (forall s', (String.length s' < String.length s)%nat ->
    scan_chars (enc_chars s' +:+ String quote rest) = Some (to_valid s', rest)) as Hrec
    by (intros s' Hs; by apply (IH (String.length s'))). clear IH.
  destruct s as [|a s1]; [done|]. cbn [enc_chars to_valid].
  destruct (code a <? 128) eqn:Ha.
  { rewrite string_app_assoc, scan_ascii by (go_bool; lia). rewrite Hrec by (simpl; lia). done. }
  destruct (high_char a Ha) as (Hq & Hb & Hc).
  assert (scan_chars ((bad_rune +:+ enc_chars s1) +:+ String quote rest) = Some (fffd +:+ to_valid s1, rest))
    as Hbad by (rewrite string_app_assoc, scan_bad_rune, Hrec by (simpl; lia); done).
  destruct s1 as [|b s2]; [exact Hbad|]. destruct (rune2 a b) eqn:H2.
  { rewrite !append_cons, append_nil. cbn [scan_chars]. rewrite Hq, Hb, Hc, Ha, H2. rewrite Hrec by (simpl; lia). done. }
  destruct s2 as [|c s3]; [exact Hbad|]. destruct (line_sep a b c) eqn:Hl.
  { rewrite string_app_assoc, (scan_line_sep a b c), (line_sep_rune3 a b c) by done.
    rewrite Hrec by (simpl; lia). done. }
  destruct (rune3 a b c) eqn:H3.
  { rewrite !append_cons, append_nil. cbn [scan_chars]. rewrite Hq, Hb, Hc, Ha, H2, H3. rewrite Hrec by (simpl; lia). done. }
  destruct s3 as [|d s4]; [exact Hbad|]. destruct (rune4 a b c d) eqn:H4; [|exact Hbad].
  rewrite !append_cons, append_nil. cbn [scan_chars]. rewrite Hq, Hb, Hc, Ha, H2, H3, H4. rewrite Hrec by (simpl; lia). done.
Qed.

(** ** Enough fuel *)

Lemma skip_ws_length s : (String.length (skip_ws s) <= String.length s)%nat.
Proof. induction s as [|c s IH]; simpl; [done|]. destruct (json_space c); simpl; lia. Qed.

Lemma drop_length n s : String.length (drop n s) = (String.length s - n)%nat.
Proof. revert s. induction n as [|n IH]; intros [|c s]; simpl; auto. Qed.

Lemma cons_text_rest t r x rest :
  cons_text t r = Some (x, rest) -> exists x', r = Some (x', rest).
Proof. destruct r as [[y r']|]; simpl; [|done]. intros [= <- <-]. eauto. Qed.

Lemma scan_chars_length s x rest :
  scan_chars s = Some (x, rest) -> (String.length rest < String.length s)%nat.
Proof.
  remember (String.length s) as n eqn:Hn. revert s x Hn.
  induction (lt_wf n) as [n _ IH]. intros s x -> Hs.
  assert (forall s' t, (String.length s' < String.length s)%nat ->
    cons_text t (scan_chars s') = Some (x, rest) -> (String.length rest < String.length s)%nat) as Hrec.
  { intros s' t Hlen Hc. apply cons_text_rest in Hc as [x' Hc].
    pose proof (IH _ Hlen s' x' eq_refl Hc). lia. }
  clear IH. destruct s as [|a s1]; [done|]. cbn [scan_chars] in Hs.
  destruct (a == quote); [injection Hs as <- <-; simpl; lia|].
  destruct (a == backslash).
  - destruct s1 as [|e s2]; [done|]. destruct (e == _).
    + destruct s2 as [|h1 [|h2 [|h3 [|h4 s3]]]]; try done. destruct (hex4 _ _ _ _) as [r|]; [|done].
      destruct (surrogate r); [|eapply Hrec; [|exact Hs]; simpl; lia].
      destruct s3 as [|x1 [|x2 [|x3 [|x4 [|x5 [|x6 s4]]]]]];
        try (eapply Hrec; [|exact Hs]; simpl; lia).
      destruct (if (_ && _)%bool then _ else _) as [r2|]; [|eapply Hrec; [|exact Hs]; simpl; lia].
      destruct (decode_pair r r2); (eapply Hrec; [|exact Hs]; simpl; lia).
    + destruct (unesc e); [|done]. eapply Hrec; [|exact Hs]; simpl; lia.
  - destruct (code a <? 32); [done|]. destruct (code a <? 128); [eapply Hrec; [|exact Hs]; simpl; lia|].
    destruct s1 as [|b s2]; [eapply Hrec; [|exact Hs]; simpl; lia|].
    destruct (rune2 a b); [eapply Hrec; [|exact Hs]; simpl; lia|].
    destruct s2 as [|c s3]; [eapply Hrec; [|exact Hs]; simpl; lia|].
    destruct (rune3 a b c); [eapply Hrec; [|exact Hs]; simpl; lia|].
    destruct s3 as [|d s4]; [eapply Hrec; [|exact Hs]; simpl; lia|].
    destruct (rune4 a b c d); (eapply Hrec; [|exact Hs]; simpl; lia).
Qed.

Lemma take_digits_app s d r : take_digits s = (d, r) -> s = d +:+ r.
Proof.
  revert d. induction s as [|c s IH]; intros d; simpl; [by intros [= <- <-]|].
  destruct (is_digit c); [|by intros [= <- <-]]. destruct (take_digits s) as [d' r'].
  intros [= <- <-]. rewrite append_cons. f_equal. by apply IH.
Qed.

Lemma scan_int_app s x r : scan_int s = Some (x, r) -> s = x +:+ r /\ x <> "".
Proof.
  unfold scan_int. destruct s as [|c s]; [done|].
  case_bool_decide as E; [by intros [= <- <-]; subst|].
  destruct (is_digit c) eqn:Hd; [|done]. intros [= H]. split; [by apply take_digits_app|].
  simpl in H. rewrite Hd in H. destruct (take_digits s). by injection H as <- <-.
Qed.

Lemma scan_frac_app s x r : scan_frac s = Some (x, r) -> s = x +:+ r.
Proof.
  unfold scan_frac. destruct s as [|c s]; [by intros [= <- <-]|].
  case_bool_decide as E; [|by intros [= <- <-]]. destruct (take_digits s) as [d r'] eqn:Ht.
  apply take_digits_app in Ht as ->. destruct d; [done|]. by intros [= <- <-].
Qed.

Lemma scan_exponent_app s x r : scan_exponent s = Some (x, r) -> s = x +:+ r.
Proof.
  unfold scan_exponent. destruct s as [|c s]; [by intros [= <- <-]|].
  destruct (_ || _); [|by intros [= <- <-]].
  destruct (match s with EmptyString => _ | _ => _ end) as [sign t] eqn:Hsign.
  assert (s = sign +:+ t) as ->.
  { destruct s as [|y s']; [by injection Hsign as <- <-|].
    destruct (_ || _); by injection Hsign as <- <-. }
  destruct (take_digits t) as [d r'] eqn:Ht. apply take_digits_app in Ht as ->.
  destruct d; [done|]. intros [= <- <-]. by rewrite (append_cons c), string_app_assoc.
Qed.

Lemma scan_number_app s x r : scan_number s = Some (x, r) -> s = x +:+ r /\ x <> "".
Proof.
  unfold scan_number.
  destruct (match s with EmptyString => _ | _ => _ end) as [sign s1] eqn:Hsign.
  assert (s = sign +:+ s1) as ->.
  { destruct s as [|c s']; [by injection Hsign as <- <-|].
    case_bool_decide; subst; by injection Hsign as <- <-. }
  destruct (scan_int s1) as [[i s2]|] eqn:Hi; [|done]. apply scan_int_app in Hi as [-> Hi].
  destruct (scan_frac s2) as [[f s3]|] eqn:Hf; [|done]. apply scan_frac_app in Hf as ->.
  destruct (scan_exponent s3) as [[e s4]|] eqn:He; [|done]. apply scan_exponent_app in He as ->.
  intros [= <- <-]. rewrite !string_app_assoc. split; [done|].
  destruct sign; [|done]. by destruct i.
Qed.

Lemma string_length_app (a b : string) :
  String.length (a +:+ b) = (String.length a + String.length b)%nat.
Proof. induction a as [|c a IH]; [done|]. rewrite append_cons. simpl. by rewrite IH. Qed.

Lemma scan_number_length s x r :
  scan_number s = Some (x, r) -> (String.length r < String.length s)%nat.
Proof.
  intros [-> Hx]%scan_number_app. rewrite string_length_app. destruct x; [done|]. simpl. lia.
Qed.

Lemma keyword_rest word j s v r :
  keyword word j s = POk v r -> word <> "" -> s <> "" -> (String.length r < String.length s)%nat.
Proof.
  unfold keyword. destruct (HasPrefix s word); [|done]. intros [= <- <-] Hw Hs.
  rewrite drop_length. destruct word, s; try done. simpl. lia.
Qed.

Lemma next_ok {A} s (k : ascii -> string -> pres A) v r :
  next s k = POk v r ->
  exists c t, (String.length t < String.length s)%nat /\ k c t = POk v r.
Proof.
  unfold next. destruct (skip_ws s) as [|c t] eqn:Hs; [done|]. intros H. exists c, t. split; [|done].
  pose proof (skip_ws_length s) as Hl. rewrite Hs in Hl. simpl in Hl. lia.
Qed.

Lemma pbind_ok {A B} (r : pres A) (k : A -> string -> pres B) b rest :
  pbind r k = POk b rest -> exists a rest', r = POk a rest' /\ k a rest' = POk b rest.
Proof. destruct r; simpl; [done..|]. eauto. Qed.

Lemma of_option_ok {A} (r : option (A * string)) a rest : of_option r = POk a rest -> r = Some (a, rest).
Proof. destruct r as [[]|]; simpl; [|done]. by intros [= <- <-]. Qed.

(** What was parsed was read: the rest is shorter. *)
Lemma p_shorter n :
  (forall d s v r, p_value n d s = POk v r -> (String.length r < String.length s)%nat) /\
  (forall d s v r, p_elems n d s = POk v r -> (String.length r < String.length s)%nat) /\
  (forall d s v r, p_members n d s = POk v r -> (String.length r < String.length s)%nat).
Proof.
  induction n as [|n (IHv & IHe & IHm)]; [done|]. split_and!; intros d s v r Hp.
  - cbn [p_value] in Hp. apply next_ok in Hp as (c & t & Hl & Hp).
    destruct (c == "{"%char); [|destruct (c == "["%char)].
    1,2: destruct (_ <=? _); [done|]; apply next_ok in Hp as (c' & t' & Hl' & Hp);
      destruct (c' == _); [injection Hp as <- <-; lia|];
      apply pbind_ok in Hp as (l & r' & Hp & [= <- <-]); (apply IHe in Hp || apply IHm in Hp); lia.
    destruct (c == quote).
    { apply pbind_ok in Hp as (x & r' & Hx & [= <- <-]). apply of_option_ok, scan_chars_length in Hx. lia. }
    repeat match type of Hp with (if ?b then keyword _ _ _ else _) = _ =>
      destruct b; [apply keyword_rest in Hp; [simpl in Hp; lia|done..]|] end.
    apply pbind_ok in Hp as (x & r' & Hx & [= <- <-]). apply of_option_ok, scan_number_length in Hx.
    simpl in Hx. lia.
  - cbn [p_elems] in Hp. apply pbind_ok in Hp as (x & r1 & Hx & Hp). apply IHv in Hx.
    apply next_ok in Hp as (c & t & Hl & Hp).
    destruct (c == ","%char); [|destruct (c == "]"%char); [injection Hp as <- <-; lia|done]].
    apply pbind_ok in Hp as (l & r2 & Hp & [= <- <-]). apply IHe in Hp. lia.
  - cbn [p_members] in Hp. apply next_ok in Hp as (q0 & t & Hl & Hp). destruct (q0 == quote); [|done].
    apply pbind_ok in Hp as (k & r1 & Hk & Hp). apply of_option_ok, scan_chars_length in Hk.
    apply next_ok in Hp as (c & t1 & Hl1 & Hp). destruct (c == ":"%char); [|done].
    apply pbind_ok in Hp as (x & r2 & Hx & Hp). apply IHv in Hx.
    apply next_ok in Hp as (c2 & t2 & Hl2 & Hp).
    destruct (c2 == ","%char); [|destruct (c2 == "}"%char); [injection Hp as <- <-; lia|done]].
    apply pbind_ok in Hp as (l & r3 & Hp & [= <- <-]). apply IHm in Hp. lia.
Qed.

Lemma next_out {A} s (k : ascii -> string -> pres A) :
  (forall c t, (String.length t < String.length s)%nat -> k c t <> POut) -> next s k <> POut.
Proof.
  intros Hk. unfold next. destruct (skip_ws s) as [|c t] eqn:Hs; [done|]. apply Hk.
  pose proof (skip_ws_length s) as Hl. rewrite Hs in Hl. simpl in Hl. lia.
Qed.

Lemma pbind_out {A B} (r : pres A) (k : A -> string -> pres B) :
  r <> POut -> (forall a rest, r = POk a rest -> k a rest <> POut) -> pbind r k <> POut.
Proof. intros Hr Hk. destruct r; simpl; [done..|]. by apply Hk. Qed.

Lemma of_option_out {A} (r : option (A * string)) : of_option r <> POut.
Proof. by destruct r as [[]|]. Qed.

Lemma keyword_out word j s : keyword word j s <> POut.
Proof. unfold keyword. by destruct (HasPrefix s word). Qed.

(** Two calls per character are enough. *)
Lemma p_enough n :
  (forall d s, (2 * String.length s + 1 <= n)%nat -> p_value n d s <> POut) /\
  (forall d s, (2 * String.length s + 2 <= n)%nat -> p_elems n d s <> POut) /\
  (forall d s, (2 * String.length s + 2 <= n)%nat -> p_members n d s <> POut).
Proof.
  induction n as [|n (IHv & IHe & IHm)]; [split_and!; intros; lia|]. split_and!; intros d s Hn.
  - cbn [p_value]. apply next_out. intros c t Hl.
    destruct (c == "{"%char); [|destruct (c == "["%char)].
    1,2: destruct (_ <=? _); [done|]; apply next_out; intros c' t' Hl'; destruct (c' == _); [done|];
      apply pbind_out; [apply IHm || apply IHe; lia|done].
    destruct (c == quote); [apply pbind_out; [apply of_option_out|done]|].
    repeat match goal with |- (if ?b then keyword _ _ _ else _) <> _ =>
      destruct b; [apply keyword_out|] end.
    apply pbind_out; [apply of_option_out|done].
  - cbn [p_elems]. apply pbind_out; [apply IHv; lia|]. intros x r1 Hx%p_shorter.
    apply next_out. intros c t Hl.
    destruct (c == ","%char); [|by destruct (c == "]"%char)]. apply pbind_out; [apply IHe; lia|done].
  - cbn [p_members]. apply next_out. intros q0 t Hl. destruct (q0 == quote); [|done].
    apply pbind_out; [apply of_option_out|]. intros k r1 Hk%of_option_ok%scan_chars_length.
    apply next_out. intros c t1 Hl1. destruct (c == ":"%char); [|done].
    apply pbind_out; [apply IHv; lia|]. intros x r2 Hx%p_shorter. apply next_out. intros c2 t2 Hl2.
    destruct (c2 == ","%char); [|by destruct (c2 == "}"%char)]. apply pbind_out; [apply IHm; lia|done].
Qed.

Lemma next_ext {A} s (k k' : ascii -> string -> pres A) :
  next s k <> POut -> (forall c t, k c t <> POut -> k' c t = k c t) -> next s k' = next s k.
Proof. unfold next. intros Hn Hk. destruct (skip_ws s); [done|]. by apply Hk. Qed.

Lemma pbind_ext {A B} (r r' : pres A) (k k' : A -> string -> pres B) :
  pbind r k <> POut -> (r <> POut -> r' = r) -> (forall a t, k a t <> POut -> k' a t = k a t) ->
  pbind r' k' = pbind r k.
Proof.
  intros Hb Hr Hk. destruct r; simpl in Hb; [done|by rewrite Hr|]. rewrite Hr by done. simpl. by apply Hk.
Qed.

(** More fuel does not change a result. *)
Lemma p_more n :
  (forall d s, p_value n d s <> POut -> p_value (S n) d s = p_value n d s) /\
  (forall d s, p_elems n d s <> POut -> p_elems (S n) d s = p_elems n d s) /\
  (forall d s, p_members n d s <> POut -> p_members (S n) d s = p_members n d s).
Proof.
  induction n as [|n (IHv & IHe & IHm)]; [done|]. split_and!; intros d s Hn.
  - remember (S n) as n1. cbn [p_value] in Hn |- *. subst n1. cbn [p_value] in Hn |- *.
    apply next_ext; [done|]. intros c t Hk. cbn beta in Hk |- *.
    destruct (c == "{"%char); [|destruct (c == "["%char); [|done]].
    1,2: destruct (_ <=? _); [done|]; apply next_ext; [done|]; intros c' t' Hk'; cbn beta in Hk' |- *;
      destruct (c' == _); [done|]; apply pbind_ext; [done|by apply IHm || by apply IHe|done].
  - remember (S n) as n1. cbn [p_elems]. subst n1. cbn [p_elems] in Hn |- *.
    apply pbind_ext; [done|apply IHv|]. intros x r Hk. apply next_ext; [done|].
    intros c t Hk'. cbn beta in Hk' |- *. destruct (c == ","%char); [|done].
    apply pbind_ext; [done|apply IHe|done].
  - remember (S n) as n1. cbn [p_members]. subst n1. cbn [p_members] in Hn |- *.
    apply next_ext; [done|]. intros q0 t Hk. cbn beta in Hk |- *. destruct (q0 == quote); [|done].
    apply pbind_ext; [done|done|]. intros k r Hk'. apply next_ext; [done|]. intros c t1 Hk1. cbn beta in Hk1 |- *.
    destruct (c == ":"%char); [|done]. apply pbind_ext; [done|apply IHv|]. intros x r2 Hk2.
    apply next_ext; [done|]. intros c2 t2 Hk3. cbn beta in Hk3 |- *. destruct (c2 == ","%char); [|done].
    apply pbind_ext; [done|apply IHm|done].
Qed.

Lemma p_value_fuel n m d s : p_value n d s <> POut -> (n <= m)%nat -> p_value m d s = p_value n d s.
Proof.
  intros Hn Hm. induction Hm as [|m Hm IH]; [done|]. rewrite <- IH. apply p_more. by rewrite IH.
Qed.

(** ** Printing *)

Fixpoint print (j : json) : string :=
  match j with
  | JNull => "null"
  | JBool b => enc_bool b
  | JNum t => t
  | JStr s => enc_string s
  | JArr l => "[" +:+ join "," (map print l) +:+ "]"
  | JObj kvs => enc_object (map (fun kv => match kv with (k, v) => (k, print v) end) kvs)
  end.

(** The text of a number, as the scanner reads it. *)
Definition is_number (t : string) : bool := scan_number t == Some (t, "").

(** Every number is the text of a number. *)
Fixpoint well_formed (j : json) : bool :=
  match j with
  | JNull | JBool _ | JStr _ => true
  | JNum t => is_number t
  | JArr l => forallb well_formed l
  | JObj kvs => forallb (fun kv => match kv with (_, v) => well_formed v end) kvs
  end.

(** The tree with its strings made UTF-8. *)
Fixpoint norm (j : json) : json :=
  match j with
  | JStr s => JStr (to_valid s)
  | JArr l => JArr (map norm l)
  | JObj kvs => JObj (map (fun kv => match kv with (k, v) => (to_valid k, norm v) end) kvs)
  | _ => j
  end.

Abbreviation norm_field := (fun kv => match kv with (k, v) => (to_valid k, norm v) end).

Fixpoint nesting (j : json) : Z :=
  match j with
  | JArr l => 1 + fold_right (fun v n => Z.max (nesting v) n) 0 l
  | JObj kvs => 1 + fold_right (fun kv n => match kv with (_, v) => Z.max (nesting v) n end) 0 kvs
  | _ => 0
  end.

Lemma json_ind' (P : json -> Prop) :
  P JNull -> (forall b, P (JBool b)) -> (forall t, P (JNum t)) -> (forall s, P (JStr s)) ->
  (forall l, Forall P l -> P (JArr l)) -> (forall kvs, Forall (fun kv => P (snd kv)) kvs -> P (JObj kvs)) ->
  forall j, P j.
Proof.
  intros Hnull Hbool Hnum Hstr Harr Hobj. fix IH 1. intros [|b|t|s|l|kvs];
    [exact Hnull|apply Hbool|apply Hnum|apply Hstr| |].
  - apply Harr. induction l as [|v l IHl]; constructor; [apply IH|exact IHl].
  - apply Hobj. induction kvs as [|[k v] kvs IHl]; constructor; [apply IH|exact IHl].
Qed.

(** What may follow a value. *)
Definition delim (s : string) : bool :=
  match s with
  | EmptyString => true
  | String c _ => (c == ","%char) || (c == "]"%char) || (c == "}"%char) || json_space c
  end.

Lemma delim_char c s : delim (String c s) = true ->
  is_digit c = false /\ (c == "."%char) = false /\ (c == "e"%char) = false /\ (c == "E"%char) = false.
Proof.
  simpl. intros H. destruct c as [[] [] [] [] [] [] [] []]; try (vm_compute in H; discriminate);
    vm_compute; auto.
Qed.

(** ** Numbers followed by something else *)

Lemma take_digits_ext s d r rest :
  take_digits s = (d, r) -> delim rest = true -> take_digits (s +:+ rest) = (d, r +:+ rest).
Proof.
  intros Ht Hd. revert d Ht. induction s as [|c s IH]; intros d; cbn [take_digits].
  - intros [= <- <-]. rewrite append_nil. destruct rest as [|c rest]; [done|]. cbn [take_digits].
    by destruct (delim_char c rest Hd) as [-> _].
  - destruct (is_digit c) eqn:Hc; [|by intros [= <- <-]; rewrite append_cons; cbn [take_digits]; rewrite Hc].
    destruct (take_digits s) as [d' r'] eqn:E. intros [= <- <-]. rewrite append_cons. cbn [take_digits]. rewrite Hc.
    by rewrite (IH d').
Qed.

Lemma scan_int_ext s x r rest :
  scan_int s = Some (x, r) -> delim rest = true -> scan_int (s +:+ rest) = Some (x, r +:+ rest).
Proof.
  unfold scan_int. destruct s as [|c s]; [done|]. rewrite append_cons.
  case_bool_decide; [by intros [= <- <-]|]. destruct (is_digit c); [|done].
  intros [= H1] Hd. f_equal. rewrite <- append_cons. by apply take_digits_ext.
Qed.

Lemma scan_frac_ext s x r rest :
  scan_frac s = Some (x, r) -> delim rest = true -> scan_frac (s +:+ rest) = Some (x, r +:+ rest).
Proof.
  unfold scan_frac. intros Hs Hd. destruct s as [|c s].
  { injection Hs as <- <-. destruct rest as [|c rest]; [done|]. rewrite append_nil.
    by destruct (delim_char c rest Hd) as (_ & -> & _). }
  rewrite append_cons. case_bool_decide; [|by injection Hs as <- <-].
  destruct (take_digits s) as [d r'] eqn:Ht. rewrite (take_digits_ext s d r') by done.
  destruct d; [done|]. by injection Hs as <- <-.
Qed.

Lemma scan_exponent_ext s x r rest :
  scan_exponent s = Some (x, r) -> delim rest = true -> scan_exponent (s +:+ rest) = Some (x, r +:+ rest).
Proof.
  unfold scan_exponent. intros Hs Hd. destruct s as [|c s].
  { injection Hs as <- <-. destruct rest as [|c rest]; [done|]. rewrite append_nil.
    by destruct (delim_char c rest Hd) as (_ & _ & -> & ->). }
  rewrite append_cons. destruct (_ || _); [|by injection Hs as <- <-].
  destruct s as [|y s']; [done|]. rewrite append_cons.
  destruct ((y == "+"%char) || (y == "-"%char)); cbv beta iota zeta in Hs |- *.
  - destruct (take_digits s') as [d r'] eqn:Ht. rewrite (take_digits_ext s' d r') by done.
    destruct d; [done|]. by injection Hs as <- <-.
  - rewrite <- append_cons.
    destruct (take_digits (String y s')) as [d r'] eqn:Ht. rewrite (take_digits_ext _ d r') by done.
    destruct d; [done|]. by injection Hs as <- <-.
Qed.

Lemma scan_number_ext s x r rest :
  scan_number s = Some (x, r) -> delim rest = true -> scan_number (s +:+ rest) = Some (x, r +:+ rest).
Proof.
  unfold scan_number. destruct s as [|c s]; [done|]. rewrite append_cons. intros Hs Hd.
  assert (forall sign s1,
    match scan_int s1 with
    | Some (i, s2) => match scan_frac s2 with
        | Some (f, s3) => match scan_exponent s3 with
            | Some (e, s4) => Some (sign +:+ i +:+ f +:+ e, s4) | None => None end
        | None => None end
    | None => None end = Some (x, r) ->
    match scan_int (s1 +:+ rest) with
    | Some (i, s2) => match scan_frac s2 with
        | Some (f, s3) => match scan_exponent s3 with
            | Some (e, s4) => Some (sign +:+ i +:+ f +:+ e, s4) | None => None end
        | None => None end
    | None => None end = Some (x, r +:+ rest)) as Hparts.
  { intros sign s1 Hp.
    destruct (scan_int s1) as [[i s2]|] eqn:Hi; [|done]. rewrite (scan_int_ext _ _ _ _ Hi Hd).
    destruct (scan_frac s2) as [[f s3]|] eqn:Hf; [|done]. rewrite (scan_frac_ext _ _ _ _ Hf Hd).
    destruct (scan_exponent s3) as [[e s4]|] eqn:He; [|done]. rewrite (scan_exponent_ext _ _ _ _ He Hd).
    by injection Hp as <- <-. }
  case_bool_decide; [by apply Hparts|]. rewrite <- append_cons. by apply Hparts.
Qed.

Lemma is_number_ext t rest :
  is_number t = true -> delim rest = true -> scan_number (t +:+ rest) = Some (t, rest).
Proof.
  unfold is_number. intros Ht Hd. go_bool. rewrite <- (append_nil rest) at 2. by apply scan_number_ext.
Qed.

(** A number starts with a minus or a digit. *)
Lemma is_number_head t : is_number t = true ->
  exists c t', t = String c t' /\ ((c == "-"%char) || is_digit c) = true.
Proof.
  unfold is_number. intros Ht. go_bool. destruct t as [|c t]; [done|]. exists c, t. split; [done|].
  destruct (c == "-"%char) eqn:Hc; [done|]. simpl. unfold scan_number in Ht. rewrite Hc in Ht.
  destruct (is_digit c) eqn:Hd; [done|]. exfalso. cbv beta iota zeta in Ht. unfold scan_int in Ht.
  rewrite Hd in Ht. destruct (c == "0"%char) eqn:Hz; [|done]. go_bool. by subst c.
Qed.

(** ** Values round trip *)

Lemma next_head {A} c t (k : ascii -> string -> pres A) :
  json_space c = false -> next (String c t) k = k c t.
Proof. unfold next. simpl. by intros ->. Qed.

Lemma print_head j : well_formed j = true ->
  exists c t, print j = String c t /\ json_space c = false /\
    (c == "]"%char) = false /\ (c == "}"%char) = false.
Proof.
  destruct j as [|[]|t|s|l|kvs]; simpl; intros Hw; try by eexists _, _.
  destruct (is_number_head t Hw) as (c & t' & -> & Hc). exists c, t'. split; [done|]. clear Hw.
  destruct c as [[] [] [] [] [] [] [] []]; try (vm_compute in Hc; discriminate); by vm_compute.
Qed.

(** What the parser does with a printed value, given enough fuel. *)
Definition prints (j : json) : Prop :=
  exists n0, forall n d rest, (n0 <= n)%nat -> d + nesting j <= maxNestingDepth -> delim rest = true ->
    p_value n d (print j +:+ rest) = POk (norm j) rest.

Lemma prints_scalar j :
  (forall n d rest, delim rest = true -> p_value (S n) d (print j +:+ rest) = POk (norm j) rest) ->
  prints j.
Proof. intros H. exists 1%nat. intros [|n] d rest Hn _ Hd; [lia|]. by apply H. Qed.

Lemma prints_num t : is_number t = true -> prints (JNum t).
Proof.
  intros Ht. apply prints_scalar. intros n d rest Hd. simpl print.
  pose proof (is_number_ext t rest Ht Hd) as Hs. destruct (is_number_head t Ht) as (c & t' & -> & Hc).
  rewrite append_cons in Hs |- *. cbn [p_value].
  assert (json_space c = false /\ (c == "{"%char) = false /\ (c == "["%char) = false /\
    (c == quote) = false /\ (c == "t"%char) = false /\ (c == "f"%char) = false /\
    (c == "n"%char) = false) as (H1 & H2 & H3 & H4 & H5 & H6 & H7).
  { clear - Hc. destruct c as [[] [] [] [] [] [] [] []]; try (vm_compute in Hc; discriminate); by vm_compute. }
  rewrite next_head by done. by rewrite H2, H3, H4, H5, H6, H7, Hs.
Qed.

Lemma prints_str s : prints (JStr s).
Proof.
  apply prints_scalar. intros n d rest _. simpl print. unfold enc_string.
  rewrite append_cons, string_app_assoc, append_cons, append_nil. cbn [p_value]. rewrite next_head by done.
  change (pbind (of_option (scan_chars (enc_chars s +:+ String quote rest)))
    (fun x r => POk (JStr x) r) = POk (JStr (to_valid s)) rest). by rewrite scan_enc_chars.
Qed.

Lemma prints_elems l :
  l <> [] -> Forall prints l ->
  exists n0, forall n d rest, (n0 <= n)%nat -> Forall (fun v => d + nesting v <= maxNestingDepth) l ->
    p_elems n d (join "," (map print l) +:+ String "]" rest) = POk (map norm l) rest.
Proof.
  intros Hne Hl. induction Hl as [|v l [nv Hv] Hl IH]; [done|].
  destruct l as [|w l].
  - exists (S nv). intros [|n] d rest Hn Hd; [lia|]. apply Forall_cons in Hd as [Hd _]. simpl map. cbn [join].
    cbn [p_elems]. rewrite Hv by (done || lia). simpl pbind. by rewrite next_head.
  - destruct IH as [nl IH]; [done|]. exists (S (nv + nl)). intros [|n] d rest Hn Hd; [lia|].
    apply Forall_cons in Hd as [Hd Hds].
    change (join "," (map print (v :: w :: l))) with (print v +:+ "," +:+ join "," (map print (w :: l))).
    rewrite !string_app_assoc, append_cons, append_nil. cbn [p_elems].
    rewrite Hv by (done || lia). simpl pbind at 1. rewrite next_head by done.
    rewrite bool_decide_eq_true_2 by done. by rewrite IH by (done || lia).
Qed.

Lemma prints_members kvs :
  kvs <> [] -> Forall (fun kv => prints (snd kv)) kvs ->
  exists n0, forall n d rest, (n0 <= n)%nat ->
    Forall (fun kv => d + nesting (snd kv) <= maxNestingDepth) kvs ->
    p_members n d (join "," (enc_field <$> map (fun kv => match kv with (k, v) => (k, print v) end) kvs)
      +:+ String "}" rest) = POk (map norm_field kvs) rest.
Proof.
  intros Hne Hl. induction Hl as [|[k v] l [nv Hv] Hl IH]; [done|]. simpl in Hv.
  assert (forall n d t, (nv <= n)%nat -> d + nesting v <= maxNestingDepth -> delim t = true ->
    p_members (S n) d (enc_field (k, print v) +:+ t) =
    next t (fun c2 t2 => if c2 == ","%char then pbind (p_members n d t2) (fun l r2 => POk (norm_field (k, v) :: l) r2)
      else if c2 == "}"%char then POk [norm_field (k, v)] t2 else PBad)) as Hone.
  { intros n d t Hn Hd Ht. unfold enc_field, enc_string. cbn [fst snd].
    rewrite !string_app_assoc, !append_cons, !append_nil. cbn [p_members].
    rewrite string_app_assoc, append_cons, append_nil. rewrite next_head by done.
    rewrite bool_decide_eq_true_2 by done. rewrite scan_enc_chars. simpl pbind at 1.
    rewrite next_head by done. rewrite bool_decide_eq_true_2 by done. rewrite Hv by done. done. }
  destruct l as [|[k2 w] l].
  - exists (S nv). intros [|n] d rest Hn Hd; [lia|]. apply Forall_cons in Hd as [Hd _]. simpl in Hd.
    cbn [map fmap list_fmap join]. rewrite Hone by (done || lia). by rewrite next_head.
  - destruct IH as [nl IH]; [done|]. exists (S (nv + nl)). intros [|n] d rest Hn Hd; [lia|].
    apply Forall_cons in Hd as [Hd Hds]. simpl in Hd.
    match goal with |- p_members _ _ (join "," (enc_field <$> map ?f _) +:+ _) = _ =>
      change (join "," (enc_field <$> map f ((k, v) :: (k2, w) :: l)))
        with (enc_field (k, print v) +:+ "," +:+ join "," (enc_field <$> map f ((k2, w) :: l))) end.
    rewrite !string_app_assoc, append_cons, append_nil. rewrite Hone by (done || lia).
    rewrite next_head by done. rewrite bool_decide_eq_true_2 by done. by rewrite IH by (done || lia).
Qed.

Lemma p_value_arr n d t :
  d < maxNestingDepth ->
  p_value (S n) d (String "[" t) =
  next t (fun c' t' => if c' == "]"%char then POk (JArr []) t'
                       else pbind (p_elems n (d + 1) t) (fun l r => POk (JArr l) r)).
Proof.
  intros Hd. cbn [p_value]. rewrite next_head by done.
  rewrite (bool_decide_eq_false_2 ("["%char = "{"%char)), (bool_decide_eq_true_2 ("["%char = "["%char)) by done.
  by rewrite (proj2 (Z.leb_gt maxNestingDepth d)).
Qed.

Lemma p_value_obj n d t :
  d < maxNestingDepth ->
  p_value (S n) d (String "{" t) =
  next t (fun c' t' => if c' == "}"%char then POk (JObj []) t'
                       else pbind (p_members n (d + 1) t) (fun l r => POk (JObj l) r)).
Proof.
  intros Hd. cbn [p_value]. rewrite next_head by done.
  rewrite (bool_decide_eq_true_2 ("{"%char = "{"%char)) by done.
  by rewrite (proj2 (Z.leb_gt maxNestingDepth d)).
Qed.

Lemma nesting_fold {A} (f : A -> Z) l (m : Z) :
  fold_right (fun v n => Z.max (f v) n) 0 l <= m -> 0 <= m /\ Forall (fun v => f v <= m) l.
Proof.
  induction l as [|v l IH]; simpl; intros Hm; [done|]. destruct IH as [H0 Hl]; [lia|].
  split; [done|]. constructor; [lia|done].
Qed.

Lemma nesting_obj kvs :
  nesting (JObj kvs) = 1 + fold_right (fun kv n => Z.max (nesting (snd kv)) n) 0 kvs.
Proof.
  cbn [nesting]. f_equal. induction kvs as [|[k v] kvs IH]; cbn [fold_right snd]; [done|by rewrite IH].
Qed.

Lemma join_head x l rest : exists t, join "," (x :: l) +:+ rest = x +:+ t.
Proof. destruct l; simpl; eexists; [done|]. rewrite !string_app_assoc. done. Qed.

Lemma prints_arr l : Forall prints l -> Forall (fun j => well_formed j = true) l -> prints (JArr l).
Proof.
  intros Hl Hw. destruct l as [|v l].
  { exists 1%nat. intros [|n] d rest Hn Hd _; [lia|]. simpl in Hd.
    assert (print (JArr []) +:+ rest = String "[" (String "]" rest)) as -> by done.
    by rewrite p_value_arr, next_head by (done || lia). }
  destruct (prints_elems (v :: l)) as [n0 He]; [done|done|].
  exists (S n0). intros [|n] d rest Hn Hd Hdl; [lia|].
  destruct (nesting_fold nesting (v :: l) (maxNestingDepth - d - 1)) as [H0 Hds]; [simpl in *; lia|].
  apply Forall_cons in Hw as [Hw _]. destruct (print_head v Hw) as (c & t & Hpv & Hs & Hc & _).
  assert (print (JArr (v :: l)) +:+ rest = String "[" (join "," (map print (v :: l)) +:+ String "]" rest))
    as -> by (simpl print; by rewrite !string_app_assoc).
  rewrite p_value_arr by lia. pose proof (He n (d + 1) rest ltac:(lia)) as Hp.
  destruct (join_head (print v) (map print l) (String "]" rest)) as [u Hu].
  simpl map in Hp |- *. rewrite Hu, Hpv in Hp |- *. rewrite append_cons in Hp |- *.
  rewrite next_head, Hc by done. rewrite Hp; [done|].
  apply (Forall_impl _ _ _ Hds). intros w Hw'. simpl in Hw'. lia.
Qed.

Lemma prints_obj kvs :
  Forall (fun kv => prints (snd kv)) kvs -> prints (JObj kvs).
Proof.
  intros Hl. destruct kvs as [|[k v] kvs].
  { exists 1%nat. intros [|n] d rest Hn Hd _; [lia|]. simpl in Hd.
    assert (print (JObj []) +:+ rest = String "{" (String "}" rest)) as -> by done.
    by rewrite p_value_obj, next_head by (done || lia). }
  destruct (prints_members ((k, v) :: kvs)) as [n0 He]; [done|done|].
  exists (S n0). intros [|n] d rest Hn Hd Hdl; [lia|].
  rewrite nesting_obj in Hd.
  destruct (nesting_fold (fun kv => nesting (snd kv)) ((k, v) :: kvs) (maxNestingDepth - d - 1)) as [H0 Hds]; [lia|].
  pose proof (He n (d + 1) rest ltac:(lia)) as Hp.
  match type of Hp with _ -> p_members _ _ (?a +:+ _) = _ =>
    assert (print (JObj ((k, v) :: kvs)) +:+ rest = String "{" (a +:+ String "}" rest))
      as -> by (simpl print; unfold enc_object; by rewrite !string_app_assoc) end.
  rewrite p_value_obj by lia. cbn [map fmap list_fmap] in Hp |- *.
  match type of Hp with context [join "," (?x :: ?l) +:+ ?r] => destruct (join_head x l r) as [u Hu] end.
  assert (exists u', enc_field (k, print v) +:+ u = String quote u') as [u' Hu'] by (eexists; done).
  cbn [fst snd] in Hu, Hp |- *. rewrite Hu, Hu' in Hp |- *. rewrite next_head by done.
  rewrite (bool_decide_eq_false_2 (quote = "}"%char)) by done. rewrite Hp; [done|].
  apply (Forall_impl _ _ _ Hds). intros w Hw'. simpl in Hw'. lia.
Qed.

Lemma well_formed_prints j : well_formed j = true -> prints j.
Proof.
  induction j as [|b|t|s|l IH|kvs IH] using json_ind'; simpl; intros Hw.
  - apply prints_scalar. intros n d [|c rest] _; reflexivity.
  - apply prints_scalar. intros n d [|c rest] _; by destruct b.
  - by apply prints_num.
  - apply prints_str.
  - rewrite forallb_forall in Hw.
    assert (Forall (fun j => well_formed j = true) l) as Hf
      by (apply Forall_forall; intros v Hv; apply Hw; by apply list_elem_of_In).
    apply prints_arr; [|done]. apply Forall_forall. intros v Hv.
    rewrite Forall_forall in IH, Hf. auto.
  - rewrite forallb_forall in Hw. apply prints_obj. apply Forall_forall. intros [k v] Hv.
    specialize (Hw (k, v)). rewrite Forall_forall in IH. simpl in Hw.
    apply list_elem_of_In in Hv as Hin. by apply (IH (k, v)); [|apply Hw].
Qed.

(** The text may be followed by white space. *)
Lemma parse_printed_ws j ws :
  well_formed j = true -> nesting j <= maxNestingDepth -> delim ws = true -> skip_ws ws = "" ->
  parse (print j +:+ ws) = Some (norm j).
Proof.
  intros Hw Hn Hd Hs. destruct (well_formed_prints j Hw) as [n0 Hp].
  specialize (Hp (n0 + parse_fuel (print j +:+ ws))%nat 0 ws ltac:(lia) ltac:(lia) Hd). unfold parse.
  rewrite (p_value_fuel (parse_fuel (print j +:+ ws))) in Hp; [|apply p_enough; unfold parse_fuel; lia|lia].
  unfold parse_value. by rewrite Hp, Hs.
Qed.

Lemma parse_printed j :
  well_formed j = true -> nesting j <= maxNestingDepth -> parse (print j) = Some (norm j).
Proof. intros Hw Hn. rewrite <- (string_app_nil_r (print j)). by apply parse_printed_ws. Qed.

(** ** Properties *)

(** Decoding JSON always ends: on every input the parser gives a value or a
    syntax error within two calls per byte, never running out. *)
Theorem parse_terminates s : parse_value s <> POut.
Proof. apply p_enough. unfold parse_fuel. lia. Qed.

(** Reading back what the encoder wrote gives the same tree, with U+FFFD in
    the place of what is not UTF-8: for every tree whose numbers are numbers and
    that is not nested deeper than the decoder allows. *)
Theorem parse_print j :
  well_formed j = true -> nesting j <= maxNestingDepth -> parse (print j) = Some (norm j).
Proof. apply parse_printed. Qed.

Definition tree_ex : json :=
  JObj [("a", JArr [JNum "-1.5e3"; JStr (String "255" "x")]); ("b", JNull)].

Lemma parse_print_witness :
  parse (print tree_ex) = Some (JObj [("a", JArr [JNum "-1.5e3"; JStr (fffd +:+ "x")]); ("b", JNull)]).
Proof. exact (parse_print tree_ex eq_refl ltac:(by vm_compute)). Defined.

End JsonDecode.
