(* ===== verification/Format.v ===== *)
(** * Texts of numbers and times

    The formatting of the Go library that [Json.Fmt] leaves open, so that the
    encoders of the development can be run: the shortest decimal text of a
    float64 that reads back as the same number ([strconv], formats [f], [e] and
    [g]), as [encoding/json] and [%v] write it, and the RFC 3339 text of a time.

    The offset of the process's time zone at a time is a parameter. *)
From Stdlib Require Import ZArith Lia Ascii String SpecFloat.
From stdpp Require Import base gmap strings list pretty.
From S2P Require Import Prelude GoLib Float64 Sha256 Json Engine JsonDecode.

Open Scope Z_scope.
Open Scope go_scope.

Module Format.
Import Json JsonDecode.

(** ** Shortest digits

    A positive number as a ratio, and the position of its first digit: the [p]
    with [10^p <= x < 10^(p+1)]. *)
Definition ratio (m e : Z) : Z * Z := if 0 <=? e then (m * 2 ^ e, 1) else (m, 2 ^ (- e)).

Definition at_least (num den p : Z) : bool :=
  if 0 <=? p then den * 10 ^ p <=? num else den <=? num * 10 ^ (- p).

Definition magnitude (m e : Z) : Z :=
  let '(num, den) := ratio m e in
  let p := ((Z.log2 m + e) * 30103) / 100000 in
  if at_least num den (p + 1) then p + 1 else if at_least num den p then p else p - 1.

Fixpoint strip_zeros (fuel : nat) (d k : Z) : Z * Z :=
  match fuel with
  | O => (d, k)
  | S fuel' => if (d mod 10 =? 0) && negb (d =? 0) then strip_zeros fuel' (d / 10) (k + 1) else (d, k)
  end.

(** The [n]-digit decimals around the number that read back as it; the nearer one
    of two, and of two as near the even one. *)
Definition candidate (m : positive) (e : Z) (n : Z) : option (Z * Z) :=
  let k := magnitude (Zpos m) e - n + 1 in
  let '(num, den) := ratio (Zpos m) e in
  let num := if k <? 0 then num * 10 ^ (- k) else num in
  let den := if k <? 0 then den else den * 10 ^ k in
  let lo := num / den in
  let back d := SFeqb (round_dec false d k) (S754_finite false m e) in
  match back lo, back (lo + 1) with
  | true, true =>
      let r := 2 * (num mod den) in
      if (r <? den) || ((r =? den) && Z.even lo) then Some (lo, k) else Some (lo + 1, k)
  | true, false => Some (lo, k)
  | false, true => Some (lo + 1, k)
  | false, false => None
  end.

Fixpoint first_candidate (m : positive) (e : Z) (ns : list Z) : option (Z * Z) :=
  match ns with
  | [] => None
  | n :: ns' => match candidate m e n with Some r => Some r | None => first_candidate m e ns' end
  end.

(** All digits of the number. *)
Definition exact (m : positive) (e : Z) : Z * Z :=
  if 0 <=? e then (Zpos m * 2 ^ e, 0) else (Zpos m * 5 ^ (- e), e).

(** Seventeen digits are enough for a float64. *)
Definition shortest (m : positive) (e : Z) : Z * Z :=
  let '(d, k) := default (exact m e)
    (first_candidate m e [1; 2; 3; 4; 5; 6; 7; 8; 9; 10; 11; 12; 13; 14; 15; 16; 17]) in
  strip_zeros 20 d k.

(** ** Formats *)

Fixpoint zeros (n : nat) : string := match n with O => "" | S n' => String "0" (zeros n') end.

Fixpoint take_chars (n : nat) (s : string) : string :=
  match n, s with
  | S n', String c s' => String c (take_chars n' s')
  | _, _ => ""
  end.

(** The digits [ds] with the point after the first [dp] of them. *)
Definition fmt_f (ds : string) (dp : Z) : string :=
  let nd := Z.of_nat (String.length ds) in
  if dp <=? 0 then "0." +:+ zeros (Z.to_nat (- dp)) +:+ ds
  else if nd <=? dp then ds +:+ zeros (Z.to_nat (dp - nd))
  else take_chars (Z.to_nat dp) ds +:+ "." +:+ drop (Z.to_nat dp) ds.

(** The exponent has at least [width] digits. *)
Definition fmt_e (width : nat) (ds : string) (dp : Z) : string :=
  let exp := dp - 1 in
  let digits := Itoa (Z.abs exp) in
  match ds with
  | String c rest =>
      String c (if rest == "" then "" else "." +:+ rest) +:+ "e" +:+ (if exp <? 0 then "-" else "+")
        +:+ zeros (width - String.length digits) +:+ digits
  | EmptyString => ""
  end.

Definition signed (neg : bool) (s : string) : string := if neg then "-" +:+ s else s.

(** [encoding/json]: format [e] below 1e-6 and from 1e21, with an exponent of one
    digit where one is enough. *)
Definition json_float (x : float64) : string :=
  match x with
  | S754_finite neg m e =>
      let '(d, k) := shortest m e in
      let ds := Itoa d in
      let dp := k + Z.of_nat (String.length ds) in
      let abs := S754_finite false m e in
      signed neg (if flt abs (lit 1 (-6)) || fge abs (lit 1 21) then fmt_e 1 ds dp else fmt_f ds dp)
  | S754_zero neg => signed neg "0"
  | S754_infinity neg => if neg then "-Inf" else "+Inf"
  | S754_nan => "NaN"
  end.

(** [%v]: format [g], that is [e] for an exponent below -4 or from 6 on. *)
Definition print_float (x : float64) : string :=
  match x with
  | S754_finite neg m e =>
      let '(d, k) := shortest m e in
      let ds := Itoa d in
      let dp := k + Z.of_nat (String.length ds) in
      signed neg (if (dp - 1 <? -4) || (6 <=? dp - 1) then fmt_e 2 ds dp else fmt_f ds dp)
  | S754_zero neg => signed neg "0"
  | S754_infinity neg => if neg then "-Inf" else "+Inf"
  | S754_nan => "NaN"
  end.

Example json_float_ex :
  map (fun t => json_float (fst (ParseFloat t)))
    ["0.1"; "100"; "1e21"; "123456789012345680000"; "1e-7"; "0.000001"; "-2.5e-10"; "5e-324"; "1.7976931348623157e308";
     "0.3333333333333333"; "9007199254740993"; "-0"; "1125899906842624.25"; "2251799813685249.5"; "3e-05"]
  = ["0.1"; "100"; "1e+21"; "123456789012345680000"; "1e-7"; "0.000001"; "-2.5e-10"; "5e-324"; "1.7976931348623157e+308";
     "0.3333333333333333"; "9007199254740992"; "-0"; "1125899906842624.2"; "2251799813685249.5"; "0.00003"].
Proof. vm_compute. reflexivity. Qed.

Example print_float_ex :
  map (fun t => print_float (fst (ParseFloat t))) ["100000"; "1000000"; "123456789"; "0.0001"; "0.00001"; "1.5"]
  = ["100000"; "1e+06"; "1.23456789e+08"; "0.0001"; "1e-05"; "1.5"].
Proof. vm_compute. reflexivity. Qed.

(** ** The text of a finite number is a JSON number *)

Fixpoint all_digits (s : string) : bool :=
  match s with
  | EmptyString => true
  | String c s' => is_digit c && all_digits s'
  end.

(** Digits without a leading zero. *)
Definition numeral (s : string) : Prop :=
  exists c s', s = String c s' /\ is_digit c = true /\ c <> "0"%char /\ all_digits s' = true.

(** What follows the digits of a number. *)
Definition no_digit (s : string) : bool := match s with String c _ => negb (is_digit c) | EmptyString => true end.

Lemma take_digits_all s rest :
  all_digits s = true -> no_digit rest = true -> take_digits (s +:+ rest) = (s, rest).
Proof.
  intros Hs Hr. induction s as [|c s IH]; cbn [all_digits] in Hs.
  - rewrite append_nil. destruct rest as [|c rest]; [done|]. cbn in Hr |- *. by destruct (is_digit c).
  - apply andb_true_iff in Hs as [Hc Hs]. rewrite append_cons. cbn [take_digits]. by rewrite Hc, IH.
Qed.

Lemma all_digits_app s t : all_digits (s +:+ t) = all_digits s && all_digits t.
Proof. induction s as [|c s IH]; [by rewrite append_nil|]. rewrite append_cons. cbn. by rewrite IH, andb_assoc. Qed.

Lemma all_digits_zeros n : all_digits (zeros n) = true.
Proof. induction n; done. Qed.

Lemma numeral_digits s : numeral s -> all_digits s = true.
Proof. intros (c & s' & -> & Hc & _ & Hs). cbn. by rewrite Hc. Qed.

Lemma numeral_app s t : numeral s -> all_digits t = true -> numeral (s +:+ t).
Proof.
  intros (c & s' & -> & Hc & H0 & Hs) Ht. exists c, (s' +:+ t). repeat split; [done|done|].
  by rewrite all_digits_app, Hs.
Qed.

Lemma pretty_N_char_nonzero x : (0 < x < 10)%N -> pretty_N_char x <> "0"%char.
Proof.
  intros H E. assert (digit_val (pretty_N_char x) = Z.of_N x) as Hv by (apply pretty_N_char_val; lia).
  rewrite E in Hv. change (0 = Z.of_N x) in Hv. lia.
Qed.

Lemma numeral_pretty_go x s : (0 < x)%N -> all_digits s = true -> numeral (pretty_N_go x s).
Proof.
  revert s. induction (N.lt_wf_0 x) as [x _ IH]; intros s Hx Hs. rewrite pretty_N_go_step by lia.
  destruct (decide (x < 10)%N) as [Hl|Hl].
  - rewrite N.div_small, N.mod_small by done. rewrite pretty_N_go_0.
    exists (pretty_N_char x), s. repeat split; [apply pretty_N_char_digit|by apply pretty_N_char_nonzero|done].
  - apply IH; [apply N.div_lt; lia|apply N.div_str_pos; lia|]. cbn. by rewrite pretty_N_char_digit.
Qed.

Lemma numeral_Itoa z : 0 < z -> numeral (Itoa z).
Proof.
  intros Hz. rewrite Itoa_nonneg by lia. unfold pretty, pretty_N. rewrite decide_False by lia.
  apply numeral_pretty_go; [lia|done].
Qed.

Lemma digits_Itoa z : 0 <= z -> all_digits (Itoa z) = true /\ Itoa z <> "".
Proof.
  intros Hz. destruct (decide (z = 0)) as [->|Hn]; [done|].
  assert (numeral (Itoa z)) as Hi by (apply numeral_Itoa; lia). split; [by apply numeral_digits|].
  by destruct Hi as (c & s & -> & _).
Qed.

(** The parts of a number. *)
Definition int_part (i : string) : Prop := i = "0" \/ numeral i.
Definition frac_part (f : string) : Prop :=
  f = "" \/ exists d, f = String "." d /\ d <> "" /\ all_digits d = true.
Definition exp_part (e : string) : Prop :=
  e = "" \/ exists c d, e = String "e" (String c d) /\ (c = "+"%char \/ c = "-"%char) /\ d <> "" /\ all_digits d = true.

Lemma scan_int_part i rest : int_part i -> no_digit rest = true -> scan_int (i +:+ rest) = Some (i, rest).
Proof.
  intros [->|(c & s & -> & Hc & H0 & Hs)] Hr; [done|]. rewrite append_cons. unfold scan_int.
  rewrite bool_decide_eq_false_2 by done. rewrite Hc, <- append_cons.
  by rewrite take_digits_all by (cbn; rewrite ?Hc; done).
Qed.

Lemma scan_frac_part f rest : frac_part f -> exp_part rest -> scan_frac (f +:+ rest) = Some (f, rest).
Proof.
  intros [->|(d & -> & Hd & Ha)] He.
  - rewrite append_nil. by destruct He as [->|(c & d & -> & _)].
  - rewrite append_cons. cbn [scan_frac]. rewrite bool_decide_eq_true_2 by done.
    rewrite take_digits_all; [by destruct d|done|by destruct He as [->|(c & x & -> & _)]].
Qed.

Lemma scan_exp_part e : exp_part e -> scan_exponent e = Some (e, "").
Proof.
  intros [->|(c & d & -> & Hc & Hd & Ha)]; [done|].
  pose proof (take_digits_all d "" Ha eq_refl) as Ht. rewrite string_app_nil_r in Ht.
  assert ((c == "+"%char) || (c == "-"%char) = true) as Hb by (by destruct Hc as [->| ->]).
  unfold scan_exponent. rewrite Hb, Ht. by destruct d.
Qed.

Lemma parts_number neg i f e :
  int_part i -> frac_part f -> exp_part e -> is_number (signed neg (i +:+ f +:+ e)) = true.
Proof.
  intros Hi Hf He.
  assert (no_digit (f +:+ e) = true) as Hn.
  { destruct Hf as [->|(d & -> & _)]; [|done]. by destruct He as [->|(c & d & -> & _)]. }
  assert (scan_int (i +:+ f +:+ e) = Some (i, f +:+ e)) as Hs by (by apply scan_int_part).
  unfold is_number, scan_number. apply bool_decide_eq_true. destruct neg; cbn [signed].
  - rewrite append_cons, append_nil. rewrite bool_decide_eq_true_2 by done.
    by rewrite Hs, scan_frac_part, scan_exp_part by done.
  - destruct (i +:+ f +:+ e) as [|c t] eqn:E; [done|].
    rewrite bool_decide_eq_false_2.
    + rewrite Hs, scan_frac_part, scan_exp_part by done. by rewrite append_nil, E.
    + by intros ->.
Qed.

Lemma plain_number neg i f : int_part i -> frac_part f -> is_number (signed neg (i +:+ f)) = true.
Proof. intros Hi Hf. rewrite <- (string_app_nil_r f). apply parts_number; [done|done|by left]. Qed.

Lemma take_drop_chars n s : take_chars n s +:+ drop n s = s.
Proof. revert s. induction n; intros [|c s]; cbn; [done..|]. by rewrite append_cons, IHn. Qed.

Lemma take_chars_numeral n s : numeral s -> (0 < n)%nat -> numeral (take_chars n s).
Proof.
  intros (c & s' & -> & Hc & H0 & Hs) Hn. destruct n as [|n]; [lia|].
  exists c, (take_chars n s'). repeat split; [done|done|].
  rewrite <- (take_drop_chars n s'), all_digits_app in Hs. by apply andb_true_iff in Hs as [-> _].
Qed.

Lemma drop_digits n s : all_digits s = true -> all_digits (drop n s) = true.
Proof. intros Hs. rewrite <- (take_drop_chars n s), all_digits_app in Hs. by apply andb_true_iff in Hs as [_ ->]. Qed.

Lemma append_not_nil a b : b <> "" -> a +:+ b <> "".
Proof. by destruct a. Qed.

Lemma fmt_f_number neg ds dp : numeral ds -> is_number (signed neg (fmt_f ds dp)) = true.
Proof.
  intros Hn. pose proof (numeral_digits ds Hn) as Ha. unfold fmt_f.
  destruct (dp <=? 0) eqn:H0; [|destruct (Z.of_nat (String.length ds) <=? dp) eqn:H1].
  - apply (plain_number neg "0" (String "." (zeros (Z.to_nat (- dp)) +:+ ds))); [by left|].
    right. eexists. split; [done|]. rewrite all_digits_app, all_digits_zeros. split; [|done].
    apply append_not_nil. by destruct Hn as (c & s & -> & _).
  - rewrite <- (string_app_nil_r (ds +:+ _)).
    apply plain_number; [|by left].
    right. apply numeral_app; [done|apply all_digits_zeros].
  - apply Z.leb_gt in H0, H1.
    apply (plain_number neg (take_chars (Z.to_nat dp) ds) (String "." (drop (Z.to_nat dp) ds)));
      [right; apply take_chars_numeral; [done|lia]|].
    right. eexists. split; [done|]. split; [|by apply drop_digits].
    intros E. apply (f_equal String.length) in E. rewrite drop_length in E. cbn in E. lia.
Qed.

Lemma fmt_e_number neg w ds dp : numeral ds -> is_number (signed neg (fmt_e w ds dp)) = true.
Proof.
  intros (c & s & -> & Hc & H0 & Hs). unfold fmt_e. set (x := Itoa (Z.abs (dp - 1))).
  destruct (digits_Itoa (Z.abs (dp - 1))) as [Hx Hx']; [lia|]. fold x in Hx, Hx'.
  apply (parts_number neg (String c "") (if s == "" then "" else String "." s)
    (String "e" ((if dp - 1 <? 0 then "-" else "+") +:+ zeros (w - String.length x) +:+ x))).
  - right. by exists c, "".
  - case_bool_decide as E; [by left|]. right. by exists s.
  - right. exists (if dp - 1 <? 0 then "-"%char else "+"%char), (zeros (w - String.length x) +:+ x).
    split; [by destruct (dp - 1 <? 0)|]. split; [destruct (dp - 1 <? 0); auto|].
    rewrite all_digits_app, all_digits_zeros, Hx. split; [by apply append_not_nil|done].
Qed.

Lemma ratio_pos m e num den : 0 < m -> ratio m e = (num, den) -> 0 < num /\ 0 < den.
Proof. unfold ratio. intros Hm. destruct (0 <=? e) eqn:E; intros [= <- <-]; split; try lia; apply Z.leb_le in E || apply Z.leb_gt in E; nia || lia. Qed.

Lemma candidate_pos m e n d k : candidate m e n = Some (d, k) -> 0 < d.
Proof.
  unfold candidate. destruct (ratio (Zpos m) e) as [num den] eqn:Hr.
  destruct (ratio_pos (Zpos m) e num den ltac:(lia) Hr) as [Hn Hd].
  set (k' := magnitude _ _ - n + 1).
  set (num' := if k' <? 0 then num * 10 ^ (- k') else num). set (den' := if k' <? 0 then den else den * 10 ^ k').
  assert (0 <= num' / den') as Hq.
  { apply Z.div_pos.
    - unfold num'. destruct (k' <? 0); [apply Z.mul_nonneg_nonneg; [lia|apply Z.pow_nonneg; lia]|lia].
    - unfold den'. destruct (k' <? 0) eqn:E; [done|]. apply Z.mul_pos_pos; [done|]. apply Z.pow_pos_nonneg; lia. }
  destruct (SFeqb (round_dec false (num' / den') k') _) eqn:Hb.
  - assert (num' / den' <> 0) as Hz by (intros Hz; rewrite Hz in Hb; done).
    repeat case_match; intros [= <- <-]; lia.
  - case_match; intros [= <- <-]; lia.
Qed.

Lemma strip_zeros_pos fuel d k : 0 < d -> 0 < fst (strip_zeros fuel d k).
Proof.
  revert d k. induction fuel as [|fuel IH]; intros d k Hd; [done|]. cbn [strip_zeros].
  destruct (_ && _) eqn:E; [|done]. apply IH. apply andb_true_iff in E as [E _]. apply Z.eqb_eq in E.
  pose proof (Z.div_mod d 10). lia.
Qed.

Lemma shortest_pos m e : 0 < fst (shortest m e).
Proof.
  unfold shortest.
  assert (forall ns d k, first_candidate m e ns = Some (d, k) -> 0 < d) as Hc.
  { induction ns as [|n ns IH]; intros d k; [done|]. cbn [first_candidate].
    destruct (candidate m e n) as [[d' k']|] eqn:E; [|apply IH]. intros [= <- <-]. by eapply candidate_pos. }
  destruct (first_candidate m e _) as [[d k]|] eqn:E; cbn [default].
  - apply strip_zeros_pos. by eapply Hc.
  - unfold exact. destruct (0 <=? e) eqn:He; apply strip_zeros_pos; apply Z.mul_pos_pos; try done;
      apply Z.pow_pos_nonneg; lia.
Qed.

Lemma json_float_number x : is_finite x = true -> is_number (json_float x) = true.
Proof.
  destruct x as [neg|neg| |neg m e]; intros Hx; try done; [by destruct neg|].
  unfold json_float. pose proof (shortest_pos m e) as Hp. destruct (shortest m e) as [d k]. cbn [fst] in Hp.
  apply numeral_Itoa in Hp. destruct (_ || _); [by apply fmt_e_number|by apply fmt_f_number].
Qed.

(** ** RFC 3339

    The civil date of a day, counted from 1 March of the year 0: eras of 400
    years have 146097 days. *)
Definition civil (days : Z) : Z * Z * Z :=
  let z := days + 719468 in
  let era := z / 146097 in
  let doe := z mod 146097 in
  let yoe := (doe - doe / 1460 + doe / 36524 - doe / 146096) / 365 in
  let doy := doe - (365 * yoe + yoe / 4 - yoe / 100) in
  let mp := (5 * doy + 2) / 153 in
  let d := doy - (153 * mp + 2) / 5 + 1 in
  let m := if mp <? 10 then mp + 3 else mp - 9 in
  let y := yoe + era * 400 in
  ((if m <=? 2 then y + 1 else y), m, d).

Definition pad (width : nat) (n : Z) : string :=
  let s := Itoa n in zeros (width - String.length s) +:+ s.

(** The nine digits of a fraction without the zeros at their end. *)
Fixpoint trim_zeros (s : string) : string :=
  match s with
  | EmptyString => ""
  | String c s' =>
      let t := trim_zeros s' in
      if (c == "0"%char) && (t == "") then "" else String c t
  end.

Definition fraction (nanos : Z) : string :=
  if nanos =? 0 then "" else "." +:+ trim_zeros (pad 9 nanos).

(** [Z], or the offset in hours and minutes. *)
Definition zone_text (offset : Z) : string :=
  if offset =? 0 then "Z"
  else (if offset <? 0 then "-" else "+") +:+ pad 2 (Z.abs offset / 3600) +:+ ":"
         +:+ pad 2 (Z.abs offset / 60 mod 60).

(** The text of a time [t] (nanoseconds of 1970 UTC) at an offset in seconds;
    [Time.MarshalJSON] refuses years outside 0..9999 and offsets of a day or more. *)
Definition rfc3339 (t : time) (offset : Z) : option string :=
  let sec := t / second + offset in
  let '(y, m, d) := civil (sec / 86400) in
  let tod := sec mod 86400 in
  if (y <? 0) || (9999 <? y) || (86400 <=? Z.abs offset) then None
  else Some (pad 4 y +:+ "-" +:+ pad 2 m +:+ "-" +:+ pad 2 d +:+ "T" +:+
             pad 2 (tod / 3600) +:+ ":" +:+ pad 2 (tod / 60 mod 60) +:+ ":" +:+ pad 2 (tod mod 60)
             +:+ fraction (t mod second) +:+ zone_text offset).

Example rfc3339_ex :
  [rfc3339 0 0; rfc3339 (1751803200 * second + 120000000) 7200; rfc3339 (951782399 * second + 1) 0;
   rfc3339 (-62135596800 * second) 0; rfc3339 (253402300800 * second) 0; rfc3339 (1709164800 * second) (-12600)]
  = [Some "1970-01-01T00:00:00Z"; Some "2025-07-06T14:00:00.12+02:00"; Some "2000-02-28T23:59:59.000000001Z";
     Some "0001-01-01T00:00:00Z"; None; Some "2024-02-28T20:30:00-03:30"].
Proof. vm_compute. reflexivity. Qed.

(** ** The formatting of the library *)

Definition go_fmt (zone : time -> Z) : Fmt :=
  {| fmt_float := json_float; fmt_time := fun t => rfc3339 t (zone t) |}.

End Format.
