(* ===== verification/Evaluate.v ===== *)
(** * Package evaluate: the synchronous decision path
    ([internal/evaluate/evaluate.go])

    The service composes the other components through their interfaces.  A call
    of [Evaluate] takes the state of all of them to the next state and returns
    or panics; [Oracle] holds what the call reads from outside: the environment,
    the clock readings, the fresh decision id and the measured duration.

    In the code every path after validation ends in a call of [finalize]:
    [route] is the part before it, which picks the arguments of that call. *)
From Stdlib Require Import ZArith Lia Ascii String SpecFloat.
From stdpp Require Import base gmap strings list.
From S2P Require Import Prelude GoLib Float64 Json.
From S2P Require Import Caps Velocity Whitelist Review AuditLog Metrics Engine.

Open Scope Z_scope.
Open Scope go_scope.

Module Evaluate.
Import Json.

(** ** Data *)

Record Request := {
  UserID : string;
  Amount : string;
  Currency : string;
  Asset : string;
  Rail : string;
  DestAddress : string;
  DestChain : string;
  KYTVerdict : string;
  FraudScore : float64;
  KYCStatus : string;
  UserTier : string;
  Session2FA : bool;
  FXRateToUSD : float64;
  SessionValid : bool
}.

Record AppliedRule := { ID : string; Version : string }.

Record Response := {
  Decision : string;
  Reasons : slice string;
  AppliedRules : slice AppliedRule;
  PolicyVersion : string;
  Score : float64;
  DecisionID : string
}.

Definition zero_response : Response :=
  {| Decision := ""; Reasons := None; AppliedRules := None; PolicyVersion := "";
     Score := f0; DecisionID := "" |}.

(** ** Pure helpers *)

Definition validate (req : Request) : option error :=
  if TrimSpace (UserID req) == "" then Some (Errorf "user_id is required")
  else if TrimSpace (Amount req) == "" then Some (Errorf "amount is required")
  else if (match snd (ParseFloat (Amount req)) with Some _ => true | None => false end) then
    Some (Errorf "amount must be a number")
  else if TrimSpace (Currency req) == "" then Some (Errorf "currency is required")
  else if TrimSpace (DestAddress req) == "" then Some (Errorf "dest_address is required")
  else None.

Definition parseFloat (s : string) : float64 := fst (ParseFloat s).

Definition toAuditReq (req : Request) : Audit.Request :=
  {| Audit.UserID := UserID req; Audit.Amount := Amount req; Audit.Currency := Currency req;
     Audit.Asset := Asset req; Audit.Rail := Rail req; Audit.DestAddress := DestAddress req;
     Audit.DestChain := DestChain req; Audit.KYTVerdict := KYTVerdict req;
     Audit.FraudScore := FraudScore req; Audit.KYCStatus := KYCStatus req |}.

Definition amount_usd (req : Request) : float64 :=
  Caps.FXToUSD (parseFloat (Amount req)) (Currency req) (FXRateToUSD req).

Definition tier_of (req : Request) : string :=
  if UserTier req == "" then Caps.Tier1 else UserTier req.

Definition engine_input (req : Request) (amountUSD : float64) (whitelisted requires2FA : bool)
  : gmap string Engine.any :=
  list_to_map
    [ ("user_id", Engine.AString (UserID req));
      ("amount_usd", Engine.AFloat amountUSD);
      ("kyt_verdict", Engine.AString (KYTVerdict req));
      ("fraud_score", Engine.AFloat (FraudScore req));
      ("kyc_status", Engine.AString (KYCStatus req));
      ("dest_address", Engine.AString (DestAddress req));
      ("whitelisted", Engine.ABool whitelisted);
      ("requires_2fa", Engine.ABool requires2FA);
      ("session_2fa_passed", Engine.ABool (Session2FA req)) ].

(** ** The service *)

Record Oracle := {
  env : environ;
  inc_now : time;
  roll_now : time;
  new_id : string;
  emit_now : time;
  park_now : time;
  elapsed : Z
}.

Section Service.
Context `{Fmt} `{Audit.Ed25519}
  {E C WS RS AS K : Type}
  `{Engine.Engine E} `{Velocity.Counter C} `{Whitelist.Store WS} `{Review.Store RS}
  `{Audit.Store AS} `{Audit.Sink K}.

(** Nil pointers and interfaces are [None]; the engine and the whitelist service
    are never nil in the program. *)
Record Service := {
  engine : E;
  velocity : option C;
  caps : option Caps.Config;
  whitelist : WS;
  review : option RS;
  audit : option (Audit.Service AS K);
  metrics : Metrics.Metrics;
  sessionValidDefault : bool
}.

Definition set_velocity (s : Service) (v : option C) : Service :=
  {| engine := engine s; velocity := v; caps := caps s; whitelist := whitelist s;
     review := review s; audit := audit s; metrics := metrics s;
     sessionValidDefault := sessionValidDefault s |}.
Definition set_review (s : Service) (r : option RS) : Service :=
  {| engine := engine s; velocity := velocity s; caps := caps s; whitelist := whitelist s;
     review := r; audit := audit s; metrics := metrics s;
     sessionValidDefault := sessionValidDefault s |}.
Definition set_audit (s : Service) (a : option (Audit.Service AS K)) : Service :=
  {| engine := engine s; velocity := velocity s; caps := caps s; whitelist := whitelist s;
     review := review s; audit := a; metrics := metrics s;
     sessionValidDefault := sessionValidDefault s |}.
Definition set_metrics (s : Service) (m : Metrics.Metrics) : Service :=
  {| engine := engine s; velocity := velocity s; caps := caps s; whitelist := whitelist s;
     review := review s; audit := audit s; metrics := m;
     sessionValidDefault := sessionValidDefault s |}.

Definition SetSessionValidDefault (s : Service) (v : bool) : Service :=
  {| engine := engine s; velocity := velocity s; caps := caps s; whitelist := whitelist s;
     review := review s; audit := audit s; metrics := metrics s; sessionValidDefault := v |}.

Definition NewService (eng : E) (vel : option C) (capsCfg : option Caps.Config) (wl : WS)
    (rev : option RS) (aud : option (Audit.Service AS K)) (global : Metrics.Metrics) : Service :=
  {| engine := eng; velocity := vel; caps := capsCfg; whitelist := wl; review := rev;
     audit := aud; metrics := global; sessionValidDefault := false |}.

(** ** Finalization *)

(** The arguments a path passes to [finalize]. *)
Record verdict := {
  v_decision : string;
  v_reasons : slice string;
  v_rules : slice AppliedRule;
  v_score : float64
}.

Definition count_decision (decision : string) (m : Metrics.Metrics) : Metrics.Metrics :=
  if decision == "allow" then Metrics.bump Metrics.CAllow m
  else if decision == "deny" then Metrics.bump Metrics.CDeny m
  else if decision == "manual_review" then Metrics.bump Metrics.CManualReview m
  else m.

Definition make_record (req : Request) (resp : Response) : Audit.DecisionRecord :=
  {| Audit.DecisionID := DecisionID resp; Audit.PolicyVersion := PolicyVersion resp;
     Audit.RequestHash_ := Audit.RequestHash (toAuditReq req);
     Audit.Decision := Decision resp; Audit.Reasons := Reasons resp;
     Audit.AppliedRules := append_all None (ID <$> elems (AppliedRules resp));
     Audit.Score := Score resp; Audit.CreatedAt := zero_time; Audit.Signature := "" |}.

(** Audit emission: the error that stops [finalize], if any. *)
Definition emit (s : Service) (o : Oracle) (req : Request) (resp : Response)
  : Service * option error :=
  match audit s with
  | None => (s, None)
  | Some a =>
      match Audit.Emit a (emit_now o) (make_record req resp) with
      | (a', None) => (set_audit s (Some a'), None)
      | (a', Some err) =>
          (set_audit s (Some a'),
           if errors_is err AudErrDropped then None else Some (Wrapf "audit emit" err))
      end
  end.

(** Parking of manual_review decisions. *)
Definition park (s : Service) (o : Oracle) (resp : Response) : Service :=
  match Decision resp == "manual_review", review s with
  | true, Some r =>
      match Review.Park r (park_now o) (DecisionID resp) "" with
      | (r', (_, None)) =>
          set_metrics (set_review s (Some r')) (Metrics.bump Metrics.CReviewPending (metrics s))
      | (r', (_, Some _)) => set_review s (Some r')
      end
  | _, _ => s
  end.

Definition finalize (s : Service) (o : Oracle) (req : Request) (v : verdict)
  : Service * (Response * option error) :=
  let resp := {| Decision := v_decision v; Reasons := v_reasons v; AppliedRules := v_rules v;
                 PolicyVersion := Engine.eng_Version (engine s); Score := v_score v;
                 DecisionID := new_id o |} in
  let s1 := set_metrics s (count_decision (v_decision v) (metrics s)) in
  match emit s1 o req resp with
  | (s2, Some err) => (s2, (resp, Some err))
  | (s2, None) => (park s2 o resp, (resp, None))
  end.

(** ** Routing *)

Definition mk_verdict (d : string) (rs : slice string) (rules : slice AppliedRule) (sc : float64)
  : verdict := {| v_decision := d; v_reasons := rs; v_rules := rules; v_score := sc |}.

(** Step 3: increment the daily counter and roll it back when it is above the
    limit; the result tells whether it was.  Errors of the counter are ignored. *)
Definition check_velocity (s : Service) (o : Oracle) (cfg : Caps.Config) (userID : string)
  : Service * bool :=
  match velocity s with
  | None => (s, false)
  | Some c =>
      let '(_, _, day) := Velocity.WindowsFromConfig (Velocity.DefaultConfig (env o)) in
      let '(c1, (v, _)) := Velocity.Increment c (inc_now o) userID day in
      if f64_to_int64 (Caps.DefaultDailyCapUSD cfg) <? v then
        (set_velocity s (Some (fst (Velocity.Rollback c1 (roll_now o) userID day))), true)
      else (set_velocity s (Some c1), false)
  end.

(** Step 5: the engine. *)
Definition run_engine (s : Service) (req : Request) (amountUSD : float64) (requires2FA : bool)
    (reasons : slice string) (rules : slice AppliedRule) : verdict :=
  match Engine.eng_Evaluate (engine s) (engine_input req amountUSD true requires2FA) with
  | inl _ => mk_verdict "manual_review" (append1 reasons "engine_error") rules (lit 5 (-1))
  | inr r =>
      mk_verdict (Engine.Decision r) reasons
        (append_all rules ((fun id => {| ID := id; Version := Engine.eng_Version (engine s) |})
                             <$> elems (Engine.AppliedRules r)))
        (Engine.RiskScore r)
  end.

(** Step 4: the per-transaction cap, then the engine. *)
Definition check_caps (s : Service) (cfg : Caps.Config) (req : Request) (amountUSD : float64)
    (requires2FA : bool) (reasons : slice string) : verdict :=
  let res := Caps.Evaluate cfg (tier_of req) (Rail req) (Asset req) "tx" amountUSD in
  let rules := match Caps.AppliedRule res with
               | Some r => append1 None {| ID := Caps.ID r; Version := "" |}
               | None => None
               end in
  if Caps.Exceeded res then
    mk_verdict (Caps.Decision res) (append1 reasons (Caps.Reason res)) rules (lit 5 (-1))
  else if Caps.NearCap res then
    mk_verdict "manual_review" (append1 reasons (Caps.Reason res)) rules (lit 3 (-1))
  else run_engine s req amountUSD requires2FA reasons rules.

(** The body of [Evaluate] up to [finalize]; [None] is the nil dereference of
    [s.caps.HighValue2FARequired] on a nil configuration. *)
Definition route (s : Service) (o : Oracle) (req : Request) : option (Service * verdict) :=
  match caps s with
  | None => None
  | Some cfg =>
      let amountUSD := amount_usd req in
      let requires2FA := Caps.HighValue2FARequired cfg (Rail req) amountUSD in
      let sessionValid := SessionValid req || sessionValidDefault s in
      let auth := Whitelist.CheckSourceAuth sessionValid requires2FA (Session2FA req) in
      if negb (Whitelist.OK auth) then
        Some (s, mk_verdict "deny" (append1 None (Whitelist.Reason auth)) None (lit 1 0))
      else if negb (Whitelist.IsWhitelisted (whitelist s) (UserID req) (DestChain req) (DestAddress req))
      then Some (s, mk_verdict "deny" (append1 None "dest_not_whitelisted") None (lit 5 (-1)))
      else
        let reasons := append1 None "whitelisted" in
        let '(s1, exceeded) := check_velocity s o cfg (UserID req) in
        if exceeded then
          Some (s1, mk_verdict "deny" (append1 reasons "velocity_daily_exceeded") None (lit 5 (-1)))
        else
          let reasons := match velocity s with
                         | Some _ => append1 reasons "velocity_daily_ok"
                         | None => reasons
                         end in
          Some (s1, check_caps s1 cfg req amountUSD requires2FA reasons)
  end.

Inductive outcome :=
| Returned (resp : Response) (err : option error)
| Panicked.

(** The deferred metrics. *)
Definition deferred (s : Service) (o : Oracle) : Service :=
  set_metrics s (Metrics.bump Metrics.CEvaluate
                   (Metrics.ObserveEvaluateDuration (elapsed o) (metrics s))).

Definition Evaluate (s : Service) (o : Oracle) (req : Request) : Service * outcome :=
  match validate req with
  | Some err => (s, Returned zero_response (Some err))
  | None =>
      match route s o req with
      | None => (deferred s o, Panicked)
      | Some (s1, v) =>
          let '(s2, (resp, err)) := finalize s1 o req v in
          (deferred s2 o, Returned resp err)
      end
  end.

End Service.

Arguments Service {_} E C WS RS AS K.

(** The evaluation service as the transports see it. *)
Class Evaluator (S : Type) := { evaluate : S -> Oracle -> Request -> S * outcome }.

(** The service on stores that are independent of each other. *)
#[global] Instance Service_Evaluator `{Fmt} `{Audit.Ed25519} {E C WS RS AS K : Type}
  `{Engine.Engine E} `{Velocity.Counter C} `{Whitelist.Store WS} `{Review.Store RS}
  `{Audit.Store AS} `{Audit.Sink K} : Evaluator (Service E C WS RS AS K) | 10 := {|
  evaluate := Evaluate |}.

End Evaluate.
