(* ===== verification/EvaluateProps.v ===== *)
(** * Properties of the decision path

    What [Evaluate.Evaluate] promises, proved against the interfaces of the
    components it calls: which checks an allow has passed, what each reason
    means, what a call does to the counter, the audit trail, the review queue
    and the metrics, and what happens on its error paths. *)
From Stdlib Require Import ZArith Lia Ascii String SpecFloat.
From stdpp Require Import base gmap strings list.
From S2P Require Import Prelude GoLib Float64 Json.
From S2P Require Import Caps Velocity Whitelist Review AuditLog Metrics Engine Evaluate.

Open Scope Z_scope.
Open Scope go_scope.

Module EvaluateProps.
Import Json Evaluate.

Section Facts.
Context `{Fmt} `{Audit.Ed25519}
  {E C WS RS AS K : Type}
  `{Engine.Engine E} `{Velocity.Counter C} `{Whitelist.Store WS} `{Review.Store RS}
  `{Audit.Store AS} `{Audit.Sink K}.

Abbreviation Svc := (Service E C WS RS AS K).

(** ** Names for what a request meets *)

Definition day_window (env : environ) : Velocity.Window :=
  snd (Velocity.WindowsFromConfig (Velocity.DefaultConfig env)).

(** What the increment returns, with 0 when there is no counter. *)
Definition daily_count (s : Svc) (o : Oracle) (req : Request) : Z :=
  match velocity s with
  | Some c => fst (snd (Velocity.Increment c (inc_now o) (UserID req) (day_window (env o))))
  | None => 0
  end.

Definition session_ok (s : Svc) (req : Request) : bool :=
  SessionValid req || sessionValidDefault s.
Definition needs_2fa (cfg : Caps.Config) (req : Request) : bool :=
  Caps.HighValue2FARequired cfg (Rail req) (amount_usd req).
Definition dest_listed (s : Svc) (req : Request) : bool :=
  Whitelist.IsWhitelisted (whitelist s) (UserID req) (DestChain req) (DestAddress req).
Definition over_velocity (s : Svc) (o : Oracle) (cfg : Caps.Config) (req : Request) : bool :=
  match velocity s with
  | Some _ => f64_to_int64 (Caps.DefaultDailyCapUSD cfg) <? daily_count s o req
  | None => false
  end.
Definition cap_result (cfg : Caps.Config) (req : Request) : Caps.EvaluateResult :=
  Caps.Evaluate cfg (tier_of req) (Rail req) (Asset req) "tx" (amount_usd req).
Definition engine_result (s : Svc) (cfg : Caps.Config) (req : Request) : Res Engine.Result :=
  Engine.eng_Evaluate (engine s) (engine_input req (amount_usd req) true (needs_2fa cfg req)).

(** The checks in the order of their priority, as a table: the first row whose
    condition holds gives the decision and the reason it adds. *)
Definition priority (s : Svc) (o : Oracle) (cfg : Caps.Config) (req : Request) : list (bool * (string * string)) :=
  [ (negb (session_ok s req), ("deny", "invalid_session"));
    (needs_2fa cfg req && negb (Session2FA req), ("deny", "2fa_required"));
    (negb (dest_listed s req), ("deny", "dest_not_whitelisted"));
    (over_velocity s o cfg req, ("deny", "velocity_daily_exceeded"));
    (Caps.Exceeded (cap_result cfg req), (Caps.Decision (cap_result cfg req), "cap_tx_exceeded"));
    (Caps.NearCap (cap_result cfg req), ("manual_review", "near_cap_tx"));
    (match engine_result s cfg req with inl _ => true | inr _ => false end,
       ("manual_review", "engine_error")) ].

Definition first_row (rows : list (bool * (string * string))) : option (string * string) :=
  snd <$> List.find fst rows.

(** What the reasons hold before the deciding one. *)
Definition passed_reasons (s : Svc) (o : Oracle) (cfg : Caps.Config) (req : Request) : list string :=
  if session_ok s req && negb (needs_2fa cfg req && negb (Session2FA req)) && dest_listed s req then
    "whitelisted" ::
    match velocity s with
    | Some _ => if over_velocity s o cfg req then [] else ["velocity_daily_ok"]
    | None => []
    end
  else [].

(** ** The routing follows the table *)

Lemma check_velocity_spec (s : Svc) o cfg req :
  exists v', check_velocity s o cfg (UserID req) = (set_velocity s v', over_velocity s o cfg req).
Proof.
  unfold check_velocity, over_velocity, daily_count.
  destruct (velocity s) as [c|] eqn:Hv.
  - unfold day_window. destruct (Velocity.WindowsFromConfig _) as [[m h'] d]; simpl.
    destruct (Velocity.Increment _ _ _ _) as [c1 [v err]]; simpl.
    destruct (_ <? v); eauto.
  - exists None. destruct s; simpl in *; by subst.
Qed.

Lemma check_caps_spec (s : Svc) cfg req pre rest :
  let rows := [ (Caps.Exceeded (cap_result cfg req), (Caps.Decision (cap_result cfg req), "cap_tx_exceeded"));
    (Caps.NearCap (cap_result cfg req), ("manual_review", "near_cap_tx"));
    (match engine_result s cfg req with inl _ => true | inr _ => false end,
       ("manual_review", "engine_error")) ] in
  let v := check_caps s cfg req (amount_usd req) (needs_2fa cfg req) (append_all pre rest) in
  match first_row rows with
  | Some (d, reason) => v_decision v = d /\ elems (v_reasons v) = (elems pre ++ rest) ++ [reason]
  | None => exists r, engine_result s cfg req = inr r /\ v_decision v = Engine.Decision r /\
              elems (v_reasons v) = elems pre ++ rest
  end.
Proof.
  cbn zeta. unfold first_row, check_caps. fold (cap_result cfg req). cbn zeta.
  destruct (Caps.evaluate_reason cfg (tier_of req) (Rail req) (Asset req) "tx" (amount_usd req))
    as [Hex Hnear]. fold (cap_result cfg req) in Hex, Hnear. simpl.
  destruct (Caps.Exceeded _); simpl.
  { rewrite Hex by done. by rewrite elems_append1, elems_append_all. }
  destruct (Caps.NearCap _); simpl.
  { destruct Hnear as [-> _]; [done|]. by rewrite elems_append1, elems_append_all. }
  unfold run_engine, engine_result. destruct (Engine.eng_Evaluate _ _) as [e|r]; simpl.
  - by rewrite elems_append1, elems_append_all.
  - exists r. by rewrite elems_append_all.
Qed.

Lemma route_priority (s : Svc) o cfg req :
  caps s = Some cfg ->
  exists v' v, route s o req = Some (set_velocity s v', v) /\
    match first_row (priority s o cfg req) with
    | Some (d, reason) =>
        v_decision v = d /\ elems (v_reasons v) = passed_reasons s o cfg req ++ [reason]
    | None => exists r, engine_result s cfg req = inr r /\ v_decision v = Engine.Decision r /\
                elems (v_reasons v) = passed_reasons s o cfg req
    end.
Proof.
  intros Hc. assert (s = set_velocity s (velocity s)) as Hid by by destruct s.
  unfold route, first_row, priority, passed_reasons. rewrite Hc. cbn zeta.
  fold (session_ok s req) (needs_2fa cfg req) (dest_listed s req). unfold Whitelist.CheckSourceAuth.
  destruct (session_ok s req); simpl; [|exists (velocity s); eexists; rewrite <- Hid; done].
  destruct (needs_2fa cfg req && negb (Session2FA req)); simpl; [exists (velocity s); eexists; rewrite <- Hid; done|].
  destruct (dest_listed s req); simpl; [|exists (velocity s); eexists; rewrite <- Hid; done].
  destruct (check_velocity_spec s o cfg req) as [v' ->].
  destruct (over_velocity s o cfg req) eqn:Hov; simpl.
  { eexists _, _. split; [done|]. simpl. unfold over_velocity in Hov.
    by destruct (velocity s). }
  eexists v', _. split; [done|]. destruct (velocity s).
  - exact (check_caps_spec (set_velocity s v') cfg req (append1 None "whitelisted") ["velocity_daily_ok"]).
  - exact (check_caps_spec (set_velocity s v') cfg req None ["whitelisted"]).
Qed.

(** The response of a call, without the state. *)
Lemma finalize_response (s : Svc) o req v :
  exists s' err, finalize s o req v =
    (s', ({| Decision := v_decision v; Reasons := v_reasons v; AppliedRules := v_rules v;
             PolicyVersion := Engine.eng_Version (engine s); Score := v_score v;
             DecisionID := new_id o |}, err)).
Proof. unfold finalize. cbn zeta. destruct (emit _ _ _ _) as [s2 [err|]]; eauto. Qed.

(** A call that passed validation returns the response the table gives. *)
Lemma evaluate_priority (s : Svc) o req cfg :
  validate req = None -> caps s = Some cfg ->
  exists s' resp err, Evaluate s o req = (s', Returned resp err) /\
    DecisionID resp = new_id o /\ PolicyVersion resp = Engine.eng_Version (engine s) /\
    match first_row (priority s o cfg req) with
    | Some (d, reason) =>
        Decision resp = d /\ elems (Reasons resp) = passed_reasons s o cfg req ++ [reason]
    | None => exists r, engine_result s cfg req = inr r /\ Decision resp = Engine.Decision r /\
                elems (Reasons resp) = passed_reasons s o cfg req
    end.
Proof.
  intros Hv Hc. unfold Evaluate. rewrite Hv.
  destruct (route_priority s o cfg req Hc) as (v' & v & -> & Hr).
  destruct (finalize_response (set_velocity s v') o req v) as (s' & err & ->).
  eexists _, _, _. split; [done|]. done.
Qed.

(** ** What a call leaves alone *)

Definition same_core (s s' : Svc) : Prop :=
  engine s' = engine s /\ caps s' = caps s /\ whitelist s' = whitelist s /\
  sessionValidDefault s' = sessionValidDefault s.

Lemma emit_shape (s : Svc) o req resp s' err :
  emit s o req resp = (s', err) -> exists a', s' = set_audit s a'.
Proof.
  unfold emit. destruct (audit s) as [a|] eqn:Ha.
  - destruct (Audit.Emit _ _ _) as [a' [e|]]; intros [= <- _]; eauto.
  - intros [= <- _]. exists None. destruct s; simpl in *; by subst.
Qed.

Lemma park_shape (s : Svc) o resp :
  exists r' m', park s o resp = set_metrics (set_review s r') m'.
Proof.
  assert (s = set_metrics (set_review s (review s)) (metrics s)) as Hid by by destruct s.
  unfold park. destruct (_ == _), (review s) as [r|] eqn:Hr; try (eexists _, _; exact Hid).
  destruct (Review.Park _ _ _ _) as [r' [i [e|]]]; [|by eexists _, _].
  exists (Some r'), (metrics s). by destruct s.
Qed.

Lemma finalize_shape (s : Svc) o req v s' resp err :
  finalize s o req v = (s', (resp, err)) -> same_core s s' /\ velocity s' = velocity s.
Proof.
  unfold finalize. cbn zeta. destruct (emit _ _ _ _) as [s2 [e|]] eqn:He;
    apply emit_shape in He as [a' ->]; intros [= <- _ _]; [done|].
  match goal with |- context [park ?x ?y ?z] => destruct (park_shape x y z) as (r' & m' & ->) end.
  done.
Qed.

(** The counter after a call: touched only when authentication and the
    whitelist let the request through. *)
Definition reaches_velocity (s : Svc) (cfg : Caps.Config) (req : Request) : bool :=
  session_ok s req && negb (needs_2fa cfg req && negb (Session2FA req)) && dest_listed s req.

Lemma route_velocity (s : Svc) o req cfg s1 v :
  caps s = Some cfg -> route s o req = Some (s1, v) ->
  s1 = if reaches_velocity s cfg req then fst (check_velocity s o cfg (UserID req)) else s.
Proof.
  intros Hc. unfold route, reaches_velocity. rewrite Hc. cbn zeta.
  fold (session_ok s req) (needs_2fa cfg req) (dest_listed s req). unfold Whitelist.CheckSourceAuth.
  destruct (session_ok s req); simpl; [|by intros [= <- _]].
  destruct (needs_2fa cfg req && negb (Session2FA req)); simpl; [by intros [= <- _]|].
  destruct (dest_listed s req); simpl; [|by intros [= <- _]].
  destruct (check_velocity s o cfg (UserID req)) as [s2 []]; simpl; by intros [= <- _].
Qed.

Lemma evaluate_shape (s : Svc) o req s' out :
  Evaluate s o req = (s', out) ->
  same_core s s' /\
  velocity s' = match validate req, caps s with
                | None, Some cfg =>
                    if reaches_velocity s cfg req
                    then velocity (fst (check_velocity s o cfg (UserID req))) else velocity s
                | _, _ => velocity s
                end.
Proof.
  unfold Evaluate. destruct (validate req); [by intros [= <- _]|].
  destruct (route s o req) as [[s1 v]|] eqn:Hr.
  - destruct (finalize s1 o req v) as [s2 [resp err]] eqn:Hf. intros [= <- _].
    apply finalize_shape in Hf as [Hcore Hvel].
    destruct (caps s) as [cfg|] eqn:Hc; [|unfold route in Hr; by rewrite Hc in Hr].
    pose proof (route_velocity s o req cfg s1 v Hc Hr) as Hs1.
    destruct (route_priority s o cfg req Hc) as (v' & w & Hr' & _).
    assert (s1 = set_velocity s v') as Hset by congruence.
    split; [rewrite Hset in Hcore; exact Hcore|]. simpl. rewrite Hvel, Hs1.
    by destruct (reaches_velocity s cfg req).
  - intros [= <- _]. split; [done|]. unfold route in Hr.
    destruct (caps s) as [cfg|]; [|done]. exfalso. revert Hr. cbn zeta.
    repeat (destruct (negb _); [done|]). destruct (check_velocity _ _ _ _) as [? []]; done.
Qed.

(** ** Sequences of calls *)

Fixpoint run_evals (s : Svc) (cs : list (Oracle * Request)) : Svc * list outcome :=
  match cs with
  | [] => (s, [])
  | (o, req) :: cs' =>
      let '(s1, out) := Evaluate s o req in
      let '(s2, outs) := run_evals s1 cs' in (s2, out :: outs)
  end.

Definition valid (req : Request) : bool := match validate req with None => true | Some _ => false end.
Definition decided (d : string) (out : outcome) : bool :=
  match out with Returned resp _ => Decision resp == d | Panicked => false end.
Definition tally (d : string) (outs : list outcome) : Z :=
  Z.of_nat (length (List.filter (decided d) outs)).
Definition valid_calls (cs : list (Oracle * Request)) : Z :=
  Z.of_nat (length (List.filter (fun c => valid (snd c)) cs)).

(** ** Every decision is one of three *)

Lemma decision_in_three `{!Engine.EngineSpec E} (s : Svc) o req s' resp err :
  validate req = None -> Evaluate s o req = (s', Returned resp err) ->
  Decision resp ∈ Engine.decisions.
Proof.
  intros Hv He. destruct (caps s) as [cfg|] eqn:Hc.
  - destruct (evaluate_priority s o req cfg Hv Hc) as (s2 & resp' & err' & He' & _ & _ & Hp).
    rewrite He in He'. simplify_eq. unfold first_row, priority in Hp. simpl in Hp.
    pose proof (Caps.exceed_decision_cases
      (Caps.matchRule cfg (tier_of req) (Rail req) (Asset req) "tx")) as Hex.
    pose proof (Caps.evaluate_cases cfg (tier_of req) (Rail req) (Asset req) "tx" (amount_usd req))
      as Hcap. fold (cap_result cfg req) in Hcap. cbn zeta in Hcap.
    unfold Caps.severity in Hcap. unfold Engine.decisions.
    destruct (negb (session_ok s req)), (needs_2fa cfg req && negb (Session2FA req)),
      (negb (dest_listed s req)), (over_velocity s o cfg req); simpl in Hp; try (destruct Hp as [-> _]; set_solver).
    destruct (Caps.Exceeded _); simpl in Hp.
    { destruct Hp as [-> _]. destruct Hcap as [(_&?&_)|[(_&_&_&->)|[(_&_&_&?&_)|(_&_&_&?&_)]]];
        [lia| |lia|lia]. destruct Hex as [-> | ->]; set_solver. }
    destruct (Caps.NearCap _); simpl in Hp; [destruct Hp as [-> _]; set_solver|].
    destruct (engine_result s cfg req) as [e|r] eqn:Hr; simpl in Hp.
    + destruct Hp as [-> _]; set_solver.
    + destruct Hp as (r' & [= <-] & -> & _). by eapply Engine.eng_decision.
  - unfold Evaluate in He. rewrite Hv in He. unfold route in He. by rewrite Hc in He.
Qed.

(** ** Metrics of one call *)

(** The four counters that count calls and decisions. *)
Definition totals (m : Metrics.Metrics) : Z * Z * Z * Z :=
  (Metrics.EvaluateTotal m, Metrics.AllowTotal m, Metrics.DenyTotal m, Metrics.ManualReviewTotal m).

Definition step_totals (d : string) (t : Z * Z * Z * Z) : Z * Z * Z * Z :=
  let '(e, a, dn, mr) := t in
  let add k x := if d == k then wrap64 (x + 1) else x in
  (wrap64 (e + 1), add "allow" a, add "deny" dn, add "manual_review" mr).

Lemma park_totals (s : Svc) o resp : totals (metrics (park s o resp)) = totals (metrics s).
Proof.
  unfold park. destruct (_ == _), (review s) as [r|]; try done.
  by destruct (Review.Park _ _ _ _) as [r' [i [e|]]].
Qed.

Lemma emit_metrics (s : Svc) o req resp s' err :
  emit s o req resp = (s', err) -> metrics s' = metrics s.
Proof. intros He. apply emit_shape in He as [a' ->]. done. Qed.

Lemma deferred_totals (s : Svc) o d t :
  totals (metrics s) = totals (count_decision d t) ->
  totals (metrics (deferred s o)) = step_totals d (totals t).
Proof.
  intros Ht. unfold deferred, totals in *. simpl. injection Ht as -> -> -> ->.
  unfold count_decision, step_totals. repeat case_bool_decide; simplify_eq; done.
Qed.

Lemma evaluate_totals (s : Svc) o req s' resp err :
  validate req = None -> Evaluate s o req = (s', Returned resp err) ->
  totals (metrics s') = step_totals (Decision resp) (totals (metrics s)).
Proof.
  intros Hv. unfold Evaluate. rewrite Hv.
  destruct (route s o req) as [[s1 v]|] eqn:Hr; [|done].
  destruct (finalize s1 o req v) as [s2 [resp' err']] eqn:Hf. intros [= <- -> ->].
  assert (metrics s1 = metrics s) as <-.
  { destruct (caps s) as [cfg|] eqn:Hc; [|unfold route in Hr; by rewrite Hc in Hr].
    destruct (route_priority s o cfg req Hc) as (v' & w & Hr' & _).
    assert (s1 = set_velocity s v') as -> by congruence. done. }
  unfold finalize in Hf. cbn zeta in Hf. destruct (emit _ _ _ _) as [s3 [e|]] eqn:He;
    apply emit_metrics in He; simplify_eq/=; apply deferred_totals;
    [|rewrite park_totals]; by rewrite He.
Qed.

(** Totals that are the wrapped value of given numbers. *)
Definition wrapped (e a d m : Z) : Z * Z * Z * Z := (wrap64 e, wrap64 a, wrap64 d, wrap64 m).

Lemma step_totals_wrapped dec e a d m :
  step_totals dec (wrapped e a d m) =
  wrapped (e + 1) (a + b2z (dec == "allow")) (d + b2z (dec == "deny"))
    (m + b2z (dec == "manual_review")).
Proof.
  unfold step_totals, wrapped. rewrite !wrap64_add_l.
  repeat case_bool_decide; simpl; rewrite ?Z.add_0_r; done.
Qed.

Lemma tally_cons d out outs : tally d (out :: outs) = b2z (decided d out) + tally d outs.
Proof. unfold tally. simpl. destruct (decided d out); simpl length; simpl b2z; lia. Qed.

Lemma valid_calls_cons c cs : valid_calls (c :: cs) = b2z (valid (snd c)) + valid_calls cs.
Proof. unfold valid_calls. simpl. destruct (valid (snd c)); simpl length; simpl b2z; lia. Qed.

Lemma three_ways d : d ∈ Engine.decisions ->
  b2z (d == "allow") + b2z (d == "deny") + b2z (d == "manual_review") = 1.
Proof.
  unfold Engine.decisions. rewrite !elem_of_cons, elem_of_nil. intros [->|[->|[->|[]]]]; reflexivity.
Qed.

Lemma tally_nonneg d outs : 0 <= tally d outs.
Proof. apply Nat2Z.is_nonneg. Qed.

Lemma valid_calls_lt cs n : Z.of_nat (length cs) < n -> valid_calls cs < n.
Proof.
  unfold valid_calls. intros Hn. pose proof (List.filter_length_le (fun c => valid (snd c)) cs). lia.
Qed.

(** A valid request to a service with a configuration returns. *)
Lemma evaluate_returns (s : Svc) o req cfg :
  validate req = None -> caps s = Some cfg ->
  exists s' resp err, Evaluate s o req = (s', Returned resp err).
Proof.
  intros Hv Hc. destruct (evaluate_priority s o req cfg Hv Hc) as (s' & resp & err & He & _). eauto.
Qed.

Lemma run_evals_totals `{!Engine.EngineSpec E} cs : forall (s : Svc) cfg e a d m,
  caps s = Some cfg -> totals (metrics s) = wrapped e a d m ->
  let '(s', outs) := run_evals s cs in
  totals (metrics s') =
    wrapped (e + valid_calls cs) (a + tally "allow" outs) (d + tally "deny" outs)
      (m + tally "manual_review" outs) /\
  tally "allow" outs + tally "deny" outs + tally "manual_review" outs = valid_calls cs.
Proof.
  induction cs as [|[o req] cs IH]; intros s cfg e a d m Hc Ht; simpl.
  { unfold tally, valid_calls. simpl. by rewrite !Z.add_0_r. }
  destruct (validate req) as [ve|] eqn:Hv.
  - unfold Evaluate. rewrite Hv. specialize (IH s cfg e a d m Hc Ht).
    destruct (run_evals s cs) as [s2 outs]. rewrite valid_calls_cons, !tally_cons.
    unfold valid. simpl. rewrite Hv. simpl. exact IH.
  - destruct (evaluate_returns s o req cfg Hv Hc) as (s1 & resp & err & He). rewrite He.
    pose proof (evaluate_totals s o req s1 resp err Hv He) as Ht1.
    rewrite Ht, step_totals_wrapped in Ht1.
    destruct (evaluate_shape s o req s1 _ He) as [(_ & Hc1 & _) _]. rewrite Hc in Hc1.
    specialize (IH s1 cfg _ _ _ _ Hc1 Ht1). destruct (run_evals s1 cs) as [s2 outs].
    destruct IH as [-> Hsum]. rewrite valid_calls_cons, !tally_cons. unfold valid. simpl. rewrite Hv.
    pose proof (three_ways _ (decision_in_three s o req s1 resp err Hv He)) as Hways.
    simpl. rewrite !Z.add_assoc. split; [done|]. lia.
Qed.

(** ** The end of a call: audit, then review queue *)

Lemma finalize_emit (s : Svc) o req v s2 resp err :
  finalize s o req v = (s2, (resp, err)) ->
  DecisionID resp = new_id o /\
  exists s3, emit (set_metrics s (count_decision (v_decision v) (metrics s))) o req resp = (s3, err) /\
    s2 = match err with None => park s3 o resp | Some _ => s3 end.
Proof.
  unfold finalize. cbn zeta. destruct (emit _ _ _ _) as [s3 [e|]] eqn:He;
    intros [= <- <- <-]; split; try done; exists s3; by rewrite He.
Qed.

(** The state a returned call leaves, from its audit emission on: [s1] differs
    from the initial state in counter and metrics only. *)
Lemma evaluate_end (s : Svc) o req s' resp err :
  validate req = None -> Evaluate s o req = (s', Returned resp err) ->
  DecisionID resp = new_id o /\
  exists v' m' s3, emit (set_metrics (set_velocity s v') m') o req resp = (s3, err) /\
    s' = deferred (match err with None => park s3 o resp | Some _ => s3 end) o.
Proof.
  intros Hv. unfold Evaluate. rewrite Hv. destruct (route s o req) as [[s1 v]|] eqn:Hr; [|done].
  destruct (finalize s1 o req v) as [s2 [resp' err']] eqn:Hf. intros [= <- -> ->].
  destruct (caps s) as [cfg|] eqn:Hc; [|unfold route in Hr; by rewrite Hc in Hr].
  destruct (route_priority s o cfg req Hc) as (v' & w & Hr' & _).
  assert (s1 = set_velocity s v') as -> by congruence.
  apply finalize_emit in Hf as (Hid & s3 & He & ->). split; [done|].
  eexists v', _, s3. split; [exact He|done].
Qed.

Lemma park_audit (s : Svc) o resp : audit (park s o resp) = audit s.
Proof. destruct (park_shape s o resp) as (r' & m' & ->). done. Qed.

Lemma emit_review (s : Svc) o req resp s' err :
  emit s o req resp = (s', err) -> review s' = review s.
Proof. intros He. apply emit_shape in He as [a' ->]. done. Qed.

(** How the outcome of the audit service becomes the outcome of the call. *)
Lemma emit_audit (s : Svc) o req resp s' err a :
  audit s = Some a -> emit s o req resp = (s', err) ->
  exists a' e, Audit.Emit a (emit_now o) (make_record req resp) = (a', e) /\ audit s' = Some a' /\
    err = match e with
          | None => None
          | Some e => if errors_is e AudErrDropped then None else Some (Wrapf "audit emit" e)
          end.
Proof.
  intros Ha. unfold emit. rewrite Ha. destruct (Audit.Emit _ _ _) as [a' [e|]];
    intros [= <- <-]; eauto.
Qed.

(** ** What an allow means *)

(** The conditions under which the checks before the engine all let a request
    through, and the engine allows it. *)
Definition all_clear (s : Svc) (o : Oracle) (cfg : Caps.Config) (req : Request) : Prop :=
  session_ok s req = true /\ (needs_2fa cfg req = true -> Session2FA req = true) /\
  dest_listed s req = true /\ over_velocity s o cfg req = false /\
  Caps.severity (cap_result cfg req) = 0 /\
  exists r, engine_result s cfg req = inr r /\ Engine.Decision r = "allow".

Lemma cap_decision_not_allow cfg req :
  Caps.Exceeded (cap_result cfg req) = true -> Caps.Decision (cap_result cfg req) <> "allow".
Proof.
  intros Hex. pose proof (Caps.exceed_decision_cases
    (Caps.matchRule cfg (tier_of req) (Rail req) (Asset req) "tx")) as Hd.
  destruct (Caps.evaluate_cases cfg (tier_of req) (Rail req) (Asset req) "tx" (amount_usd req))
    as [(_&Hs&_)|[(_&_&_&Hdec)|[(_&_&_&Hs&_)|(_&_&_&Hs&_)]]]; cbn zeta in *;
    fold (cap_result cfg req) in *; unfold Caps.severity in *; try (rewrite Hex in Hs; lia).
  rewrite Hdec. by destruct Hd as [-> | ->].
Qed.

Lemma allow_iff (s : Svc) o req cfg s' resp err :
  validate req = None -> caps s = Some cfg -> Evaluate s o req = (s', Returned resp err) ->
  Decision resp = "allow" <-> all_clear s o cfg req.
Proof.
  intros Hv Hc He. destruct (evaluate_priority s o req cfg Hv Hc) as (s2 & resp' & err' & He' & _ & _ & Hp).
  rewrite He in He'. simplify_eq. unfold all_clear.
  unfold first_row, priority in Hp. simpl in Hp. pose proof (cap_decision_not_allow cfg req) as Hna.
  unfold Caps.severity.
  destruct (session_ok s req); simpl in Hp; [|destruct Hp as [-> _]; naive_solver].
  destruct (needs_2fa cfg req), (Session2FA req); simpl in Hp;
    try (destruct Hp as [-> _]; naive_solver).
  all: destruct (dest_listed s req); simpl in Hp; [|destruct Hp as [-> _]; naive_solver].
  all: destruct (over_velocity s o cfg req); simpl in Hp; [destruct Hp as [-> _]; naive_solver|].
  all: destruct (Caps.Exceeded _); simpl in Hp;
    [destruct Hp as [-> _]; split; [naive_solver|intros (_&_&_&_&?&_); lia]|].
  all: destruct (Caps.NearCap _); simpl in Hp;
    [destruct Hp as [-> _]; split; [naive_solver|intros (_&_&_&_&?&_); lia]|].
  all: destruct (engine_result s cfg req) as [e|r] eqn:Hr; simpl in Hp;
    [destruct Hp as [-> _]; naive_solver|].
  all: destruct Hp as (r' & [= <-] & -> & _); naive_solver.
Qed.
End Facts.

(** ** The durable audit trail *)

Section AuditTrail.
Context `{Fmt} `{Audit.Ed25519} {E C WS RS K : Type}
  `{Engine.Engine E} `{Velocity.Counter C} `{Whitelist.Store WS} `{Review.Store RS} `{Audit.Sink K}.

(** An emission that does not make the call fail has stored its record: the only
    error the call ignores is the one of the full queue, reported after the
    store was written. *)
Lemma emit_stores (Hed : Audit.Ed25519Ok) (s : Service E C WS RS Audit.MemoryStore K) o req resp s' a st :
  audit s = Some a -> Audit.signer_ok (Audit.signer a) -> Audit.syncPersist a = true ->
  Audit.store a = Some st -> emit s o req resp = (s', None) ->
  exists a' st' sig, audit s' = Some a' /\ Audit.store a' = Some st' /\
    let rec := Audit.with_signature (Audit.stamp (make_record req resp) (emit_now o)) sig in
    Audit.mem st' !! DecisionID resp = Some rec /\ Audit.Verify (Audit.signer a') rec = None.
Proof.
  intros Ha Hsg Hsy Hst He. destruct (emit_audit s o req resp s' None a Ha He)
    as (a' & e & Hem & Ha' & Herr).
  assert (e = None \/ e = Some (Sentinel AudErrDropped)) as Hok.
  { destruct e as [e|]; [|auto]. right. destruct (errors_is e AudErrDropped) eqn:Hd; [|done].
    apply Audit.Emit_cases in Hem as [(e1 & Hs & _ & [= ->])|(sig & Hs & [(e1 & Hp & [= ->])|(a1 & Hp & Hq)])].
    - unfold Audit.Sign, Audit.canonicalJSON, Audit.marshal_record, enc_float, enc_time in Hs.
      repeat (go_case_in Hs; simplify_eq/=); done.
    - unfold Audit.persist_sync in Hp. rewrite Hsy, Hst in Hp. simpl in Hp. unfold Audit.ms_put in Hp.
      case_bool_decide; simplify_eq/=; done.
    - apply Audit.enqueue_shape in Hq as (_ & _ & _ & _ & ->). done. }
  destruct (Audit.Emit_durable Hed a st (emit_now o) (make_record req resp) a' e Hsg Hsy Hst Hem Hok)
    as (st' & rec' & Hst' & Hm & Hv & sig & ->).
  exists a', st', sig. done.
Qed.

End AuditTrail.

(** ** The daily limit

    With the in-memory counter, over any calls made within one window. *)

Section DailyLimit.
Context `{Fmt} `{Audit.Ed25519} {E WS RS AS K : Type}
  `{Engine.Engine E} `{Whitelist.Store WS} `{Review.Store RS} `{Audit.Store AS} `{Audit.Sink K}.

Abbreviation Svc := (Service E Velocity.MemoryCounter WS RS AS K).

(** The calls of the counter one request makes. *)
Definition counter_calls (s : Svc) (o : Oracle) (cfg : Caps.Config) (req : Request) : list Velocity.call :=
  if reaches_velocity s cfg req then
    Velocity.Inc (inc_now o) (UserID req) (day_window (env o)) ::
    (if over_velocity s o cfg req
     then [Velocity.Roll (roll_now o) (UserID req) (day_window (env o))] else [])
  else [].

Lemma evaluate_counter (s : Svc) o req cfg c s' out :
  validate req = None -> caps s = Some cfg -> velocity s = Some c -> Evaluate s o req = (s', out) ->
  velocity s' = Some (Velocity.run c (counter_calls s o cfg req)).
Proof.
  intros Hv Hc Hvel He. destruct (evaluate_shape s o req s' out He) as [_ ->].
  rewrite Hv, Hc. unfold counter_calls. destruct (reaches_velocity s cfg req); [|done].
  unfold check_velocity, over_velocity, daily_count, day_window. rewrite Hvel.
  destruct (Velocity.WindowsFromConfig _) as [[m h'] d]; simpl.
  destruct (_ <? _); reflexivity.
Qed.

(** The counter of a user of whom [n] requests were allowed since [t0]: it counts
    at least those, and outlives the window. *)
Definition entry_inv (w : Velocity.Window) (t0 : time) (n : Z) (e : option Velocity.memEntry) : Prop :=
  match e with
  | Some e => 0 <= Velocity.value e < 2^63 - 1 /\
      (n = 0 \/ n <= Velocity.value e /\ t0 + w <= Velocity.expiresAt e)
  | None => n = 0
  end.

Definition limit_inv (u : string) (w : Velocity.Window) (t0 : time) (cap n : Z) (s : Svc) : Prop :=
  0 <= n <= cap /\
  exists c, velocity s = Some c /\
  entry_inv w t0 n (Velocity.mem c !! Velocity.key u w).

(** The reading of an entry. *)
Definition reading (e : option Velocity.memEntry) (now : time) : Z :=
  default 0 (Velocity.value <$> Velocity.live e now).

Lemma reading_inv w t0 n e now :
  entry_inv w t0 n e -> 0 <= n -> now <= t0 + w -> n <= reading e now < 2^63 - 1.
Proof.
  unfold entry_inv, reading, Velocity.live. intros He Hn Hnow. destruct e as [e|]; simpl; [|lia].
  destruct (_ <? now) eqn:Hlt; go_bool; simpl; lia.
Qed.

Lemma spec_inc e now u w t0 n :
  entry_inv w t0 n e -> 0 <= n -> now <= t0 + w ->
  Velocity.spec_run e [Velocity.Inc now u w] =
  Some {| Velocity.value := reading e now + 1; Velocity.expiresAt := now + w |}.
Proof.
  intros He Hn Hnow. pose proof (reading_inv w t0 n e now He Hn Hnow).
  unfold Velocity.spec_run. simpl. fold (reading e now).
  rewrite wrap64_id by (unfold int64_range; lia). done.
Qed.

Lemma spec_inc_roll e now roll u w t0 n :
  entry_inv w t0 n e -> 0 <= n -> now <= t0 + w -> roll <= now + w ->
  Velocity.spec_run e [Velocity.Inc now u w; Velocity.Roll roll u w] =
  Some {| Velocity.value := reading e now; Velocity.expiresAt := now + w |}.
Proof.
  intros He Hn Hnow Hroll. pose proof (reading_inv w t0 n e now He Hn Hnow).
  change (Velocity.spec_run e _) with
    (Velocity.spec_run (Velocity.spec_run e [Velocity.Inc now u w]) [Velocity.Roll roll u w]).
  erewrite spec_inc by done. unfold Velocity.spec_run. simpl.
  rewrite (proj2 (Z.ltb_ge _ _)) by lia. simpl.
  replace (reading e now + 1 - 1) with (reading e now) by lia.
  rewrite wrap64_id by (unfold int64_range; lia). by rewrite Z.max_r by lia.
Qed.

Lemma daily_count_reading (s : Svc) o req c w t0 n :
  velocity s = Some c -> day_window (env o) = w -> 
  entry_inv w t0 n (Velocity.mem c !! Velocity.key (UserID req) w) -> 0 <= n -> inc_now o <= t0 + w ->
  daily_count s o req = reading (Velocity.mem c !! Velocity.key (UserID req) w) (inc_now o) + 1.
Proof.
  intros Hv Hw He Hn Hnow. unfold daily_count. rewrite Hv, Hw.
  pose proof (reading_inv _ _ _ _ _ He Hn Hnow). unfold reading in *. simpl.
  destruct (Velocity.live _ _) as [e|]; simpl in *; apply wrap64_id; unfold int64_range; lia.
Qed.

(** Calls about another user leave the entry alone. *)
Lemma run_other c os u w :
  Forall (fun o => Velocity.call_user o <> u) os ->
  Velocity.mem (Velocity.run c os) !! Velocity.key u w = Velocity.mem c !! Velocity.key u w.
Proof.
  intros Hos. rewrite Velocity.run_lookup, filter_none; [done|].
  eapply Forall_impl; [exact Hos|]. intros o Ho [Hu _]%Velocity.call_key_iff. done.
Qed.

Lemma run_same c os u w :
  Forall (fun o => Velocity.call_user o = u /\ Velocity.call_window o = w) os ->
  Velocity.mem (Velocity.run c os) !! Velocity.key u w =
  Velocity.spec_run (Velocity.mem c !! Velocity.key u w) os.
Proof.
  intros Hos. rewrite Velocity.run_lookup, filter_all; [done|].
  eapply Forall_impl; [exact Hos|]. intros o [Hu Hw]. apply Velocity.call_key_iff. by rewrite Hw.
Qed.

#[local] Arguments Velocity.spec_run : simpl never.

(** A call of the limited user that reaches the counter. *)
Lemma limit_step_user (s : Svc) o req cfg c w t0 n :
  velocity s = Some c -> reaches_velocity s cfg req = true -> day_window (env o) = w ->
  let cap := f64_to_int64 (Caps.DefaultDailyCapUSD cfg) in
  0 <= n <= cap -> cap < 2^63 - 1 ->
  t0 <= inc_now o <= t0 + w -> roll_now o <= t0 + w ->
  entry_inv w t0 n (Velocity.mem c !! Velocity.key (UserID req) w) ->
  let n' := n + b2z (negb (over_velocity s o cfg req)) in
  n' <= cap /\
  entry_inv w t0 n' (Velocity.mem (Velocity.run c (counter_calls s o cfg req))
                       !! Velocity.key (UserID req) w).
Proof.
  intros Hv Hr Hw cap Hn Hcap Hinc Hroll He n'.
  pose proof (reading_inv _ _ _ _ (inc_now o) He ltac:(lia) ltac:(lia)) as Hrd.
  rewrite run_same.
  2:{ unfold counter_calls. rewrite Hr, Hw. destruct (over_velocity s o cfg req); by repeat constructor. }
  subst n'. unfold counter_calls. rewrite Hr, Hw. unfold over_velocity. rewrite Hv.
  erewrite daily_count_reading by (done || lia).
  destruct (_ <? _) eqn:Hov; go_bool; fold cap in Hov; cbn [negb b2z].
  - erewrite spec_inc_roll by (done || lia). simpl. rewrite Z.add_0_r. lia.
  - erewrite spec_inc by (done || lia). simpl. lia.
Qed.

Lemma limit_inv_mono u w t0 cap n n' (s : Svc) :
  limit_inv u w t0 cap n' s -> 0 <= n <= n' -> limit_inv u w t0 cap n s.
Proof.
  intros (Hn' & c & Hv & He) Hn. split; [lia|]. exists c. split; [done|].
  unfold entry_inv in *. destruct (_ !! _); lia.
Qed.

Definition in_window (w : Velocity.Window) (t0 : time) (o : Oracle) : Prop :=
  day_window (env o) = w /\ t0 <= inc_now o <= t0 + w /\ roll_now o <= t0 + w.

Definition allowed (u : string) (c : (Oracle * Request) * outcome) : bool :=
  (UserID (snd (fst c)) == u) && decided "allow" (snd c).

Lemma limit_step (s : Svc) o req cfg u w t0 n s' out :
  caps s = Some cfg -> let cap := f64_to_int64 (Caps.DefaultDailyCapUSD cfg) in cap < 2^63 - 1 ->
  in_window w t0 o -> limit_inv u w t0 cap n s -> Evaluate s o req = (s', out) ->
  limit_inv u w t0 cap (n + b2z (allowed u ((o, req), out))) s'.
Proof.
  intros Hc cap Hcap (Hw & Hinc & Hroll) Hinv Hev. pose proof Hinv as (Hn & c & Hv & He).
  destruct (validate req) as [ve|] eqn:Hval.
  { unfold Evaluate in Hev. rewrite Hval in Hev. simplify_eq. unfold allowed. simpl.
    by rewrite andb_false_r, Z.add_0_r. }
  pose proof (evaluate_counter s o req cfg c s' out Hval Hc Hv Hev) as Hv'.
  destruct (evaluate_returns s o req cfg Hval Hc) as (s2 & resp & err & Hev2).
  rewrite Hev in Hev2. injection Hev2 as <- ->.
  pose proof (allow_iff s o req cfg s' resp err Hval Hc Hev) as Hallow.
  unfold allowed. simpl. case_bool_decide as Hu; simpl.
  2:{ rewrite Z.add_0_r. split; [done|]. eexists. split; [exact Hv'|].
      rewrite run_other; [done|]. unfold counter_calls.
      destruct (reaches_velocity s cfg req), (over_velocity s o cfg req); by repeat constructor. }
  subst u. destruct (reaches_velocity s cfg req) eqn:Hr.
  - destruct (limit_step_user s o req cfg c w t0 n Hv Hr Hw Hn Hcap Hinc Hroll He) as [Hle He'].
    apply limit_inv_mono with (n + b2z (negb (over_velocity s o cfg req))).
    + split; [split; [|done]; destruct (over_velocity s o cfg req); simpl; lia|]. eexists. split; [exact Hv'|done].
    + case_bool_decide as Hd; simpl; [|destruct (over_velocity s o cfg req); simpl; lia].
      apply Hallow in Hd as (_ & _ & _ & -> & _). simpl. lia.
  - case_bool_decide as Hd; simpl.
    + apply Hallow in Hd as (H1' & H2' & H3' & _). unfold reaches_velocity in Hr.
      rewrite H1', H3' in Hr. destruct (needs_2fa cfg req); [|done]. by rewrite H2' in Hr.
    + rewrite Z.add_0_r. unfold counter_calls in Hv'. rewrite Hr in Hv'. split; [done|]. by exists c.
Qed.

Lemma limit_run cs : forall (s : Svc) cfg u w t0 n,
  caps s = Some cfg -> let cap := f64_to_int64 (Caps.DefaultDailyCapUSD cfg) in cap < 2^63 - 1 ->
  Forall (fun c => in_window w t0 (fst c)) cs -> limit_inv u w t0 cap n s ->
  n + Z.of_nat (length (List.filter (allowed u) (zip cs (snd (run_evals s cs))))) <= cap.
Proof.
  induction cs as [|[o req] cs IH]; intros s cfg u w t0 n Hc cap Hcap Hall Hinv; simpl.
  { destruct Hinv as [? _]. lia. }
  inversion Hall as [|? ? Ho Hall']; subst. destruct (Evaluate s o req) as [s1 out] eqn:He.
  pose proof (limit_step s o req cfg u w t0 n s1 out Hc Hcap Ho Hinv He) as Hinv1.
  destruct (evaluate_shape s o req s1 out He) as [(_ & Hc1 & _) _]. rewrite Hc in Hc1.
  specialize (IH s1 cfg u w t0 _ Hc1 Hcap Hall' Hinv1).
  destruct (run_evals s1 cs) as [s2 outs]. simpl in *.
  unfold b2z in IH. destruct (allowed u (o, req, out)); simpl length; fold cap in IH; lia.
Qed.

End DailyLimit.

(** ** A concrete service *)

Definition no_env : environ := fun _ => "".

Abbreviation SampleSvc := (@Service Audit.sample_ed (@Engine.OPAEngine Engine.sample_opa)
  Velocity.MemoryCounter Whitelist.MemoryStore Review.MemoryStore Audit.MemoryStore Audit.MemorySink).

Definition sample_audit : @Audit.Service Audit.sample_ed Audit.MemoryStore Audit.MemorySink :=
  Audit.WithSyncPersist Audit.sample_service.

Definition sample_list : list Whitelist.op :=
  [Whitelist.OpAdd 1 "usr_1" "ethereum" "0xabc" "wallet";
   Whitelist.OpVerify 2 "usr_1" "ethereum" "0xabc"].

(** A service whose policy raises the given flag. *)
Definition sample_with (cfg : Caps.Config) (flag : string) : SampleSvc :=
  @NewService Audit.sample_ed _ _ _ _ _ _
    (@Engine.NewOPAEngine Engine.sample_opa (Engine.sample_bundle "v1" flag))
    (Some Velocity.NewMemoryCounter) (Some cfg)
    (Whitelist.run_ops Whitelist.NewMemoryStore sample_list)
    (Some Review.NewMemoryStore) (Some sample_audit) Metrics.zero.

Definition sample_svc : string -> SampleSvc := sample_with (Caps.DefaultConfig no_env).

Definition sample_req (amount : string) : Request :=
  {| UserID := "usr_1"; Amount := amount; Currency := "USD"; Asset := "USDC"; Rail := "ach";
     DestAddress := "0xabc"; DestChain := "ethereum"; KYTVerdict := "clean";
     FraudScore := lit 1 (-1); KYCStatus := "verified"; UserTier := "tier_1"; Session2FA := false;
     FXRateToUSD := f0; SessionValid := true |}.

Definition sample_oracle (t : time) (id : string) : Oracle :=
  {| env := no_env; inc_now := t; roll_now := t; new_id := id; emit_now := t; park_now := t;
     elapsed := 1000 |}.

(** The decision path of that service. *)
Abbreviation SampleEvaluate := (@Evaluate Audit.sample_fmt Audit.sample_ed _ _ _ _ _ _ _ _ _ _ _).

(** ** Properties *)

Section Properties.
Context `{Fmt} `{Audit.Ed25519}
  {E C WS RS AS K : Type}
  `{Engine.Engine E} `{Velocity.Counter C} `{Whitelist.Store WS} `{Review.Store RS}
  `{Audit.Store AS} `{Audit.Sink K}.

(** C1. A valid request is always answered, and it is allowed exactly when every
    check lets it through: the session is valid, the second factor was passed if
    the amount and rail ask for one, the destination is whitelisted, the daily
    counter is not above its limit, the amount is neither above nor near the
    transaction cap, and the policy engine answers allow.  An engine error, a
    failed check or a missing flag never ends in an allow. *)
Theorem allow_exactly_when_all_clear (s : Service E C WS RS AS K) o req cfg :
  validate req = None -> caps s = Some cfg ->
  exists s' resp err, Evaluate s o req = (s', Returned resp err) /\
    (Decision resp = "allow" <->
     session_ok s req = true /\ (needs_2fa cfg req = true -> Session2FA req = true) /\
     dest_listed s req = true /\ over_velocity s o cfg req = false /\
     Caps.severity (cap_result cfg req) = 0 /\
     exists r, engine_result s cfg req = inr r /\ Engine.Decision r = "allow").
Proof.
  intros Hv Hc. destruct (evaluate_returns s o req cfg Hv Hc) as (s' & resp & err & He).
  exists s', resp, err. split; [done|]. by eapply allow_iff.
Qed.

(** C2. The checks have a fixed priority: the decision and the last reason are
    those of the first row of the table that applies (session, second factor,
    destination, velocity, cap, near cap, engine error), and the engine's when
    none does; the reasons before it name the checks passed on the way.  The
    response carries the fresh id and the engine's version. *)
Theorem decision_follows_priority (s : Service E C WS RS AS K) o req cfg :
  validate req = None -> caps s = Some cfg ->
  exists s' resp err, Evaluate s o req = (s', Returned resp err) /\
    DecisionID resp = new_id o /\ PolicyVersion resp = Engine.eng_Version (engine s) /\
    match first_row (priority s o cfg req) with
    | Some (d, reason) =>
        Decision resp = d /\ elems (Reasons resp) = passed_reasons s o cfg req ++ [reason]
    | None => exists r, engine_result s cfg req = inr r /\ Decision resp = Engine.Decision r /\
                elems (Reasons resp) = passed_reasons s o cfg req
    end.
Proof. apply evaluate_priority. Qed.

(** C3. With the in-memory counter the daily limit holds for every user over any
    sequence of calls of all users made within one window: no more than the
    configured number of one user's requests are allowed, however the calls of
    other users, denied requests and failed ones are mixed in between. *)
Theorem daily_limit (s : Service E Velocity.MemoryCounter WS RS AS K) cs cfg c u w t0 :
  let cap := f64_to_int64 (Caps.DefaultDailyCapUSD cfg) in
  caps s = Some cfg -> velocity s = Some c -> 0 <= cap < 2^63 - 1 ->
  Velocity.bounded_by (2^63 - 2) c ->
  Forall (fun call => in_window w t0 (fst call)) cs ->
  Z.of_nat (length (List.filter (allowed u) (zip cs (snd (run_evals s cs))))) <= cap.
Proof.
  intros cap Hc Hv Hcap Hb Hall. apply (limit_run cs s cfg u w t0 0); [done|lia|done|].
  split; [lia|]. exists c. split; [done|]. unfold entry_inv.
  destruct (Velocity.mem c !! Velocity.key u w) as [e|] eqn:He; [|done].
  specialize (Hb _ _ He). simpl in Hb. lia.
Qed.


(** C7. Under the seed rules an allowed amount of a known tier is below nine
    tenths of that tier's transaction cap, on every rail, for every asset and
    currency and under every environment (unless it is not a number). *)
Theorem allowed_below_tier_cap (s : Service E C WS RS AS K) o req env tier usd s' resp err :
  validate req = None -> caps s = Some (Caps.DefaultConfig env) ->
  (tier, usd) ∈ Caps.seed_tx_caps -> tier_of req = tier -> is_nan (amount_usd req) = false ->
  Evaluate s o req = (s', Returned resp err) -> Decision resp = "allow" ->
  flt (amount_usd req) (fmul (lit usd 0) (lit 9 (-1))) = true.
Proof.
  intros Hv Hc Hin Ht Hn He Ha.
  apply (allow_iff s o req _ s' resp err Hv Hc He) in Ha as (_ & _ & _ & _ & Hs & _).
  unfold cap_result in Hs. rewrite Ht in Hs. by eapply Caps.seed_severity_0.
Qed.

(** With synchronous persistence into the in-memory store a decision is on the audit trail before it
    is answered: when the call returns without an error, the audit store holds a
    record under the response's id with the response's decision, reasons, rules,
    score and policy version and the hash of the request, and its signature
    verifies.  A full publishing queue does not weaken this. *)
Theorem audited_before_answer (Hed : Audit.Ed25519Ok)
    (s : Service E C WS RS Audit.MemoryStore K) o req s' resp a st :
  audit s = Some a -> Audit.signer_ok (Audit.signer a) -> Audit.syncPersist a = true ->
  Audit.store a = Some st -> Evaluate s o req = (s', Returned resp None) ->
  exists a' st' rec, audit s' = Some a' /\ Audit.store a' = Some st' /\
    Audit.mem st' !! DecisionID resp = Some rec /\ Audit.Verify (Audit.signer a') rec = None /\
    Audit.DecisionID rec = DecisionID resp /\ Audit.Decision rec = Decision resp /\
    Audit.Reasons rec = Reasons resp /\ Audit.Score rec = Score resp /\
    elems (Audit.AppliedRules rec) = ID <$> elems (AppliedRules resp) /\
    Audit.PolicyVersion rec = PolicyVersion resp /\
    Audit.RequestHash_ rec = Audit.RequestHash (toAuditReq req).
Proof.
  intros Ha Hsg Hsy Hst He.
  destruct (validate req) as [ve|] eqn:Hv; [unfold Evaluate in He; rewrite Hv in He; done|].
  destruct (evaluate_end s o req s' resp None Hv He) as (_ & v' & m' & s3 & Hem & ->).
  destruct (emit_stores Hed (set_metrics (set_velocity s v') m') o req resp s3 a st Ha Hsg Hsy Hst Hem)
    as (a' & st' & sig & Ha' & Hst' & Hm & Hver).
  exists a', st', (Audit.with_signature (Audit.stamp (make_record req resp) (emit_now o)) sig).
  assert (elems (Audit.AppliedRules (make_record req resp)) = ID <$> elems (AppliedRules resp)) as Hrules
    by exact (elems_append_all None _).
  revert Hm Hver. unfold Audit.stamp. destruct (is_zero_time _); intros Hm Hver;
    split_and!; try done; by rewrite <- Ha', <- (park_audit s3 o resp).
Qed.

(** C9. The review queue in memory mirrors the answers: a manual_review answer given without
    an error, with a fresh and non-empty id, is in the queue as a pending item,
    and nothing else in the queue changes; every other answer, every error and
    a panic leave the queue as it was.  (On PostgreSQL the insertion can fail, and
    its error is dropped: [Production.answer_is_stored].) *)
Theorem parked_exactly_manual_review (s : Service E C WS Review.MemoryStore AS K) o req s' out r :
  review s = Some r -> Review.ms_inv r -> Evaluate s o req = (s', out) ->
  exists r', review s' = Some r' /\ Review.ms_inv r' /\
    match out with
    | Returned resp None =>
        if (Decision resp == "manual_review") && (new_id o != "") then
          match Review.mem r !! new_id o with
          | Some _ => r' = r
          | None => exists i, Review.mem r' = <[new_id o := i]> (Review.mem r) /\
              Review.DecisionID i = new_id o /\ Review.Status i = Review.StatusPending /\
              Review.CreatedAt i = park_now o
          end
        else r' = r
    | _ => r' = r
    end.
Proof.
  intros Hr Hinv He. destruct (validate req) as [ve|] eqn:Hv.
  { unfold Evaluate in He. rewrite Hv in He. simplify_eq. eauto. }
  destruct out as [resp err|].
  2:{ unfold Evaluate in He. rewrite Hv in He. destruct (route s o req) as [[s1 v]|].
      - by destruct (finalize s1 o req v) as [s2 [? ?]].
      - simplify_eq/=. eauto. }
  destruct (evaluate_end s o req s' resp err Hv He) as (Hid & v' & m' & s3 & Hem & ->).
  apply emit_review in Hem. simpl in Hem. rewrite Hr in Hem. destruct err as [e|]; [simpl; eauto|].
  unfold park. rewrite Hem, Hid. case_bool_decide; simpl; [|eauto].
  unfold Review.Park. case_bool_decide as Hne; simpl; [eauto|].
  match goal with |- context [Review.ms_put r ?i] =>
    pose proof (Review.ms_put_inv r i Hinv) as Hinv'; unfold Review.ms_put in Hinv' |- * end.
  rewrite bool_decide_eq_false_2 in Hinv' |- * by done. simpl in *.
  destruct (Review.mem r !! new_id o); simpl in *; eauto 10.
Qed.

(** C16. The metrics account for every call: over any sequence of fewer than 2^63
    calls of a fresh process, the evaluation counter is the number of valid
    requests, the three decision counters are the numbers of such answers, and
    they add up, whenever the engine decides one of the three ways. *)
Theorem metrics_balance `{!Engine.EngineSpec E} (s : Service E C WS RS AS K) cs cfg :
  caps s = Some cfg -> metrics s = Metrics.zero -> Z.of_nat (length cs) < 2^63 ->
  let '(s', outs) := run_evals s cs in
  let m := metrics s' in
  Metrics.EvaluateTotal m = valid_calls cs /\ Metrics.AllowTotal m = tally "allow" outs /\
  Metrics.DenyTotal m = tally "deny" outs /\
  Metrics.ManualReviewTotal m = tally "manual_review" outs /\
  Metrics.AllowTotal m + Metrics.DenyTotal m + Metrics.ManualReviewTotal m = Metrics.EvaluateTotal m.
Proof.
  intros Hc Hm Hlen. assert (totals (metrics s) = wrapped 0 0 0 0) as Ht by by rewrite Hm.
  pose proof (run_evals_totals cs s cfg 0 0 0 0 Hc Ht) as Hrun.
  destruct (run_evals s cs) as [s' outs]. destruct Hrun as [Htot Hsum]. cbn zeta.
  assert (0 <= valid_calls cs < 2^63) as Hn by apply (conj (Nat2Z.is_nonneg _) (valid_calls_lt cs _ Hlen)).
  pose proof (tally_nonneg "allow" outs). pose proof (tally_nonneg "deny" outs).
  pose proof (tally_nonneg "manual_review" outs).
  unfold totals, wrapped in Htot. injection Htot as -> -> -> ->.
  rewrite !wrap64_id by (unfold int64_range; lia). lia.
Qed.

(** C36. What an error means to the caller: a call with an error either refused an
    invalid request, and then nothing changed and the response is empty, or it
    could not write the audit record, and then the response is complete but the
    decision was not parked.  A call panics exactly on a valid request to a
    service without a caps configuration. *)
Theorem error_paths (s : Service E C WS RS AS K) o req s' out :
  Evaluate s o req = (s', out) ->
  match out with
  | Returned resp (Some err) =>
      (validate req = Some err /\ s' = s /\ resp = zero_response) \/
      (validate req = None /\ is_Some (audit s) /\ (exists e, err = Wrapf "audit emit" e) /\
       DecisionID resp = new_id o /\ review s' = review s)
  | Returned resp None => validate req = None /\ is_Some (caps s)
  | Panicked => validate req = None /\ caps s = None
  end.
Proof.
  intros He. destruct (validate req) as [ve|] eqn:Hv.
  { unfold Evaluate in He. rewrite Hv in He. simplify_eq. auto. }
  destruct out as [resp err|].
  - pose proof (evaluate_end s o req s' resp err Hv He) as (Hid & v' & m' & s3 & Hem & Hs').
    destruct err as [e|].
    + right. destruct (audit s) as [a|] eqn:Ha; [|unfold emit in Hem; simpl in Hem; by rewrite Ha in Hem].
      destruct (emit_audit (set_metrics (set_velocity s v') m') o req resp s3 (Some e) a Ha Hem) as (a' & e' & _ & _ & Herr).
      apply emit_review in Hem. subst s'. split_and!; try done.
      destruct e' as [e'|]; [|done]. destruct (errors_is e' AudErrDropped); simplify_eq. eauto.
    + split; [done|]. destruct (caps s) eqn:Hc; [done|].
      unfold Evaluate, route in He. by rewrite Hv, Hc in He.
  - split; [done|]. destruct (caps s) as [cfg|] eqn:Hc; [|done].
    destruct (evaluate_returns s o req cfg Hv Hc) as (? & ? & ? & He'). congruence.
Qed.

(** The counter fails open: if incrementing reports an error with the value 0,
    as an unreachable counter does, the velocity check is passed and reported as
    passed, and the answer is decided by the later checks alone. *)
Theorem counter_error_fails_open (s : Service E C WS RS AS K) o req cfg c c' e :
  validate req = None -> caps s = Some cfg -> velocity s = Some c ->
  0 <= f64_to_int64 (Caps.DefaultDailyCapUSD cfg) ->
  Velocity.Increment c (inc_now o) (UserID req) (day_window (env o)) = (c', (0, Some e)) ->
  reaches_velocity s cfg req = true ->
  exists s' resp err, Evaluate s o req = (s', Returned resp err) /\
    "velocity_daily_ok" ∈ elems (Reasons resp) /\
    (Decision resp = "allow" <-> Caps.severity (cap_result cfg req) = 0 /\
       exists r, engine_result s cfg req = inr r /\ Engine.Decision r = "allow").
Proof.
  intros Hv Hc Hvel Hcap Hinc Hr.
  assert (over_velocity s o cfg req = false) as Hov.
  { unfold over_velocity, daily_count. rewrite Hvel, Hinc. simpl. apply Z.ltb_ge. lia. }
  destruct (evaluate_priority s o req cfg Hv Hc) as (s' & resp & err & He & _ & _ & Hp).
  exists s', resp, err. split; [done|]. split.
  - assert ("velocity_daily_ok" ∈ passed_reasons s o cfg req) as Hin.
    { unfold passed_reasons. unfold reaches_velocity in Hr. rewrite Hr, Hvel, Hov. set_solver. }
    destruct (first_row _) as [[d reason]|]; [destruct Hp as [_ ->]|destruct Hp as (? & _ & _ & ->)];
      set_solver.
  - rewrite (allow_iff s o req cfg s' resp err Hv Hc He). unfold all_clear, reaches_velocity in *.
    go_bool. destruct (needs_2fa cfg req), (Session2FA req); naive_solver.
Qed.

End Properties.

Lemma allow_exactly_when_all_clear_witness :
  let s := sample_svc "allow" in let req := sample_req "100.00" in
  let o := sample_oracle 10 "dec_1" in let cfg := Caps.DefaultConfig no_env in
  exists s' resp err, SampleEvaluate s o req = (s', Returned resp err) /\
    (Decision resp = "allow" <->
     session_ok s req = true /\ (needs_2fa cfg req = true -> Session2FA req = true) /\
     dest_listed s req = true /\ over_velocity s o cfg req = false /\
     Caps.severity (cap_result cfg req) = 0 /\
     exists r, engine_result s cfg req = inr r /\ Engine.Decision r = "allow").
Proof.
  cbn zeta. apply (@allow_exactly_when_all_clear Audit.sample_fmt Audit.sample_ed);
    vm_compute; reflexivity.
Defined.

Lemma decision_follows_priority_witness :
  let s := sample_svc "allow" in let req := sample_req "950" in
  let o := sample_oracle 10 "dec_1" in let cfg := Caps.DefaultConfig no_env in
  first_row (priority s o cfg req) = Some ("manual_review", "near_cap_tx") /\
  exists s' resp err, SampleEvaluate s o req = (s', Returned resp err) /\
    DecisionID resp = new_id o /\ PolicyVersion resp = Engine.eng_Version (engine s) /\
    match first_row (priority s o cfg req) with
    | Some (d, reason) =>
        Decision resp = d /\ elems (Reasons resp) = passed_reasons s o cfg req ++ [reason]
    | None => exists r, engine_result s cfg req = inr r /\ Decision resp = Engine.Decision r /\
                elems (Reasons resp) = passed_reasons s o cfg req
    end.
Proof.
  cbn zeta. split; [vm_compute; reflexivity|].
  apply (@decision_follows_priority Audit.sample_fmt Audit.sample_ed _ _ _ _ _ _ _ _ _ _ _
    (sample_svc "allow") (sample_oracle 10 "dec_1") (sample_req "950") (Caps.DefaultConfig no_env));
    vm_compute; reflexivity.
Defined.

(** A service with a daily limit of two transactions. *)
Definition sample_cfg2 : Caps.Config :=
  Caps.DefaultConfig (fun k => if k == "DEFAULT_DAILY_CAP_USD" then "2" else "").

Definition sample_calls : list (Oracle * Request) :=
  [ (sample_oracle 10 "dec_1", sample_req "100.00"); (sample_oracle 11 "dec_2", sample_req "5");
    (sample_oracle 12 "dec_3", sample_req "1.5") ].

Lemma daily_limit_witness :
  Z.of_nat (length (List.filter (allowed "usr_1") (zip sample_calls
    (snd (@run_evals Audit.sample_fmt Audit.sample_ed _ _ _ _ _ _ _ _ _ _ _
            (sample_with sample_cfg2 "allow") sample_calls))))) <= 2.
Proof.
  apply (@daily_limit Audit.sample_fmt Audit.sample_ed _ _ _ _ _ _ _ _ _
    (sample_with sample_cfg2 "allow") sample_calls sample_cfg2 Velocity.NewMemoryCounter "usr_1"
    Velocity.WindowDay 10);
    [reflexivity|reflexivity|vm_compute; split; [discriminate|reflexivity]|apply map_Forall_empty|].
  unfold sample_calls, in_window. rewrite !Forall_cons, Forall_nil.
  split_and!; try (vm_compute; reflexivity); try (vm_compute; discriminate); done.
Defined.

(** The run of the sample service allows exactly two of the three requests. *)
Example sample_run :
  (fun out => match out with Returned r _ => Decision r | Panicked => "" end) <$>
    snd (@run_evals Audit.sample_fmt Audit.sample_ed _ _ _ _ _ _ _ _ _ _ _
           (sample_with sample_cfg2 "allow") sample_calls) = ["allow"; "allow"; "deny"].
Proof. vm_compute. reflexivity. Qed.

Definition sample_result (flag amount : string) : SampleSvc * outcome :=
  SampleEvaluate (sample_svc flag) (sample_oracle 10 "dec_1") (sample_req amount).

Definition sample_response : Response :=
  {| Decision := "allow"; Reasons := Some ["whitelisted"; "velocity_daily_ok"];
     AppliedRules := Some [{| ID := "cap.tx.tier_1"; Version := "" |};
                           {| ID := "allow.clean"; Version := "v1" |}];
     PolicyVersion := "v1"; Score := f0; DecisionID := "dec_1" |}.


Lemma allowed_below_tier_cap_witness :
  flt (amount_usd (sample_req "100.00")) (fmul (lit 1000 0) (lit 9 (-1))) = true.
Proof.
  apply (@allowed_below_tier_cap Audit.sample_fmt Audit.sample_ed _ _ _ _ _ _ _ _ _ _ _
    (sample_svc "allow") (sample_oracle 10 "dec_1") (sample_req "100.00") no_env Caps.Tier1 1000
    (fst (sample_result "allow" "100.00")) sample_response None);
    [vm_compute; reflexivity|reflexivity|apply (bool_decide_unpack _); exact I|reflexivity
    |vm_compute; reflexivity|vm_compute; reflexivity|reflexivity].
Defined.

Lemma audited_before_answer_witness :
  exists a' st' rec, audit (fst (sample_result "allow" "100.00")) = Some a' /\
    Audit.store a' = Some st' /\
    Audit.mem st' !! "dec_1" = Some rec /\
    @Audit.Verify Audit.sample_fmt Audit.sample_ed (Audit.signer a') rec = None /\
    Audit.DecisionID rec = "dec_1" /\ Audit.Decision rec = "allow" /\
    Audit.Reasons rec = Reasons sample_response /\ Audit.Score rec = f0 /\
    elems (Audit.AppliedRules rec) = ID <$> elems (AppliedRules sample_response) /\
    Audit.PolicyVersion rec = "v1" /\
    Audit.RequestHash_ rec = @Audit.RequestHash Audit.sample_fmt (toAuditReq (sample_req "100.00")).
Proof.
  apply (@audited_before_answer Audit.sample_fmt Audit.sample_ed _ _ _ _ _ _ _ _ _ _ Audit.sample_ed_ok
    (sample_svc "allow") (sample_oracle 10 "dec_1") (sample_req "100.00")
    (fst (sample_result "allow" "100.00")) sample_response sample_audit Audit.NewMemoryStore);
    [reflexivity..|vm_compute; reflexivity].
Defined.

Lemma parked_exactly_manual_review_witness :
  exists r', review (fst (sample_result "manual_review" "100.00")) = Some r' /\ Review.ms_inv r' /\
    exists i, Review.mem r' = <["dec_1" := i]> ∅ /\
      Review.DecisionID i = "dec_1" /\ Review.Status i = Review.StatusPending /\
      Review.CreatedAt i = 10.
Proof.
  apply (@parked_exactly_manual_review Audit.sample_fmt Audit.sample_ed _ _ _ _ _ _ _ _ _
    (sample_svc "manual_review") (sample_oracle 10 "dec_1") (sample_req "100.00")
    (fst (sample_result "manual_review" "100.00")) 
    (Returned {| Decision := "manual_review"; Reasons := Reasons sample_response;
       AppliedRules := Some [{| ID := "cap.tx.tier_1"; Version := "" |};
         {| ID := "manual_review.fraud_mid"; Version := "v1" |};
         {| ID := "manual_review.near_cap"; Version := "v1" |}];
       PolicyVersion := "v1"; Score := f0; DecisionID := "dec_1" |} None) Review.NewMemoryStore);
    [reflexivity|apply Review.queue_inv_new|vm_compute; reflexivity].
Defined.

Lemma metrics_balance_witness :
  let '(s', outs) := @run_evals Audit.sample_fmt Audit.sample_ed _ _ _ _ _ _ _ _ _ _ _
                       (sample_with sample_cfg2 "allow") sample_calls in
  let m := metrics s' in
  Metrics.EvaluateTotal m = valid_calls sample_calls /\ Metrics.AllowTotal m = tally "allow" outs /\
  Metrics.DenyTotal m = tally "deny" outs /\
  Metrics.ManualReviewTotal m = tally "manual_review" outs /\
  Metrics.AllowTotal m + Metrics.DenyTotal m + Metrics.ManualReviewTotal m = Metrics.EvaluateTotal m.
Proof.
  apply (@metrics_balance Audit.sample_fmt Audit.sample_ed _ _ _ _ _ _ _ _ _ _ _ _
    (sample_with sample_cfg2 "allow") sample_calls sample_cfg2); reflexivity.
Defined.

Lemma error_paths_witness :
  validate (sample_req "ten") = Some (Errorf "amount must be a number") /\
  (validate (sample_req "ten") = Some (Errorf "amount must be a number") /\
     sample_svc "allow" = sample_svc "allow" /\ zero_response = zero_response \/
   validate (sample_req "ten") = None /\ is_Some (audit (sample_svc "allow")) /\
     (exists e, Errorf "amount must be a number" = Wrapf "audit emit" e) /\
     DecisionID zero_response = "dec_1" /\ review (sample_svc "allow") = review (sample_svc "allow")).
Proof.
  split; [reflexivity|].
  apply (@error_paths Audit.sample_fmt Audit.sample_ed _ _ _ _ _ _ _ _ _ _ _
    (sample_svc "allow") (sample_oracle 10 "dec_1") (sample_req "ten") (sample_svc "allow")
    (Returned zero_response (Some (Errorf "amount must be a number")))).
  vm_compute. reflexivity.
Defined.

(** A counter that cannot be reached. *)
Definition broken_counter : Velocity.Counter unit := {|
  Velocity.Increment := fun c _ _ _ => (c, (0, Some (Errorf "redis increment")));
  Velocity.Rollback := fun c _ _ _ => (c, (0, Some (Errorf "redis rollback")));
  Velocity.Get := fun _ _ _ _ => (0, Some (Errorf "redis get")) |}.

Definition broken_svc : @Service Audit.sample_ed (@Engine.OPAEngine Engine.sample_opa) unit
    Whitelist.MemoryStore Review.MemoryStore Audit.MemoryStore Audit.MemorySink :=
  let s := sample_svc "allow" in
  @NewService Audit.sample_ed _ _ _ _ _ _ (engine s) (Some tt) (caps s) (whitelist s) (review s)
    (audit s) (metrics s).

Lemma counter_error_fails_open_witness :
  let req := sample_req "100.00" in let cfg := Caps.DefaultConfig no_env in
  exists s' resp err,
    @Evaluate Audit.sample_fmt Audit.sample_ed _ _ _ _ _ _ _ broken_counter _ _ _ broken_svc
      (sample_oracle 10 "dec_1") req = (s', Returned resp err) /\
    "velocity_daily_ok" ∈ elems (Reasons resp) /\
    (Decision resp = "allow" <-> Caps.severity (cap_result cfg req) = 0 /\
       exists r, engine_result broken_svc cfg req = inr r /\ Engine.Decision r = "allow").
Proof.
  cbn zeta.
  apply (@counter_error_fails_open Audit.sample_fmt Audit.sample_ed _ _ _ _ _ _ _ broken_counter _ _ _
    broken_svc (sample_oracle 10 "dec_1") (sample_req "100.00") (Caps.DefaultConfig no_env) tt tt
    (Errorf "redis increment"));
    [vm_compute; reflexivity|reflexivity|reflexivity|vm_compute; discriminate|reflexivity
    |vm_compute; reflexivity].
Defined.

End EvaluateProps.
