(* ===== verification/Policy.v ===== *)
(** * The shipped policy ([policies/decisions.rego], [policies/caps.yaml])

    The rules of [decisions.rego] as a syntax tree of the fragment of Rego they
    are written in, the semantics of that fragment, and the data document of
    [caps.yaml].  The Open Policy Agent stays the parameter [Engine.OPA]; what is
    assumed of it, where the policy is put behind the engine, is that a compiler
    of this file evaluates its rules as Rego defines them ([runs_decisions]).

    Undefined values: a reference to a missing field is undefined, an expression
    on an undefined operand fails, a rule body holds when all its expressions do,
    and a rule with several bodies holds when one of them does; the rules have
    the default false.

    Numbers are compared as float64: OPA compares the shortest decimal texts of
    the numbers it is given, which are ordered as the numbers are, and the
    literals of the file are shortest texts.  The risk score of the file, which no
    decision depends on, is in [RiskScore]. *)
From Stdlib Require Import ZArith Lia Ascii String SpecFloat.
From stdpp Require Import base gmap strings list.
From S2P Require Import Prelude GoLib Float64 Sha256 Json Engine.
From S2P Require Import Caps Velocity Whitelist Review AuditLog Metrics Evaluate EvaluateProps.

Open Scope Z_scope.
Open Scope go_scope.

Module Policy.
Import Json Engine.

(** ** Rego *)

Inductive term :=
| InputRef (field : string)
| DataRef (path : list string)
| Num (x : float64)
| Str (s : string)
| Bool (b : bool)
| Times (a b : term).

Inductive op := OEq | ONe | OLt | OLe | OGt | OGe.

Inductive expr :=
| Cmp (o : op) (a b : term)
| Holds (t : term)
| Not (t : term).

(** A rule: its name and its bodies. *)
Abbreviation module := (list (string * list (list expr))).

(** ** Values *)

(** The numbers among the values. *)
Definition number (v : any) : option float64 :=
  match v with
  | AFloat x => Some x
  | AInt n => Some (f64_of_Z n)
  | ANumber t => Some (fst (ParseFloat t))
  | _ => None
  end.

(** The order of Rego: null, booleans, numbers, strings, arrays, objects. *)
Definition rank (v : any) : Z :=
  match v with
  | ANil => 0 | ABool _ => 1 | AFloat _ | AInt _ | ANumber _ => 2 | AString _ => 3 | AArray _ => 4 | AObject _ => 5
  end.

Definition compare_bool (a b : bool) : comparison :=
  match a, b with false, true => Lt | true, false => Gt | _, _ => Eq end.

(** The numbers OPA works on are finite: two of them always compare. *)
Definition compare_float (x y : float64) : comparison := default Eq (SFcompare x y).

(** Objects are compared with their members in the order of the keys. *)
Fixpoint canon (v : any) : any :=
  match v with
  | AArray l => AArray (map canon l)
  | AObject kvs => AObject (sort_keys (map (fun kv => match kv with (k, x) => (k, canon x) end) kvs))
  | _ => v
  end.

Fixpoint compare_canon (a b : any) : comparison :=
  match a, b with
  | ABool x, ABool y => compare_bool x y
  | AString x, AString y => String.compare x y
  | AArray l, AArray m =>
      (fix go (l m : list any) : comparison :=
        match l, m with
        | [], [] => Eq
        | [], _ => Lt
        | _, [] => Gt
        | x :: l', y :: m' => match compare_canon x y with Eq => go l' m' | c => c end
        end) l m
  | AObject l, AObject m =>
      (fix go (l m : list (string * any)) : comparison :=
        match l, m with
        | [], [] => Eq
        | [], _ => Lt
        | _, [] => Gt
        | (k, x) :: l', (k', y) :: m' =>
            match String.compare k k' with
            | Eq => match compare_canon x y with Eq => go l' m' | c => c end
            | c => c
            end
        end) l m
  | _, _ =>
      match number a, number b with
      | Some x, Some y => compare_float x y
      | _, _ => rank a ?= rank b
      end
  end.

Definition compare_any (a b : any) : comparison := compare_canon (canon a) (canon b).

Definition holds (o : op) (c : comparison) : bool :=
  match o, c with
  | OEq, Eq | OLe, Eq | OGe, Eq | OLt, Lt | OLe, Lt | ONe, Lt | OGt, Gt | OGe, Gt | ONe, Gt => true
  | _, _ => false
  end.

(** ** Evaluation *)

Fixpoint lookup_path (v : any) (path : list string) : option any :=
  match path with
  | [] => Some v
  | k :: path' =>
      match v with
      | AObject kvs => match find (fun kv => fst kv == k) kvs with
                       | Some (_, x) => lookup_path x path'
                       | None => None
                       end
      | _ => None
      end
  end.

Definition lookup_data (data : gmap string any) (path : list string) : option any :=
  match path with
  | [] => None
  | k :: path' => match data !! k with Some v => lookup_path v path' | None => None end
  end.

Fixpoint eval_term (data input : gmap string any) (t : term) : option any :=
  match t with
  | InputRef f => input !! f
  | DataRef path => lookup_data data path
  | Num x => Some (AFloat x)
  | Str s => Some (AString s)
  | Bool b => Some (ABool b)
  | Times a b =>
      match eval_term data input a, eval_term data input b with
      | Some v, Some w => match number v, number w with
                          | Some x, Some y => Some (AFloat (fmul x y))
                          | _, _ => None
                          end
      | _, _ => None
      end
  end.

(** A value other than false holds. *)
Definition term_holds (v : option any) : bool :=
  match v with Some (ABool b) => b | Some _ => true | None => false end.

Definition eval_expr (data input : gmap string any) (e : expr) : bool :=
  match e with
  | Cmp o a b =>
      match eval_term data input a, eval_term data input b with
      | Some v, Some w => holds o (compare_any v w)
      | _, _ => false
      end
  | Holds t => term_holds (eval_term data input t)
  | Not t => negb (term_holds (eval_term data input t))
  end.

Definition eval_rule (m : module) (data input : gmap string any) (name : string) : bool :=
  existsb (fun r => (fst r == name) && existsb (forallb (eval_expr data input)) (snd r)) m.

(** ** decisions.rego *)

Definition tx_max : term := DataRef ["caps"; "tx"; "max_usd"].
Definition daily_max : term := DataRef ["caps"; "daily"; "max_usd"].

(** What both bodies of [allow] ask for. *)
Definition clean : list expr :=
  [ Cmp OLe (InputRef "amount_usd") tx_max;
    Cmp OEq (InputRef "kyt_verdict") (Str "clean");
    Cmp OLt (InputRef "fraud_score") (Num (lit 5 (-1)));
    Cmp OEq (InputRef "kyc_status") (Str "verified");
    Cmp OEq (InputRef "whitelisted") (Bool true) ].

Definition allow_rule : string * list (list expr) :=
  ("allow",
   [ clean ++ [ Not (InputRef "requires_2fa") ];
     clean ++ [ Holds (InputRef "requires_2fa"); Cmp OEq (InputRef "session_2fa_passed") (Bool true) ] ]).

Definition manual_review_rule : string * list (list expr) :=
  ("manual_review",
   [ [ Cmp OGe (InputRef "fraud_score") (Num (lit 5 (-1))); Cmp OLt (InputRef "fraud_score") (Num (lit 8 (-1))) ];
     [ Cmp OGe (InputRef "amount_usd") (Times daily_max (Num (lit 9 (-1))));
       Cmp OLe (InputRef "amount_usd") daily_max ] ]).

Definition deny_rule : string * list (list expr) :=
  ("deny",
   [ [ Cmp OGe (InputRef "fraud_score") (Num (lit 8 (-1))) ];
     [ Cmp OEq (InputRef "kyt_verdict") (Str "sanctioned") ];
     [ Cmp OGt (InputRef "amount_usd") daily_max ];
     [ Cmp ONe (InputRef "whitelisted") (Bool true) ];
     [ Holds (InputRef "requires_2fa"); Not (InputRef "session_2fa_passed") ];
     [ Cmp ONe (InputRef "kyc_status") (Str "verified") ] ]).

Definition decisions_rego : module := [ allow_rule; manual_review_rule; deny_rule ].

(** ** caps.yaml *)

Definition obj_of_ints (l : list (string * Z)) : any := AObject ((fun kv => (fst kv, AInt (snd kv))) <$> l).

Definition caps_yaml : any :=
  AObject
    [ ("caps", AObject
        [ ("tx", obj_of_ints [("max_usd", 2500)]);
          ("daily", obj_of_ints [("max_usd", 10000)]);
          ("tiers", AObject
             [ ("tier_1", obj_of_ints [("daily", 2500); ("tx", 1000)]);
               ("tier_2", obj_of_ints [("daily", 25000); ("tx", 5000)]);
               ("tier_3", obj_of_ints [("daily", 100000); ("tx", 25000)]);
               ("institutional", obj_of_ints [("daily", 1000000); ("tx", 250000)]) ]);
          ("rails", AObject
             [ ("card", obj_of_ints [("high_value_2fa_threshold", 1000)]);
               ("ach", obj_of_ints [("max_usd", 25000)]);
               ("sepa", obj_of_ints [("max_usd", 50000)]);
               ("pix", obj_of_ints [("max_usd", 10000)]);
               ("upi", obj_of_ints [("max_usd", 5000)]) ]) ]) ].

(** The files of the directory, as the walk of [LoadBundleFromDir] sees them. *)
Definition policy_files (rego_text : string) : list file :=
  [ YamlFile "caps.yaml" (inr caps_yaml); RegoFile "decisions.rego" rego_text ].

(** The data document they give. *)
Definition caps_data : gmap string any := match caps_yaml with AObject kvs => list_to_map kvs | _ => ∅ end.
(** What is assumed of a compiler made from the file: on an input of strings,
    booleans and finite numbers, as the engine builds it, each of the three
    queries gives the value of its rule. *)
Definition scalar (v : any) : Prop :=
  match v with AString _ | ABool _ => True | AFloat x => is_finite x = true | _ => False end.

Definition runs_decisions `{OPA} (c : Compiler) : Prop :=
  forall input rule, rule ∈ ["allow"; "manual_review"; "deny"] -> map_Forall (fun _ => scalar) input ->
    RegoEval c (NewFromObject caps_data) input ("data.policy.decisions." +:+ rule)
    = inr [[ABool (eval_rule decisions_rego caps_data input rule)]].

(** ** What the rules say of an engine's input *)

Definition usd (n : Z) : float64 := f64_of_Z n.

(** The decision as a table: deny, then review, then allow, and review again for
    what no rule covers. *)
Definition reference (amount : float64) (kyt : string) (fraud : float64) (kyc : string)
  (whitelisted requires2FA passed2FA : bool) : string :=
  if fge fraud (lit 8 (-1)) || (kyt == "sanctioned") || fgt amount (usd 10000) || negb whitelisted
     || (requires2FA && negb passed2FA) || (kyc != "verified") then "deny"
  else if fge fraud (lit 5 (-1)) || fge amount (usd 9000) then "manual_review"
  else if fle amount (usd 2500) && (kyt == "clean") then "allow"
  else "manual_review".

Lemma compare_floats x y :
  is_finite x = true -> is_finite y = true ->
  holds OLe (compare_float x y) = fle x y /\ holds OLt (compare_float x y) = flt x y /\
  holds OGe (compare_float x y) = fge x y /\ holds OGt (compare_float x y) = fgt x y.
Proof.
  intros Hx Hy. assert (is_nan x = false /\ is_nan y = false) as [Nx Ny] by (by destruct x, y).
  pose proof (SFcompare_key x y Nx Ny) as Hk. unfold compare_float.
  destruct (SFcompare x y) as [[]|] eqn:Hc; cbn [default holds]; [| | |done].
  all: split_and!; symmetry; first [by unfold fle, SFleb, flt, SFltb; rewrite Hc|
    destruct (fkey x) as [[??]?] eqn:Ex, (fkey y) as [[??]?] eqn:Ey; simplify_eq; clear Hc;
    unfold fge, fgt; first [apply fle_key|apply flt_key|apply not_true_iff_false; rewrite fle_key|
      apply not_true_iff_false; rewrite flt_key]; rewrite Ex, Ey; unfold lex_lt in *; intuition lia].
Qed.

Lemma fge_negb x y : is_nan x = false -> is_nan y = false -> fge x y = negb (flt x y).
Proof. intros Hx Hy. destruct (flt x y) eqn:E; cbn [negb]; forder. Qed.

Lemma fgt_negb x y : is_nan x = false -> is_nan y = false -> fgt x y = negb (fle x y).
Proof. intros Hx Hy. destruct (fle x y) eqn:E; cbn [negb]; forder. Qed.

Lemma string_compare_refl s : String.compare s s = Eq.
Proof. induction s as [|c s IH]; [done|]. simpl. unfold Ascii.compare. by rewrite N.compare_refl. Qed.

Lemma compare_strings s t :
  holds OEq (compare_any (AString s) (AString t)) = (s == t) /\
  holds ONe (compare_any (AString s) (AString t)) = (s != t).
Proof.
  change (compare_any (AString s) (AString t)) with (String.compare s t).
  destruct (decide (s = t)) as [->|Hne].
  - rewrite string_compare_refl. by rewrite bool_decide_eq_true_2.
  - rewrite bool_decide_eq_false_2 by done. pose proof (String.compare_eq_iff s t) as Hc.
    destruct (String.compare s t); [by destruct Hne; apply Hc|done|done].
Qed.

Lemma compare_bools a b :
  holds OEq (compare_any (ABool a) (ABool b)) = Bool.eqb a b /\
  holds ONe (compare_any (ABool a) (ABool b)) = negb (Bool.eqb a b).
Proof. by destruct a, b. Qed.

Section Input.
Context (req : Evaluate.Request) (amount : float64) (wl r2 : bool).
Context (Hamount : is_finite amount = true) (Hfraud : is_finite (Evaluate.FraudScore req) = true).

Abbreviation input := (Evaluate.engine_input req amount wl r2).

Lemma input_scalar : map_Forall (fun _ => scalar) input.
Proof. unfold Evaluate.engine_input. cbn [list_to_map foldr fst snd curry uncurry].
  repeat (apply map_Forall_insert_2; [done|]). apply map_Forall_empty.
Qed.

Abbreviation rule := (eval_rule decisions_rego caps_data input).
Abbreviation fraud := (Evaluate.FraudScore req).
Abbreviation kyt := (Evaluate.KYTVerdict req).
Abbreviation kyc := (Evaluate.KYCStatus req).
Abbreviation s2 := (Evaluate.Session2FA req).

Lemma deny_value :
  rule "deny" = fge fraud (lit 8 (-1)) || (kyt == "sanctioned") || fgt amount (usd 10000) || negb wl
                || (r2 && negb s2) || (kyc != "verified").
Proof.
  destruct (compare_floats fraud (lit 8 (-1)) Hfraud eq_refl) as (_ & _ & Hf & _).
  destruct (compare_floats amount (usd 10000) Hamount eq_refl) as (_ & _ & _ & Ha).
  destruct (compare_strings kyt "sanctioned") as [Hk _]. destruct (compare_strings kyc "verified") as [_ Hc].
  destruct (compare_bools wl true) as [_ Hw].
  change (rule "deny") with
    ((holds OGe (compare_float fraud (lit 8 (-1))) && true) ||
     ((holds OEq (compare_any (AString kyt) (AString "sanctioned")) && true) ||
      ((holds OGt (compare_float amount (usd 10000)) && true) ||
       ((holds ONe (compare_any (ABool wl) (ABool true)) && true) ||
        ((r2 && (negb s2 && true)) ||
         ((holds ONe (compare_any (AString kyc) (AString "verified")) && true) || false))))) || false).
  rewrite Hf, Ha, Hk, Hc, Hw. by destruct wl, r2, s2, (fge _ _), (kyt == _), (fgt _ _), (kyc == _).
Qed.

Lemma review_value :
  rule "manual_review" = (fge fraud (lit 5 (-1)) && flt fraud (lit 8 (-1))) ||
                         (fge amount (usd 9000) && fle amount (usd 10000)).
Proof.
  destruct (compare_floats fraud (lit 5 (-1)) Hfraud eq_refl) as (_ & _ & Hf5 & _).
  destruct (compare_floats fraud (lit 8 (-1)) Hfraud eq_refl) as (_ & Hf8 & _).
  destruct (compare_floats amount (usd 9000) Hamount eq_refl) as (_ & _ & Ha9 & _).
  destruct (compare_floats amount (usd 10000) Hamount eq_refl) as (Ha & _).
  change (rule "manual_review") with
    ((holds OGe (compare_float fraud (lit 5 (-1))) && (holds OLt (compare_float fraud (lit 8 (-1))) && true)) ||
     ((holds OGe (compare_float amount (usd 9000)) && (holds OLe (compare_float amount (usd 10000)) && true))
      || false) || false).
  rewrite Hf5, Hf8, Ha9, Ha. by rewrite !andb_true_r, !orb_false_r.
Qed.

Lemma allow_value :
  rule "allow" = fle amount (usd 2500) && (kyt == "clean") && flt fraud (lit 5 (-1)) && (kyc == "verified")
                 && wl && (negb r2 || s2).
Proof.
  destruct (compare_floats fraud (lit 5 (-1)) Hfraud eq_refl) as (_ & Hf & _).
  destruct (compare_floats amount (usd 2500) Hamount eq_refl) as (Ha & _).
  destruct (compare_strings kyt "clean") as [Hk _]. destruct (compare_strings kyc "verified") as [Hc _].
  destruct (compare_bools wl true) as [Hw _]. destruct (compare_bools s2 true) as [Hs _].
  pose (common rest := (holds OLe (compare_float amount (usd 2500)) &&
    (holds OEq (compare_any (AString kyt) (AString "clean")) &&
     (holds OLt (compare_float fraud (lit 5 (-1))) &&
      (holds OEq (compare_any (AString kyc) (AString "verified")) &&
       (holds OEq (compare_any (ABool wl) (ABool true)) && rest))))) : bool).
  change (rule "allow") with
    (common (negb r2 && true) ||
     (common (r2 && (holds OEq (compare_any (ABool s2) (ABool true)) && true)) || false) || false).
  unfold common. rewrite Ha, Hk, Hf, Hc, Hw, Hs.
  by destruct wl, r2, s2, (fle _ _), (flt _ _), (kyt == _), (kyc == _).
Qed.

(** The three rules and the precedence of the engine together are the table. *)
Lemma decision_value score rules :
  Decision (decide_ (rule "allow") (rule "manual_review") (rule "deny") score rules)
  = reference amount kyt fraud kyc wl r2 s2.
Proof.
  rewrite deny_value, review_value, allow_value. unfold reference, decide_. cbn [Decision].
  assert (is_nan amount = false /\ is_nan fraud = false) as [Na Nf] by (by destruct amount, fraud).
  rewrite (fge_negb fraud (lit 8 (-1))), (fge_negb fraud (lit 5 (-1))), (fgt_negb amount) by done.
  destruct wl, r2, s2, (flt fraud (lit 8 (-1))), (fle amount (usd 10000)), (kyt == "sanctioned"),
    (kyc == "verified"), (flt fraud (lit 5 (-1))), (fge amount (usd 9000)), (fle amount (usd 2500)),
    (kyt == "clean"); reflexivity.
Qed.

End Input.
(** ** Behind the engine *)

Lemma load_policy `{Fmt} text b :
  LoadBundleFromDir (policy_files text) = inr b -> Source b = {["decisions.rego" := text]} /\ Data b = caps_data.
Proof.
  unfold LoadBundleFromDir, policy_files. cbn [load_files load_file caps_yaml].
  case_bool_decide as Hne; [done|]. intros [= <-]. split; [done|].
  cbn [snd Data]. unfold mergeData, caps_data. by rewrite (right_id_L ∅ (∪)).
Qed.

Section Engine.
Context `{Fmt} `{OPA}.
Context (text : string) (b : Bundle) (c : Compiler).
Context (Hload : LoadBundleFromDir (policy_files text) = inr b)
  (Hcomp : compileModules (Source b) = inr c) (Hruns : runs_decisions c).

Lemma engine_decides req amount wl r2 :
  is_finite amount = true -> is_finite (Evaluate.FraudScore req) = true ->
  exists r, Engine.Evaluate (NewOPAEngine b) (Evaluate.engine_input req amount wl r2) = inr r /\
    Decision r = reference amount (Evaluate.KYTVerdict req) (Evaluate.FraudScore req)
                   (Evaluate.KYCStatus req) wl r2 (Evaluate.Session2FA req).
Proof.
  intros Ha Hf. destruct (load_policy text b Hload) as [_ Hd].
  unfold Engine.Evaluate, policy_of, NewOPAEngine, rebuild. cbn [bundle compiled]. rewrite Hcomp. cbn [compiled].
  unfold normalizeData. rewrite Hd. cbn [fst snd].
  assert (forall rule, rule ∈ ["allow"; "manual_review"; "deny"] ->
    evalBool c (NewFromObject caps_data) (Evaluate.engine_input req amount wl r2) ("data.policy.decisions." +:+ rule)
    = inr (eval_rule decisions_rego caps_data (Evaluate.engine_input req amount wl r2) rule)) as Hrule.
  { intros rule Hin. unfold evalBool. rewrite Hruns; [done|done|by apply input_scalar]. }
  pose proof (Hrule "allow" ltac:(apply (bool_decide_unpack _); by vm_compute)) as Hal. pose proof (Hrule "manual_review" ltac:(apply (bool_decide_unpack _); by vm_compute)) as Hmr.
  pose proof (Hrule "deny" ltac:(apply (bool_decide_unpack _); by vm_compute)) as Hde. cbv [append] in Hal, Hmr, Hde.
  unfold evaluate_with. rewrite Hal, Hmr, Hde. cbn [wrap_err]. eexists. split; [reflexivity|]. by apply decision_value.
Qed.

End Engine.

(** The table says allow exactly under the conditions of the rule. *)
Lemma reference_allow amount kyt fraud kyc wl r2 s2 :
  is_finite amount = true -> is_finite fraud = true ->
  reference amount kyt fraud kyc wl r2 s2 = "allow" <->
  fle amount (usd 2500) = true /\ kyt = "clean" /\ flt fraud (lit 5 (-1)) = true /\ kyc = "verified" /\
  wl = true /\ (r2 = true -> s2 = true).
Proof.
  intros Ha Hf. assert (is_nan amount = false /\ is_nan fraud = false) as [Na Nf] by (by destruct amount, fraud).
  unfold reference. rewrite (fge_negb fraud (lit 8 (-1))), (fge_negb fraud (lit 5 (-1))),
    (fge_negb amount (usd 9000)), (fgt_negb amount (usd 10000)) by (done || by vm_compute). split.
  - repeat match goal with |- (if ?b then _ else _) = _ -> _ => destruct b eqn:?; try done end. intros _. go_bool.
    repeat match goal with H : (_ || _)%bool = false |- _ => apply orb_false_iff in H as [? ?] end. go_bool.
    split_and!; try done. destruct r2, s2; done.
  - intros (H1 & -> & H2 & -> & -> & H3).
    assert (flt fraud (lit 8 (-1)) = true) as H8 by (apply (flt_fle_trans _ (lit 5 (-1))); [done|by vm_compute]).
    assert (fle amount (usd 10000) = true) as H4 by (apply (fle_trans _ (usd 2500)); [done|by vm_compute]).
    assert (flt amount (usd 9000) = true) as H9 by (apply (fle_flt_trans _ (usd 2500)); [done|by vm_compute]).
    rewrite H1, H2, H8, H4, H9.
    destruct r2, s2; try reflexivity. by specialize (H3 eq_refl).
Qed.

(** ** Properties *)

(** C23. The shipped policy, loaded from its directory and put behind the engine,
    decides every request by one table: deny for a fraud score of at least 0.8,
    a sanctioned verdict, an amount above 10000, a destination that is not
    whitelisted, a missing second factor or an unverified customer; else review
    for a score of at least 0.5 or an amount of at least 9000; else allow for an
    amount of at most 2500 with a clean verdict; and review for the rest. *)
Theorem shipped_policy_table `{Fmt} `{OPA} text b c req amount wl r2 :
  LoadBundleFromDir (policy_files text) = inr b -> compileModules (Source b) = inr c -> runs_decisions c ->
  is_finite amount = true -> is_finite (Evaluate.FraudScore req) = true ->
  exists r, Engine.Evaluate (NewOPAEngine b) (Evaluate.engine_input req amount wl r2) = inr r /\
    Decision r = reference amount (Evaluate.KYTVerdict req) (Evaluate.FraudScore req)
                   (Evaluate.KYCStatus req) wl r2 (Evaluate.Session2FA req).
Proof. intros. by eapply engine_decides. Qed.

(** C18. With the shipped policy the whole service allows a request exactly when
    the session is valid, the second factor was passed if it is asked for, the
    destination is whitelisted, the daily counter is not above its limit, the
    amount is neither above nor near the cap of its tier and at most 2500 USD,
    the verdict is clean, the fraud score below 0.5 and the customer verified. *)
Theorem shipped_policy_allows `{Fmt} `{Audit.Ed25519} `{OPA} {C WS RS AS K : Type}
  `{Velocity.Counter C} `{Whitelist.Store WS} `{Review.Store RS} `{Audit.Store AS} `{Audit.Sink K}
  (s : Evaluate.Service OPAEngine C WS RS AS K) o req cfg text b c :
  LoadBundleFromDir (policy_files text) = inr b -> compileModules (Source b) = inr c -> runs_decisions c ->
  Evaluate.engine s = NewOPAEngine b -> Evaluate.caps s = Some cfg -> Evaluate.validate req = None ->
  is_finite (Evaluate.amount_usd req) = true -> is_finite (Evaluate.FraudScore req) = true ->
  exists s' resp err, Evaluate.Evaluate s o req = (s', Evaluate.Returned resp err) /\
    (Evaluate.Decision resp = "allow" <->
     EvaluateProps.session_ok s req = true /\
     (EvaluateProps.needs_2fa cfg req = true -> Evaluate.Session2FA req = true) /\
     EvaluateProps.dest_listed s req = true /\ EvaluateProps.over_velocity s o cfg req = false /\
     Caps.severity (EvaluateProps.cap_result cfg req) = 0 /\
     fle (Evaluate.amount_usd req) (usd 2500) = true /\ Evaluate.KYTVerdict req = "clean" /\
     flt (Evaluate.FraudScore req) (lit 5 (-1)) = true /\ Evaluate.KYCStatus req = "verified").
Proof.
  intros Hload Hcomp Hruns He Hc Hv Ha Hf.
  destruct (EvaluateProps.evaluate_returns s o req cfg Hv Hc) as (s' & resp & err & Hev).
  exists s', resp, err. split; [done|]. rewrite (EvaluateProps.allow_iff s o req cfg s' resp err) by done.
  unfold EvaluateProps.all_clear, EvaluateProps.engine_result. rewrite He.
  destruct (engine_decides text b c Hload Hcomp Hruns req (Evaluate.amount_usd req) true
    (EvaluateProps.needs_2fa cfg req) Ha Hf) as (r & Hr & Hd).
  cbn [eng_Evaluate OPAEngine_Engine]. rewrite Hr.
  pose proof (reference_allow (Evaluate.amount_usd req) (Evaluate.KYTVerdict req) (Evaluate.FraudScore req)
    (Evaluate.KYCStatus req) true (EvaluateProps.needs_2fa cfg req) (Evaluate.Session2FA req) Ha Hf) as Href.
  rewrite <- Hd in Href. split.
  - intros (? & ? & ? & ? & ? & r' & [= <-] & Hr'). apply Href in Hr' as (? & ? & ? & ? & _). done.
  - intros (? & ? & ? & ? & ? & ? & ? & ? & ?). split_and!; try done. exists r. split; [done|].
    apply Href. done.
Qed.





(** ** Witnesses *)

(** An evaluator of Rego restricted to this policy. *)
Definition rego_opa : OPA := {|
  Module_ := module; Compiler := module; DataStore := gmap string any;
  ParseModule := fun _ _ => inr decisions_rego;
  Compile := fun ms => inr (default [] (ms !! "decisions.rego"));
  NewFromObject := fun d => d;
  RegoEval := fun c d input query =>
    inr [[ABool (eval_rule c d input (TrimPrefix query "data.policy.decisions."))]] |}.

Lemma rego_opa_runs : @runs_decisions rego_opa decisions_rego.
Proof. intros input rule Hin _. set_unfold in Hin. destruct_or!; subst; reflexivity. Qed.

Definition sample_bundle : Bundle :=
  match @LoadBundleFromDir Audit.sample_fmt (policy_files "rego") with
  | inr b => b
  | inl _ => {| Version := ""; Hash := ""; Source := ∅; Data := ∅ |}
  end.

Lemma shipped_policy_table_witness :
  exists r, @Engine.Evaluate rego_opa (@NewOPAEngine rego_opa sample_bundle)
      (Evaluate.engine_input (EvaluateProps.sample_req "100.00") (lit 3000 0) true false) = inr r /\
    Decision r = "manual_review".
Proof.
  apply (@shipped_policy_table Audit.sample_fmt rego_opa "rego" sample_bundle decisions_rego
    (EvaluateProps.sample_req "100.00") (lit 3000 0) true false);
    [vm_compute; reflexivity|reflexivity|apply rego_opa_runs|reflexivity|reflexivity].
Defined.

(** A service with the shipped policy. *)
Definition sample_service : @Evaluate.Service Audit.sample_ed (@OPAEngine rego_opa) Velocity.MemoryCounter
    Whitelist.MemoryStore Review.MemoryStore Audit.MemoryStore Audit.MemorySink :=
  Evaluate.NewService (@NewOPAEngine rego_opa sample_bundle)
    (Some Velocity.NewMemoryCounter) (Some (Caps.DefaultConfig EvaluateProps.no_env))
    (Whitelist.run_ops Whitelist.NewMemoryStore EvaluateProps.sample_list)
    (Some Review.NewMemoryStore) (Some EvaluateProps.sample_audit) Metrics.zero.

Lemma shipped_policy_allows_witness :
  let s := sample_service in let o := EvaluateProps.sample_oracle 10 "dec_1" in
  let req := EvaluateProps.sample_req "100.00" in let cfg := Caps.DefaultConfig EvaluateProps.no_env in
  exists s' resp err, @Evaluate.Evaluate Audit.sample_fmt Audit.sample_ed _ _ _ _ _ _
      (@OPAEngine_Engine rego_opa) _ _ _ _ s o req = (s', Evaluate.Returned resp err) /\
    (Evaluate.Decision resp = "allow" <->
     EvaluateProps.session_ok s req = true /\
     (EvaluateProps.needs_2fa cfg req = true -> Evaluate.Session2FA req = true) /\
     EvaluateProps.dest_listed s req = true /\ EvaluateProps.over_velocity s o cfg req = false /\
     Caps.severity (EvaluateProps.cap_result cfg req) = 0 /\
     fle (Evaluate.amount_usd req) (usd 2500) = true /\ Evaluate.KYTVerdict req = "clean" /\
     flt (Evaluate.FraudScore req) (lit 5 (-1)) = true /\ Evaluate.KYCStatus req = "verified").
Proof.
  cbn zeta. apply (@shipped_policy_allows Audit.sample_fmt Audit.sample_ed rego_opa _ _ _ _ _ _ _ _ _ _
    sample_service (EvaluateProps.sample_oracle 10 "dec_1") (EvaluateProps.sample_req "100.00")
    (Caps.DefaultConfig EvaluateProps.no_env) "rego" sample_bundle decisions_rego);
    [vm_compute; reflexivity|reflexivity|apply rego_opa_runs|reflexivity..].
Defined.

Example shipped_policy_ex :
  map (fun amount => match snd (@Evaluate.Evaluate Audit.sample_fmt Audit.sample_ed _ _ _ _ _ _
      (@OPAEngine_Engine rego_opa) _ _ _ _ sample_service (EvaluateProps.sample_oracle 10 "dec_1")
      (EvaluateProps.sample_req amount)) with
    | Evaluate.Returned resp _ => Evaluate.Decision resp | Evaluate.Panicked => "panic" end)
  ["100.00"; "950"; "1001"] = ["allow"; "manual_review"; "deny"].
Proof. vm_compute. reflexivity. Qed.


End Policy.
