(* ===== verification/RiskScore.v ===== *)
(** * The risk score ([policies/decisions.rego], lines 71 to 84)

    The score the shipped policy gives a request and what the service answers with
    it.  The two weight functions and the rule are translated; the arithmetic on
    numbers is the Open Policy Agent's, and what is assumed of it ([runs_score]) is
    that the mean of three numbers is a number not below the least and not above
    the greatest of them.

    A verdict or a status without a weight makes the rule undefined: the query has
    no result, and the engine takes the score for 0. *)
From Stdlib Require Import ZArith Lia Ascii String SpecFloat.
From stdpp Require Import base gmap strings list.
From S2P Require Import Prelude GoLib Float64 Sha256 Json Engine.
From S2P Require Import Caps Velocity Whitelist Review AuditLog Metrics Evaluate EvaluateProps Policy.

Open Scope Z_scope.
Open Scope go_scope.

Module RiskScore.
Import Json Engine Policy.

(** ** The rule *)

Definition kyt_weight (verdict : string) : option float64 :=
  if verdict == "sanctioned" then Some (lit 10 (-1))
  else if verdict == "high_risk" then Some (lit 5 (-1))
  else if verdict == "clean" then Some (lit 0 (-1))
  else if verdict == "unknown" then Some (lit 2 (-1))
  else None.

Definition kyc_weight (status : string) : option float64 :=
  if status == "verified" then Some (lit 0 (-1))
  else if status == "restricted" then Some (lit 5 (-1))
  else if status == "expired" then Some (lit 8 (-1))
  else if status == "unverified" then Some (lit 10 (-1))
  else None.

(** The value of a function on a reference; only strings have weights. *)
Definition call (f : string -> option float64) (v : option any) : option float64 :=
  match v with Some (AString s) => f s | _ => None end.

(** The three numbers whose mean is the score, when all are defined. *)
Definition signals (input : gmap string any) : option (float64 * float64 * float64) :=
  x ← call kyt_weight (input !! "kyt_verdict");
  v ← input !! "fraud_score";
  y ← number v;
  z ← call kyc_weight (input !! "kyc_status");
  Some (x, y, z).

(** A mean of three numbers, up to rounding. *)
Definition mean_of (x y z n : float64) : Prop :=
  is_finite n = true /\
  (forall lo, fle lo x = true -> fle lo y = true -> fle lo z = true -> fle lo n = true) /\
  (forall hi, fle x hi = true -> fle y hi = true -> fle z hi = true -> fle n hi = true).

Definition runs_score `{OPA} (c : Compiler) : Prop :=
  forall input, map_Forall (fun _ => scalar) input ->
    match signals input with
    | None => RegoEval c (NewFromObject caps_data) input "data.policy.decisions.risk_score" = inr []
    | Some (x, y, z) =>
        exists v n, RegoEval c (NewFromObject caps_data) input "data.policy.decisions.risk_score" = inr [[v]] /\
          number v = Some n /\ mean_of x y z n
    end.

(** ** Behind the engine *)

Definition one : float64 := lit 1 0.

Definition unit_range (x : float64) : Prop := fle f0 x = true /\ fle x one = true.

Lemma unit_finite x : unit_range x -> is_finite x = true.
Proof. intros [Ha Hb]. destruct x as [[]|[]| |[]]; done. Qed.

Lemma weights_range f s x : f = kyt_weight \/ f = kyc_weight -> f s = Some x -> unit_range x.
Proof.
  intros [->| ->]; unfold kyt_weight, kyc_weight; repeat case_bool_decide; intros [= <-]; by vm_compute.
Qed.

Lemma scoreFloat_number v n : number v = Some n -> scoreFloat [[v]] = n.
Proof. destruct v; cbn; congruence. Qed.

Lemma signals_range req amount wl r2 x y z :
  unit_range (Evaluate.FraudScore req) -> signals (Evaluate.engine_input req amount wl r2) = Some (x, y, z) ->
  unit_range x /\ unit_range y /\ unit_range z.
Proof.
  intros Hf. unfold signals.
  change (Evaluate.engine_input req amount wl r2 !! "kyt_verdict") with (Some (AString (Evaluate.KYTVerdict req))).
  change (Evaluate.engine_input req amount wl r2 !! "fraud_score") with (Some (AFloat (Evaluate.FraudScore req))).
  change (Evaluate.engine_input req amount wl r2 !! "kyc_status") with (Some (AString (Evaluate.KYCStatus req))).
  cbn [call mbind option_bind number]. destruct (kyt_weight _) as [a|] eqn:Ha; [|done]. cbn [mbind option_bind].
  destruct (kyc_weight _) as [b|] eqn:Hb; [|done]. intros [= <- <- <-].
  split_and!; [by apply (weights_range _ _ _ (or_introl eq_refl) Ha)|done|by apply (weights_range _ _ _ (or_intror eq_refl) Hb)].
Qed.

Section Score.
Context `{Fmt} `{OPA}.
Context (text : string) (b : Bundle) (c : Compiler).
Context (Hload : LoadBundleFromDir (policy_files text) = inr b)
  (Hcomp : compileModules (Source b) = inr c) (Hruns : runs_score c).

(** The score of the engine, whatever the other queries give. *)
Lemma engine_score req amount wl r2 r :
  is_finite amount = true -> is_finite (Evaluate.FraudScore req) = true ->
  Engine.Evaluate (NewOPAEngine b) (Evaluate.engine_input req amount wl r2) = inr r ->
  match signals (Evaluate.engine_input req amount wl r2) with
  | None => RiskScore r = f0
  | Some (x, y, z) => mean_of x y z (RiskScore r)
  end.
Proof.
  intros Ha Hf. destruct (load_policy text b Hload) as [_ Hd].
  unfold Engine.Evaluate, policy_of, NewOPAEngine, rebuild. cbn [bundle compiled]. rewrite Hcomp. cbn [compiled].
  unfold normalizeData. rewrite Hd. cbn [fst snd]. unfold evaluate_with.
  specialize (Hruns (Evaluate.engine_input req amount wl r2) ltac:(by apply input_scalar)).
  destruct (wrap_err _ _) as [e|al]; [done|]. destruct (wrap_err _ _) as [e|mr]; [done|].
  destruct (wrap_err _ _) as [e|de]; [done|]. intros [= <-]. cbn [RiskScore decide_]. unfold evalFloat.
  destruct (signals _) as [[[x y] z]|].
  - destruct Hruns as (v & n & -> & Hn & Hm). by rewrite (scoreFloat_number _ _ Hn).
  - by rewrite Hruns.
Qed.

Lemma engine_score_range req amount wl r2 r :
  is_finite amount = true -> unit_range (Evaluate.FraudScore req) ->
  Engine.Evaluate (NewOPAEngine b) (Evaluate.engine_input req amount wl r2) = inr r -> unit_range (RiskScore r).
Proof.
  intros Ha Hf Hr. pose proof (engine_score _ _ _ _ _ Ha (unit_finite _ Hf) Hr) as Hs.
  destruct (signals _) as [[[x y] z]|] eqn:He; [|rewrite Hs; by vm_compute].
  destruct (signals_range _ _ _ _ _ _ _ Hf He) as ([? ?] & [? ?] & [? ?]). destruct Hs as (_ & Hlo & Hhi).
  split; auto.
Qed.

End Score.

(** ** Properties *)

(** C38. The score of every answer of the service on the shipped policy lies between
    0 and 1, when the fraud score of the request does: the scores of the checks
    before the engine, of an engine error, and of the rule, defined or not. *)
Theorem scores_in_range `{Fmt} `{Audit.Ed25519} `{OPA} {C WS RS AS K : Type}
  `{Velocity.Counter C} `{Whitelist.Store WS} `{Review.Store RS} `{Audit.Store AS} `{Audit.Sink K}
  (s : Evaluate.Service OPAEngine C WS RS AS K) o req text b c s' resp err :
  LoadBundleFromDir (policy_files text) = inr b -> compileModules (Source b) = inr c -> runs_score c ->
  Evaluate.engine s = NewOPAEngine b -> is_finite (Evaluate.amount_usd req) = true ->
  unit_range (Evaluate.FraudScore req) -> Evaluate.Evaluate s o req = (s', Evaluate.Returned resp err) ->
  unit_range (Evaluate.Score resp).
Proof.
  intros Hload Hcomp Hruns He Ha Hf. unfold Evaluate.Evaluate.
  destruct (Evaluate.validate req); [intros [= <- <- <-]; by vm_compute|].
  destruct (Evaluate.route s o req) as [[s1 v]|] eqn:Hr; [|done].
  destruct (Evaluate.finalize s1 o req v) as [s2 [resp' err']] eqn:Hfin. intros [= <- <- <-].
  assert (Evaluate.Score resp' = Evaluate.v_score v) as ->.
  { unfold Evaluate.finalize in Hfin. destruct (Evaluate.emit _ _ _ _) as [s3 [e|]]; by injection Hfin as <- <- <-. }
  unfold Evaluate.route in Hr. destruct (Evaluate.caps s) as [cfg|]; [|done].
  destruct (negb _); [injection Hr as <- <-; by vm_compute|].
  destruct (negb _); [injection Hr as <- <-; by vm_compute|].
  destruct (Evaluate.check_velocity s o cfg _) as [s3 ex] eqn:Hcv.
  assert (Evaluate.engine s3 = Evaluate.engine s) as Hen.
  { destruct (EvaluateProps.check_velocity_spec s o cfg req) as [v' Hs]. rewrite Hs in Hcv. by injection Hcv as <- _. }
  destruct ex; [injection Hr as <- <-; by vm_compute|]. injection Hr as <- <-.
  unfold Evaluate.check_caps. destruct (Caps.Exceeded _); [by vm_compute|]. destruct (Caps.NearCap _); [by vm_compute|].
  unfold Evaluate.run_engine. rewrite Hen, He. cbn [eng_Evaluate OPAEngine_Engine].
  destruct (Engine.Evaluate _ _) as [e|r] eqn:Hev; [by vm_compute|]. cbn [Evaluate.v_score Evaluate.mk_verdict].
  by eapply engine_score_range.
Qed.
(** A verdict or a status the policy has no weight for gives the score 0, whatever
    the fraud score is: less than the same request with a listed one. *)
Theorem unlisted_scores_zero `{Fmt} `{OPA} text b c req amount wl r2 r :
  LoadBundleFromDir (policy_files text) = inr b -> compileModules (Source b) = inr c -> runs_score c ->
  is_finite amount = true -> is_finite (Evaluate.FraudScore req) = true ->
  kyt_weight (Evaluate.KYTVerdict req) = None \/ kyc_weight (Evaluate.KYCStatus req) = None ->
  Engine.Evaluate (NewOPAEngine b) (Evaluate.engine_input req amount wl r2) = inr r -> RiskScore r = f0.
Proof.
  intros Hload Hcomp Hruns Ha Hf Hu Hr. pose proof (engine_score text b c Hload Hcomp Hruns _ _ _ _ _ Ha Hf Hr) as Hs.
  assert (signals (Evaluate.engine_input req amount wl r2) = None) as Hn; [|by rewrite Hn in Hs].
  unfold signals.
  change (Evaluate.engine_input req amount wl r2 !! "kyt_verdict") with (Some (AString (Evaluate.KYTVerdict req))).
  change (Evaluate.engine_input req amount wl r2 !! "fraud_score") with (Some (AFloat (Evaluate.FraudScore req))).
  change (Evaluate.engine_input req amount wl r2 !! "kyc_status") with (Some (AString (Evaluate.KYCStatus req))).
  cbn [call mbind option_bind number]. destruct Hu as [-> | ->]; [done|]. by destruct (kyt_weight _).
Qed.

(** ** Witnesses *)

Definition fmin (x y : float64) : float64 := if fle x y then x else y.
Definition fmax (x y : float64) : float64 := if fle x y then y else x.

(** The mean in float64 arithmetic, kept between the least and the greatest number
    where rounding would leave it outside. *)
Definition mean (x y z : float64) : float64 :=
  let m := SFdiv prec64 emax64 (SFadd prec64 emax64 (SFadd prec64 emax64 x y) z) (lit 3 0) in
  let lo := fmin (fmin x y) z in
  let hi := fmax (fmax x y) z in
  if fle lo m && fle m hi then m else lo.

Lemma finite_total x y : is_finite x = true -> is_finite y = true -> fle x y = false -> fle y x = true.
Proof.
  intros Hx Hy Hn. assert (is_nan x = false /\ is_nan y = false) as [? ?] by (by destruct x, y).
  forder.
Qed.

Lemma fmin_le x y lo : fle lo x = true -> fle lo y = true -> fle lo (fmin x y) = true.
Proof. unfold fmin. by destruct (fle x y). Qed.

Lemma le_fmax x y hi : fle x hi = true -> fle y hi = true -> fle (fmax x y) hi = true.
Proof. unfold fmax. by destruct (fle x y). Qed.

Lemma fmin_finite x y : is_finite x = true -> is_finite y = true -> is_finite (fmin x y) = true.
Proof. unfold fmin. by destruct (fle x y). Qed.

Lemma fmax_finite x y : is_finite x = true -> is_finite y = true -> is_finite (fmax x y) = true.
Proof. unfold fmax. by destruct (fle x y). Qed.

Lemma between_finite lo m hi :
  is_finite lo = true -> is_finite hi = true -> fle lo m = true -> fle m hi = true -> is_finite m = true.
Proof. destruct lo as [[]|[]| |[]], m as [[]|[]| |[]], hi as [[]|[]| |[]]; done. Qed.

Lemma fmin_fle x y : is_finite x = true -> is_finite y = true -> fle (fmin x y) x = true /\ fle (fmin x y) y = true.
Proof.
  intros Hx Hy. assert (fle x x = true /\ fle y y = true) as [? ?]
    by (split; apply not_false_iff_true; intros E; pose proof E as E'; eapply finite_total in E'; congruence).
  unfold fmin. destruct (fle x y) eqn:E; [done|]. split; [by apply finite_total|done].
Qed.

Lemma mean_ok x y z : is_finite x = true -> is_finite y = true -> is_finite z = true -> mean_of x y z (mean x y z).
Proof.
  intros Hx Hy Hz. unfold mean. set (m := SFdiv _ _ _ _).
  pose proof (fmin_finite _ _ (fmin_finite _ _ Hx Hy) Hz) as Hlo.
  pose proof (fmax_finite _ _ (fmax_finite _ _ Hx Hy) Hz) as Hhi.
  assert (forall l, fle l x = true -> fle l y = true -> fle l z = true -> fle l (fmin (fmin x y) z) = true) as Hmin
    by (intros; auto using fmin_le).
  assert (forall h, fle x h = true -> fle y h = true -> fle z h = true -> fle (fmax (fmax x y) z) h = true) as Hmax
    by (intros; auto using le_fmax).
  set (lo := fmin (fmin x y) z) in *. set (hi := fmax (fmax x y) z) in *.
  destruct (fle lo m && fle m hi) eqn:E.
  - apply andb_true_iff in E as [E1 E2]. split; [exact (between_finite lo m hi Hlo Hhi E1 E2)|]. split; intros.
    + eapply fle_trans; [by apply Hmin|done].
    + eapply fle_trans; [done|by apply Hmax].
  - split; [done|]. split; [done|]. intros h Hxh _ _.
    destruct (fmin_fle (fmin x y) z) as [Hl _]; [by apply fmin_finite|done|].
    destruct (fmin_fle x y) as [Hl' _]; [done|done|]. eapply fle_trans; [exact Hl|]. by eapply fle_trans.
Qed.

(** The evaluator of [Policy] with the rule of the score. *)
Definition score_opa : OPA := {|
  Module_ := module; Compiler := module; DataStore := gmap string any;
  ParseModule := fun _ _ => inr decisions_rego;
  Compile := fun ms => inr (default [] (ms !! "decisions.rego"));
  NewFromObject := fun d => d;
  RegoEval := fun c d input query =>
    if query == "data.policy.decisions.risk_score" then
      inr (match signals input with Some (x, y, z) => [[AFloat (mean x y z)]] | None => [] end)
    else inr [[ABool (eval_rule c d input (TrimPrefix query "data.policy.decisions."))]] |}.

Lemma score_opa_runs : @runs_score score_opa decisions_rego.
Proof.
  intros input Hin. cbn. destruct (signals input) as [[[x y] z]|] eqn:Hs; [|done].
  eexists _, _. split; [done|]. split; [done|]. unfold signals, call in Hs.
  destruct (input !! "kyt_verdict") as [[| |s| | | | |]|]; try done. cbn in Hs.
  destruct (kyt_weight s) as [a|] eqn:Ha; [|done]. cbn in Hs.
  destruct (input !! "fraud_score") as [v|] eqn:Hv; [|done]. cbn in Hs.
  destruct (number v) as [f|] eqn:Hn; [|done]. cbn in Hs.
  destruct (input !! "kyc_status") as [[| |s'| | | | |]|]; try done. cbn in Hs.
  destruct (kyc_weight s') as [d|] eqn:Hd; [|done]. injection Hs as <- <- <-.
  apply mean_ok.
  - by apply unit_finite, (weights_range _ _ _ (or_introl eq_refl) Ha).
  - specialize (Hin _ _ Hv). cbn in Hin. destruct v; cbn in Hn, Hin; try done. by injection Hn as <-.
  - by apply unit_finite, (weights_range _ _ _ (or_intror eq_refl) Hd).
Qed.

Definition sample_service : @Evaluate.Service Audit.sample_ed (@OPAEngine score_opa) Velocity.MemoryCounter
    Whitelist.MemoryStore Review.MemoryStore Audit.MemoryStore Audit.MemorySink :=
  Evaluate.NewService (@NewOPAEngine score_opa sample_bundle)
    (Some Velocity.NewMemoryCounter) (Some (Caps.DefaultConfig EvaluateProps.no_env))
    (Whitelist.run_ops Whitelist.NewMemoryStore EvaluateProps.sample_list)
    (Some Review.NewMemoryStore) (Some EvaluateProps.sample_audit) Metrics.zero.

Definition sample_evaluate := @Evaluate.Evaluate Audit.sample_fmt Audit.sample_ed _ _ _ _ _ _
  (@OPAEngine_Engine score_opa) _ _ _ _ sample_service (EvaluateProps.sample_oracle 10 "dec_1")
  (EvaluateProps.sample_req "100.00").

Definition sample_answer : Evaluate.Response * option error :=
  match snd sample_evaluate with Evaluate.Returned resp err => (resp, err) | Evaluate.Panicked => (Evaluate.zero_response, None) end.

Lemma sample_returned :
  sample_evaluate = (fst sample_evaluate, Evaluate.Returned (fst sample_answer) (snd sample_answer)).
Proof.
  assert (match snd sample_evaluate with Evaluate.Panicked => false | _ => true end = true) as Hp by (vm_compute; reflexivity).
  revert Hp. unfold sample_answer. destruct sample_evaluate as [s' [resp err|]]; done.
Qed.

Lemma scores_in_range_witness : Evaluate.Decision (fst sample_answer) = "allow" /\ unit_range (Evaluate.Score (fst sample_answer)).
Proof.
  split; [vm_compute; reflexivity|].
  apply (@scores_in_range Audit.sample_fmt Audit.sample_ed score_opa _ _ _ _ _ _ _ _ _ _
    sample_service (EvaluateProps.sample_oracle 10 "dec_1") (EvaluateProps.sample_req "100.00") "rego" sample_bundle
    decisions_rego (fst sample_evaluate) (fst sample_answer) (snd sample_answer));
    [vm_compute; reflexivity|reflexivity|apply score_opa_runs|reflexivity|reflexivity|split; vm_compute; reflexivity|exact sample_returned].
Defined.

Example means : map (fun '(x, y, z) => SFeqb (mean x y z) (lit 5 (-1)))
  [(lit 5 (-1), lit 5 (-1), lit 5 (-1)); (lit 10 (-1), lit 5 (-1), f0); (f0, lit 10 (-1), lit 5 (-1))] = [true; true; true].
Proof. vm_compute. reflexivity. Qed.

End RiskScore.
