(* ===== verification/Concurrent.v ===== *)
(** * Concurrent evaluations

    The server runs every request in a goroutine of its own, so the calls of
    [Evaluate] interleave.  Here one call is a thread of atomic steps: each
    operation on shared state (the whitelist lookup, the increment and the
    rollback of the counter, the evaluation of the engine, each reading of the
    engine's version, the emission of the audit record, the parking) takes its
    lock once, and is one step; what lies between two of them works on the
    call's own variables.

    - run alone, a thread does what [Evaluate.Evaluate] does ([alone]);
    - the theorems quantify over every interleaving of any number of calls with
      each other and with the other handlers and goroutines, which change the
      whitelist, the policy, the queue and the audit service as they like. *)
From Stdlib Require Import ZArith Lia Ascii String SpecFloat.
From stdpp Require Import base gmap strings list.
From S2P Require Import Prelude GoLib Float64 Sha256 Json.
From S2P Require Import Caps Velocity Whitelist Review AuditLog Metrics Engine Evaluate EvaluateProps.

Open Scope Z_scope.
Open Scope go_scope.

Module Concurrent.
Import Json Evaluate.

(** ** Threads *)

(** Where a call is: the next operation on shared state, with the variables of
    the call that are still needed. *)
Inductive pc :=
| Start
| AtWhitelist
| AtIncrement
| AtRollback
| AtEngine (reasons : slice string)
| AtRules (reasons : slice string) (todo : list string) (rules : slice AppliedRule) (score : float64)
    (decision : string)
| AtFinalize (v : verdict)
| AtEmit (resp : Response)
| AtPark (resp : Response)
| AtReturn (out : outcome)
| Done (out : outcome).

Record thread := { t_oracle : Oracle; t_req : Request; t_pc : pc }.

Definition start (o : Oracle) (req : Request) : thread :=
  {| t_oracle := o; t_req := req; t_pc := Start |}.
Definition goto (t : thread) (p : pc) : thread :=
  {| t_oracle := t_oracle t; t_req := t_req t; t_pc := p |}.

Definition daily_window (o : Oracle) : Velocity.Window :=
  snd (Velocity.WindowsFromConfig (Velocity.DefaultConfig (env o))).

Section Threads.
Context `{Fmt} `{Audit.Ed25519}
  {E C WS RS AS K : Type}
  `{Engine.Engine E} `{Velocity.Counter C} `{Whitelist.Store WS} `{Review.Store RS}
  `{Audit.Store AS} `{Audit.Sink K}.

Abbreviation Svc := (Service E C WS RS AS K).

Definition deny (reasons : slice string) (score : float64) : pc :=
  AtFinalize (mk_verdict "deny" reasons None score).

(** After the velocity check: the cap of the transaction, then the engine. *)
Definition caps_step (s : Svc) (cfg : Caps.Config) (req : Request) (reasons : slice string) : pc :=
  let amountUSD := amount_usd req in
  let res := Caps.Evaluate cfg (tier_of req) (Rail req) (Asset req) "tx" amountUSD in
  let rules := match Caps.AppliedRule res with
               | Some r => append1 None {| ID := Caps.ID r; Version := "" |}
               | None => None
               end in
  if Caps.Exceeded res then
    AtFinalize (mk_verdict (Caps.Decision res) (append1 reasons (Caps.Reason res)) rules (lit 5 (-1)))
  else if Caps.NearCap res then
    AtFinalize (mk_verdict "manual_review" (append1 reasons (Caps.Reason res)) rules (lit 3 (-1)))
  else
    match Engine.eng_Evaluate (engine s)
            (engine_input req amountUSD true (Caps.HighValue2FARequired cfg (Rail req) amountUSD)) with
    | inl _ => AtFinalize (mk_verdict "manual_review" (append1 reasons "engine_error") rules (lit 5 (-1)))
    | inr r => AtRules reasons (elems (Engine.AppliedRules r)) rules (Engine.RiskScore r) (Engine.Decision r)
    end.

(** One step of a call; [None] when it has returned. *)
Definition tstep (s : Svc) (t : thread) : option (Svc * thread) :=
  let o := t_oracle t in
  let req := t_req t in
  match t_pc t with
  | Start =>
      match validate req with
      | Some err => Some (s, goto t (Done (Returned zero_response (Some err))))
      | None =>
          match caps s with
          | None => Some (s, goto t (AtReturn Panicked))
          | Some cfg =>
              let auth := Whitelist.CheckSourceAuth (SessionValid req || sessionValidDefault s)
                (Caps.HighValue2FARequired cfg (Rail req) (amount_usd req)) (Session2FA req) in
              Some (s, goto t (if Whitelist.OK auth then AtWhitelist
                               else deny (append1 None (Whitelist.Reason auth)) (lit 1 0)))
          end
      end
  | AtWhitelist =>
      if Whitelist.IsWhitelisted (whitelist s) (UserID req) (DestChain req) (DestAddress req) then
        Some (s, goto t (match velocity s with
                         | Some _ => AtIncrement
                         | None => AtEngine (append1 None "whitelisted")
                         end))
      else Some (s, goto t (deny (append1 None "dest_not_whitelisted") (lit 5 (-1))))
  | AtIncrement =>
      match velocity s, caps s with
      | Some c, Some cfg =>
          let '(c1, (v, _)) := Velocity.Increment c (inc_now o) (UserID req) (daily_window o) in
          Some (set_velocity s (Some c1),
                goto t (if f64_to_int64 (Caps.DefaultDailyCapUSD cfg) <? v then AtRollback
                        else AtEngine (append1 (append1 None "whitelisted") "velocity_daily_ok")))
      | _, _ => Some (s, goto t (AtReturn Panicked))
      end
  | AtRollback =>
      match velocity s with
      | Some c =>
          Some (set_velocity s (Some (fst (Velocity.Rollback c (roll_now o) (UserID req) (daily_window o)))),
                goto t (deny (append1 (append1 None "whitelisted") "velocity_daily_exceeded") (lit 5 (-1))))
      | None => Some (s, goto t (AtReturn Panicked))
      end
  | AtEngine reasons =>
      match caps s with
      | Some cfg => Some (s, goto t (caps_step s cfg req reasons))
      | None => Some (s, goto t (AtReturn Panicked))
      end
  | AtRules reasons todo rules score decision =>
      Some (s, goto t (match todo with
                       | [] => AtFinalize (mk_verdict decision reasons rules score)
                       | id :: todo' =>
                           AtRules reasons todo'
                             (append1 rules {| ID := id; Version := Engine.eng_Version (engine s) |}) score decision
                       end))
  | AtFinalize v =>
      Some (set_metrics s (count_decision (v_decision v) (metrics s)),
            goto t (AtEmit {| Decision := v_decision v; Reasons := v_reasons v; AppliedRules := v_rules v;
                              PolicyVersion := Engine.eng_Version (engine s); Score := v_score v;
                              DecisionID := new_id o |}))
  | AtEmit resp =>
      match emit s o req resp with
      | (s', Some err) => Some (s', goto t (AtReturn (Returned resp (Some err))))
      | (s', None) => Some (s', goto t (AtPark resp))
      end
  | AtPark resp => Some (park s o resp, goto t (AtReturn (Returned resp None)))
  | AtReturn out => Some (deferred s o, goto t (Done out))
  | Done _ => None
  end.

(** ** A call alone *)

Fixpoint alone (n : nat) (s : Svc) (t : thread) : Svc * thread :=
  match n with
  | O => (s, t)
  | S n' => match tstep s t with Some (s', t') => alone n' s' t' | None => (s, t) end
  end.

(** ** Interleavings *)

(** The calls in progress (and those that have returned) over the shared state. *)
Record config := { shared : Svc; threads : list thread }.

(** A step of the server: a new call, a step of one call, or a step of another
    handler or goroutine.  Those change neither the counter nor the limits. *)
Inductive step : config -> config -> Prop :=
| step_spawn s ts o req :
    step {| shared := s; threads := ts |} {| shared := s; threads := ts ++ [start o req] |}
| step_thread s ts i t s' t' :
    ts !! i = Some t -> tstep s t = Some (s', t') ->
    step {| shared := s; threads := ts |} {| shared := s'; threads := <[i := t']> ts |}
| step_other s ts s' :
    velocity s' = velocity s -> caps s' = caps s ->
    step {| shared := s; threads := ts |} {| shared := s'; threads := ts |}.

(** The states the server goes through, the last one first. *)
Inductive run (s0 : Svc) : list Svc -> config -> Prop :=
| run_init : run s0 [s0] {| shared := s0; threads := [] |}
| run_step hist c c' : run s0 hist c -> step c c' -> run s0 (shared c' :: hist) c'.
(** ** A call alone does what [Evaluate] does *)

Definition reaches (s : Svc) (t : thread) (s' : Svc) (t' : thread) : Prop := exists n, alone n s t = (s', t').

Lemma reaches_refl s t : reaches s t s t.
Proof. by exists 0%nat. Qed.

Lemma reaches_step s t s1 t1 s2 t2 : tstep s t = Some (s1, t1) -> reaches s1 t1 s2 t2 -> reaches s t s2 t2.
Proof. intros Ht [n Hn]. exists (S n). cbn [alone]. by rewrite Ht. Qed.

Lemma append_all_cons {A} (s : slice A) x l : append_all s (x :: l) = append_all (append1 s x) l.
Proof. destruct s as [s|]; cbn; [by rewrite <- (assoc_L (++))|done]. Qed.

Definition finalized (s : Svc) (o : Oracle) (req : Request) (v : verdict) : Svc * outcome :=
  let '(s2, (resp, err)) := finalize s o req v in (deferred s2 o, Returned resp err).

Lemma reaches_finalize s o req v :
  reaches s {| t_oracle := o; t_req := req; t_pc := AtFinalize v |} (fst (finalized s o req v))
    {| t_oracle := o; t_req := req; t_pc := Done (snd (finalized s o req v)) |}.
Proof.
  unfold finalized, finalize. eapply reaches_step; [reflexivity|]. cbn [goto t_oracle t_req].
  destruct (emit _ o req _) as [s2 [err|]] eqn:He.
  - eapply reaches_step; [cbn; by rewrite He|]. eapply reaches_step; [reflexivity|]. apply reaches_refl.
  - eapply reaches_step; [cbn; by rewrite He|]. eapply reaches_step; [reflexivity|].
    eapply reaches_step; [reflexivity|]. apply reaches_refl.
Qed.

Lemma reaches_rules s o req reasons todo rules score d s' t' :
  reaches s {| t_oracle := o; t_req := req; t_pc := AtFinalize (mk_verdict d reasons
    (append_all rules ((fun id => {| ID := id; Version := Engine.eng_Version (engine s) |}) <$> todo)) score) |} s' t' ->
  reaches s {| t_oracle := o; t_req := req; t_pc := AtRules reasons todo rules score d |} s' t'.
Proof.
  revert rules. induction todo as [|id todo IH]; intros rules Hr; (eapply reaches_step; [reflexivity|]); cbn [goto t_oracle t_req].
  - by destruct rules as [l|]; [cbn in Hr; rewrite (right_id_L [] (++)) in Hr|].
  - apply IH. rewrite fmap_cons, append_all_cons in Hr. exact Hr.
Qed.

Lemma reaches_caps s cfg o req reasons :
  caps s = Some cfg ->
  let v := check_caps s cfg req (amount_usd req) (Caps.HighValue2FARequired cfg (Rail req) (amount_usd req)) reasons in
  reaches s {| t_oracle := o; t_req := req; t_pc := AtEngine reasons |} (fst (finalized s o req v))
    {| t_oracle := o; t_req := req; t_pc := Done (snd (finalized s o req v)) |}.
Proof.
  intros Hc. cbn zeta. eapply reaches_step; [cbn; by rewrite Hc|]. unfold caps_step, check_caps, run_engine.
  cbn [goto t_oracle t_req]. destruct (Caps.Exceeded _); [apply reaches_finalize|].
  destruct (Caps.NearCap _); [apply reaches_finalize|].
  destruct (Engine.eng_Evaluate _ _) as [e|r]; [apply reaches_finalize|]. apply reaches_rules, reaches_finalize.
Qed.

Lemma reaches_evaluate s o req :
  reaches s (start o req) (fst (Evaluate s o req))
    {| t_oracle := o; t_req := req; t_pc := Done (snd (Evaluate s o req)) |}.
Proof.
  unfold Evaluate, start. destruct (validate req) as [err|] eqn:Hv.
  { eapply reaches_step; [cbn; by rewrite Hv|]. apply reaches_refl. }
  unfold route. destruct (caps s) as [cfg|] eqn:Hc.
  2: { eapply reaches_step; [cbn; by rewrite Hv, Hc|]. eapply reaches_step; [reflexivity|]. apply reaches_refl. }
  eapply reaches_step; [cbn; by rewrite Hv, Hc|]. cbn [goto t_oracle t_req].
  destruct (Whitelist.OK _) eqn:Hok; cbn [negb]; [|apply reaches_finalize].
  destruct (Whitelist.IsWhitelisted _ _ _ _) eqn:Hw; cbn [negb].
  2: { eapply reaches_step; [cbn; by rewrite Hw|]. apply reaches_finalize. }
  eapply reaches_step; [cbn; by rewrite Hw|]. cbn [goto t_oracle t_req]. unfold check_velocity.
  destruct (velocity s) as [c|] eqn:Hvel.
  2: { by apply reaches_caps. }
  destruct (Velocity.WindowsFromConfig (Velocity.DefaultConfig (env o))) as [[m h] day] eqn:Hday.
  assert (day = daily_window o) as -> by (unfold daily_window; by rewrite Hday). clear Hday.
  destruct (Velocity.Increment c (inc_now o) (UserID req) (daily_window o)) as [c1 [v e]] eqn:Hi.
  destruct (_ <? v) eqn:Hcap.
  - eapply reaches_step; [unfold tstep; cbn [goto t_oracle t_req t_pc]; by rewrite Hvel, Hc, Hi, Hcap|].
    eapply reaches_step; [reflexivity|]. apply reaches_finalize.
  - eapply reaches_step; [unfold tstep; cbn [goto t_oracle t_req t_pc]; by rewrite Hvel, Hc, Hi, Hcap|]. by apply reaches_caps.
Qed.

End Threads.

Arguments config {_} E C WS RS AS K.
(** ** The daily limit under every interleaving *)

(** A call that got past the counter and may still be allowed, or was. *)
Definition may_allow (p : pc) : bool :=
  match p with
  | AtEngine _ | AtRules _ _ _ _ _ => true
  | AtFinalize v => v_decision v == "allow"
  | AtEmit resp | AtPark resp => Decision resp == "allow"
  | AtReturn out | Done out => EvaluateProps.decided "allow" out
  | _ => false
  end.

(** A call that has incremented the counter above the limit and not yet rolled
    it back. *)
Definition must_rollback (p : pc) : bool := match p with AtRollback => true | _ => false end.

(** A call that is past the increment. *)
Definition past (p : pc) : bool :=
  match p with Start | AtWhitelist | AtIncrement => false | _ => true end.

Definition of_user (u : string) (f : pc -> bool) (t : thread) : bool := (UserID (t_req t) == u) && f (t_pc t).

Section Limit.
Context `{Fmt} `{Audit.Ed25519}
  {E WS RS AS K : Type}
  `{Engine.Engine E} `{Whitelist.Store WS} `{Review.Store RS} `{Audit.Store AS} `{Audit.Sink K}.

Abbreviation Svc := (Service E Velocity.MemoryCounter WS RS AS K).
Abbreviation Config := (config E Velocity.MemoryCounter WS RS AS K).
Context (cfg : Caps.Config) (u : string) (w : Velocity.Window) (t0 M : Z).

Abbreviation cap := (f64_to_int64 (Caps.DefaultDailyCapUSD cfg)).
Abbreviation slots := (count (of_user u may_allow)).
Abbreviation pending := (count (of_user u must_rollback)).
Abbreviation begun := (count (fun t => past (t_pc t))).

(** The entry of the user's key: it counts at least the calls that hold a slot and
    those that will give theirs back, and lives as long as the window. *)
Definition entry_ok (n bound : Z) (e : option Velocity.memEntry) : Prop :=
  match e with
  | Some e => 0 <= Velocity.value e <= bound /\
      (n = 0 \/ n <= Velocity.value e /\ t0 + w <= Velocity.expiresAt e)
  | None => n = 0
  end.

Definition limit_ok (c : Config) : Prop :=
  caps (shared c) = Some cfg /\ slots (threads c) <= cap /\
  exists vc, velocity (shared c) = Some vc /\
    entry_ok (slots (threads c) + pending (threads c)) (M + begun (threads c))
      (Velocity.mem vc !! Velocity.key u w).

(** The calls are made within the window, and too few to overflow the counter. *)
Definition calm (ts : list thread) : Prop :=
  Forall (fun t => EvaluateProps.in_window w t0 (t_oracle t)) ts /\ M + Z.of_nat (length ts) < 2^63 - 1.

Lemma entry_ok_le n bound n' bound' e :
  entry_ok n bound e -> 0 <= n' <= n -> bound <= bound' -> entry_ok n' bound' e.
Proof.
  unfold entry_ok. destruct e as [e|]; [|lia]. intros [Hv [->|[Hn He]]] Hn' Hb;
    (split; [lia|]); [left; lia|]. right. lia.
Qed.

(** The value an increment finds. *)
Definition found (e : option Velocity.memEntry) (now : time) : Z :=
  match Velocity.live e now with Some e => Velocity.value e | None => 0 end.

Lemma found_ok n bound e now :
  entry_ok n bound e -> 0 <= n -> 0 <= bound -> now <= t0 + w -> n <= found e now <= bound.
Proof.
  unfold entry_ok, found, Velocity.live. destruct e as [e|]; [|lia].
  intros [Hv [->|[Hn He]]] Hn0 Hb Hnow; destruct (_ <? _) eqn:Hl; go_bool; lia.
Qed.

Lemma increment_entry n bound e now :
  entry_ok n bound e -> 0 <= n -> 0 <= bound < 2^63 - 1 -> t0 <= now <= t0 + w ->
  wrap64 (found e now + 1) = found e now + 1 /\
  entry_ok (n + 1) (bound + 1)
    (Some {| Velocity.value := wrap64 (found e now + 1); Velocity.expiresAt := now + w |}).
Proof.
  intros He Hn Hb Hnow. pose proof (found_ok n bound e now He Hn ltac:(lia) ltac:(lia)) as Hf.
  assert (wrap64 (found e now + 1) = found e now + 1) as Hw by (apply wrap64_id; unfold int64_range; lia).
  split; [done|]. rewrite Hw. unfold entry_ok. cbn [Velocity.value Velocity.expiresAt]. lia.
Qed.

(** A rollback that is due finds its entry. *)
Lemma rollback_entry n bound c now :
  entry_ok n bound (Velocity.mem c !! Velocity.key u w) -> 1 <= n -> bound < 2^63 - 1 -> now <= t0 + w ->
  entry_ok (n - 1) bound (Velocity.mem (fst (Velocity.mc_rollback c now u w)) !! Velocity.key u w).
Proof.
  unfold Velocity.mc_rollback. intros He Hn Hb Hnow. unfold entry_ok in He.
  destruct (Velocity.mem c !! Velocity.key u w) as [e|]; [|lia]. destruct He as [Hv [->|[Hle Hx]]]; [lia|].
  unfold Velocity.live. rewrite (proj2 (Z.ltb_ge (Velocity.expiresAt e) now)) by lia.
  rewrite wrap64_id by (unfold int64_range; lia).
  rewrite (proj2 (Z.ltb_ge (Velocity.value e - 1) 0)) by lia. cbn [fst Velocity.mem].
  rewrite lookup_insert_eq. unfold entry_ok. cbn [Velocity.value Velocity.expiresAt]. lia.
Qed.

Lemma rollback_other c now u' :
  u' <> u -> Velocity.mem (fst (Velocity.mc_rollback c now u' w)) !! Velocity.key u w
             = Velocity.mem c !! Velocity.key u w.
Proof.
  intros Hne. assert (Velocity.key u' w <> Velocity.key u w) by (intros [? _]%Velocity.key_inj; done).
  unfold Velocity.mc_rollback. destruct (Velocity.live _ _); [|done].
  by destruct (_ <? _); cbn [fst Velocity.mem]; rewrite lookup_insert_ne.
Qed.

Lemma tstep_frame (s s' : Svc) t t' :
  tstep s t = Some (s', t') ->
  caps s' = caps s /\ t_req t' = t_req t /\ t_oracle t' = t_oracle t /\
  (past (t_pc t) = true -> past (t_pc t') = true).
Proof.
  destruct t as [o req p]. unfold tstep. cbn [t_pc t_oracle t_req].
  destruct p; try (intros; repeat case_match; simplify_eq/=; done).
  - intros Hs. unfold caps_step, deny in Hs. repeat case_match; simplify_eq/=; done.
  - destruct (emit s o req resp) as [s1 [err|]] eqn:He; intros [= <- <-];
      apply EvaluateProps.emit_shape in He as [a' ->]; done.
  - intros [= <- <-]. destruct (EvaluateProps.park_shape s o resp) as (r' & m' & ->). done.
Qed.

(** Every step but those on the counter. *)
Lemma tstep_quiet (s s' : Svc) t t' :
  tstep s t = Some (s', t') -> velocity s <> None -> t_pc t <> AtIncrement -> t_pc t <> AtRollback ->
  velocity s' = velocity s /\ (may_allow (t_pc t') = true -> may_allow (t_pc t) = true) /\
  must_rollback (t_pc t') = false.
Proof.
  destruct t as [o req p]. unfold tstep. cbn [t_pc t_oracle t_req]. intros Hs Hv Hi Hr. revert Hs.
  destruct p; try done; try (intros; unfold deny in *; repeat case_match; simplify_eq/=; done).
  - unfold caps_step. intros Hs. repeat case_match; simplify_eq/=; done.
  - destruct (emit s o req resp) as [s1 [err|]] eqn:He; intros [= <- <-];
      apply EvaluateProps.emit_shape in He as [a' ->]; done.
  - intros [= <- <-]. destruct (EvaluateProps.park_shape s o resp) as (r' & m' & ->). done.
Qed.
Lemma count_user f ts i o req p p' :
  ts !! i = Some {| t_oracle := o; t_req := req; t_pc := p |} ->
  count (of_user u f) (<[i := goto {| t_oracle := o; t_req := req; t_pc := p |} p']> ts) =
  count (of_user u f) ts - b2z ((UserID req == u) && f p) + b2z ((UserID req == u) && f p').
Proof. intros Hi. by rewrite (count_insert _ _ _ _ _ Hi). Qed.

Lemma count_past ts i o req p p' :
  ts !! i = Some {| t_oracle := o; t_req := req; t_pc := p |} ->
  begun (<[i := goto {| t_oracle := o; t_req := req; t_pc := p |} p']> ts) =
  begun ts - b2z (past p) + b2z (past p').
Proof. intros Hi. by rewrite (count_insert _ _ _ _ _ Hi). Qed.

Section ThreadStep.
Context (s : Svc) (ts : list thread) (i : nat) (o : Oracle) (req : Request) (vc : Velocity.MemoryCounter).
Context (Hcaps : caps s = Some cfg) (Hvel : velocity s = Some vc) (HM : 0 <= M) (Hcalm : calm ts)
  (Hslots : slots ts <= cap)
  (Hentry : entry_ok (slots ts + pending ts) (M + begun ts) (Velocity.mem vc !! Velocity.key u w)).

Lemma begun_bound : 0 <= M + begun ts < 2^63 - 1.
Proof.
  pose proof (count_length (fun t => past (t_pc t)) ts). pose proof (count_nonneg (fun t => past (t_pc t)) ts).
  destruct Hcalm as [_ Hl]. lia.
Qed.

Lemma window_of p : ts !! i = Some {| t_oracle := o; t_req := req; t_pc := p |} ->
  daily_window o = w /\ t0 <= inc_now o <= t0 + w /\ roll_now o <= t0 + w.
Proof. intros Hi. destruct Hcalm as [Hw _]. by apply (Forall_lookup_1 _ _ _ _ Hw) in Hi. Qed.

Lemma increment_ok s' t' :
  ts !! i = Some {| t_oracle := o; t_req := req; t_pc := AtIncrement |} ->
  tstep s {| t_oracle := o; t_req := req; t_pc := AtIncrement |} = Some (s', t') ->
  limit_ok {| shared := s'; threads := <[i := t']> ts |}.
Proof.
  intros Hi Ht. destruct (window_of _ Hi) as (Hw & Hinc & _). pose proof begun_bound as Hb.
  pose proof (count_nonneg (of_user u may_allow) ts). pose proof (count_nonneg (of_user u must_rollback) ts).
  unfold tstep in Ht. cbn [t_pc t_oracle t_req] in Ht. rewrite Hvel, Hcaps, Hw in Ht.
  cbn [Velocity.Increment Velocity.MemoryCounter_Counter] in Ht. unfold Velocity.mc_increment in Ht.
  fold (found (Velocity.mem vc !! Velocity.key (UserID req) w) (inc_now o)) in Ht.
  injection Ht as <- <-. unfold limit_ok. cbn [shared threads]. split; [done|].
  rewrite !(count_user _ _ _ _ _ _ _ Hi), (count_past _ _ _ _ _ _ Hi).
  cbn [may_allow must_rollback past]. rewrite !andb_false_r. cbn [Velocity.value].
  destruct (decide (UserID req = u)) as [Hu|Hu].
  - rewrite bool_decide_eq_true_2 by done. rewrite Hu.
    destruct (increment_entry _ _ _ _ Hentry ltac:(lia) Hb Hinc) as [Hwrap He].
    pose proof (found_ok _ _ _ (inc_now o) Hentry ltac:(lia) ltac:(lia) ltac:(lia)) as Hf. rewrite Hwrap in He |- *.
    destruct (cap <? _) eqn:Hc; go_bool; cbn [may_allow must_rollback past andb b2z];
      (split; [lia|]); eexists; (split; [reflexivity|]); cbn [Velocity.mem]; rewrite lookup_insert_eq;
      (eapply entry_ok_le; [exact He|lia|lia]).
  - rewrite bool_decide_eq_false_2 by done. cbn [andb b2z]. split; [lia|].
    eexists; split; [reflexivity|]. cbn [Velocity.mem].
    rewrite lookup_insert_ne by (intros [? _]%Velocity.key_inj; done).
    eapply entry_ok_le; [exact Hentry|lia|]. destruct (_ <? _); cbn; lia.
Qed.

Lemma rollback_ok s' t' :
  ts !! i = Some {| t_oracle := o; t_req := req; t_pc := AtRollback |} ->
  tstep s {| t_oracle := o; t_req := req; t_pc := AtRollback |} = Some (s', t') ->
  limit_ok {| shared := s'; threads := <[i := t']> ts |}.
Proof.
  intros Hi Ht. destruct (window_of _ Hi) as (Hw & _ & Hroll). pose proof begun_bound as Hb.
  pose proof (count_nonneg (of_user u may_allow) ts).
  pose proof (count_nonneg (of_user u must_rollback) (<[i := t']> ts)) as Hp.
  unfold tstep in Ht. cbn [t_pc t_oracle t_req] in Ht. rewrite Hvel, Hw in Ht.
  cbn [Velocity.Rollback Velocity.MemoryCounter_Counter] in Ht.
  injection Ht as <- <-. unfold limit_ok. cbn [shared threads]. split; [done|].
  rewrite (count_user _ _ _ _ _ _ _ Hi) in Hp. rewrite !(count_user _ _ _ _ _ _ _ Hi), (count_past _ _ _ _ _ _ Hi).
  unfold deny in Hp |- *. cbn [may_allow must_rollback past v_decision mk_verdict] in Hp |- *.
  change (bool_decide ("deny" = "allow")) with false. rewrite !andb_false_r. rewrite andb_true_r, andb_false_r in Hp.
  rewrite andb_true_r.
  destruct (decide (UserID req = u)) as [Hu|Hu].
  - rewrite bool_decide_eq_true_2 in Hp |- * by done. cbn [b2z] in Hp |- *. split; [lia|].
    eexists; split; [reflexivity|]. rewrite Hu.
    eapply entry_ok_le; [apply (rollback_entry _ _ vc (roll_now o) Hentry); lia|lia|lia].
  - rewrite bool_decide_eq_false_2 in Hp |- * by done. cbn [b2z] in Hp |- *. split; [lia|].
    eexists; split; [reflexivity|]. rewrite rollback_other by done. eapply entry_ok_le; [exact Hentry|lia|lia].
Qed.

Lemma quiet_ok p s' t' :
  ts !! i = Some {| t_oracle := o; t_req := req; t_pc := p |} -> p <> AtIncrement -> p <> AtRollback ->
  tstep s {| t_oracle := o; t_req := req; t_pc := p |} = Some (s', t') ->
  limit_ok {| shared := s'; threads := <[i := t']> ts |}.
Proof.
  intros Hi Hp1 Hp2 Ht. destruct (tstep_frame _ _ _ _ Ht) as (Hc & Hreq & Ho & Hpast).
  destruct (tstep_quiet _ _ _ _ Ht) as (Hv & Hm & Hr); [by rewrite Hvel|done|done|].
  destruct t' as [o' req' p']. cbn [t_req t_oracle t_pc] in *. subst o' req'.
  change {| t_oracle := o; t_req := req; t_pc := p' |} with (goto {| t_oracle := o; t_req := req; t_pc := p |} p').
  assert (must_rollback p = false) as Hr0 by (by destruct p).
  unfold limit_ok. cbn [shared threads]. rewrite Hc, Hv. split; [done|].
  pose proof (count_nonneg (of_user u may_allow) (<[i := goto {| t_oracle := o; t_req := req; t_pc := p |} p']> ts)) as Hn.
  rewrite (count_user _ _ _ _ _ _ _ Hi) in Hn. pose proof (count_nonneg (of_user u must_rollback) ts).
  rewrite !(count_user _ _ _ _ _ _ _ Hi), (count_past _ _ _ _ _ _ Hi). rewrite Hr, Hr0.
  destruct (UserID req == u), (may_allow p) eqn:Ea, (may_allow p') eqn:Ea', (past p) eqn:Eb, (past p') eqn:Eb';
    cbn [andb b2z] in Hn |- *; try (by specialize (Hm eq_refl)); try (by specialize (Hpast eq_refl));
    (split; [lia|]); exists vc; (split; [done|]); (eapply entry_ok_le; [exact Hentry|lia|lia]).
Qed.

End ThreadStep.

Lemma calm_step (c c' : Config) : step c c' -> calm (threads c') -> calm (threads c).
Proof.
  intros Hs [Hw Hl]. destruct Hs as [s ts o req|s ts i t s' t' Hi Ht|s ts s' Hv Hc]; cbn [threads] in *; [| |done].
  - apply Forall_app in Hw as [Hw _]. rewrite length_app in Hl. split; [done|]. lia.
  - rewrite length_insert in Hl. split; [|done]. apply Forall_lookup_2. intros j x Hj.
    destruct (decide (j = i)) as [->|Hne].
    + simplify_eq. destruct (tstep_frame _ _ _ _ Ht) as (_ & _ & Ho & _). rewrite <- Ho.
      apply (Forall_lookup_1 _ _ i t' Hw). rewrite list_lookup_insert_eq; [done|]. by eapply lookup_lt_Some.
    + apply (Forall_lookup_1 _ _ j x Hw). by rewrite list_lookup_insert_ne.
Qed.

Lemma step_ok (c c' : Config) : 0 <= M -> calm (threads c) -> limit_ok c -> step c c' -> limit_ok c'.
Proof.
  intros HM Hcalm Hok Hs. destruct Hs as [s ts o req|s ts i t s' t' Hi Ht|s ts s' Hv Hc];
    destruct Hok as (Hcaps & Hslots & vc & Hvel & He); cbn [shared threads] in *.
  - unfold limit_ok. cbn [shared threads]. rewrite !count_app.
    assert (forall f, count f [start o req] = b2z (f (start o req))) as Hone
      by (intros f; unfold count; cbn [List.filter]; by destruct (f (start o req))).
    rewrite !Hone. unfold of_user. cbn [start t_req t_pc may_allow must_rollback past]. rewrite !andb_false_r.
    cbn [b2z]. rewrite !Z.add_0_r. eauto.
  - destruct t as [o req p]. destruct p; try (by eapply quiet_ok);
      [by eapply increment_ok|by eapply rollback_ok].
  - unfold limit_ok. cbn [shared threads]. rewrite Hv, Hc. eauto.
Qed.

Lemma run_ok (s0 : Svc) vc hist c :
  0 <= M -> caps s0 = Some cfg -> velocity s0 = Some vc -> 0 <= cap ->
  Velocity.bounded_by M vc -> run s0 hist c -> calm (threads c) -> limit_ok c.
Proof.
  intros HM Hcaps Hvel Hcap Hb Hrun. induction Hrun as [|hist c c' Hrun IH Hs]; intros Hcalm.
  - split; [done|]. split; [by unfold count|]. exists vc. split; [done|]. unfold count, entry_ok. simpl.
    destruct (Velocity.mem vc !! Velocity.key u w) as [e|] eqn:He; [|done]. specialize (Hb _ _ He). simpl in Hb. lia.
  - eapply step_ok; [done| |apply IH|done]; by eapply calm_step.
Qed.

End Limit.
(** ** What an allow means under every interleaving *)

Section Earned.
Context `{Fmt} `{Audit.Ed25519}
  {E C WS RS AS K : Type}
  `{Engine.Engine E} `{Velocity.Counter C} `{Whitelist.Store WS} `{Review.Store RS}
  `{Audit.Store AS} `{Audit.Sink K}.

Abbreviation Svc := (Service E C WS RS AS K).
Abbreviation Config := (config E C WS RS AS K).

(** A check was passed in one of the states the server has gone through. *)
Definition session_passed (hist : list Svc) (req : Request) : Prop :=
  exists s cfg, s ∈ hist /\ caps s = Some cfg /\ EvaluateProps.session_ok s req = true /\
    (EvaluateProps.needs_2fa cfg req = true -> Session2FA req = true).
Definition listed_passed (hist : list Svc) (req : Request) : Prop :=
  exists s, s ∈ hist /\ EvaluateProps.dest_listed s req = true.
(** The count after the call's own increment was within the limit, or there is no
    counter. *)
Definition count_passed (hist : list Svc) (o : Oracle) (req : Request) : Prop :=
  exists s, s ∈ hist /\
    (velocity s = None \/ exists cfg, caps s = Some cfg /\ EvaluateProps.over_velocity s o cfg req = false).
Definition engine_passed (hist : list Svc) (req : Request) : Prop :=
  exists s cfg r, s ∈ hist /\ caps s = Some cfg /\ Caps.severity (EvaluateProps.cap_result cfg req) = 0 /\
    EvaluateProps.engine_result s cfg req = inr r /\ Engine.Decision r = "allow".

Definition earned (hist : list Svc) (o : Oracle) (req : Request) : Prop :=
  session_passed hist req /\ listed_passed hist req /\ count_passed hist o req /\ engine_passed hist req.

(** What a call has passed at each point. *)
Definition evidence (hist : list Svc) (o : Oracle) (req : Request) (p : pc) : Prop :=
  match p with
  | Start => True
  | AtWhitelist => session_passed hist req
  | AtIncrement | AtRollback => session_passed hist req /\ listed_passed hist req
  | AtEngine _ => session_passed hist req /\ listed_passed hist req /\ count_passed hist o req
  | AtRules _ _ _ _ d =>
      session_passed hist req /\ listed_passed hist req /\ count_passed hist o req /\
      (d = "allow" -> engine_passed hist req)
  | AtFinalize v => v_decision v = "allow" -> earned hist o req
  | AtEmit resp | AtPark resp => Decision resp = "allow" -> earned hist o req
  | AtReturn out | Done out => EvaluateProps.decided "allow" out = true -> earned hist o req
  end.

Lemma evidence_mono hist s o req p : evidence hist o req p -> evidence (s :: hist) o req p.
Proof.
  assert (session_passed hist req -> session_passed (s :: hist) req) as Hx1
    by (intros (x & cfg & Hx & Hr); exists x, cfg; split; [by right|done]).
  assert (listed_passed hist req -> listed_passed (s :: hist) req) as Hx2
    by (intros (x & Hx & Hr); exists x; split; [by right|done]).
  assert (count_passed hist o req -> count_passed (s :: hist) o req) as Hx4
    by (intros (x & Hx & Hr); exists x; split; [by right|done]).
  assert (engine_passed hist req -> engine_passed (s :: hist) req) as Hx3
    by (intros (x & cfg & r & Hx & Hr); exists x, cfg, r; split; [by right|done]).
  unfold evidence, earned. destruct p; tauto.
Qed.

Lemma auth_inv b r2 s2 :
  Whitelist.OK (Whitelist.CheckSourceAuth b r2 s2) = true -> b = true /\ (r2 = true -> s2 = true).
Proof. by destruct b, r2, s2. Qed.

Lemma evidence_engine hist (s : Svc) cfg o req reasons :
  s ∈ hist -> caps s = Some cfg -> session_passed hist req -> listed_passed hist req -> count_passed hist o req ->
  evidence hist o req (caps_step s cfg req reasons).
Proof.
  intros Hs Hc Hx1 Hx2 Hx4. unfold caps_step. fold (EvaluateProps.cap_result cfg req).
  fold (EvaluateProps.needs_2fa cfg req). fold (EvaluateProps.engine_result s cfg req).
  destruct (Caps.Exceeded (EvaluateProps.cap_result cfg req)) eqn:Hex.
  { intros Hd. cbn in Hd. by destruct (EvaluateProps.cap_decision_not_allow cfg req Hex). }
  destruct (Caps.NearCap (EvaluateProps.cap_result cfg req)) eqn:Hnear; [done|].
  destruct (EvaluateProps.engine_result s cfg req) as [e|r] eqn:Hr; [done|].
  cbn [evidence]. split_and!; [done..|]. intros Hd. exists s, cfg, r. split_and!; try done.
  unfold Caps.severity. by rewrite Hex, Hnear.
Qed.

Lemma evidence_step hist (s s' : Svc) t t' :
  s ∈ hist -> tstep s t = Some (s', t') ->
  evidence hist (t_oracle t) (t_req t) (t_pc t) -> evidence hist (t_oracle t') (t_req t') (t_pc t').
Proof.
  destruct t as [o req p]. intros Hs Ht. unfold tstep in Ht. cbn [t_pc t_oracle t_req] in *.
  destruct p; cbn [evidence].
  - intros _. destruct (validate req); [by simplify_eq|]. destruct (caps s) as [cfg|] eqn:Hc; [|by simplify_eq].
    destruct (Whitelist.OK _) eqn:Hok; injection Ht as <- <-; [|done]. apply auth_inv in Hok as [Hx1 Hx2].
    exists s, cfg. split_and!; done.
  - intros Hx1. destruct (Whitelist.IsWhitelisted _ _ _ _) eqn:Hw; injection Ht as <- <-; [|done].
    assert (listed_passed hist req) by (by exists s). destruct (velocity s) eqn:Hv; cbn; [done|].
    split_and!; [done..|]. exists s. auto.
  - intros [Hx1 Hx2]. destruct (velocity s) as [c|] eqn:Hv; [|by simplify_eq].
    destruct (caps s) as [cfg|] eqn:Hc; [|by simplify_eq].
    destruct (Velocity.Increment _ _ _ _) as [c1 [v e]] eqn:Hi. injection Ht as <- <-. cbn [goto t_pc t_oracle t_req].
    destruct (_ <? v) eqn:Hlt; [done|]. split_and!; [done..|]. exists s. split; [done|]. right. exists cfg.
    split; [done|]. unfold EvaluateProps.over_velocity, EvaluateProps.daily_count. rewrite Hv.
    change (EvaluateProps.day_window (env o)) with (daily_window o). by rewrite Hi.
  - intros Hp. destruct (velocity s) as [c|]; by simplify_eq.
  - intros (Hx1 & Hx2 & Hx4). destruct (caps s) as [cfg|] eqn:Hc; injection Ht as <- <-; [|done]. by apply evidence_engine.
  - intros (Hx1 & Hx2 & Hx4 & Hx3). simplify_eq. destruct todo; cbn; [|done]. intros Hd. unfold earned. auto.
  - intros Hp. by simplify_eq.
  - intros Hp. destruct (emit s o req resp) as [s1 [err|]]; simplify_eq; cbn; [|done]. intros Hd. go_bool. auto.
  - intros Hp. simplify_eq. cbn. intros Hd. go_bool. auto.
  - intros Hp. by simplify_eq.
  - done.
Qed.

Lemma run_evidence (s0 : Svc) hist c :
  run s0 hist c -> shared c ∈ hist /\ Forall (fun t => evidence hist (t_oracle t) (t_req t) (t_pc t)) (threads c).
Proof.
  induction 1 as [|hist c c' Hrun [Hin IH] Hs]; [by split; [left|constructor]|]. split; [by left|].
  assert (Forall (fun t => evidence (shared c' :: hist) (t_oracle t) (t_req t) (t_pc t)) (threads c)) as IH'
    by (eapply Forall_impl; [exact IH|intros t; apply evidence_mono]).
  destruct Hs as [s ts o req|s ts i t s' t' Hi Ht|s ts s' Hv Hc]; cbn [shared threads] in *; [| |done].
  - apply Forall_app. split; [done|]. by constructor.
  - apply Forall_insert; [done|]. apply (evidence_step _ s s' t t'); [by right|done|].
    by apply (Forall_lookup_1 _ _ i t IH').
Qed.

End Earned.

(** ** Properties *)

Section Properties.
Context `{Fmt} `{Audit.Ed25519}
  {E WS RS AS K : Type}
  `{Engine.Engine E} `{Whitelist.Store WS} `{Review.Store RS} `{Audit.Store AS} `{Audit.Sink K}.

(** C17. The daily limit holds under every interleaving: however the steps of any
    number of concurrent calls of all users are ordered (a call may be suspended
    between its increment and its rollback), and whatever the other handlers do
    in between, no more of one user's calls are allowed within the window than
    the configured number. *)
Theorem concurrent_daily_limit (s0 : Service E Velocity.MemoryCounter WS RS AS K) cfg vc u w t0 M hist c :
  let cap := f64_to_int64 (Caps.DefaultDailyCapUSD cfg) in
  caps s0 = Some cfg -> velocity s0 = Some vc -> 0 <= cap -> 0 <= M -> Velocity.bounded_by M vc ->
  run s0 hist c -> M + Z.of_nat (length (threads c)) < 2^63 - 1 ->
  Forall (fun t => EvaluateProps.in_window w t0 (t_oracle t)) (threads c) ->
  count (of_user u (fun p => match p with Done out => EvaluateProps.decided "allow" out | _ => false end))
    (threads c) <= cap.
Proof.
  intros cap Hc Hv Hcap HM Hb Hrun Hl Hw.
  destruct (run_ok cfg u w t0 M s0 vc hist c HM Hc Hv Hcap Hb Hrun) as (_ & Hs & _); [by split|].
  etransitivity; [|exact Hs]. apply count_le. intros t. unfold of_user. intros Ht. go_bool.
  rewrite bool_decide_eq_true_2 by done. by destruct (t_pc t).
Qed.

End Properties.

Section Properties2.
Context `{Fmt} `{Audit.Ed25519}
  {E C WS RS AS K : Type}
  `{Engine.Engine E} `{Velocity.Counter C} `{Whitelist.Store WS} `{Review.Store RS}
  `{Audit.Store AS} `{Audit.Sink K}.

(** The steps are a refinement of the whole call: a call whose steps are not
    interrupted ends, in the state and with the outcome of [Evaluate]. *)
Theorem steps_refine_evaluate (s : Service E C WS RS AS K) o req :
  exists n, alone n s (start o req)
    = (fst (Evaluate s o req), {| t_oracle := o; t_req := req; t_pc := Done (snd (Evaluate s o req)) |}).
Proof. apply reaches_evaluate. Qed.

(** C21. Under every interleaving an allow was earned: for each call that returned
    allow there were states of the run in which its session and second factor
    were accepted, its destination was whitelisted, the daily count after its own
    increment was within the limit (where there is a counter), and the engine
    allowed it with its amount neither above nor near the cap, whatever changed in
    between. *)
Theorem concurrent_allow_earned (s0 : Service E C WS RS AS K) hist c i t out :
  run s0 hist c -> threads c !! i = Some t -> t_pc t = Done out ->
  EvaluateProps.decided "allow" out = true -> earned hist (t_oracle t) (t_req t).
Proof.
  intros Hrun Hi Hp Hd. destruct (run_evidence s0 hist c Hrun) as [_ He].
  apply (Forall_lookup_1 _ _ i t He) in Hi. rewrite Hp in Hi. by apply Hi.
Qed.

End Properties2.

(** ** Schedules *)

Section Schedules.
Context `{Fmt} `{Audit.Ed25519}
  {E C WS RS AS K : Type}
  `{Engine.Engine E} `{Velocity.Counter C} `{Whitelist.Store WS} `{Review.Store RS}
  `{Audit.Store AS} `{Audit.Sink K}.

Abbreviation Svc := (Service E C WS RS AS K).
Abbreviation Config := (config E C WS RS AS K).

(** A new call, a step of a call, and the activation of another policy. *)
Inductive act :=
| Spawn (o : Oracle) (req : Request)
| Go (i : nat)
| SwapEngine (e : E).

Definition set_engine (s : Svc) (e : E) : Svc :=
  {| engine := e; velocity := velocity s; caps := caps s; whitelist := whitelist s; review := review s;
     audit := audit s; metrics := metrics s; sessionValidDefault := sessionValidDefault s |}.

Definition play1 (c : Config) (a : act) : option Config :=
  match a with
  | Spawn o req => Some {| shared := shared c; threads := threads c ++ [start o req] |}
  | Go i => match threads c !! i with
            | Some t => match tstep (shared c) t with
                        | Some (s', t') => Some {| shared := s'; threads := <[i := t']> (threads c) |}
                        | None => None
                        end
            | None => None
            end
  | SwapEngine e => Some {| shared := set_engine (shared c) e; threads := threads c |}
  end.

Fixpoint play (acts : list act) (hc : list Svc * Config) : list Svc * Config :=
  match acts with
  | [] => hc
  | a :: acts' => match play1 (snd hc) a with
                  | Some c' => play acts' (shared c' :: fst hc, c')
                  | None => play acts' hc
                  end
  end.

Lemma play1_step c a c' : play1 c a = Some c' -> step c c'.
Proof.
  destruct c as [s ts]. destruct a as [o req|i|e]; cbn [play1 shared threads].
  - intros [= <-]. constructor.
  - destruct (ts !! i) as [t|] eqn:Hi; [|done]. destruct (tstep s t) as [[s' t']|] eqn:Ht; [|done].
    intros [= <-]. by econstructor.
  - intros [= <-]. by constructor.
Qed.

Lemma play_run s0 acts hc :
  run s0 (fst hc) (snd hc) -> run s0 (fst (play acts hc)) (snd (play acts hc)).
Proof.
  revert hc. induction acts as [|a acts IH]; intros hc Hr; [done|]. cbn [play].
  destruct (play1 (snd hc) a) as [c'|] eqn:Ha; [|by apply IH]. apply IH. cbn [fst snd].
  econstructor; [exact Hr|]. by eapply play1_step.
Qed.

Definition run_of (s0 : Svc) (acts : list act) : list Svc * Config :=
  play acts ([s0], {| shared := s0; threads := [] |}).

Lemma run_of_run s0 acts : run s0 (fst (run_of s0 acts)) (snd (run_of s0 acts)).
Proof. apply play_run. constructor. Qed.

End Schedules.

(** ** Witnesses *)

Abbreviation SampleEngine := (@Engine.OPAEngine Engine.sample_opa).
Abbreviation SampleRun := (@run_of Audit.sample_fmt Audit.sample_ed SampleEngine Velocity.MemoryCounter
  Whitelist.MemoryStore Review.MemoryStore Audit.MemoryStore Audit.MemorySink _ _ _ _ _).

(** Three calls of one user with a limit of two: all of them increment before the
    one that is above the limit rolls back. *)
Definition sample_acts : list (@act SampleEngine) :=
  ((fun c => Spawn (fst c) (snd c)) <$> EvaluateProps.sample_calls) ++
  [Go 0; Go 1; Go 2; Go 0; Go 1; Go 2; Go 0; Go 1; Go 2] ++ concat (repeat [Go 2; Go 1; Go 0] 9).

Definition outcome_of (t : thread) : string :=
  match t_pc t with Done (Returned r _) => Decision r | _ => "" end.

Example sample_interleaving :
  outcome_of <$> threads (snd (SampleRun (EvaluateProps.sample_with EvaluateProps.sample_cfg2 "allow") sample_acts))
  = ["allow"; "allow"; "deny"].
Proof. vm_compute. reflexivity. Qed.

Definition sample_end := SampleRun (EvaluateProps.sample_with EvaluateProps.sample_cfg2 "allow") sample_acts.

Lemma concurrent_daily_limit_witness :
  count (of_user "usr_1" (fun p => match p with Done out => EvaluateProps.decided "allow" out | _ => false end))
    (threads (snd sample_end)) <= 2.
Proof.
  apply (@concurrent_daily_limit Audit.sample_fmt Audit.sample_ed SampleEngine Whitelist.MemoryStore
    Review.MemoryStore Audit.MemoryStore Audit.MemorySink _ _ _ _
    (EvaluateProps.sample_with EvaluateProps.sample_cfg2 "allow") EvaluateProps.sample_cfg2
    Velocity.NewMemoryCounter "usr_1" Velocity.WindowDay 10 0 (fst sample_end) (snd sample_end));
    [reflexivity|reflexivity|vm_compute; discriminate|done|apply map_Forall_empty|apply run_of_run
    |vm_compute; reflexivity|].
  assert (t_oracle <$> threads (snd sample_end) = fst <$> EvaluateProps.sample_calls) as Ho by (vm_compute; reflexivity).
  apply (proj1 (Forall_fmap t_oracle (EvaluateProps.in_window Velocity.WindowDay 10) _)). rewrite Ho.
  unfold EvaluateProps.in_window. cbn [fmap list_fmap EvaluateProps.sample_calls fst].
  rewrite !Forall_cons, Forall_nil. split_and!; try (vm_compute; reflexivity); try (vm_compute; discriminate); done.
Defined.

Definition sample_thread : thread := default (start (EvaluateProps.sample_oracle 0 "") (EvaluateProps.sample_req ""))
  (threads (snd sample_end) !! 0%nat).

Lemma concurrent_allow_earned_witness : earned (fst sample_end) (t_oracle sample_thread) (t_req sample_thread).
Proof.
  assert (exists out, t_pc sample_thread = Done out /\ EvaluateProps.decided "allow" out = true) as (out & Hp & Hd).
  { eexists. split; vm_compute; reflexivity. }
  apply (@concurrent_allow_earned Audit.sample_fmt Audit.sample_ed SampleEngine Velocity.MemoryCounter
    Whitelist.MemoryStore Review.MemoryStore Audit.MemoryStore Audit.MemorySink _ _ _ _ _
    (EvaluateProps.sample_with EvaluateProps.sample_cfg2 "allow") (fst sample_end) (snd sample_end) 0
    sample_thread out); [apply run_of_run| |done|done].
  unfold sample_thread. destruct (threads (snd sample_end) !! 0%nat) as [t|] eqn:Ht; [done|].
  exfalso. apply (f_equal (fun x => bool_decide (is_Some x))) in Ht. vm_compute in Ht. discriminate.
Defined.

(** The version of a response is read after the decision was taken: a policy
    activated in between gives its version to a decision it did not take. *)
Definition sample_other : SampleEngine := @Engine.NewOPAEngine Engine.sample_opa (Engine.sample_bundle "v2" "deny").

Example version_race :
  (fun t => match t_pc t with
            | Done (Returned r _) => (Decision r, PolicyVersion r, Version <$> elems (AppliedRules r))
            | _ => ("", "", [])
            end) <$>
  threads (snd (SampleRun (EvaluateProps.sample_svc "allow")
    ([Spawn (EvaluateProps.sample_oracle 10 "dec_1") (EvaluateProps.sample_req "100.00")] ++
     repeat (Go 0) 6 ++ [SwapEngine sample_other] ++ repeat (Go 0) 4)))
  = [("allow", "v2", [""; "v1"])].
Proof. vm_compute. reflexivity. Qed.

End Concurrent.
