(* ===== verification/RedisConcurrent.v ===== *)
(** * The Redis counter under concurrent calls
    ([internal/velocity/redis.go], and its use in [internal/evaluate/evaluate.go])

    Any number of replicas of the service share one Redis server, and what is
    atomic is a command: between the INCR and the EXPIRE of one [Increment], and
    between an [Increment] and its [Rollback], the commands of other calls are
    executed and time passes.  Here the velocity check of a call is a thread of
    such commands; every attempt of the client at one is a step, and may fail
    before or after the server has executed it, whereupon the client may send the
    command again.

    Run alone it is [Evaluate.check_velocity] on a [RedisCounter].  ([main.go] of
    this version wires the in-memory counter; see [Startup].) *)
From Stdlib Require Import ZArith Lia Ascii String SpecFloat.
From stdpp Require Import base gmap strings list.
From S2P Require Import Prelude GoLib Float64 Sha256 Json.
From S2P Require Import Caps Velocity Redis Whitelist Review AuditLog Metrics Engine Evaluate.

Open Scope Z_scope.
Open Scope go_scope.

Module RedisConcurrent.
Import Velocity Redis.

(** ** Calls *)

(** Where a velocity check is: before the INCR, between INCR and EXPIRE with the
    count it was told, before the script of the rollback, or done. *)
Inductive place :=
| AtIncr
| AtExpire (v : Z)
| AtScript
| Passed (v : Z)
| Over.

(** [undone] is how often the server has executed the call's rollback script. *)
Record caller := { user : string; at_ : place; undone : nat }.

Definition joined (u : string) : caller := {| user := u; at_ := AtIncr; undone := 0 |}.
Definition move (c : caller) (p : place) : caller := {| user := user c; at_ := p; undone := undone c |}.
Definition undo (c : caller) : caller := {| user := user c; at_ := at_ c; undone := S (undone c) |}.

Section Steps.
Context {R : Type} `{RedisServer R}.
Context (limit : Z) (w : Window).

(** The comparison of the evaluate service; an error of the counter is dropped,
    and the count that comes with it is 0. *)
Definition checked (v : Z) : place := if limit <? v then AtScript else Passed v.

Definition executed (f : option fault) : bool := match f with Some (NotExecuted _) => false | _ => true end.

(** One attempt of a call at its next command, which meets the fault [f]; [again]
    says that the client sends the command once more after an error. *)
Definition command (r : R) (now : time) (f : option fault) (again : bool) (c : caller) : option (R * caller) :=
  match at_ c with
  | AtIncr =>
      match attempt f (fun r => cmd_incr r now (key (user c) w)) r with
      | (r', inl _) => Some (r', if again then c else move c (checked 0))
      | (r', inr v) => Some (r', move c (AtExpire v))
      end
  | AtExpire v =>
      match attempt f (fun r => cmd_expire r now (key (user c) w) w) r with
      | (r', inl _) => Some (r', if again then c else move c (checked v))
      | (r', inr _) => Some (r', move c (checked v))
      end
  | AtScript =>
      let c' := if executed f then undo c else c in
      match attempt f (rollback_script now (key (user c) w)) r with
      | (r', inl _) => Some (r', if again then c' else move c' Over)
      | (r', inr _) => Some (r', move c' Over)
      end
  | Passed _ | Over => None
  end.

(** ** Interleavings *)

(** [tries] counts the attempts of all calls. *)
Record world := { server : R; clock : time; tries : nat; callers : list caller }.

Definition start (r : R) (t : time) : world := {| server := r; clock := t; tries := 0; callers := [] |}.

(** A new call of some user, or the next attempt of a call, executed at a later
    time; [faulty] says whether attempts may fail. *)
Inductive step (faulty : bool) : world -> world -> Prop :=
| step_join r t n cs u :
    step faulty {| server := r; clock := t; tries := n; callers := cs |}
      {| server := r; clock := t; tries := n; callers := cs ++ [joined u] |}
| step_command r t n cs i c now f again r' c' :
    cs !! i = Some c -> t <= now -> (faulty = false -> f = None) -> command r now f again c = Some (r', c') ->
    step faulty {| server := r; clock := t; tries := n; callers := cs |}
      {| server := r'; clock := now; tries := S n; callers := <[i := c']> cs |}.

Inductive reach (faulty : bool) (x0 : world) : world -> Prop :=
| reach_start : reach faulty x0 x0
| reach_step x x' : reach faulty x0 x -> step faulty x x' -> reach faulty x0 x'.

(** ** Counting calls *)

Definition of_user (u : string) (f : caller -> bool) (c : caller) : bool := (user c == u) && f c.

Definition passed (c : caller) : bool := match at_ c with Passed _ => true | _ => false end.

(** A call whose increment failed passes with the count 0. *)
Definition unseen (c : caller) : bool := match at_ c with Passed v => v =? 0 | _ => false end.

Definition finished (c : caller) : bool := match at_ c with Passed _ | Over => true | _ => false end.

(** How often the rollbacks of a user's calls were executed beyond the first
    time. *)
Definition surplus (u : string) (c : caller) : Z := if user c == u then Z.of_nat (Nat.pred (undone c)) else 0.
Definition extra (u : string) (cs : list caller) : Z := foldr (fun c n => surplus u c + n) 0 cs.

(** A counted call that passes; one that is above the limit and has yet to take
    its increment back. *)
Definition holds (c : caller) : bool :=
  match at_ c with AtExpire v => v <=? limit | Passed v => negb (v =? 0) | _ => false end.
Definition owes (c : caller) : bool :=
  match at_ c with AtExpire v => limit <? v | AtScript => (undone c =? 0)%nat | _ => false end.

End Steps.

(** ** The limit *)

Lemma extra_insert u cs i c c' :
  cs !! i = Some c -> extra u (<[i := c']> cs) = extra u cs - surplus u c + surplus u c'.
Proof.
  revert i. induction cs as [|x cs IH]; intros [|i] Hi; simplify_eq/=; [lia|]. rewrite (IH i Hi). lia.
Qed.

Lemma extra_app u cs cs' : extra u (cs ++ cs') = extra u cs + extra u cs'.
Proof. induction cs as [|x cs IH]; simpl; lia. Qed.

Lemma surplus_nonneg u c : 0 <= surplus u c.
Proof. unfold surplus. destruct (_ == _); lia. Qed.

Section Limit.
Context {R : Type} `{RedisOk R}.
Context (limit : Z) (w : Window) (u : string) (t0 : time) (faulty : bool).
Context (Hlimit : 0 <= limit) (Hw : 0 < w) (Hsec : w mod second = 0).

Abbreviation slots := (count (of_user u (holds limit))).
Abbreviation owed := (count (of_user u (owes limit))).

(** The user's key holds [n] and lives as long as the window. *)
Definition kept (r : R) (t : time) (n : Z) : Prop :=
  (entry r t (key u w) = None /\ n = 0) \/
  exists d, entry r t (key u w) = Some (Itoa n, d) /\ match d with Some d => t0 + w <= d | None => True end.

Lemma kept_later r t t' n : kept r t n -> t <= t' -> t' < t0 + w -> kept r t' n.
Proof.
  intros Hk Ht Hl. pose proof (entry_later r t t' (key u w) Ht) as He.
  destruct Hk as [[Hn ->]|(d & Hd & Hdl)]; [left; by rewrite Hn in He|]. right. exists d. rewrite Hd in He.
  destruct d as [d|]; [|done]. destruct He as [He _]. split; [apply He; lia|done].
Qed.

(** The commands of others leave the key alone. *)
Lemma attempt_other {A} r f now (cmd : R -> R * (string + A)) :
  entry (fst (cmd r)) now (key u w) = entry r now (key u w) ->
  entry (fst (attempt f cmd r)) now (key u w) = entry r now (key u w).
Proof. by destruct f as [[|]|]. Qed.

Lemma command_user r now f again c r' c' :
  command (R := R) limit w r now f again c = Some (r', c') -> user c' = user c.
Proof.
  unfold command. destruct (at_ c); try done; destruct (attempt _ _ _) as [? [?|?]]; intros [= <- <-];
    destruct again, (executed f); done.
Qed.

Lemma command_other r now f again c r' c' :
  user c <> u -> command limit w r now f again c = Some (r', c') ->
  entry r' now (key u w) = entry r now (key u w).
Proof.
  intros Hu. assert (key u w <> key (user c) w) as Hk by (intros [? _]%key_inj; congruence).
  unfold command. destruct (at_ c); try done.
  - pose proof (attempt_other r f now (fun r => cmd_incr r now (key (user c) w))) as Ho.
    destruct (attempt _ _ _) as [r1 [e|v]]; intros [= <- <-]; (apply Ho; by apply incr_other).
  - pose proof (attempt_other r f now (fun r => cmd_expire r now (key (user c) w) w)) as Ho.
    destruct (attempt _ _ _) as [r1 [e|x]]; intros [= <- <-]; (apply Ho; by apply expire_other).
  - pose proof (attempt_other r f now (rollback_script now (key (user c) w))) as Ho.
    destruct (attempt _ _ _) as [r1 [e|x]]; intros [= <- <-]; (apply Ho; apply script_other; [congruence|lia]).
Qed.

(** The commands of the user's calls. *)
Lemma incr_kept r now n :
  kept r now n -> 0 <= n < 2^63 - 1 ->
  exists r', cmd_incr r now (key u w) = (r', inr (n + 1)) /\ kept r' now (n + 1).
Proof.
  intros [[He ->]|(d & He & Hd)] Hn.
  - destruct (incr_none r now _ He) as (r' & Hi & He'). exists r'. split; [done|]. right. by exists None.
  - destruct (incr_some r now _ n d He) as (r' & Hi & He'); [lia|]. exists r'. split; [done|]. right. by exists d.
Qed.

Lemma expire_kept r now n : kept r now n -> t0 <= now ->
  exists r', cmd_expire r now (key u w) w = (r', inr tt) /\ kept r' now n.
Proof.
  intros [[He ->]|(d & He & Hd)] Ht.
  - destruct (expire_none r now _ w He) as (r' & Hx & He'). exists r'. split; [done|]. by left.
  - destruct (expire_ok r now _ _ d w He Hw Hsec) as (r' & Hx & He').
    exists r'. split; [done|]. right. exists (Some (now + w)). split; [done|]. lia.
Qed.

(** The script takes one off, and never goes below 0. *)
Lemma script_kept r now n : kept r now n -> 0 <= n < 2^63 ->
  exists r', rollback_script now (key u w) r = (r', inr (Z.max 0 (n - 1))) /\ kept r' now (Z.max 0 (n - 1)).
Proof.
  intros [[He ->]|(d & He & Hd)] Hn.
  - destruct (decr_none r now _ He) as (r1 & Hx & _). destruct (script_clamp r now _ r1 Hx) as (r2 & Hs & He2).
    exists r2. split; [done|]. right. by exists None.
  - destruct (decr_some r now _ n d He) as (r1 & Hx & He'); [lia|]. destruct (decide (n = 0)) as [->|Hne].
    + destruct (script_clamp r now _ r1 Hx) as (r2 & Hs & He2). exists r2. split; [done|]. right. by exists None.
    + exists r1. rewrite Z.max_r by lia. split; [by apply script_pos; [|lia]|]. right. by exists d.
Qed.

(** An attempt at a command that takes the key from [n] to [m]. *)
Lemma attempt_kept {A} r f now n m (cmd : R -> R * (string + A)) r1 a :
  cmd r = (r1, inr a) -> kept r now n -> kept r1 now m ->
  exists r' x, attempt f cmd r = (r', x) /\ kept r' now (if executed f then m else n) /\
    match f with None => x = inr a | Some _ => exists e, x = inl e end.
Proof. intros Hc Hn Hm. destruct f as [[|]|]; cbn; rewrite ?Hc; eexists _, _; split_and!; eauto. Qed.

(** ** Invariant *)

Definition placed (c : caller) : Prop :=
  match at_ c with
  | AtIncr => undone c = 0%nat
  | AtExpire v => 1 <= v /\ undone c = 0%nat
  | AtScript => faulty = false -> undone c = 0%nat
  | Passed v => undone c = 0%nat /\ (faulty = false -> 1 <= v)
  | Over => faulty = false -> (undone c <= 1)%nat
  end.

Definition sound (x : world (R := R)) : Prop :=
  t0 <= clock x /\ slots (callers x) <= limit + extra u (callers x) /\
  Forall (fun c => user c = u -> placed c) (callers x) /\
  exists n, kept (server x) (clock x) n /\
    slots (callers x) + owed (callers x) <= n + extra u (callers x) /\ 0 <= n <= Z.of_nat (tries x) /\
    (faulty = false -> n = slots (callers x) + owed (callers x)).

(** What a call holds and owes, less what it has taken off too often. *)
Definition weight (c : caller) : Z := b2z (holds limit c) + b2z (owes limit c) - Z.of_nat (Nat.pred (undone c)).

(** What one attempt does to the key and to the counts of its caller. *)
Definition own_step (n : Z) (c : caller) (r' : R) (now : time) (c' : caller) : Prop :=
  exists m, kept r' now m /\ placed c' /\ 0 <= m <= n + 1 /\
    weight c' - weight c <= m - n /\
    (faulty = false -> b2z (owes limit c) <= n -> m - n = weight c' - weight c) /\
    (b2z (holds limit c') = b2z (holds limit c) + 1 -> m <= limit) /\
    b2z (holds limit c') <= b2z (holds limit c) + 1 /\ (undone c <= undone c')%nat.

Lemma incr_own r now f again c r' c' n :
  user c = u -> at_ c = AtIncr -> placed c -> kept r now n -> 0 <= n < 2^63 - 1 -> (faulty = false -> f = None) ->
  command limit w r now f again c = Some (r', c') -> own_step n c r' now c'.
Proof.
  intros Hu Ha Hp Hk Hn Hf Hc. unfold command in Hc. rewrite Ha, Hu in Hc.
  destruct (incr_kept r now n Hk) as (r1 & Hi & Hk1); [lia|].
  destruct (attempt_kept r f now n (n + 1) (fun r => cmd_incr r now (key u w)) r1 (n + 1) Hi Hk Hk1)
    as (r2 & x & Hat & Hk2 & Hx). rewrite Hat in Hc. unfold placed in Hp. rewrite Ha in Hp.
  assert (checked limit 0 = Passed 0) as Hz by (unfold checked; by rewrite (proj2 (Z.ltb_ge _ _)) by lia).
  exists (if executed f then n + 1 else n). unfold weight, holds, owes, placed. destruct f as [ft|].
  - destruct Hx as [e ->]. rewrite Hz in Hc. assert (faulty = true) as -> by (destruct faulty; [done|]; by specialize (Hf eq_refl)).
    destruct again; injection Hc as <- <-; cbn [at_ undone move]; rewrite Ha, ?Hp; destruct (executed _); cbn; split_and!; done || lia.
  - subst x. injection Hc as <- <-. cbn [at_ undone move executed] in *. rewrite Ha, Hp.
    destruct (n + 1 <=? limit) eqn:Hx1, (limit <? n + 1) eqn:Hx2; go_bool; cbn; split_and!; done || lia.
Qed.

Lemma expire_own r now f again c r' c' n v :
  user c = u -> at_ c = AtExpire v -> placed c -> kept r now n -> 0 <= n -> t0 <= now ->
  command limit w r now f again c = Some (r', c') -> own_step n c r' now c'.
Proof.
  intros Hu Ha Hp Hk Hn Ht Hc. unfold command in Hc. rewrite Ha, Hu in Hc.
  destruct (expire_kept r now n Hk Ht) as (r1 & Hi & Hk1).
  destruct (attempt_kept r f now n n (fun r => cmd_expire r now (key u w) w) r1 tt Hi Hk Hk1)
    as (r2 & x & Hat & Hk2 & Hx). rewrite Hat in Hc.
  assert (kept r2 now n) as Hk' by (by destruct (executed f)).
  assert (c' = c \/ c' = move c (checked limit v)) as Hc' by (destruct x, again; injection Hc as <- <-; auto).
  assert (r' = r2) as -> by (by destruct x; injection Hc).
  exists n. split; [done|]. unfold placed in *. rewrite Ha in Hp. destruct Hp as [Hv Hun]. destruct Hc' as [->| ->].
  { rewrite Ha. unfold weight. split_and!; done || lia. }
  unfold weight, holds, owes, checked. cbn [at_ undone move]. rewrite Ha, Hun.
  destruct (limit <? v) eqn:Hx2; go_bool.
  - rewrite (proj2 (Z.leb_gt _ _)) by lia. cbn. split_and!; lia || done.
  - rewrite (proj2 (Z.leb_le _ _)), (proj2 (Z.eqb_neq _ _)) by lia. cbn. split_and!; lia || done.
Qed.

Lemma script_own r now f again c r' c' n :
  user c = u -> at_ c = AtScript -> placed c -> kept r now n -> 0 <= n < 2^63 -> (faulty = false -> f = None) ->
  command limit w r now f again c = Some (r', c') -> own_step n c r' now c'.
Proof.
  intros Hu Ha Hp Hk Hn Hf Hc. unfold command in Hc. rewrite Ha, Hu in Hc.
  destruct (script_kept r now n Hk) as (r1 & Hi & Hk1); [lia|].
  destruct (attempt_kept r f now n _ (rollback_script now (key u w)) r1 _ Hi Hk Hk1) as (r2 & x & Hat & Hk2 & Hx).
  rewrite Hat in Hc. unfold placed in Hp. rewrite Ha in Hp.
  set (c1 := if executed f then undo c else c) in Hc.
  assert (r' = r2) as -> by (by destruct x; injection Hc).
  exists (if executed f then Z.max 0 (n - 1) else n). split; [done|].
  assert (c' = move c1 Over \/ (faulty = true /\ c' = c1)) as Hc'.
  { destruct x as [e|a]; injection Hc as <-; [|by left]. destruct again; [right|by left]. split; [|done].
    destruct faulty; [done|]. rewrite Hf in Hx by done. done. }
  clear Hc Hx. unfold c1 in Hc'. clear c1. unfold weight, holds, owes, placed.
  destruct Hc' as [->|[Hfa ->]]; [|rewrite Hfa in *]; destruct (executed f) eqn:Hex; cbn [at_ undone move undo]; rewrite ?Ha;
    destruct (undone c) as [|j] eqn:Hj; cbn [Nat.eqb Nat.pred b2z]; split_and!; try done; try lia.
  all: intros Hfa; specialize (Hp Hfa); try done; try lia.
  rewrite (Hf Hfa) in Hex. done.
Qed.

Lemma command_own r now f again c r' c' n :
  user c = u -> placed c -> kept r now n -> 0 <= n < 2^63 - 1 -> t0 <= now -> (faulty = false -> f = None) ->
  command limit w r now f again c = Some (r', c') -> own_step n c r' now c'.
Proof.
  intros Hu Hp Hk Hn Ht Hf Hc. destruct (at_ c) as [|v| |v|] eqn:Ha.
  - by eapply incr_own.
  - eapply expire_own; try done. lia.
  - eapply script_own; try done. lia.
  - unfold command in Hc. by rewrite Ha in Hc.
  - unfold command in Hc. by rewrite Ha in Hc.
Qed.

Lemma count_move f cs i c c' :
  cs !! i = Some c -> user c' = user c ->
  count (of_user u f) (<[i := c']> cs) =
  count (of_user u f) cs - b2z ((user c == u) && f c) + b2z ((user c == u) && f c').
Proof. intros Hi Hu. rewrite (count_insert _ _ _ _ _ Hi). unfold of_user. by rewrite Hu. Qed.

Lemma join_sound r t n cs u' :
  sound {| server := r; clock := t; tries := n; callers := cs |} ->
  sound {| server := r; clock := t; tries := n; callers := cs ++ [joined u'] |}.
Proof.
  intros (Ht & Hs & Hp & m & Hk & Hn & He). unfold sound. cbn [server clock tries callers] in *.
  assert (forall f, f (joined u') = false -> count f (cs ++ [joined u']) = count f cs) as Hc.
  { intros f Hf. rewrite count_app. unfold count at 2. simpl. rewrite Hf. simpl. lia. }
  rewrite !Hc by (unfold of_user; cbn; by rewrite ?andb_false_r).
  assert (extra u (cs ++ [joined u']) = extra u cs) as ->
    by (rewrite extra_app; cbn; unfold surplus; cbn; destruct (_ == _); lia).
  split_and!; [done|done| |eauto]. apply Forall_app. split; [done|]. by constructor.
Qed.

Lemma command_sound r t k cs i c now f again r' c' :
  sound {| server := r; clock := t; tries := k; callers := cs |} -> cs !! i = Some c -> t <= now ->
  (faulty = false -> f = None) -> command limit w r now f again c = Some (r', c') ->
  now < t0 + w -> Z.of_nat k < 2^63 - 1 ->
  sound {| server := r'; clock := now; tries := S k; callers := <[i := c']> cs |}.
Proof.
  intros (Ht & Hs & Hp & n & Hk & Hle & Hn & He) Hi Hnow Hf Hc Hend Hlen. unfold sound. cbn [server clock tries callers] in *.
  apply (kept_later _ _ now) in Hk; [|done|done]. pose proof (command_user _ _ _ _ _ _ _ Hc) as Hus.
  pose proof (count_nonneg (of_user u (holds limit)) cs) as Hc0.
  pose proof (count_nonneg (of_user u (owes limit)) (<[i := c']> cs)) as Hpos.
  pose proof (count_lookup (of_user u (owes limit)) cs i c Hi) as Ho. unfold of_user at 1 in Ho.
  rewrite (count_move _ _ _ _ _ Hi Hus) in Hpos. rewrite !(count_move _ _ _ _ _ Hi Hus), (extra_insert _ _ _ _ _ Hi).
  unfold surplus. rewrite Hus. destruct (decide (user c = u)) as [Hu|Hu].
  - rewrite bool_decide_eq_true_2 in Hpos, Ho |- * by done. cbn [andb] in Hpos, Ho |- *.
    destruct (command_own r now f again c r' c' n Hu) as (m & Hk' & Hpl & Hm & Hwt & Heq & Hlim & Hone & Hund); try done; try lia.
    { by apply (Forall_lookup_1 _ _ i c Hp). }
    unfold weight in *. split; [lia|]. split.
    { destruct (Z.eq_dec (b2z (holds limit c')) (b2z (holds limit c) + 1)) as [Hx|Hx]; [specialize (Hlim Hx)|]; lia. }
    split; [apply Forall_insert; [done|]; intros _; done|].
    exists m. split; [done|]. split; [lia|]. split; [lia|]. intros Hfa. specialize (He Hfa). specialize (Heq Hfa).
    assert (forall c, user c = u -> placed c -> Nat.pred (undone c) = 0%nat) as Hund0.
    { intros c1 _ Hp1. unfold placed in Hp1. destruct (at_ c1); intuition (lia || congruence). }
    rewrite (Hund0 c') in Heq by (done || congruence).
    rewrite (Hund0 c) in Heq by (done || by apply (Forall_lookup_1 _ _ i c Hp)). lia.
  - rewrite bool_decide_eq_false_2 in Hpos |- * by done. cbn [andb b2z] in Hpos |- *. split; [lia|]. split; [lia|].
    split; [apply Forall_insert; [done|]; intros Hx; congruence|].
    exists n. split; [|split; [lia|split; [lia|]]].
    + unfold kept. by rewrite (command_other r now f again c r' c' Hu Hc).
    + intros Hfa. rewrite (He Hfa). lia.
Qed.

Lemma step_mono x x' : step (R := R) limit w faulty x x' -> clock x <= clock x' /\ (tries x <= tries x')%nat.
Proof. intros [r t n cs v|r t n cs i c now f again r' c' Hi Ht Hf Hc]; cbn; lia. Qed.

Lemma reach_sound r0 x :
  entry r0 t0 (key u w) = None -> reach limit w faulty (start r0 t0) x ->
  clock x < t0 + w -> Z.of_nat (tries x) < 2^63 - 1 -> sound x.
Proof.
  intros Hr Hx. induction Hx as [|x x' Hx IH Hs]; intros Hc Hl.
  - unfold sound, start. cbn [server clock tries callers]. change (extra u []) with 0. rewrite !Z.add_0_r.
    split; [lia|]. split; [exact Hlimit|]. split; [done|]. exists 0. split; [by left|]. done.
  - destruct (step_mono x x' Hs) as [Hm1 Hm2]. specialize (IH ltac:(lia) ltac:(lia)).
    destruct Hs as [r t n cs v|r t n cs i c now f again r' c' Hi Ht Hf Hcmd]; [by apply join_sound|].
    cbn [clock tries] in *. apply (command_sound r t n cs i c now f again r' c'); try done. lia.
Qed.

End Limit.

(** ** Properties *)

Section Properties.
Context {R : Type} `{RedisOk R}.

(** C34. The daily limit on a shared Redis server: however the commands of any
    number of calls, of all users and replicas, are interleaved, whichever
    attempts fail before or after they were executed and however often the client
    sends a command again, the calls of a user that pass the check within a window
    that starts with no counter are at most the limit, the calls whose INCR
    failed, and the executions of a rollback beyond its first.  So without such
    failures the check is as strict as it is without concurrency. *)
Theorem redis_daily_limit limit w u t0 faulty (r0 : R) x :
  0 <= limit -> 0 < w -> w mod second = 0 -> entry r0 t0 (key u w) = None ->
  reach limit w faulty (start r0 t0) x -> clock x < t0 + w -> Z.of_nat (tries x) < 2^63 - 1 ->
  count (of_user u passed) (callers x)
    <= limit + count (of_user u unseen) (callers x) + extra u (callers x).
Proof.
  intros Hl Hw Hsec Hr Hx Hc Hn. destruct (reach_sound limit w u t0 faulty Hl Hw Hsec r0 x Hr Hx Hc Hn) as (_ & Hs & _).
  assert (forall cs, count (of_user u passed) cs <= count (of_user u (holds limit)) cs + count (of_user u unseen) cs)
    as Hle; [|specialize (Hle (callers x)); lia].
  unfold count. induction cs as [|c cs IH]; cbn [List.filter length]; [lia|]. revert IH. unfold of_user, passed, holds, unseen.
  destruct (user c == u), (at_ c) as [|v| |v|]; cbn [andb]; try (destruct (v <=? limit));
    try (destruct (v =? 0)); cbn [negb length]; lia.
Qed.

(** A connection without faults. *)
Definition calm : Link := {| faults := fun _ => None; lag := fun _ => 0; retryable := fun _ => false; maxRetries := 3 |}.

Definition conn (r : R) (l : Link) : RedisCounter := {| client := r; prefix := "vel"; sent := 0; link := l |}.

(** Nothing is lost: when no command fails, and every call of a user has ended,
    the counter reads exactly the number of the user's calls that passed, so
    that the calls refused have given their increments back. *)
Theorem redis_counts_passes limit w u t0 (r0 : R) x :
  0 <= limit -> 0 < w -> w mod second = 0 -> entry r0 t0 (key u w) = None ->
  reach limit w false (start r0 t0) x -> clock x < t0 + w -> Z.of_nat (tries x) < 2^63 - 1 ->
  (forall c, c ∈ callers x -> user c = u -> finished c = true) ->
  rc_get (conn (server x) calm) (clock x) u w = (count (of_user u passed) (callers x), None).
Proof.
  intros Hl Hw Hsec Hr Hx Hc Hn Hfin.
  destruct (reach_sound limit w u t0 false Hl Hw Hsec r0 x Hr Hx Hc Hn) as (_ & _ & Hp & n & Hk & _ & Hb & He).
  specialize (He eq_refl).
  assert (n = count (of_user u passed) (callers x)) as <-.
  { rewrite He. clear -Hp Hfin. revert Hp Hfin. generalize (callers x). intros cs. unfold count.
    induction cs as [|c cs IH]; intros Hp Hfin; [done|]. apply Forall_cons in Hp as [Hc Hp].
    assert (forall c', c' ∈ cs -> user c' = u -> finished c' = true) as Hfin' by (intros c' Hc'; apply Hfin; by right).
    specialize (IH Hp Hfin'). specialize (Hfin c ltac:(by left)). cbn [List.filter]. unfold of_user in IH |- *.
    case_bool_decide as Hu; cbn [andb]; [|done]. specialize (Hfin Hu). specialize (Hc Hu).
    unfold placed, finished, holds, owes, passed in *.
    destruct (at_ c) as [|v| |v|]; try done; cbn [length].
    rewrite (proj2 (Z.eqb_neq v 0)) by (destruct Hc as [_ Hc]; specialize (Hc eq_refl); lia). cbn [negb length]. lia. }
  unfold rc_get, get_reply, send. cbn. rewrite Z.add_0_r. change (k (conn (server x) calm) u w) with (key u w).
  rewrite get_ok. destruct Hk as [[-> ->]|(d & -> & _)]; [done|]. cbn [fmap option_fmap option_map fst].
  rewrite Atoi_Itoa by (unfold int64_range; lia). done.
Qed.

End Properties.

(** ** A check alone *)

(** An attempt: its time, its fault, and whether the client tries again. *)
Abbreviation try_ := (time * option fault * bool)%type.

(** The attempts of one call, without interruption. *)
Fixpoint alone {R} `{RedisServer R} (limit : Z) (w : Window) (r : R) (c : caller) (cmds : list try_) : R * caller :=
  match cmds with
  | [] => (r, c)
  | (now, f, again) :: cmds' =>
      match command limit w r now f again c with
      | Some (r', c') => alone limit w r' c' cmds'
      | None => (r, c)
      end
  end.

(** The attempts at one command, up to its answer. *)
Fixpoint replay {R A} (cmd : time -> R -> R * (string + A)) (r : R) (cmds : list try_) : option (R * (string + A)) :=
  match cmds with
  | [] => None
  | (now, f, again) :: cmds' =>
      match attempt f (cmd now) r, again with
      | (r', inl m), true => replay cmd r' cmds'
      | (r', x), _ => match cmds' with [] => Some (r', x) | _ => None end
      end
  end.

Section Alone.
Context {R : Type} `{RedisServer R}.
Context (limit : Z) (w : Window).

Lemma attempts_replay {A} n (c : RedisCounter (R := R)) now (cmd : time -> R -> R * (string + A)) c' t x :
  attempts n c now cmd = (c', (t, x)) ->
  prefix c' = prefix c /\ exists cmds, replay cmd (client c) cmds = Some (client c', x).
Proof.
  revert c now. induction n as [|n IH]; intros c now; cbn [attempts];
    destruct (attempt _ _ _) as [r' [m|a]] eqn:Ha.
  1, 2, 4: intros [= <- <- <-]; split; [done|];
    exists [(now + lag (link c) (sent c), faults (link c) (sent c), false)]; cbn; by rewrite Ha.
  destruct (retryable _ _).
  - intros Hr. destruct (IH _ _ Hr) as [Hp [cmds Hc]]. split; [done|].
    exists ((now + lag (link c) (sent c), faults (link c) (sent c), true) :: cmds). cbn. by rewrite Ha.
  - intros [= <- <- <-]. split; [done|].
    exists [(now + lag (link c) (sent c), faults (link c) (sent c), false)]. cbn. by rewrite Ha.
Qed.

Lemma send_replay {A} (c : RedisCounter (R := R)) now (cmd : time -> R -> R * (string + A)) c' t x :
  send c now cmd = (c', (t, x)) ->
  prefix c' = prefix c /\ exists cmds, replay cmd (client c) cmds
    = Some (client c', match x with inl (Errorf m) => inl m | inl _ => inl "" | inr a => inr a end).
Proof.
  unfold send. destruct (attempts _ _ _ _) as [c1 [t1 y]] eqn:Ha. intros [= <- <- <-].
  apply attempts_replay in Ha as [Hp [cmds Hc]]. split; [done|]. exists cmds. by destruct y.
Qed.

(** The attempts at the command of each place. *)
Lemma alone_incr r u j cmds r' x rest :
  replay (fun t r => cmd_incr r t (key u w)) r cmds = Some (r', x) ->
  alone limit w r {| user := u; at_ := AtIncr; undone := j |} (cmds ++ rest) =
  alone limit w r' {| user := u; at_ := match x with inl _ => checked limit 0 | inr v => AtExpire v end; undone := j |} rest.
Proof.
  revert r. induction cmds as [|[[now f] again] cmds IH]; intros r; [done|]. cbn [replay app alone].
  unfold command. cbn [at_ user]. destruct (attempt _ _ _) as [r1 [m|v]], again; try apply IH;
    by (destruct cmds; [intros [= <- <-]|]).
Qed.

Lemma alone_expire r u j v cmds r' x rest :
  replay (fun t r => cmd_expire r t (key u w) w) r cmds = Some (r', x) ->
  alone limit w r {| user := u; at_ := AtExpire v; undone := j |} (cmds ++ rest) =
  alone limit w r' {| user := u; at_ := checked limit v; undone := j |} rest.
Proof.
  revert r. induction cmds as [|[[now f] again] cmds IH]; intros r; [done|]. cbn [replay app alone].
  unfold command. cbn [at_ user]. destruct (attempt _ _ _) as [r1 [m|y]], again; try apply IH;
    by (destruct cmds; [intros [= <- <-]|]).
Qed.

Lemma alone_script r u j cmds r' x :
  replay (fun t r => rollback_script t (key u w) r) r cmds = Some (r', x) ->
  exists j', alone limit w r {| user := u; at_ := AtScript; undone := j |} cmds
    = (r', {| user := u; at_ := Over; undone := j' |}).
Proof.
  revert r j. induction cmds as [|[[now f] again] cmds IH]; intros r j; [done|]. cbn [replay alone].
  unfold command. cbn [at_ user]. destruct (attempt _ _ _) as [r1 [m|y]], again;
    try (destruct cmds; [intros [= <- <-]; destruct (executed f); by eexists|done]).
  intros Hr. destruct (executed f); by apply IH.
Qed.

(** [Increment], by its attempts. *)
Lemma rc_increment_alone (c : RedisCounter (R := R)) now u c1 v e :
  prefix c = "vel" -> rc_increment c now u w = (c1, (v, e)) ->
  prefix c1 = "vel" /\ exists cmds, forall rest,
    alone limit w (client c) (joined u) (cmds ++ rest)
    = alone limit w (client c1) {| user := u; at_ := checked limit v; undone := 0 |} rest.
Proof.
  intros Hp Hi. unfold rc_increment in Hi. replace (k c u w) with (key u w) in Hi by (unfold k, key; by rewrite Hp).
  destruct (send c now _) as [c0 [t0 x]] eqn:Hs. apply send_replay in Hs as [Hp0 [cmds Hr]].
  destruct x as [e0|v0].
  - injection Hi as <- <- <-. split; [congruence|]. exists cmds. intros rest. apply (alone_incr _ _ 0 _ _ _ rest) in Hr.
    unfold joined. rewrite Hr. by destruct e0.
  - destruct (send c0 t0 _) as [c2 [t2 y]] eqn:Hs2. apply send_replay in Hs2 as [Hp2 [cmds2 Hr2]].
    assert (c1 = c2 /\ v = v0) as [-> ->] by (destruct y; by injection Hi).
    split; [congruence|]. exists (cmds ++ cmds2). intros rest. rewrite <- app_assoc.
    apply (alone_incr _ _ 0 _ _ _ (cmds2 ++ rest)) in Hr. unfold joined. rewrite Hr.
    apply (alone_expire _ _ 0 v0 _ _ _ rest) in Hr2. by rewrite Hr2.
Qed.

Lemma rc_rollback_alone (c : RedisCounter (R := R)) now u :
  prefix c = "vel" ->
  exists cmds j, alone limit w (client c) {| user := u; at_ := AtScript; undone := 0 |} cmds
    = (client (fst (rc_rollback c now u w)), {| user := u; at_ := Over; undone := j |}).
Proof.
  intros Hp. unfold rc_rollback. replace (k c u w) with (key u w) by (unfold k, key; by rewrite Hp).
  destruct (send c now _) as [c0 [t0 x]] eqn:Hs. apply send_replay in Hs as [Hp0 [cmds Hr]].
  exists cmds. apply (alone_script _ _ 0) in Hr as [j Hj]. exists j. rewrite Hj.
  destruct x as [e|n]; [done|]. destruct (n =? 0); [destruct (_ == _)|]; done.
Qed.

End Alone.

Section Refinement.
Context `{Json.Fmt} `{Audit.Ed25519} {R : Type} `{RedisServer R}
  {E WS RS AS K : Type}
  `{Engine.Engine E} `{Whitelist.Store WS} `{Review.Store RS} `{Audit.Store AS} `{Audit.Sink K}.

(** The attempts are a refinement of the check of the evaluate service: what
    [check_velocity] does on a Redis counter, with whatever connection, is what
    some attempts of the call make without interruption, and the call is over the
    limit exactly when that one says so. *)
Theorem redis_check_alone (s : Evaluate.Service E (RedisCounter (R := R)) WS RS AS K) o cfg c u w :
  Evaluate.velocity s = Some c -> prefix c = "vel" ->
  WindowsFromConfig (DefaultConfig (Evaluate.env o)) = w ->
  exists cmds c' p j,
    alone (f64_to_int64 (Caps.DefaultDailyCapUSD cfg)) (snd w) (client c) (joined u) cmds
    = (client c', {| user := u; at_ := p; undone := j |}) /\
    finished {| user := u; at_ := p; undone := j |} = true /\
    Evaluate.check_velocity s o cfg u
    = (Evaluate.set_velocity s (Some c'), match p with Over => true | _ => false end).
Proof.
  intros Hv Hp Hw. unfold Evaluate.check_velocity. rewrite Hv, Hw. destruct w as [[wm wh] day]. cbn [snd].
  cbn [Increment Rollback RedisCounter_Counter]. set (limit := f64_to_int64 _).
  destruct (rc_increment c (Evaluate.inc_now o) u day) as [c1 [v e]] eqn:Hi.
  destruct (rc_increment_alone limit day c _ _ _ _ _ Hp Hi) as (Hp1 & cmds & Ha).
  destruct (limit <? v) eqn:Hc.
  - destruct (rc_rollback_alone limit day c1 (Evaluate.roll_now o) u Hp1) as (cmds2 & j & Hj).
    exists (cmds ++ cmds2), (fst (rc_rollback c1 (Evaluate.roll_now o) u day)), Over, j.
    split_and!; [|done|done]. rewrite Ha. unfold checked. by rewrite Hc.
  - exists cmds, c1, (Passed v), 0%nat. split_and!; [|done|done].
    specialize (Ha []). rewrite app_nil_r in Ha. rewrite Ha. unfold checked. by rewrite Hc.
Qed.

End Refinement.

(** ** Schedules *)

Section Schedules.
Context {R : Type} `{RedisServer R}.

Inductive act :=
| Join (u : string)
| Go (i : nat) (now : time) (f : option fault) (again : bool).

Definition play1 (limit : Z) (w : Window) (x : world (R := R)) (a : act) : option (world (R := R)) :=
  match a with
  | Join u => Some {| server := server x; clock := clock x; tries := tries x; callers := callers x ++ [joined u] |}
  | Go i now f again =>
      match callers x !! i with
      | Some c =>
          if clock x <=? now then
            match command limit w (server x) now f again c with
            | Some (r', c') => Some {| server := r'; clock := now; tries := S (tries x); callers := <[i := c']> (callers x) |}
            | None => None
            end
          else None
      | None => None
      end
  end.

Fixpoint play (limit : Z) (w : Window) (x : world (R := R)) (acts : list act) : world (R := R) :=
  match acts with
  | [] => x
  | a :: acts' => play limit w (default x (play1 limit w x a)) acts'
  end.

Definition quiet (a : act) : bool := match a with Go _ _ (Some _) _ => false | _ => true end.

Lemma play_reach limit w faulty x0 x acts :
  reach limit w faulty x0 x -> (faulty = false -> forallb quiet acts = true) ->
  reach limit w faulty x0 (play limit w x acts).
Proof.
  revert x. induction acts as [|a acts IH]; intros x Hx Hq; [done|]. cbn [play]. apply IH; clear IH.
  2: { intros Hf. specialize (Hq Hf). cbn in Hq. by apply andb_true_iff in Hq as [_ ->]. }
  destruct (play1 limit w x a) as [x'|] eqn:Ha; [|done]. cbn [default]. econstructor; [exact Hx|].
  destruct x as [r t n cs]. destruct a as [u|i now f again]; cbn [play1 server clock tries callers] in Ha.
  - injection Ha as <-. constructor.
  - destruct (cs !! i) as [c|] eqn:Hi; [|done]. destruct (t <=? now) eqn:Ht; [|done].
    destruct (command limit w r now f again c) as [[r' c']|] eqn:Hc; [|done]. injection Ha as <-. go_bool.
    apply (step_command limit w faulty r t n cs i c now f again r' c'); try done.
    intros Hf. specialize (Hq Hf). cbn in Hq. by destruct f.
Qed.

End Schedules.

(** ** Witnesses *)

Abbreviation Server := (gmap string rentry).

Definition go (i : nat) (now : time) : act := Go i now None false.

(** Two replicas: both calls of [u] increment before either sets the expiry, and
    the second one is above the limit of one. *)
Definition sample_acts : list act :=
  [Join "u"; Join "u"; Join "v"; go 0 1; go 1 2; go 2 2; go 1 3; go 0 4; go 2 5; go 1 6].

Definition sample_end : world (R := Server) := play 1 WindowDay (start ∅ 0) sample_acts.

(** With faults: the reply to the second call's rollback is lost and the script
    runs twice; a third call then passes, and a fourth one without being counted. *)
Definition faulty_acts : list act :=
  [Join "u"; Join "u"; go 0 1; go 0 1; go 1 2; go 1 2; Go 1 3 (Some (ReplyLost "EOF")) true; go 1 4;
   Join "u"; go 2 5; go 2 5; Join "u"; Go 3 7 (Some (NotExecuted "EOF")) false].

Definition sample_faulty : world (R := Server) := play 1 WindowDay (start ∅ 0) faulty_acts.

Example sample_places :
  map at_ (callers sample_end) = [Passed 1; Over; Passed 1] /\
  map at_ (callers sample_faulty) = [Passed 1; Over; Passed 1; Passed 0].
Proof. vm_compute. done. Qed.

(** The bound is reached. *)
Lemma redis_daily_limit_witness :
  count (of_user "u" passed) (callers sample_faulty) = 1 + 1 + 1 /\
  count (of_user "u" passed) (callers sample_faulty)
    <= 1 + count (of_user "u" unseen) (callers sample_faulty) + extra "u" (callers sample_faulty).
Proof.
  split; [vm_compute; done|].
  apply (redis_daily_limit 1 WindowDay "u" 0 true (∅ : Server));
    [done|done|done|reflexivity|apply play_reach; [constructor|done]|vm_compute; reflexivity..].
Defined.

Lemma redis_counts_passes_witness :
  rc_get (conn (server sample_end) calm) (clock sample_end) "u" WindowDay
  = (count (of_user "u" passed) (callers sample_end), None).
Proof.
  apply (redis_counts_passes 1 WindowDay "u" 0 (∅ : Server));
    [done|done|done|reflexivity|apply play_reach; [constructor|done]|vm_compute; reflexivity|vm_compute; reflexivity|].
  intros c Hc _. vm_compute in Hc.
  repeat (apply elem_of_cons in Hc as [->|Hc]; [done|]). by apply elem_of_nil in Hc.
Defined.

(** Without any fault but a repeated rollback, two calls pass a limit of one. *)
Example rollback_retried :
  let x := play 1 WindowDay (start (∅ : Server) 0) (take 11 faulty_acts) in
  count (of_user "u" passed) (callers x) = 2 /\ count (of_user "u" unseen) (callers x) = 0 /\
  extra "u" (callers x) = 1.
Proof. vm_compute. done. Qed.

(** INCR and EXPIRE are two commands.  When the key of an earlier window expires
    between them, the EXPIRE finds no key and the increment is lost: three calls
    pass a limit of two within a day.  ([Increment] of the in-memory counter is
    one step.) *)
Example expiry_between_commands :
  let r0 : Server := {[ key "u" WindowDay := ("1", Some 10) ]} in
  let x := play 2 WindowDay (start r0 0)
    [Join "u"; go 0 9; go 0 11; Join "u"; go 1 12; go 1 12; Join "u"; go 2 13; go 2 13] in
  count (of_user "u" passed) (callers x) = 3 /\ count (of_user "u" unseen) (callers x) = 0 /\ clock x < WindowDay.
Proof. vm_compute. done. Qed.

End RedisConcurrent.
