(* ===== verification/HotReload.v ===== *)
(** * Bundle download, poller and hot reloader
    ([internal/engine/bundlepoll.go], [internal/engine/hotreload.go])

    What the HTTP client returns is an input of each fetch.  The polling loops are
    sequences of the events their select statement can take. *)
From Stdlib Require Import ZArith Lia Ascii String SpecFloat.
From stdpp Require Import base gmap strings list.
From S2P Require Import Prelude GoLib Float64 Sha256 Json Engine.

Open Scope Z_scope.
Open Scope go_scope.

Module HotReload.
Import Engine.

(** ** Text of a bundle *)

Definition newline : ascii := "010".

(** [cur] is the current line, reversed. *)
Fixpoint split_go (cur b : string) : list string :=
  match b with
  | EmptyString => flush cur
  | String c b' =>
      if c == newline then String.rev cur :: split_go "" b' else split_go (String c cur) b'
  end.

Definition splitLines (b : string) : list string := split_go "" b.

Fixpoint trimLeftSpace (b : string) : string :=
  match b with
  | String c b' =>
      if (c == " "%char) || (c == "009"%char) || (c == "013"%char) then trimLeftSpace b' else b
  | EmptyString => b
  end.

Definition startsWith (b prefix : string) : bool := HasPrefix b prefix.

(** Blank lines and comment lines are skipped. *)
Definition skipped (line : string) : bool :=
  match trimLeftSpace line with
  | EmptyString => true
  | String c _ => c == "#"%char
  end.

Fixpoint first_line_is_package (lines : list string) : bool :=
  match lines with
  | [] => false
  | l :: ls =>
      if skipped l then first_line_is_package ls else startsWith (trimLeftSpace l) "package "
  end.

Definition isRegoContent (contentType body : string) : bool :=
  if (contentType == "text/plain") || (contentType == "application/octet-stream") then
    first_line_is_package (splitLines body)
  else false.

(** ** Download *)

(** What comes of one GET: the request cannot be built, the client fails, or there
    is a response whose body may fail to be read. *)
Inductive fetch :=
| BuildFailed (e : error)
| DoFailed (e : error)
| Responded (status : Z) (contentType : string) (body : Res string).

Definition staged (contentType body : string) : Bundle :=
  let hash := hex_encode (sha256 body) in
  {| Version := hash; Hash := hash;
     Source := if isRegoContent contentType body then {["staged.rego" := body]} else ∅;
     Data := ∅ |}.

Definition LoadBundleFromURL (f : fetch) (bundleURL : string) : Res Bundle :=
  if bundleURL == "" then inl (Errorf "bundle url is required")
  else match f with
       | BuildFailed e => inl (Wrapf "bundle request" e)
       | DoFailed e => inl (Wrapf "fetch bundle" e)
       | Responded st ct body =>
           if negb (Z.quot st 100 =? 2) then inl (Errorf ("bundle fetch status " +:+ Itoa st))
           else match body with
                | inl e => inl (Wrapf "read bundle" e)
                | inr b => inr (staged ct b)
                end
       end.

Definition envInt (env : environ) (key : string) (def : Z) : Z :=
  let v := env key in
  if v != "" then match Atoi v with Some n => n | None => def end else def.

(** The interval of a loop: the one given, or the one of the environment, in
    seconds, with the multiplication of [time.Duration]. *)
Definition poll_interval (env : environ) (key : string) (interval : duration) : duration :=
  if interval <=? 0 then wrap64 (envInt env key 30 * second) else interval.

Section Reload.
Context `{OPA}.

(** ** Poller *)

(** A nil engine is [None]; the engine is shared, and the poller only reads it. *)
Record Poller := { p_url : string; p_interval : duration; p_engine : option OPAEngine }.

Definition NewPoller (env : environ) (url : string) (interval : duration) (eng : option OPAEngine)
  : Poller :=
  {| p_url := url; p_interval := poll_interval env "OPA_BUNDLE_POLL_INTERVAL" interval;
     p_engine := eng |}.

(** The bundle passed to the callback, if any. *)
Definition pollOnce (p : Poller) (f : fetch) : option Bundle :=
  if p_url p == "" then None
  else match LoadBundleFromURL f (p_url p) with
       | inl _ => None
       | inr b =>
           match p_engine p with
           | Some e => if Hash b == Hash (bundle e) then None else Some b
           | None => Some b
           end
       end.

(** ** HotReloader *)

Record HotReloader := {
  url : string;
  interval : duration;
  engine : option OPAEngine;
  swaps : Z;
  validate : option (Bundle -> option error)
}.

Definition defaultValidate (b : Bundle) : option error :=
  if bool_decide (Source b = ∅) then Some (Errorf "bundle has no rego source")
  else match compileModules (Source b) with
       | inl e => Some e
       | inr _ => None
       end.

Definition NewHotReloader (env : environ) (u : string) (iv : duration) (eng : option OPAEngine)
  : HotReloader :=
  {| url := u; interval := poll_interval env "POLICY_HOT_RELOAD_INTERVAL" iv; engine := eng;
     swaps := 0; validate := Some defaultValidate |}.

Definition WithValidate (h : HotReloader) (fn : option (Bundle -> option error)) : HotReloader :=
  {| url := url h; interval := interval h; engine := engine h; swaps := swaps h; validate := fn |}.

Definition validate_error (h : HotReloader) (b : Bundle) : option error :=
  match validate h with Some v => v b | None => None end.

Definition same_hash (h : HotReloader) (b : Bundle) : bool :=
  match engine h with Some e => Hash b == Hash (bundle e) | None => false end.

Definition swap_in (h : HotReloader) (b : Bundle) : HotReloader :=
  match engine h with
  | Some e => {| url := url h; interval := interval h; engine := Some (Swap e b);
                 swaps := wrap64 (swaps h + 1); validate := validate h |}
  | None => h
  end.

Definition reloadOnce (h : HotReloader) (f : fetch) : HotReloader :=
  if url h == "" then h
  else match LoadBundleFromURL f (url h) with
       | inl _ => h
       | inr b =>
           if same_hash h b then h
           else match validate_error h b with
                | Some _ => h
                | None => swap_in h b
                end
       end.

(** ** The loop *)

(** A choice of the select statement. *)
Inductive event :=
| Tick (f : fetch)
| Stopped
| Cancelled.

Inductive loop_end := Running | Returned | Panicked.

Fixpoint loop (h : HotReloader) (evs : list event) : HotReloader * loop_end :=
  match evs with
  | [] => (h, Running)
  | Tick f :: evs' => loop (reloadOnce h f) evs'
  | Stopped :: _ | Cancelled :: _ => (h, Returned)
  end.

(** [time.NewTicker] panics on an interval that is not positive. *)
Definition run (h : HotReloader) (evs : list event) : HotReloader * loop_end :=
  if interval h <=? 0 then (h, Panicked) else loop h evs.

(** The loop of the poller: the bundles it passes to the callback, in order.
    The poller keeps no state of its own and only reads the engine, which others
    may have changed since the last tick: a choice comes with the engine the
    poller finds. *)
Definition seen (p : Poller) (e : OPAEngine) : Poller :=
  {| p_url := p_url p; p_interval := p_interval p; p_engine := (fun _ => e) <$> p_engine p |}.

Fixpoint poll_loop (p : Poller) (evs : list (OPAEngine * event)) : list Bundle * loop_end :=
  match evs with
  | [] => ([], Running)
  | (e, Tick f) :: evs' =>
      let '(bs, r) := poll_loop p evs' in
      (match pollOnce (seen p e) f with Some b => b :: bs | None => bs end, r)
  | (_, Stopped) :: _ | (_, Cancelled) :: _ => ([], Returned)
  end.

Definition poll_run (p : Poller) (evs : list (OPAEngine * event)) : list Bundle * loop_end :=
  if p_interval p <=? 0 then ([], Panicked) else poll_loop p evs.

(** Every bundle reported is new for the engine found at its tick; a tick that
    finds the same engine and the same answer reports the same bundle again. *)
Lemma poll_loop_reports p evs b :
  p_engine p <> None -> In b (fst (poll_loop p evs)) ->
  exists e f, In (e, Tick f) evs /\ LoadBundleFromURL f (p_url p) = inr b /\ Hash b <> Hash (bundle e).
Proof.
  intros Hne. induction evs as [|[e ev] evs IH]; simpl; [done|].
  destruct ev as [f| |]; [|done..]. destruct (poll_loop p evs) as [bs r] eqn:Hl. simpl in *.
  assert (In b bs -> exists e0 f0, ((e, Tick f) = (e0, Tick f0) \/ In (e0, Tick f0) evs) /\
    LoadBundleFromURL f0 (p_url p) = inr b /\ Hash b <> Hash (bundle e0)) as Hrest
    by (intros Hb; destruct (IH Hb) as (e0 & f0 & ? & ?); eauto 6).
  unfold pollOnce. simpl. case_bool_decide; [done|].
  destruct (LoadBundleFromURL f (p_url p)) as [|b'] eqn:Hload; [done|].
  destruct (p_engine p); [|done]. simpl. case_bool_decide; [done|].
  intros [->|Hb]; [|by apply Hrest]. exists e, f. auto.
Qed.

(** ** Facts *)

Lemma swap_in_ok h b c :
  compileModules (Source b) = inr c ->
  match engine h with
  | Some e => engine (swap_in h b) = Some (Swap e b) /\ coherent (Swap e b) /\
      is_Some (compiled (Swap e b)) /\ bundle (Swap e b) = b
  | None => swap_in h b = h
  end.
Proof.
  intros Hc. unfold swap_in. destruct (engine h) as [e|]; [|done]. simpl.
  pose proof (Swap_coherent e b c Hc) as Hco. unfold Swap in *.
  erewrite rebuild_ok in * by exact Hc. simpl. by eauto.
Qed.

Lemma defaultValidate_ok b :
  defaultValidate b = None -> exists c, compileModules (Source b) = inr c.
Proof.
  unfold defaultValidate. case_bool_decide; [done|].
  destruct (compileModules _) as [|c]; [done|eauto].
Qed.

(** What the reloader keeps: an engine whose policy is the one of the bundle it
    reports, and once there is a compiled policy there always is one. *)
Definition reload_inv (served : Prop) (h : HotReloader) : Prop :=
  validate h = Some defaultValidate /\
  exists e, engine h = Some e /\ coherent e /\ (served -> is_Some (compiled e)).

Lemma reloadOnce_inv served h f : reload_inv served h -> reload_inv served (reloadOnce h f).
Proof.
  intros (Hval & e & He & Hco & Hs). unfold reloadOnce.
  assert (reload_inv served h) as Hh by (split; [done|]; eauto).
  case_bool_decide; [done|]. destruct (LoadBundleFromURL f (url h)) as [|b]; [done|].
  destruct (same_hash h b); [done|]. unfold validate_error. rewrite Hval.
  destruct (defaultValidate b) eqn:Hv; [done|].
  destruct (defaultValidate_ok b Hv) as [c Hc]. pose proof (swap_in_ok h b c Hc) as Hsw.
  rewrite He in Hsw. destruct Hsw as (He' & Hco' & Hs' & _). split.
  - unfold swap_in. by rewrite He.
  - eauto.
Qed.

Lemma loop_inv served h evs : reload_inv served h -> reload_inv served (fst (loop h evs)).
Proof.
  revert h. induction evs as [|[f| |] evs IH]; intros h Hh; simpl; try done.
  apply IH. by apply reloadOnce_inv.
Qed.

(** One poll in full: the engine changes exactly when a 2xx response brings a
    readable Rego text whose hash is not the active one and which compiles. *)
Lemma reloadOnce_cases h f e :
  validate h = Some defaultValidate -> engine h = Some e ->
  (reloadOnce h f = h) \/
  (exists st ct body c, f = Responded st ct (inr body) /\ Z.quot st 100 = 2 /\
     isRegoContent ct body = true /\ hex_encode (sha256 body) <> Hash (bundle e) /\
     compileModules (Source (staged ct body)) = inr c /\
     reloadOnce h f = swap_in h (staged ct body)).
Proof.
  intros Hval He. unfold reloadOnce. case_bool_decide; [auto|].
  destruct (LoadBundleFromURL f (url h)) as [|b] eqn:Hl; [auto|].
  unfold LoadBundleFromURL in Hl. rewrite bool_decide_eq_false_2 in Hl by done.
  destruct f as [| |st ct [|body]]; try done; destruct (Z.quot st 100 =? 2) eqn:Hst; simplify_eq/=.
  unfold same_hash, validate_error. rewrite He, Hval. case_bool_decide as Hh; [auto|].
  destruct (defaultValidate _) eqn:Hv; [auto|]. right.
  destruct (defaultValidate_ok _ Hv) as [c Hc].
  assert (isRegoContent ct body = true) as Hrego.
  { unfold defaultValidate, staged in Hv. simpl in Hv. by destruct (isRegoContent ct body). }
  go_bool. exists st, ct, body, c. done.
Qed.

End Reload.

(** ** The first significant line *)

Lemma first_line_tail l ls ls' :
  first_line_is_package ls = first_line_is_package ls' ->
  first_line_is_package (l :: ls) = first_line_is_package (l :: ls').
Proof. intros Heq. simpl. by rewrite Heq. Qed.

(** The hand-written splitter and [strings.Split] differ only in a last empty
    line, which the search for the package clause skips. *)
Lemma split_go_Split cur b h t :
  Split newline b = h :: t ->
  first_line_is_package (split_go cur b) = first_line_is_package ((String.rev cur +:+ h) :: t).
Proof.
  revert cur h t. induction b as [|c b IH]; intros cur h t; simpl Split; simpl split_go.
  - intros [= <- <-]. rewrite string_app_nil_r. by destruct cur.
  - destruct (Split_cons newline b) as (h' & t' & Hb). rewrite Hb. case_bool_decide.
    + intros [= <- <-]. rewrite string_app_nil_r. apply first_line_tail. by rewrite (IH "" h' t' Hb).
    + intros [= <- <-]. rewrite (IH _ h' t' Hb), rev_cons, string_app_assoc. done.
Qed.

Lemma first_line_spec ls :
  first_line_is_package ls = true <->
  exists pre l post, ls = pre ++ l :: post /\ Forall (fun x => skipped x = true) pre /\
    skipped l = false /\ startsWith (trimLeftSpace l) "package " = true.
Proof.
  induction ls as [|l ls IH]; simpl.
  { split; [done|]. intros (pre & ? & ? & ? & _). by destruct pre. }
  destruct (skipped l) eqn:Hl.
  - rewrite IH. split.
    + intros (pre & x & post & -> & Hp & ?). exists (l :: pre), x, post. split; [done|]. split; [by constructor|done].
    + intros ([|l' pre] & x & post & [= -> ->] & Hp & Hx & ?); [congruence|].
      exists pre, x, post. by inversion Hp.
  - split.
    + intros Hs. exists [], l, ls. done.
    + intros ([|l' pre] & x & post & [= -> ->] & Hp & Hx & ?); [done|]. inversion Hp. congruence.
Qed.

(** ** Properties *)

(** A downloaded text counts as Rego exactly when its content type is one of
    the two accepted ones and its first line that is neither blank nor a comment
    starts with a package clause. *)
Theorem rego_detection contentType body :
  isRegoContent contentType body = true <->
  contentType ∈ ["text/plain"; "application/octet-stream"] /\
  exists pre l post, Split newline body = pre ++ l :: post /\
    Forall (fun x => skipped x = true) pre /\ skipped l = false /\
    HasPrefix (trimLeftSpace l) "package " = true.
Proof.
  unfold isRegoContent. rewrite !elem_of_cons, elem_of_nil.
  destruct (_ || _) eqn:Hct.
  - unfold splitLines. destruct (Split_cons newline body) as (h & t & Hb).
    rewrite (split_go_Split "" body h t Hb), Hb. simpl String.rev. rewrite first_line_spec.
    apply orb_true_iff in Hct as [Hct|Hct]; go_bool; naive_solver.
  - go_bool. naive_solver.
Qed.

(** C15. Whatever the bundle server answers, and however long the loop runs, the
    reloader leaves an engine that decides with the policy of exactly the bundle
    it reports, and it never takes a working policy out of service. *)
Theorem reload_keeps_engine_coherent `{OPA} env u iv b evs :
  let h := NewHotReloader env u iv (Some (NewOPAEngine b)) in
  exists e, engine (fst (run h evs)) = Some e /\
    (forall input, eng_Evaluate e input =
       match compileModules (Source (bundle e)) with
       | inr c => evaluate_with c (NewFromObject (normalizeData (Data (bundle e)))) input
       | inl err => inl (Wrapf "compile" err)
       end) /\
    ((exists c, compileModules (Source b) = inr c) -> is_Some (compiled e)).
Proof.
  cbn zeta. set (served := exists c, compileModules (Source b) = inr c).
  assert (reload_inv served (NewHotReloader env u iv (Some (NewOPAEngine b)))) as Hinv.
  { split; [done|]. eexists. split; [done|]. split; [apply NewOPAEngine_coherent|].
    intros [c Hc]. unfold NewOPAEngine. erewrite rebuild_ok by exact Hc. by eexists. }
  assert (reload_inv served (fst (run (NewHotReloader env u iv (Some (NewOPAEngine b))) evs)))
    as (_ & e & He & Hco & Hs).
  { unfold run. destruct (_ <=? 0); [done|]. by apply loop_inv. }
  exists e. split_and!; [done| |done]. intros input. simpl. unfold Evaluate, coherent in *.
  destruct (compileModules (Source (bundle e))) as [err|c] eqn:Hc.
  - unfold policy_of. by rewrite Hco, Hc.
  - by rewrite Hco.
Qed.

(** C22. One poll changes the engine exactly in one case: a 2xx response whose
    body is Rego text with a hash other than the active one and which compiles.
    The engine then runs that text, the version is its SHA-256, and the swap
    counter goes up by one.  A failed download, another status, an unreadable,
    unrecognized, unchanged or broken bundle changes nothing. *)
Theorem reload_swaps_only_good_bundles `{OPA} h f e :
  validate h = Some defaultValidate -> engine h = Some e -> 
  reloadOnce h f = h \/
  exists st ct body c e', f = Responded st ct (inr body) /\ Z.quot st 100 = 2 /\
    isRegoContent ct body = true /\ Hash (bundle e) <> hex_encode (sha256 body) /\
    compileModules {["staged.rego" := body]} = inr c /\
    engine (reloadOnce h f) = Some e' /\ swaps (reloadOnce h f) = wrap64 (swaps h + 1) /\
    eng_Version e' = hex_encode (sha256 body) /\
    forall input, eng_Evaluate e' input = evaluate_with c (NewFromObject ∅) input.
Proof.
  intros Hval He. destruct (reloadOnce_cases h f e Hval He)
    as [?|(st & ct & body & c & -> & Hst & Hr & Hh & Hc & Hre)]; [auto|]. right.
  rewrite Hre. unfold staged in Hc. simpl in Hc. rewrite Hr in Hc.
  exists st, ct, body, c, (Swap e (staged ct body)). unfold swap_in. rewrite He.
  assert (compileModules (Source (staged ct body)) = inr c) as Hc' by (unfold staged; simpl; by rewrite Hr).
  unfold Swap. erewrite rebuild_ok by exact Hc'. by split_and!.
Qed.

(** A reload is idempotent: answering the next poll with the same response
    changes nothing more, so the policy is not swapped again and again. *)
Theorem reload_idempotent `{OPA} h f e :
  validate h = Some defaultValidate -> engine h = Some e ->
  reloadOnce (reloadOnce h f) f = reloadOnce h f.
Proof.
  intros Hval He. destruct (reloadOnce_cases h f e Hval He)
    as [Hsame|(st & ct & body & c & -> & Hst & Hr & Hh & Hc & Hre)]; [by rewrite !Hsame|].
  rewrite Hre. unfold reloadOnce, swap_in. rewrite He. simpl. case_bool_decide; [done|].
  unfold LoadBundleFromURL. simpl. rewrite bool_decide_eq_false_2 by done.
  rewrite Hst. simpl. unfold same_hash. simpl. unfold Swap.
  erewrite rebuild_ok by exact Hc. simpl. by rewrite bool_decide_eq_true_2.
Qed.

(** A reloader over the sample policy language, and a good answer. *)
Definition sample_reloader : @HotReloader sample_opa :=
  @NewHotReloader sample_opa (fun _ => "") "http://bundles" 0
    (Some (@NewOPAEngine sample_opa (sample_bundle "v1" "allow"))).

Definition sample_fetch : fetch := Responded 200 "text/plain" (inr "package policy.decisions").

Lemma reload_swaps_only_good_bundles_witness :
  swaps (@reloadOnce sample_opa sample_reloader sample_fetch) = 1 /\
  (@reloadOnce sample_opa sample_reloader sample_fetch = sample_reloader \/
   exists st ct body c e', sample_fetch = Responded st ct (inr body) /\ Z.quot st 100 = 2 /\
    isRegoContent ct body = true /\ "v1" <> hex_encode (sha256 body) /\
    @compileModules sample_opa {["staged.rego" := body]} = inr c /\
    engine (@reloadOnce sample_opa sample_reloader sample_fetch) = Some e' /\
    swaps (@reloadOnce sample_opa sample_reloader sample_fetch) = wrap64 (0 + 1) /\
    eng_Version e' = hex_encode (sha256 body) /\
    forall input, eng_Evaluate e' input = @evaluate_with sample_opa c (NewFromObject ∅) input).
Proof.
  split; [vm_compute; reflexivity|].
  apply (@reload_swaps_only_good_bundles sample_opa sample_reloader sample_fetch
    (@NewOPAEngine sample_opa (sample_bundle "v1" "allow"))); reflexivity.
Defined.

Lemma reload_idempotent_witness :
  @reloadOnce sample_opa (reloadOnce sample_reloader sample_fetch) sample_fetch =
  reloadOnce sample_reloader sample_fetch.
Proof.
  apply (@reload_idempotent sample_opa sample_reloader sample_fetch
    (@NewOPAEngine sample_opa (sample_bundle "v1" "allow"))); reflexivity.
Defined.

End HotReload.
