(* ===== verification/Loops.v ===== *)
(** * Starting and stopping the reload loop
    ([Start], [Stop] and [run] of [internal/engine/hotreload.go]; those of the
    poller in [bundlepoll.go] are the same)

    The loop runs in a goroutine of its own; [Stop] closes a channel the loop
    selects on and waits for another one that the loop closes when it ends.  The
    calls and the choices of the loop are events, in any order: when a tick and
    the closed channel are both ready, [select] may take either. *)
From Stdlib Require Import ZArith Lia Ascii String.
From stdpp Require Import base gmap strings list.
From S2P Require Import Prelude GoLib Sha256 Json Engine HotReload.

Open Scope Z_scope.
Open Scope go_scope.

Module Loops.
Import Json Engine HotReload.

Section Loops.
Context `{OPA}.

(** The reloader, its goroutines, its two channels, the context, the calls of
    [Stop] that wait and those that have returned, and whether the process has
    panicked. *)
Record reloader := {
  hot : HotReloader;
  goroutines : nat;
  stopCh : bool;
  stoppedCh : bool;
  ctx_done : bool;
  waiting : nat;
  returned : nat;
  crashed : bool
}.

Definition idle (h : HotReloader) : reloader :=
  {| hot := h; goroutines := 0; stopCh := false; stoppedCh := false; ctx_done := false; waiting := 0;
     returned := 0; crashed := false |}.

Definition set_hot (r : reloader) (h : HotReloader) : reloader :=
  {| hot := h; goroutines := goroutines r; stopCh := stopCh r; stoppedCh := stoppedCh r; ctx_done := ctx_done r;
     waiting := waiting r; returned := returned r; crashed := crashed r |}.
Definition set_goroutines (r : reloader) (n : nat) (stopped crash : bool) : reloader :=
  {| hot := hot r; goroutines := n; stopCh := stopCh r; stoppedCh := stopped; ctx_done := ctx_done r;
     waiting := waiting r; returned := returned r; crashed := crash |}.
Definition set_stops (r : reloader) (closed : bool) (w n : nat) : reloader :=
  {| hot := hot r; goroutines := goroutines r; stopCh := closed; stoppedCh := stoppedCh r; ctx_done := ctx_done r;
     waiting := w; returned := n; crashed := crashed r |}.
Definition set_done (r : reloader) : reloader :=
  {| hot := hot r; goroutines := goroutines r; stopCh := stopCh r; stoppedCh := stoppedCh r; ctx_done := true;
     waiting := waiting r; returned := returned r; crashed := crashed r |}.

(** [time.NewTicker] panics on an interval that is not positive. *)
Definition Start (r : reloader) : reloader :=
  set_goroutines r (S (goroutines r)) (stoppedCh r) (interval (hot r) <=? 0).

Definition Stop (r : reloader) : reloader := set_stops r true (S (waiting r)) (returned r).

Definition Stop_returns (r : reloader) : option reloader :=
  match waiting r with
  | S n => if stoppedCh r then Some (set_stops r (stopCh r) n (S (returned r))) else None
  | O => None
  end.

(** The deferred close of a channel that is closed already panics. *)
Definition exit (r : reloader) : option reloader :=
  match goroutines r with
  | S n => if ctx_done r || stopCh r then Some (set_goroutines r n true (stoppedCh r)) else None
  | O => None
  end.

Definition tick (r : reloader) (f : fetch) : option reloader :=
  match goroutines r with S _ => Some (set_hot r (reloadOnce (hot r) f)) | O => None end.

Inductive event := EStart | EStop | EReturn | ECancel | ETick (f : fetch) | EExit.

Definition next (r : reloader) (e : event) : option reloader :=
  if crashed r then None else
  match e with
  | EStart => Some (Start r)
  | EStop => Some (Stop r)
  | EReturn => Stop_returns r
  | ECancel => Some (set_done r)
  | ETick f => tick r f
  | EExit => exit r
  end.

Fixpoint runs (r : reloader) (es : list event) : option reloader :=
  match es with
  | [] => Some r
  | e :: es' => match next r e with Some r' => runs r' es' | None => None end
  end.

Definition is_start (e : event) : bool := match e with EStart => true | _ => false end.

(** ** Invariant *)

(** While the process runs, each goroutine that was started runs or has closed
    the channel; a call of [Stop] returns only when it is closed. *)
Record loop_ok (starts : Z) (r : reloader) : Prop := {
  lo_count : crashed r = false -> Z.of_nat (goroutines r) + b2z (stoppedCh r) = starts;
  lo_crash : crashed r = true -> interval (hot r) <= 0 \/ 1 < starts;
  lo_returned : (0 < returned r)%nat -> stoppedCh r = true;
  lo_waiting : (0 < waiting r)%nat -> stopCh r = true
}.

Lemma reloadOnce_interval h f : interval (reloadOnce h f) = interval h.
Proof. unfold reloadOnce, swap_in. repeat case_match; done. Qed.

Lemma next_loop_ok starts r e r' :
  loop_ok starts r -> next r e = Some r' -> loop_ok (starts + b2z (is_start e)) r'.
Proof.
  intros [H1 H2 H3 H4]. unfold next. destruct (crashed r) eqn:Hc; [done|]. specialize (H1 eq_refl).
  destruct e; cbn [is_start b2z]; rewrite ?Z.add_0_r.
  - intros [= <-]. split; cbn; try done; [lia|]. intros Hi. left. lia.
  - intros [= <-]. split; cbn; try done. congruence.
  - unfold Stop_returns. destruct (waiting r) as [|n] eqn:Hw; [done|]. destruct (stoppedCh r) eqn:Hs; [|done].
    intros [= <-]. split; cbn; try done; try congruence; rewrite ?Hs; try done. intros _. apply H4. lia.
  - intros [= <-]. split; cbn; try done. congruence.
  - unfold tick. destruct (goroutines r) as [|n] eqn:Hg; [done|]. intros [= <-].
    split; cbn; rewrite ?reloadOnce_interval, ?Hg; try done. congruence.
  - unfold exit. destruct (goroutines r) as [|n] eqn:Hg; [done|]. destruct (_ || _); [|done]. intros [= <-].
    split; cbn; try done.
    + intros Hs. rewrite Hs in H1. cbn in H1. lia.
    + intros Hs. rewrite Hs in H1. cbn in H1. right. lia.
Qed.

Lemma runs_loop_ok starts r es r' :
  loop_ok starts r -> runs r es = Some r' -> loop_ok (starts + count is_start es) r'.
Proof.
  revert starts r. induction es as [|e es IH]; intros starts r Hr; cbn [runs].
  - intros [= <-]. by rewrite Z.add_0_r.
  - destruct (next r e) as [r1|] eqn:Hn; [|done]. intros Hs.
    pose proof (IH _ _ (next_loop_ok _ _ _ _ Hr Hn) Hs) as Hok.
    replace (starts + count is_start (e :: es)) with (starts + b2z (is_start e) + count is_start es); [done|].
    unfold count. cbn [List.filter]. destruct (is_start e); cbn [b2z length]; lia.
Qed.

Lemma idle_loop_ok h : loop_ok 0 (idle h).
Proof. split; cbn; try done; lia. Qed.

(** ** Properties *)

(** [Stop] is final: of a reloader that was started once, no reload takes place
    after a call of [Stop] has returned, so that the engine stays as it is. *)
Theorem stop_is_final h es r f :
  runs (idle h) es = Some r -> count is_start es <= 1 -> (0 < returned r)%nat -> next r (ETick f) = None.
Proof.
  intros Hr Hs Hret. destruct (runs_loop_ok 0 _ _ _ (idle_loop_ok h) Hr) as [H1 _ H3 _].
  unfold next. destruct (crashed r); [done|]. specialize (H1 eq_refl). rewrite (H3 Hret) in H1. cbn in H1.
  unfold tick. destruct (goroutines r) as [|n]; [done|]. lia.
Qed.

(** A call of [Stop] on a reloader that was started once, with a positive
    interval, returns as soon as the loop takes its exit. *)
Theorem stop_returns h es r :
  0 < interval (hot r) -> runs (idle h) es = Some r -> count is_start es = 1 -> (0 < waiting r)%nat ->
  exists es' r', runs r es' = Some r' /\ returned r' = S (returned r) /\ (length es' <= 2)%nat.
Proof.
  intros Hi Hr Hs Hw. destruct (runs_loop_ok 0 _ _ _ (idle_loop_ok h) Hr) as [H1 H2 H3 H4].
  destruct (crashed r) eqn:Hc; [destruct (H2 eq_refl); lia|]. specialize (H1 eq_refl). specialize (H4 Hw).
  destruct (waiting r) as [|n] eqn:Hn; [lia|]. destruct (stoppedCh r) eqn:Hst.
  - exists [EReturn]. cbn [runs]. unfold next, Stop_returns. rewrite Hc, Hn, Hst. eexists. split; [reflexivity|]. split; [done|]. cbn. lia.
  - cbn in H1. destruct (goroutines r) as [|g] eqn:Hg; [lia|].
    exists [EExit; EReturn]. cbn [runs]. unfold next at 1, exit. rewrite Hc, Hg, H4, orb_true_r. unfold next.
    cbn [crashed set_goroutines]. rewrite Hst. unfold Stop_returns. cbn. rewrite Hn. eexists. split; [reflexivity|]. split; [done|]. lia.
Qed.

(** [Stop] on a reloader that was never started waits for ever. *)
Theorem stop_without_start h es r :
  runs (idle h) es = Some r -> count is_start es = 0 -> next r EReturn = None.
Proof.
  intros Hr Hs. destruct (runs_loop_ok 0 _ _ _ (idle_loop_ok h) Hr) as [H1 _ _ _]. unfold next.
  destruct (crashed r); [done|]. specialize (H1 eq_refl). unfold Stop_returns. destruct (waiting r); [done|].
  destruct (stoppedCh r); [cbn in H1; lia|done].
Qed.

End Loops.

(** ** Concrete runs *)

Definition sample_loop (es : list event) : option (nat * bool) :=
  (fun r => (returned r, crashed r)) <$> runs (idle (@NewHotReloader sample_opa (fun _ => "") "" 0 None)) es.

(** A second [Start] makes the end of the loops close a closed channel. *)
Example loops_ex :
  map sample_loop
    [ [EStart; EStop; EExit; EReturn]; [EStart; EStop; EStop; EExit; EReturn; EReturn]; [EStart; ECancel; EExit; EStop; EReturn];
      [EStop; EReturn]; [EStart; EStart; EStop; EExit; EExit] ]
  = [ Some (1%nat, false); Some (2%nat, false); Some (1%nat, false); None; Some (0%nat, true) ].
Proof. vm_compute. reflexivity. Qed.

End Loops.
