(* ===== verification/Auth.v ===== *)
(** * Bearer-token authentication of the REST API ([internal/api/auth.go])

    The base64 decoding of the token is modelled.  The results hold for every
    [Decoder] of the decoded header and payload, of which [Unmarshal] has the one
    of the library, and for every answer of the key server behind
    [JWT_JWKS_URL]. *)
From Stdlib Require Import ZArith Lia Ascii String SpecFloat.
From stdpp Require Import base gmap strings list.
From S2P Require Import Prelude GoLib Float64 Sha256 Json Engine.

Open Scope Z_scope.
Open Scope go_scope.

Module Auth.
Import Json Engine.

(** ** base64.RawURLEncoding *)

Definition b64_val (c : ascii) : option Z :=
  let n := code c in
  if in_range 65 90 c then Some (n - 65)
  else if in_range 97 122 c then Some (n - 71)
  else if is_digit c then Some (n + 4)
  else if n =? 45 then Some 62
  else if n =? 95 then Some 63
  else None.

(** The 6-bit values of the text; carriage returns and newlines are skipped. *)
Fixpoint b64_vals (s : string) : option (list Z) :=
  match s with
  | EmptyString => Some []
  | String c s' =>
      if (code c =? 10) || (code c =? 13) then b64_vals s'
      else match b64_val c, b64_vals s' with
           | Some v, Some vs => Some (v :: vs)
           | _, _ => None
           end
  end.

(** Groups of four values are three bytes; a last group of three or two values
    is two or one bytes, and a single left-over value is an error. *)
Fixpoint b64_bytes (vs : list Z) : option (list Z) :=
  match vs with
  | a :: b :: c :: d :: vs' =>
      match b64_bytes vs' with
      | Some l => Some (a * 4 + b / 16 :: (b mod 16) * 16 + c / 4 :: (c mod 4) * 64 + d :: l)
      | None => None
      end
  | [a; b; c] => Some [a * 4 + b / 16; (b mod 16) * 16 + c / 4]
  | [a; b] => Some [a * 4 + b / 16]
  | [_] => None
  | [] => Some []
  end.

Definition DecodeString (s : string) : Res string :=
  match b64_vals s with
  | Some vs => match b64_bytes vs with
               | Some l => inr (of_bytes l)
               | None => inl (Errorf "illegal base64 data")
               end
  | None => inl (Errorf "illegal base64 data")
  end.

Example decode_ex : DecodeString "eyJrIjoxfQ" = inr ("{" +:+ String "034" ("k" +:+ String "034" ":1}")).
Proof. vm_compute. reflexivity. Qed.

(** ** Data *)

Record Claims := {
  Sub : string;
  Iss : string;
  Aud : any;
  Scope : string;
  Scopes : list string;
  Exp : Z;
  Iat : Z
}.

(** The resolver tells whether the key id can be resolved: the key it returns is
    never used.  [None] is the nil resolver. *)
Record AuthConfig := {
  JWTIssuer : string;
  JWTAudience : string;
  JWKSURL : string;
  AdminScopes : list string;
  jwksResolver : option (string -> option error)
}.

(** Decoding of the header (its key id) and of the claims, the text of a number,
    and the quoted form of a string ([%q]); the instance is
    [Unmarshal.token_decoder]. *)
Class Decoder := {
  dec_header : string -> Res string;
  dec_claims : string -> Res Claims;
  sprint_float : float64 -> string;
  sprint_quoted : string -> string
}.

Definition envOr (env : environ) (key def : string) : string :=
  let v := env key in if v != "" then v else def.

(** ** Key lookup *)

(** What comes of one GET of the key set: a client error, or a status with the
    key ids of the decoded body. *)
Inductive jwks_answer :=
| JwksFailed (e : error)
| JwksResponse (status : Z) (body : Res (list string)).

Definition fetchJWKS `{Decoder} (serve : string -> jwks_answer) (url kid : string) : option error :=
  if url == "" then Some (Errorf "jwks url not configured")
  else match serve url with
       | JwksFailed e => Some e
       | JwksResponse st body =>
           if negb (Z.quot st 100 =? 2) then Some (Errorf ("jwks status " +:+ Itoa st))
           else match body with
                | inl e => Some e
                | inr kids =>
                    if existsb (fun k => k == kid) kids then None
                    else Some (Errorf ("kid " +:+ sprint_quoted kid +:+ " not found in jwks"))
                end
       end.

Definition NewAuthConfig `{Decoder} (env : environ) (serve : string -> jwks_answer) : AuthConfig :=
  let url := envOr env "JWT_JWKS_URL" "" in
  {| JWTIssuer := envOr env "JWT_ISSUER" "";
     JWTAudience := envOr env "JWT_AUDIENCE" "";
     JWKSURL := url;
     AdminScopes := Split " " (envOr env "JWT_ADMIN_SCOPES" "policy:admin policy:review");
     jwksResolver := if url != "" then Some (fetchJWKS serve url) else None |}.

(** A nil configuration is [None]. *)
Definition Enabled (c : option AuthConfig) : bool :=
  match c with Some c => JWTIssuer c != "" | None => false end.

(** ** Requests and admin paths *)

(** A request: the unescaped segments of its path (the last one is empty for a
    path with a trailing slash), whether the path is not in the form
    [net/http] cleans it to, query parameters, headers and body. *)
Record http_request := {
  Method : string;
  Segments : list string;
  Unclean : bool;
  Query : string -> string;
  Authorization : string;
  Body : Res string
}.

(** [r.URL.Path], the unescaped path. *)
Definition Path (r : http_request) : string := "/" +:+ join "/" (Segments r).

Definition isAdminPath (r : http_request) : bool :=
  let path := Path r in
  if Method r == "POST" then
    if (path == "/v1/policy/rules") || (path == "/v1/policy/whitelist") then true
    else if HasPrefix path "/v1/policy/whitelist/" && HasSuffix path "/verify" then true
    else if HasPrefix path "/v1/policy/review/" && HasSuffix path "/resolve" then true
    else false
  else false.

(** ** Claims *)

Definition HasAnyScope (c : Claims) (required : list string) : bool :=
  let have := Scopes c ++ (if Scope c != "" then Fields (Scope c) else []) in
  existsb (fun r => bool_decide (r ∈ have)) required.

Section Validate.
Context `{Decoder}.

(** [fmt.Sprint] of a decoded value. *)
Fixpoint sprint (v : any) : string :=
  match v with
  | ANil => "<nil>"
  | ABool b => enc_bool b
  | AString s => s
  | AFloat x => sprint_float x
  | AInt n => Itoa n
  | ANumber t => t
  | AArray l => "[" +:+ join " " (sprint <$> l) +:+ "]"
  | AObject kvs =>
      "map[" +:+ join " " ((fun kv => fst kv +:+ ":" +:+ snd kv) <$>
        sort_keys ((fix go (l : list (string * any)) : list (string * string) :=
          match l with [] => [] | (k, x) :: l' => (k, sprint x) :: go l' end) kvs)) +:+ "]"
  end.

Definition audienceContains (aud : any) (want : string) : bool :=
  match aud with
  | AString v => v == want
  | AArray l => existsb (fun s => sprint s == want) l
  | _ => false
  end.

(** [time.Unix(sec, 0)]: the seconds since year 1 are an [int64]. *)
Definition unix_time (sec : Z) : time := (wrap64 (sec + 62135596800) - 62135596800) * second.

Definition check_claims (c : AuthConfig) (now : time) (kid : string) (claims : Claims) : Res Claims :=
  if Iss claims != JWTIssuer c then
    inl (Errorf ("issuer mismatch: got " +:+ sprint_quoted (Iss claims) +:+ " want "
                  +:+ sprint_quoted (JWTIssuer c)))
  else if (JWTAudience c != "") && negb (audienceContains (Aud claims) (JWTAudience c)) then
    inl (Errorf "audience mismatch")
  else if (0 <? Exp claims) && (unix_time (Exp claims) <? now) then inl (Errorf "token expired")
  else match jwksResolver c with
       | Some resolve =>
           if kid != "" then
             match resolve kid with
             | Some err => inl (Wrapf "jwks lookup" err)
             | None => inr claims
             end
           else inr claims
       | None => inr claims
       end.

Definition wrap {A} (ctx : string) (r : Res A) : Res A :=
  match r with inl e => inl (Wrapf ctx e) | inr x => inr x end.

Definition parseAndValidate (c : AuthConfig) (now : time) (token : string) : Res Claims :=
  match Split "." token with
  | [p0; p1; _] =>
      let? headerJSON := wrap "decode header" (DecodeString p0) in
      let? kid := wrap "parse header" (dec_header headerJSON) in
      let? payloadJSON := wrap "decode payload" (DecodeString p1) in
      let? claims := wrap "parse claims" (dec_claims payloadJSON) in
      check_claims c now kid claims
  | _ => inl (Errorf "malformed jwt: expected 3 parts")
  end.

Definition validateBearer (c : AuthConfig) (now : time) (r : http_request) : Res Claims :=
  let authHeader := Authorization r in
  if authHeader == "" then inl (Errorf "missing authorization header")
  else if negb (HasPrefix authHeader "Bearer ") then
    inl (Errorf "authorization header must be Bearer")
  else
    let token := TrimSpace (TrimPrefix authHeader "Bearer ") in
    if token == "" then inl (Errorf "empty bearer token") else parseAndValidate c now token.

(** What the middleware does with a request: answer it with an error, or pass it
    on, with the claims it has put into the context. *)
Inductive gate :=
| Refuse (code msg : string) (status : Z)
| Pass (claims : option Claims).

Definition authMiddleware (cfg : option AuthConfig) (now : time) (r : http_request) : gate :=
  match cfg with
  | None => Pass None
  | Some c =>
      if negb (Enabled cfg) then Pass None
      else if negb (isAdminPath r) then Pass None
      else match validateBearer c now r with
           | inl err => Refuse "unauthorized" (error_msg err) 401
           | inr claims =>
               if negb (HasAnyScope claims (AdminScopes c)) then
                 Refuse "forbidden" "missing required scope" 403
               else Pass (Some claims)
           end
  end.

(** ** Facts *)

Definition has_scope (claims : Claims) (scope : string) : Prop :=
  scope ∈ Scopes claims \/ (Scope claims <> "" /\ scope ∈ Fields (Scope claims)).

Lemma HasAnyScope_spec claims required :
  HasAnyScope claims required = true <-> exists r, r ∈ required /\ has_scope claims r.
Proof.
  unfold HasAnyScope, has_scope. rewrite existsb_exists. split.
  - intros (r & Hr & Hin). exists r. rewrite list_elem_of_In. split; [done|]. go_bool.
    apply elem_of_app in Hin as [?|Hin]; [auto|]. revert Hin. case_bool_decide; simpl; [|auto].
    by rewrite elem_of_nil.
  - intros (r & Hr & Hs). exists r. rewrite <- list_elem_of_In. split; [done|].
    apply bool_decide_eq_true_2. apply elem_of_app. destruct Hs as [?|[Hne ?]]; [auto|].
    right. by rewrite bool_decide_eq_false_2.
Qed.

(** What accepted claims satisfy. *)
Definition claims_ok (c : AuthConfig) (now : time) (claims : Claims) : Prop :=
  Iss claims = JWTIssuer c /\
  (JWTAudience c <> "" -> audienceContains (Aud claims) (JWTAudience c) = true) /\
  (0 < Exp claims -> now <= unix_time (Exp claims)).

Lemma check_claims_ok c now kid claims claims' :
  check_claims c now kid claims = inr claims' -> claims' = claims /\ claims_ok c now claims.
Proof.
  unfold check_claims, claims_ok. case_bool_decide; [|done]. simpl.
  destruct (_ && negb (audienceContains _ _)) eqn:Ha; [done|].
  destruct (_ && (unix_time _ <? now)) eqn:He; [done|].
  assert (claims_ok c now claims) as Hok.
  { split_and!; [done| |].
    - intros Hne. rewrite bool_decide_eq_false_2 in Ha by done. simpl in Ha. by go_bool.
    - intros Hpos. rewrite (proj2 (Z.ltb_lt _ _) Hpos) in He. simpl in He. by go_bool. }
  clear Ha He. destruct (jwksResolver c) as [resolve|]; [|intros; simplify_eq; auto].
  case_bool_decide; simpl; [intros; simplify_eq; auto|]. destruct (resolve kid); [done|].
  intros; simplify_eq; auto.
Qed.

Lemma validateBearer_ok c now r claims :
  validateBearer c now r = inr claims ->
  HasPrefix (Authorization r) "Bearer " = true /\ claims_ok c now claims.
Proof.
  unfold validateBearer. case_bool_decide; [done|].
  destruct (HasPrefix _ _); [|done]. simpl. case_bool_decide; [done|].
  unfold parseAndValidate. destruct (Split "." _) as [|p0 [|p1 [|p2 [|]]]]; try done.
  destruct (wrap "decode header" _) as [|hj]; [done|].
  destruct (wrap "parse header" _) as [|kid]; [done|].
  destruct (wrap "decode payload" _) as [|pj]; [done|].
  destruct (wrap "parse claims" _) as [|cl]; [done|].
  intros Hc. apply check_claims_ok in Hc as [-> ?]. done.
Qed.

(** ** Splitting a token *)

Lemma Split_token h p s :
  free "." h = true -> free "." p = true -> free "." s = true ->
  Split "." (h +:+ "." +:+ p +:+ "." +:+ s) = [h; p; s].
Proof.
  intros Hh Hp Hs. change ("." +:+ p +:+ "." +:+ s) with (String "." (p +:+ String "." s)).
  by rewrite !Split_app, Split_free.
Qed.

End Validate.

(** ** Properties *)

(** With authentication enabled the middleware lets a request for an admin
    path through only with a bearer token whose claims name the configured
    issuer and audience, have not expired and hold one of the admin scopes; it
    then hands on those claims. *)
Theorem admin_path_guarded `{Decoder} c now r res :
  JWTIssuer c <> "" -> isAdminPath r = true -> authMiddleware (Some c) now r = Pass res ->
  exists claims scope, res = Some claims /\ HasPrefix (Authorization r) "Bearer " = true /\
    Iss claims = JWTIssuer c /\
    (JWTAudience c <> "" -> audienceContains (Aud claims) (JWTAudience c) = true) /\
    (0 < Exp claims -> now <= unix_time (Exp claims)) /\
    scope ∈ AdminScopes c /\ has_scope claims scope.
Proof.
  intros Hi Ha. unfold authMiddleware, Enabled. rewrite bool_decide_eq_false_2 by done.
  rewrite Ha. simpl. destruct (validateBearer c now r) as [|claims] eqn:Hv; [done|].
  apply validateBearer_ok in Hv as (Hp & Hok).
  destruct (HasAnyScope claims (AdminScopes c)) eqn:Hs; [|done]. simpl. intros [= <-].
  apply HasAnyScope_spec in Hs as (scope & Hin & Hhas).
  exists claims, scope. unfold claims_ok in Hok. naive_solver.
Qed.

(** The signature of a token is never looked at, whether or not a key server
    is configured: two tokens that differ only in their third part are accepted
    or refused alike, with the same claims. *)
Theorem signature_ignored `{Decoder} c now header payload sig sig' :
  free "." header = true -> free "." payload = true -> free "." sig = true -> free "." sig' = true ->
  parseAndValidate c now (header +:+ "." +:+ payload +:+ "." +:+ sig) =
  parseAndValidate c now (header +:+ "." +:+ payload +:+ "." +:+ sig').
Proof.
  intros Hh Hp Hs Hs'. unfold parseAndValidate. by rewrite !Split_token.
Qed.

(** A decoder for the witnesses: the claims are the text itself. *)
Definition sample_decoder : Decoder := {|
  dec_header := fun _ => inr "";
  dec_claims := fun s => inr {| Sub := s; Iss := "https://issuer"; Aud := ANil;
    Scope := "policy:admin"; Scopes := []; Exp := 0; Iat := 0 |};
  sprint_float := fun _ => "";
  sprint_quoted := fun s => s |}.

Definition sample_auth : AuthConfig :=
  @NewAuthConfig sample_decoder (fun k => if k == "JWT_ISSUER" then "https://issuer" else "")
    (fun _ => JwksFailed (Errorf "")).

Definition sample_admin_request : http_request :=
  {| Method := "POST"; Segments := ["v1"; "policy"; "rules"]; Unclean := false;
     Query := fun _ => ""; Authorization := "Bearer e30.e30.sig"; Body := inr "package x" |}.

Lemma admin_path_guarded_witness :
  exists claims scope,
    Some {| Sub := "{}"; Iss := "https://issuer"; Aud := ANil; Scope := "policy:admin";
            Scopes := []; Exp := 0; Iat := 0 |} = Some claims /\
    HasPrefix (Authorization sample_admin_request) "Bearer " = true /\
    Iss claims = JWTIssuer sample_auth /\
    (JWTAudience sample_auth <> "" ->
       @audienceContains sample_decoder (Aud claims) (JWTAudience sample_auth) = true) /\
    (0 < Exp claims -> 5 <= unix_time (Exp claims)) /\
    scope ∈ AdminScopes sample_auth /\ has_scope claims scope.
Proof.
  apply (@admin_path_guarded sample_decoder sample_auth 5 sample_admin_request);
    [discriminate|vm_compute; reflexivity|vm_compute; reflexivity].
Defined.

Lemma signature_ignored_witness :
  @parseAndValidate sample_decoder sample_auth 5 ("e30" +:+ "." +:+ "e30" +:+ "." +:+ "good") =
  @parseAndValidate sample_decoder sample_auth 5 ("e30" +:+ "." +:+ "e30" +:+ "." +:+ "forged").
Proof. apply (@signature_ignored sample_decoder); reflexivity. Defined.

End Auth.
