(* ===== verification/Api.v ===== *)
(** * The REST and gRPC transports
    ([internal/api/api.go], [internal/api/rules.go], [internal/api/grpc.go])

    [serve] is the handler [NewMux] returns: the middleware of [Auth] in front of
    the routes.  The evaluate service, the whitelist, the review queue, the audit
    service and the engine are shared by pointer in the program: here they are the
    fields of the one [Evaluate.Service] all handlers work on.  The handlers
    take any [BodyDecoder] of JSON bodies ([Unmarshal] has the library's), and an
    answer is the value that is encoded ([Wire] has its text). *)
From Stdlib Require Import ZArith Lia Ascii String SpecFloat.
From stdpp Require Import base gmap strings list.
From S2P Require Import Prelude GoLib Float64 Sha256 Json.
From S2P Require Import Caps Velocity Whitelist Review AuditLog Metrics Engine Evaluate Auth.

Open Scope Z_scope.
Open Scope go_scope.

Module Api.
Import Json.

(** ** Errors *)

Definition errBadJSON : error := AppErr "bad_json" "invalid JSON body" 400.
Definition errMissingUserID : error := AppErr "missing_user_id" "user_id is required" 400.
Definition errMissingDecisionID : error :=
  AppErr "missing_decision_id" "decision_id is required" 400.
Definition errReviewNotFound : error := AppErr "review_not_found" "review item not found" 404.
Definition errReviewResolved : error :=
  AppErr "review_resolved" "review item already resolved" 409.
Definition errWLNotFound : error :=
  AppErr "whitelist_not_found" "whitelist entry not found" 404.

(** [errors.As(err, &ae)]: the first [*AppError] of the chain. *)
Fixpoint errors_as (e : error) : option (string * string * Z) :=
  match e with
  | AppErr c m st => Some (c, m, st)
  | Wrapf _ e' => errors_as e'
  | _ => None
  end.

Definition app_parts (e : error) : string * string * Z :=
  default ("internal_error", "internal server error", 500) (errors_as e).

Definition toAppError (e : error) : string * string * Z :=
  match errors_as e with
  | Some ae => ae
  | None =>
      if errors_is e RevErrNotFound then app_parts errReviewNotFound
      else if errors_is e RevErrAlreadyResolved then app_parts errReviewResolved
      else if errors_is e WlErrNotFound then app_parts errWLNotFound
      else ("internal_error", "internal server error", 500)
  end.

(** ** Answers *)

Inductive body :=
| BError (code msg : string)
| BHealth
| BMetrics (text : string)
| BDecision (resp : Evaluate.Response)
| BEntry (e : Whitelist.Entry)
| BEntries (l : list Whitelist.Entry)
| BItem (i : Review.Item)
| BItems (l : list Review.Item)
| BNoRules
| BRules (version hash : string)
| BPublished (version hash : string) (activate : bool)
| BNone.

(** A handler that panics aborts the connection. *)
Inductive answer :=
| Answer (status : Z) (b : body)
| Aborted.

Definition writeError (e : error) : answer :=
  let '(c, m, st) := toAppError e in Answer st (BError c m).

(** ** Routing *)

Inductive target :=
| RHealthz | RMetrics | REvaluate
| RAddWhitelist | RListWhitelist (user_id : string) | RVerifyWhitelist (user_id : string)
| RResolveReview (decision_id : string) | RListReview
| RListRules | RGetRule (version : string) | RPublishRules
| RNotFound | RNotAllowed | RRedirect.

#[global] Instance target_eq_dec : EqDecision target.
Proof. solve_decision. Defined.

Definition post (r : Auth.http_request) (t : target) : target :=
  if Auth.Method r == "POST" then t else RNotAllowed.
(** A GET pattern also matches HEAD. *)
Definition get (r : Auth.http_request) (t : target) : target :=
  if (Auth.Method r == "GET") || (Auth.Method r == "HEAD") then t else RNotAllowed.
Definition get_or_post (r : Auth.http_request) (tg tp : target) : target :=
  if Auth.Method r == "POST" then tp else get r tg.

(** The patterns of [NewMux]; a wildcard matches one segment that is not empty. *)
Definition mux (r : Auth.http_request) : target :=
  if Auth.Unclean r then RRedirect
  else match Auth.Segments r with
       | [a] =>
           if a == "healthz" then RHealthz else if a == "metrics" then RMetrics else RNotFound
       | [v1; pol; a] =>
           if (v1 == "v1") && (pol == "policy") then
             if a == "evaluate" then post r REvaluate
             else if a == "whitelist" then post r RAddWhitelist
             else if a == "review" then get r RListReview
             else if a == "rules" then get_or_post r RListRules RPublishRules
             else RNotFound
           else RNotFound
       | [v1; pol; a; x] =>
           if (v1 == "v1") && (pol == "policy") && (x != "") then
             if a == "whitelist" then get r (RListWhitelist x)
             else if a == "rules" then get r (RGetRule x)
             else RNotFound
           else RNotFound
       | [v1; pol; a; x; z] =>
           if (v1 == "v1") && (pol == "policy") && (x != "") then
             if (a == "whitelist") && (z == "verify") then post r (RVerifyWhitelist x)
             else if (a == "review") && (z == "resolve") then post r (RResolveReview x)
             else RNotFound
           else RNotFound
       | _ => RNotFound
       end.

(** ** Bodies *)

Record addWhitelistRequest := { a_UserID : string; a_Chain : string; a_Address : string; a_Label : string }.
Record verifyWhitelistRequest := { v_Chain : string; v_Address : string }.
Record resolveReviewRequest := { r_Assignee : string; r_Resolution : string }.

(** What [json.Unmarshal] makes of a body, [None] when it fails. *)
Class BodyDecoder := {
  dec_evaluate : string -> option Evaluate.Request;
  dec_add : string -> option addWhitelistRequest;
  dec_verify : string -> option verifyWhitelistRequest;
  dec_resolve : string -> option resolveReviewRequest
}.

Definition decodeJSON {A} (dec : string -> option A) (r : Auth.http_request) : Res A :=
  match Auth.Body r with
  | inl _ => inl errBadJSON
  | inr b =>
      if b == "" then inl errBadJSON
      else match dec b with
           | Some x => inr x
           | None => inl errBadJSON
           end
  end.

(** ** Publishing rules *)

Fixpoint bytesTrim (b : string) : string :=
  match b with
  | String c b' =>
      if (c == " "%char) || (c == "009"%char) || (c == "010"%char) || (c == "013"%char)
      then bytesTrim b' else b
  | EmptyString => b
  end.

Section PublishBundle.
Context `{Fmt} `{Engine.OPA}.

Definition publishBundle (eng : Engine.OPAEngine) (text : string) : Res Engine.Bundle :=
  if bytesTrim text == "" then inl (Errorf "empty rego source")
  else
    let src : gmap string string := {["decisions.rego" := text]} in
    let data := Engine.Data (Engine.bundle eng) in
    let hash := Engine.hashBundle src data in
    inr {| Engine.Version := hash; Engine.Hash := hash; Engine.Source := src; Engine.Data := data |}.

End PublishBundle.

(** The database behind [db.ActivatePolicyVersion]. *)
Class PolicyDB (D : Type) := {
  ActivatePolicyVersion : D -> string -> string -> string -> string -> string -> D * option error
}.

(** ** The handlers *)

Section Handlers.
Context `{Fmt} `{Audit.Ed25519} `{Engine.OPA} `{Auth.Decoder} `{BodyDecoder}
  {C WS RS AS K D : Type} `{Whitelist.Store WS} `{Review.Store RS} `{PolicyDB D}
  `{Evaluate.Evaluator (Evaluate.Service Engine.OPAEngine C WS RS AS K)}.

Abbreviation EvalSvc := (Evaluate.Service Engine.OPAEngine C WS RS AS K).

(** [Engine] tells whether the engine field of the services is the engine the
    evaluate service uses, or nil; [Review] whether the review service is there. *)
Record Services := {
  Evaluate_ : EvalSvc;
  Notifier : option Review.Notifier;
  HasEngine : bool;
  Auth : option Auth.AuthConfig;
  DB : option D
}.

Definition with_eval (s : Services) (e : EvalSvc) : Services :=
  {| Evaluate_ := e; Notifier := Notifier s; HasEngine := HasEngine s; Auth := Auth s; DB := DB s |}.
Definition with_db (s : Services) (d : D) : Services :=
  {| Evaluate_ := Evaluate_ s; Notifier := Notifier s; HasEngine := HasEngine s; Auth := Auth s;
     DB := Some d |}.
Definition with_whitelist (s : Services) (w : WS) : Services :=
  let e := Evaluate_ s in
  with_eval s {| Evaluate.engine := Evaluate.engine e; Evaluate.velocity := Evaluate.velocity e;
    Evaluate.caps := Evaluate.caps e; Evaluate.whitelist := w; Evaluate.review := Evaluate.review e;
    Evaluate.audit := Evaluate.audit e; Evaluate.metrics := Evaluate.metrics e;
    Evaluate.sessionValidDefault := Evaluate.sessionValidDefault e |}.
Definition with_engine (s : Services) (x : Engine.OPAEngine) (m : Metrics.Metrics) : Services :=
  let e := Evaluate_ s in
  with_eval s {| Evaluate.engine := x; Evaluate.velocity := Evaluate.velocity e;
    Evaluate.caps := Evaluate.caps e; Evaluate.whitelist := Evaluate.whitelist e;
    Evaluate.review := Evaluate.review e; Evaluate.audit := Evaluate.audit e;
    Evaluate.metrics := m; Evaluate.sessionValidDefault := Evaluate.sessionValidDefault e |}.

(** What a request reads from outside besides the evaluation's own oracle. *)
Record world := {
  w_now : time;
  w_eval : Evaluate.Oracle;
  w_net : Review.network
}.

Definition set_session (req : Evaluate.Request) (v : bool) : Evaluate.Request :=
  {| Evaluate.UserID := Evaluate.UserID req; Evaluate.Amount := Evaluate.Amount req;
     Evaluate.Currency := Evaluate.Currency req; Evaluate.Asset := Evaluate.Asset req;
     Evaluate.Rail := Evaluate.Rail req; Evaluate.DestAddress := Evaluate.DestAddress req;
     Evaluate.DestChain := Evaluate.DestChain req; Evaluate.KYTVerdict := Evaluate.KYTVerdict req;
     Evaluate.FraudScore := Evaluate.FraudScore req; Evaluate.KYCStatus := Evaluate.KYCStatus req;
     Evaluate.UserTier := Evaluate.UserTier req; Evaluate.Session2FA := Evaluate.Session2FA req;
     Evaluate.FXRateToUSD := Evaluate.FXRateToUSD req; Evaluate.SessionValid := v |}.

Definition run_evaluate (s : Services) (w : world) (req : Evaluate.Request) : Services * answer :=
  match Evaluate.evaluate (Evaluate_ s) (w_eval w) req with
  | (e', Evaluate.Returned _ (Some err)) => (with_eval s e', writeError err)
  | (e', Evaluate.Returned resp None) => (with_eval s e', Answer 200 (BDecision resp))
  | (e', Evaluate.Panicked) => (with_eval s e', Aborted)
  end.

Definition evaluateHandler (s : Services) (w : world) (r : Auth.http_request) : Services * answer :=
  match decodeJSON dec_evaluate r with
  | inl err => (s, writeError err)
  | inr req =>
      let req := set_session req true in
      match Auth s with
      | Some c =>
          if Auth.Enabled (Auth s) then
            match Auth.validateBearer c (w_now w) r with
            | inl err => (s, writeError (AppErr "unauthorized" (error_msg err) 401))
            | inr _ => run_evaluate s w (set_session req true)
            end
          else run_evaluate s w req
      | None => run_evaluate s w req
      end
  end.

Definition addWhitelistHandler (s : Services) (w : world) (r : Auth.http_request)
  : Services * answer :=
  match decodeJSON dec_add r with
  | inl err => (s, writeError err)
  | inr req =>
      if a_UserID req == "" then (s, writeError errMissingUserID)
      else match Whitelist.Add (Evaluate.whitelist (Evaluate_ s)) (w_now w)
                   (a_UserID req) (a_Chain req) (a_Address req) (a_Label req) with
           | (wl, (_, Some err)) => (with_whitelist s wl, writeError err)
           | (wl, (entry, None)) => (with_whitelist s wl, Answer 201 (BEntry entry))
           end
  end.

Definition listWhitelistHandler (s : Services) (userID : string) : answer :=
  if userID == "" then writeError errMissingUserID
  else match Whitelist.List (Evaluate.whitelist (Evaluate_ s)) userID with
       | (_, Some err) => writeError err
       | (entries, None) => Answer 200 (BEntries entries)
       end.

Definition verifyWhitelistHandler (s : Services) (w : world) (r : Auth.http_request) (userID : string)
  : Services * answer :=
  match decodeJSON dec_verify r with
  | inl err => (s, writeError err)
  | inr req =>
      match Whitelist.Verify (Evaluate.whitelist (Evaluate_ s)) (w_now w) userID
              (v_Chain req) (v_Address req) with
      | (wl, (_, Some err)) => (with_whitelist s wl, writeError err)
      | (wl, (entry, None)) => (with_whitelist s wl, Answer 200 (BEntry entry))
      end
  end.

(** A nil review service is dereferenced: the handler panics. *)
Definition resolveReviewHandler (s : Services) (w : world) (r : Auth.http_request) (decisionID : string)
  : Services * answer :=
  if decisionID == "" then (s, writeError errMissingDecisionID)
  else match decodeJSON dec_resolve r with
       | inl err => (s, writeError err)
       | inr req =>
           match Evaluate.review (Evaluate_ s) with
           | None => (s, Aborted)
           | Some rv =>
               match Review.Resolve rv (Notifier s) (w_net w) (w_now w) decisionID
                       (r_Assignee req) (r_Resolution req) with
               | ((rv', (_, Some err)), _) =>
                   (with_eval s (Evaluate.set_review (Evaluate_ s) (Some rv')), writeError err)
               | ((rv', (item, None)), _) =>
                   (with_eval s (Evaluate.set_review (Evaluate_ s) (Some rv')),
                    Answer 200 (BItem item))
               end
           end
       end.

Definition listReviewHandler (s : Services) (r : Auth.http_request) : answer :=
  match Evaluate.review (Evaluate_ s) with
  | None => Aborted
  | Some rv =>
      match Review.List rv (Auth.Query r "status") with
      | (_, Some err) => writeError err
      | (items, None) => Answer 200 (BItems items)
      end
  end.

Definition listRulesHandler (s : Services) : answer :=
  if HasEngine s then
    let e := Evaluate.engine (Evaluate_ s) in
    Answer 200 (BRules (Engine.eng_Version e) (Engine.eng_Hash e))
  else Answer 200 BNoRules.

Definition getRuleHandler (s : Services) (version : string) : answer :=
  let e := Evaluate.engine (Evaluate_ s) in
  if negb (HasEngine s) || (version != Engine.eng_Version e) then
    writeError (AppErr "rule_not_found" "rule version not found" 404)
  else Answer 200 (BRules (Engine.eng_Version e) (Engine.eng_Hash e)).

(** The insertion of the version, when there is a database. *)
Definition store_version (s : Services) (b : Engine.Bundle) (text : string) : Services * option error :=
  match DB s with
  | None => (s, None)
  | Some d =>
      let '(d', err) := ActivatePolicyVersion d "default" (Engine.Version b) (Engine.Hash b) text "api" in
      (with_db s d', err)
  end.

Definition activate_bundle (s : Services) (b : Engine.Bundle) : Services :=
  let e := Evaluate_ s in
  with_engine s (Engine.Swap (Evaluate.engine e) b)
    (Metrics.bump Metrics.CHotReload (Evaluate.metrics e)).

Definition publishRulesHandler (s : Services) (r : Auth.http_request) : Services * answer :=
  match Auth.Body r with
  | inl _ => (s, writeError errBadJSON)
  | inr text =>
      if bytesTrim text == "" then (s, writeError errBadJSON)
      else
        let activate := EqualFoldASCII (Auth.Query r "activate") "true" in
        if negb (HasEngine s) then
          (s, writeError (AppErr "engine_unavailable" "policy engine not reloadable" 503))
        else
          match publishBundle (Evaluate.engine (Evaluate_ s)) text with
          | inl err => (s, writeError (AppErr "publish_failed" (error_msg err) 400))
          | inr rules =>
              match store_version s rules text with
              | (s', Some err) => (s', writeError (AppErr "publish_db_failed" (error_msg err) 500))
              | (s', None) =>
                  (if activate then activate_bundle s' rules else s',
                   Answer 201 (BPublished (Engine.Version rules) (Engine.Hash rules) activate))
              end
          end
  end.

(** ** The server *)

Definition dispatch (s : Services) (w : world) (r : Auth.http_request) : Services * answer :=
  match mux r with
  | RHealthz => (s, Answer 200 BHealth)
  | RMetrics => (s, Answer 200 (BMetrics (Metrics.render (Evaluate.metrics (Evaluate_ s)))))
  | REvaluate => evaluateHandler s w r
  | RAddWhitelist => addWhitelistHandler s w r
  | RListWhitelist u => (s, listWhitelistHandler s u)
  | RVerifyWhitelist u => verifyWhitelistHandler s w r u
  | RResolveReview d => resolveReviewHandler s w r d
  | RListReview => (s, listReviewHandler s r)
  | RListRules => (s, listRulesHandler s)
  | RGetRule v => (s, getRuleHandler s v)
  | RPublishRules => publishRulesHandler s r
  | RNotFound => (s, Answer 404 BNone)
  | RNotAllowed => (s, Answer 405 BNone)
  | RRedirect => (s, Answer 301 BNone)
  end.

Definition serve (s : Services) (w : world) (r : Auth.http_request) : Services * answer :=
  match Auth.authMiddleware (Auth s) (w_now w) r with
  | Auth.Refuse c m st => (s, Answer st (BError c m))
  | Auth.Pass _ => dispatch s w r
  end.

(** ** gRPC *)

(** The messages of [proto/policy/v1]; the getters of a nil message return zero
    values, so a nil request is the zero one. *)
Record EvaluateRequest := {
  UserId : string; PAmount : string; PCurrency : string; PAsset : string; PRail : string;
  PDestAddress : string; PDestChain : string; KytVerdict : string; PFraudScore : float64;
  KycStatus : string; PUserTier : string; Session_2FaPassed : bool; FxRateToUsd : float64
}.

Record EvaluateResponse := {
  PDecision : string; PReasons : slice string; PAppliedRules : list (string * string);
  PPolicyVersion : string; PScore : float64; DecisionId : string
}.

Definition evaluateRequestFromProto (req : EvaluateRequest) : Evaluate.Request :=
  {| Evaluate.UserID := UserId req; Evaluate.Amount := PAmount req;
     Evaluate.Currency := PCurrency req; Evaluate.Asset := PAsset req; Evaluate.Rail := PRail req;
     Evaluate.DestAddress := PDestAddress req; Evaluate.DestChain := PDestChain req;
     Evaluate.KYTVerdict := KytVerdict req; Evaluate.FraudScore := PFraudScore req;
     Evaluate.KYCStatus := KycStatus req; Evaluate.UserTier := PUserTier req;
     Evaluate.Session2FA := Session_2FaPassed req; Evaluate.FXRateToUSD := FxRateToUsd req;
     Evaluate.SessionValid := false |}.

Definition evaluateResponseToProto (resp : Evaluate.Response) : EvaluateResponse :=
  {| PDecision := Evaluate.Decision resp; PReasons := Evaluate.Reasons resp;
     PAppliedRules := (fun r => (Evaluate.ID r, Evaluate.Version r)) <$> elems (Evaluate.AppliedRules resp);
     PPolicyVersion := Evaluate.PolicyVersion resp; PScore := Evaluate.Score resp;
     DecisionId := Evaluate.DecisionID resp |}.

Inductive grpc_answer :=
| GrpcOk (resp : EvaluateResponse)
| GrpcError (e : error)
| GrpcPanic.

(** The services are never nil when the server is registered. *)
Definition grpc_Evaluate (s : Services) (w : world) (req : EvaluateRequest) : Services * grpc_answer :=
  match Evaluate.evaluate (Evaluate_ s) (w_eval w) (evaluateRequestFromProto req) with
  | (e', Evaluate.Returned _ (Some err)) => (with_eval s e', GrpcError err)
  | (e', Evaluate.Returned resp None) => (with_eval s e', GrpcOk (evaluateResponseToProto resp))
  | (e', Evaluate.Panicked) => (with_eval s e', GrpcPanic)
  end.

End Handlers.

End Api.
