(* ===== verification/ApiProps.v ===== *)
(** * Properties of the transports

    Who can change what through the REST server, whether the two transports agree,
    and what publishing a policy does. *)
From Stdlib Require Import ZArith Lia Ascii String SpecFloat.
From stdpp Require Import base gmap strings list.
From S2P Require Import Prelude GoLib Float64 Sha256 Json.
From S2P Require Import Caps Velocity Whitelist Review AuditLog Metrics Engine Evaluate EvaluateProps.
From S2P Require Import Auth Api.

Open Scope Z_scope.
Open Scope go_scope.

Module ApiProps.
Import Json Api.

(** ** Routes and admin paths *)

(** The routes whose handlers change whitelist, review queue or policy. *)
Definition admin_target (t : target) : bool :=
  match t with
  | RAddWhitelist | RVerifyWhitelist _ | RResolveReview _ | RPublishRules => true
  | _ => false
  end.

Lemma path_wildcard pre x suf :
  HasPrefix (pre +:+ x +:+ suf) pre && HasSuffix (pre +:+ x +:+ suf) suf = true.
Proof. by rewrite HasPrefix_app, <- string_app_assoc, HasSuffix_app. Qed.

(** The middleware and the routes agree on what an admin request is. *)
Lemma mux_admin r : admin_target (mux r) = true -> Auth.isAdminPath r = true.
Proof.
  unfold mux, post, get, get_or_post, Auth.isAdminPath, Auth.Path.
  destruct (Auth.Unclean r); [done|].
  destruct (Auth.Segments r) as [|a [|b [|c [|x [|z [|? ?]]]]]]; try done;
    repeat (case_bool_decide; simpl; try done); simplify_eq.
  - unfold get. by destruct (_ || _).
  - intros _. pose proof (path_wildcard "/v1/policy/whitelist/" x "/verify") as Hp.
    match goal with |- (if ?a then _ else _) = true => replace a with true by (symmetry; exact Hp) end.
    done.
  - intros _. pose proof (path_wildcard "/v1/policy/review/" x "/resolve") as Hp.
    match goal with |- (if ?a then _ else if ?b then _ else _) = true =>
      replace b with true by (symmetry; exact Hp); by destruct a end.
Qed.

(** ** Access, whatever stores the evaluation works on *)

Section Access.
Context `{Fmt} `{Audit.Ed25519} `{Engine.OPA} `{Auth.Decoder} `{BodyDecoder}
  {C WS RS AS K D : Type} `{Whitelist.Store WS} `{Review.Store RS} `{PolicyDB D}
  `{Evaluate.Evaluator (Evaluate.Service Engine.OPAEngine C WS RS AS K)}.

Abbreviation Svcs := (@Services _ _ C WS RS AS K D).

(** A request for a route that is not an admin one changes nothing, apart from
    evaluations. *)
Lemma dispatch_readonly (s : Svcs) w r :
  admin_target (mux r) = false -> mux r <> REvaluate -> fst (dispatch s w r) = s.
Proof. unfold dispatch. by destruct (mux r). Qed.

Lemma serve_effects (s : Svcs) w r c :
  Auth s = Some c -> Auth.JWTIssuer c <> "" ->
  fst (serve s w r) = s \/
  exists claims, Auth.validateBearer c (w_now w) r = inr claims /\
    (mux r = REvaluate \/ Auth.HasAnyScope claims (Auth.AdminScopes c) = true).
Proof.
  intros Hc Hi. unfold serve, Auth.authMiddleware. rewrite Hc.
  assert (Auth.Enabled (Some c) = true) as Hen by (simpl; by rewrite bool_decide_eq_false_2).
  rewrite Hen. simpl. destruct (Auth.isAdminPath r) eqn:Ha; simpl.
  - destruct (Auth.validateBearer c (w_now w) r) as [err|claims] eqn:Hv; [by left|].
    destruct (Auth.HasAnyScope claims (Auth.AdminScopes c)) eqn:Hs; [|by left]. right. eauto.
  - destruct (admin_target (mux r)) eqn:Ht; [apply mux_admin in Ht; congruence|].
    destruct (decide (mux r = REvaluate)) as [Hm|Hm]; [|left; by apply dispatch_readonly].
    unfold dispatch. rewrite Hm. unfold evaluateHandler.
    destruct (decodeJSON dec_evaluate r) as [err|req]; [by left|]. rewrite Hc, Hen.
    destruct (Auth.validateBearer c (w_now w) r) as [err|claims]; [by left|]. right. eauto.
Qed.

(** C10. With authentication enabled nothing changes through the REST server
    without a valid bearer token, and nothing but an evaluation without an admin
    scope: for every request of any method, path, query and body, either the
    state of whitelist, review queue, policy, audit trail, counters, metrics and
    database is as before, or the token was accepted and the request was an
    evaluation or its claims hold an admin scope. *)
Theorem effects_need_authorization (s : Svcs) w r c :
  Auth s = Some c -> Auth.JWTIssuer c <> "" ->
  fst (serve s w r) = s \/
  exists claims, Auth.validateBearer c (w_now w) r = inr claims /\
    (mux r = REvaluate \/ Auth.HasAnyScope claims (Auth.AdminScopes c) = true).
Proof. apply serve_effects. Qed.

End Access.

Section Props.
Context `{Fmt} `{Audit.Ed25519} `{Engine.OPA} `{Auth.Decoder} `{BodyDecoder}
  {C WS RS AS K D : Type}
  `{Velocity.Counter C} `{Whitelist.Store WS} `{Review.Store RS}
  `{Audit.Store AS} `{Audit.Sink K} `{PolicyDB D}.

Abbreviation Svcs := (@Services _ _ C WS RS AS K D).

(** ** Facts *)

(** The evaluation does not depend on the session flag of the request when the
    service takes sessions to be valid. *)
Lemma evaluate_session_default (e : Evaluate.Service Engine.OPAEngine C WS RS AS K) o req b :
  Evaluate.sessionValidDefault e = true ->
  Evaluate.Evaluate e o (set_session req b) = Evaluate.Evaluate e o req.
Proof.
  intros Hd. unfold Evaluate.Evaluate.
  assert (Evaluate.route e o (set_session req b) = Evaluate.route e o req) as ->.
  { unfold Evaluate.route. simpl. by rewrite Hd, !orb_true_r. }
  reflexivity.
Qed.

Lemma publishBundle_ok eng text :
  bytesTrim text <> "" ->
  exists b, publishBundle eng text = inr b /\
    Engine.Version b = Engine.hashBundle {["decisions.rego" := text]} (Engine.Data (Engine.bundle eng)) /\
    Engine.Hash b = Engine.hashBundle {["decisions.rego" := text]} (Engine.Data (Engine.bundle eng)) /\
    Engine.Source b = {["decisions.rego" := text]} /\ Engine.Data b = Engine.Data (Engine.bundle eng).
Proof.
  intros Hne. unfold publishBundle. rewrite bool_decide_eq_false_2 by exact Hne.
  eexists. split; [reflexivity|]. cbn [Engine.Version Engine.Hash Engine.Source Engine.Data].
  split_and!; reflexivity.
Qed.

Lemma publish_activated (s : Svcs) r text b :
  Auth.Body r = inr text -> bytesTrim text <> "" -> HasEngine s = true -> DB s = None ->
  EqualFoldASCII (Auth.Query r "activate") "true" = true ->
  publishBundle (Evaluate.engine (Evaluate_ s)) text = inr b ->
  publishRulesHandler s r =
  (activate_bundle s b, Answer 201 (BPublished (Engine.Version b) (Engine.Hash b) true)).
Proof.
  intros Hb Hne He Hdb Hact Hp. unfold publishRulesHandler. rewrite Hb.
  rewrite bool_decide_eq_false_2 by exact Hne. rewrite He, Hact, Hp. unfold store_version.
  by rewrite Hdb.
Qed.

Lemma activated_engine (s : Svcs) b :
  Evaluate.engine (Evaluate_ (activate_bundle s b)) =
  Engine.rebuild {| Engine.bundle := b;
                    Engine.compiled := Engine.compiled (Evaluate.engine (Evaluate_ s)) |}.
Proof. reflexivity. Qed.

(** ** Properties *)

(** The same request on both transports, field by field: what [dec_evaluate] made
    of the body, and the message. *)
Definition same_request (req : Evaluate.Request) (preq : EvaluateRequest) : Prop :=
  Evaluate.UserID req = UserId preq /\ Evaluate.Amount req = PAmount preq /\
  Evaluate.Currency req = PCurrency preq /\ Evaluate.Asset req = PAsset preq /\
  Evaluate.Rail req = PRail preq /\ Evaluate.DestAddress req = PDestAddress preq /\
  Evaluate.DestChain req = PDestChain preq /\ Evaluate.KYTVerdict req = KytVerdict preq /\
  Evaluate.FraudScore req = PFraudScore preq /\ Evaluate.KYCStatus req = KycStatus preq /\
  Evaluate.UserTier req = PUserTier preq /\ Evaluate.Session2FA req = Session_2FaPassed preq /\
  Evaluate.FXRateToUSD req = FxRateToUsd preq.

(** The same answer, field by field; each rule with its id and version, in order. *)
Definition same_response (resp : Evaluate.Response) (presp : EvaluateResponse) : Prop :=
  Evaluate.Decision resp = PDecision presp /\ Evaluate.Reasons resp = PReasons presp /\
  Forall2 (fun r p => Evaluate.ID r = fst p /\ Evaluate.Version r = snd p)
    (elems (Evaluate.AppliedRules resp)) (PAppliedRules presp) /\
  Evaluate.PolicyVersion resp = PPolicyVersion presp /\ Evaluate.Score resp = PScore presp /\
  Evaluate.DecisionID resp = DecisionId presp.

Lemma fromProto_same req preq :
  same_request req preq -> evaluateRequestFromProto preq = set_session req false.
Proof.
  destruct req, preq. unfold same_request, evaluateRequestFromProto, set_session. cbn.
  intros (-> & -> & -> & -> & -> & -> & -> & -> & -> & -> & -> & -> & ->). reflexivity.
Qed.

Lemma toProto_same resp : same_response resp (evaluateResponseToProto resp).
Proof.
  unfold same_response, evaluateResponseToProto. cbn. split_and!; try done.
  induction (elems (Evaluate.AppliedRules resp)); cbn; by constructor.
Qed.

(** C37. The transports agree when authentication is off: a REST evaluation and a
    gRPC evaluation with the same thirteen fields, in the same state and world,
    lead to the same state and, when they succeed, to the same decision, reasons,
    rules with their versions, policy version, score and id; otherwise they fail
    with the same error, or both panic. *)
Theorem transports_agree (s : Svcs) w r preq text req :
  Auth.Enabled (Auth s) = false ->
  Evaluate.sessionValidDefault (Evaluate_ s) = true ->
  mux r = REvaluate -> Auth.Body r = inr text -> text <> "" -> dec_evaluate text = Some req ->
  same_request req preq ->
  let '(s1, a) := serve s w r in
  let '(s2, g) := grpc_Evaluate s w preq in
  s1 = s2 /\
  match g with
  | GrpcOk presp => exists resp, a = Answer 200 (BDecision resp) /\ same_response resp presp
  | GrpcError e => a = writeError e
  | GrpcPanic => a = Aborted
  end.
Proof.
  intros Hen Hd Hm Hb Hne Hdec Hreq.
  assert (Auth.authMiddleware (Auth s) (w_now w) r = Auth.Pass None) as Hmw.
  { unfold Auth.authMiddleware. rewrite Hen. by destruct (Auth s). }
  unfold serve, dispatch, evaluateHandler, decodeJSON. rewrite Hmw, Hm, Hb.
  rewrite bool_decide_eq_false_2 by done. rewrite Hdec, Hen.
  assert (forall A (x : A), match Auth s with Some _ => x | None => x end = x) as Hno
    by (intros A x; by destruct (Auth s)).
  rewrite Hno. unfold run_evaluate, grpc_Evaluate. simpl Evaluate.evaluate. rewrite (fromProto_same _ _ Hreq).
  rewrite !evaluate_session_default by done.
  destruct (Evaluate.Evaluate (Evaluate_ s) (w_eval w) req) as [e' [resp [err|]|]]; eauto using toProto_same.
Qed.

(** The transports do not agree when authentication is on: the gRPC path
    never marks a session as valid, so every gRPC evaluation that is answered is
    denied with invalid_session, whatever the request. *)
Theorem grpc_denied_when_auth_enabled (s : Svcs) w preq cfg s' resp :
  Evaluate.sessionValidDefault (Evaluate_ s) = false ->
  Evaluate.caps (Evaluate_ s) = Some cfg ->
  grpc_Evaluate s w preq = (s', GrpcOk resp) ->
  PDecision resp = "deny" /\ elems (PReasons resp) = ["invalid_session"].
Proof.
  intros Hd Hc. unfold grpc_Evaluate. simpl Evaluate.evaluate. set (req := evaluateRequestFromProto preq).
  destruct (Evaluate.validate req) as [ve|] eqn:Hv.
  { unfold Evaluate.Evaluate. rewrite Hv. done. }
  destruct (EvaluateProps.evaluate_priority (Evaluate_ s) (w_eval w) req cfg Hv Hc)
    as (e' & r & err & -> & _ & _ & Hp).
  destruct err; [done|]. intros [= <- <-]. simpl.
  assert (EvaluateProps.session_ok (Evaluate_ s) req = false) as Hs
    by (unfold EvaluateProps.session_ok; by rewrite Hd).
  unfold EvaluateProps.first_row, EvaluateProps.priority, EvaluateProps.passed_reasons in Hp.
  rewrite Hs in Hp. simpl in Hp. by destruct Hp as [-> ->].
Qed.

(** Publishing a policy text that compiles, with activation and without a
    database, puts exactly that text in force with the data of the bundle before
    it, under a version that is the hash of text and data, and says so. *)
Theorem publish_activates (s : Svcs) r text c :
  Auth.Body r = inr text -> bytesTrim text <> "" -> HasEngine s = true -> DB s = None ->
  EqualFoldASCII (Auth.Query r "activate") "true" = true ->
  Engine.compileModules {["decisions.rego" := text]} = inr c ->
  let data := Engine.Data (Engine.bundle (Evaluate.engine (Evaluate_ s))) in
  let v := Engine.hashBundle {["decisions.rego" := text]} data in
  let '(s', a) := publishRulesHandler s r in
  a = Answer 201 (BPublished v v true) /\
  Engine.eng_Version (Evaluate.engine (Evaluate_ s')) = v /\
  forall input, Engine.eng_Evaluate (Evaluate.engine (Evaluate_ s')) input =
    Engine.evaluate_with c (Engine.NewFromObject (Engine.normalizeData data)) input.
Proof.
  intros Hb Hne He Hdb Hact Hc. cbn zeta.
  destruct (publishBundle_ok (Evaluate.engine (Evaluate_ s)) text Hne) as (b & Hp & Hv & Hh & Hs & Hd).
  rewrite <- Hs in Hc. rewrite <- Hv, <- Hd.
  rewrite (publish_activated s r text b Hb Hne He Hdb Hact Hp), Hh, <- Hv.
  rewrite activated_engine, (Engine.rebuild_ok _ c) by exact Hc. clear Hv Hh Hp Hs.
  split_and!; [reflexivity..|]. intros input. reflexivity.
Qed.

(** Publishing does not check that the text is a policy: one that does not
    compile is accepted and reported as activated, the engine reports its
    version, and the old policy goes on deciding. *)
Theorem publish_accepts_broken_policy (s : Svcs) r text err cs :
  Auth.Body r = inr text -> bytesTrim text <> "" -> HasEngine s = true -> DB s = None ->
  EqualFoldASCII (Auth.Query r "activate") "true" = true ->
  Engine.compiled (Evaluate.engine (Evaluate_ s)) = Some cs ->
  Engine.compileModules {["decisions.rego" := text]} = inl err ->
  let '(s', a) := publishRulesHandler s r in
  exists v, a = Answer 201 (BPublished v v true) /\
    Engine.eng_Version (Evaluate.engine (Evaluate_ s')) = v /\
    forall input, Engine.eng_Evaluate (Evaluate.engine (Evaluate_ s')) input =
      Engine.eng_Evaluate (Evaluate.engine (Evaluate_ s)) input.
Proof.
  intros Hb Hne He Hdb Hact Hcs Hc.
  destruct (publishBundle_ok (Evaluate.engine (Evaluate_ s)) text Hne) as (b & Hp & Hv & Hh & Hs & Hd).
  rewrite <- Hs in Hc. rewrite (publish_activated s r text b Hb Hne He Hdb Hact Hp), Hh, <- Hv.
  rewrite activated_engine, (Engine.rebuild_err _ err) by exact Hc.
  clear Hv Hh Hp Hs. exists (Engine.Version b). split_and!; [reflexivity..|]. intros input. simpl.
  unfold Engine.Evaluate, Engine.policy_of. simpl. by rewrite Hcs.
Qed.

End Props.

(** ** A concrete server *)

Definition sample_body : BodyDecoder := {|
  dec_evaluate := fun _ => Some (EvaluateProps.sample_req "100.00");
  dec_add := fun _ => None; dec_verify := fun _ => None; dec_resolve := fun _ => None |}.

Definition sample_db : PolicyDB unit := {| ActivatePolicyVersion := fun d _ _ _ _ _ => (d, None) |}.

Abbreviation SampleSvcs := (@Services Audit.sample_ed Engine.sample_opa Velocity.MemoryCounter
  Whitelist.MemoryStore Review.MemoryStore Audit.MemoryStore Audit.MemorySink unit).

(** The services with or without authentication, as the program builds them. *)
Definition sample_services (auth : option Auth.AuthConfig) : SampleSvcs :=
  {| Evaluate_ := Evaluate.SetSessionValidDefault (EvaluateProps.sample_svc "allow")
       (negb (Auth.Enabled auth));
     Notifier := None; HasEngine := true; Auth := auth; DB := None |}.

Definition sample_world : world :=
  {| w_now := 10; w_eval := EvaluateProps.sample_oracle 10 "dec_1"; w_net := Review.quiet_net |}.

Definition sample_evaluate : Auth.http_request :=
  {| Auth.Method := "POST"; Auth.Segments := ["v1"; "policy"; "evaluate"]; Auth.Unclean := false;
     Auth.Query := fun _ => ""; Auth.Authorization := ""; Auth.Body := inr "{}" |}.

Definition sample_publish (text : string) : Auth.http_request :=
  {| Auth.Method := "POST"; Auth.Segments := ["v1"; "policy"; "rules"]; Auth.Unclean := false;
     Auth.Query := fun k => if k == "activate" then "TRUE" else "";
     Auth.Authorization := "Bearer e30.e30.sig"; Auth.Body := inr text |}.

Definition sample_preq : EvaluateRequest :=
  {| UserId := "usr_1"; PAmount := "100.00"; PCurrency := "USD"; PAsset := "USDC"; PRail := "ach";
     PDestAddress := "0xabc"; PDestChain := "ethereum"; KytVerdict := "clean";
     PFraudScore := lit 1 (-1); KycStatus := "verified"; PUserTier := "tier_1";
     Session_2FaPassed := false; FxRateToUsd := f0 |}.

Abbreviation sample_evaluator := (@Evaluate.Service_Evaluator Audit.sample_fmt Audit.sample_ed _ _ _ _ _ _
  _ _ _ _ _ _).

Abbreviation SampleServe := (@serve Audit.sample_fmt Audit.sample_ed Engine.sample_opa
  Auth.sample_decoder sample_body _ _ _ _ _ _ _ _ sample_db sample_evaluator).

Abbreviation SampleGrpc := (@grpc_Evaluate Audit.sample_ed Engine.sample_opa _ _ _ _ _ _
  sample_evaluator).

Abbreviation SamplePublish := (@publishRulesHandler Audit.sample_fmt Audit.sample_ed Engine.sample_opa
  _ _ _ _ _ _ sample_db).

Lemma effects_need_authorization_witness :
  let s := sample_services (Some Auth.sample_auth) in
  let r := sample_publish "package x" in
  fst (SampleServe s sample_world r) = s \/
  exists claims, @Auth.validateBearer Auth.sample_decoder Auth.sample_auth 10 r = inr claims /\
    (mux r = REvaluate \/ Auth.HasAnyScope claims (Auth.AdminScopes Auth.sample_auth) = true).
Proof.
  cbn zeta. apply (@effects_need_authorization Audit.sample_fmt Audit.sample_ed Engine.sample_opa
    Auth.sample_decoder sample_body _ _ _ _ _ _ _ _ sample_db sample_evaluator
    (sample_services (Some Auth.sample_auth)) sample_world (sample_publish "package x") Auth.sample_auth);
    [reflexivity|discriminate].
Defined.

Lemma transports_agree_witness :
  let s := sample_services None in
  let '(s1, a) := SampleServe s sample_world sample_evaluate in
  let '(s2, g) := SampleGrpc s sample_world sample_preq in
  s1 = s2 /\
  match g with
  | GrpcOk presp => exists resp, a = Answer 200 (BDecision resp) /\ same_response resp presp
  | GrpcError e => a = writeError e
  | GrpcPanic => a = Aborted
  end.
Proof.
  cbn zeta. apply (@transports_agree Audit.sample_fmt Audit.sample_ed Engine.sample_opa
    Auth.sample_decoder sample_body _ _ _ _ _ _ _ _ _ _ _ sample_db
    (sample_services None) sample_world sample_evaluate sample_preq "{}"
    (EvaluateProps.sample_req "100.00"));
    [reflexivity|reflexivity|reflexivity|reflexivity|discriminate|reflexivity|].
  unfold same_request. split_and!; reflexivity.
Defined.

Lemma grpc_denied_when_auth_enabled_witness :
  let s := sample_services (Some Auth.sample_auth) in
  exists s' resp, SampleGrpc s sample_world sample_preq = (s', GrpcOk resp) /\
    PDecision resp = "deny" /\ elems (PReasons resp) = ["invalid_session"].
Proof.
  cbn zeta. eexists _, _. split; [vm_compute; reflexivity|].
  apply (@grpc_denied_when_auth_enabled Audit.sample_fmt Audit.sample_ed Engine.sample_opa
    _ _ _ _ _ _ _ _ _ _ _ (sample_services (Some Auth.sample_auth)) sample_world sample_preq
    (Caps.DefaultConfig EvaluateProps.no_env)
    (fst (SampleGrpc (sample_services (Some Auth.sample_auth)) sample_world sample_preq)));
    [reflexivity|reflexivity|vm_compute; reflexivity].
Defined.

Lemma publish_activates_witness :
  let s := sample_services None in
  let text := "manual_review" in
  let data := Engine.Data (Engine.bundle (Evaluate.engine (Evaluate_ s))) in
  let v := @Engine.hashBundle Audit.sample_fmt {["decisions.rego" := text]} data in
  let '(s', a) := SamplePublish s (sample_publish text) in
  a = Answer 201 (BPublished v v true) /\
  Engine.eng_Version (Evaluate.engine (Evaluate_ s')) = v /\
  forall input, Engine.eng_Evaluate (Evaluate.engine (Evaluate_ s')) input =
    @Engine.evaluate_with Engine.sample_opa {["decisions.rego" := text]}
      (Engine.NewFromObject (Engine.normalizeData data)) input.
Proof.
  cbn zeta. apply (@publish_activates Audit.sample_fmt Audit.sample_ed Engine.sample_opa
    _ _ _ _ _ _ sample_db (sample_services None) (sample_publish "manual_review") "manual_review"
    {["decisions.rego" := "manual_review"]});
    [reflexivity|discriminate|reflexivity|reflexivity|reflexivity|vm_compute; reflexivity].
Defined.

Lemma publish_accepts_broken_policy_witness :
  let s := sample_services None in
  let '(s', a) := SamplePublish s (sample_publish "bad") in
  exists v, a = Answer 201 (BPublished v v true) /\
    Engine.eng_Version (Evaluate.engine (Evaluate_ s')) = v /\
    forall input, Engine.eng_Evaluate (Evaluate.engine (Evaluate_ s')) input =
      Engine.eng_Evaluate (Evaluate.engine (Evaluate_ s)) input.
Proof.
  cbn zeta. apply (@publish_accepts_broken_policy Audit.sample_fmt Audit.sample_ed Engine.sample_opa
    _ _ _ _ _ _ sample_db (sample_services None) (sample_publish "bad") "bad"
    (Wrapf "parse decisions.rego" (Errorf "rego_parse_error"))
    ({["decisions.rego" := "allow"]}, ∅));
    [reflexivity|discriminate|reflexivity|reflexivity|reflexivity|vm_compute; reflexivity
    |vm_compute; reflexivity].
Defined.

End ApiProps.
