(* ===== verification/Unmarshal.v ===== *)
(** * json.Unmarshal into Go values

    The second stage of the decoding of [encoding/json]: a tree of [JsonDecode] is
    assigned to a Go variable.  The first type error makes the whole call fail;
    every caller of the program drops the variable then, so a failed decoding is
    [None].

    The bodies of the REST API, the header and the claims of a token, a key set
    and the data files of a policy bundle are decoded with these. *)
From Stdlib Require Import ZArith Lia Ascii String SpecFloat.
From stdpp Require Import base gmap strings list.
From S2P Require Import Prelude GoLib Float64 Sha256 Json Engine JsonDecode Format.
From S2P Require Import Caps Velocity Whitelist Review AuditLog Metrics Evaluate Auth Api.

Open Scope Z_scope.
Open Scope go_scope.

Module Unmarshal.
Import Json Engine JsonDecode.

(** ** Scalars

    An assignment takes the value the variable has: [null] leaves it. *)
Abbreviation assign A := (A -> json -> option A).

Definition to_string : assign string := fun old j =>
  match j with JStr s => Some s | JNull => Some old | _ => None end.

Definition to_bool : assign bool := fun old j =>
  match j with JBool b => Some b | JNull => Some old | _ => None end.

(** A number out of range is an error. *)
Definition float_of_text (t : string) : option float64 :=
  match ParseFloat t with (x, None) => Some x | (_, Some _) => None end.

Definition to_float : assign float64 := fun old j =>
  match j with JNum t => float_of_text t | JNull => Some old | _ => None end.

(** A number with a fraction or an exponent is an error, as one out of range is. *)
Definition to_int64 : assign Z := fun old j =>
  match j with JNum t => Atoi t | JNull => Some old | _ => None end.

(** ** Values of type any

    An object becomes a map: a later value of a key replaces an earlier one. *)
Fixpoint put {A} (k : string) (v : A) (l : list (string * A)) : list (string * A) :=
  match l with
  | [] => [(k, v)]
  | (k', v') :: l' => if k == k' then (k, v) :: l' else (k', v') :: put k v l'
  end.

Fixpoint any_of (j : json) : option any :=
  match j with
  | JNull => Some ANil
  | JBool b => Some (ABool b)
  | JNum t => AFloat <$> float_of_text t
  | JStr s => Some (AString s)
  | JArr l =>
      AArray <$> (fix go (l : list json) : option (list any) :=
        match l with
        | [] => Some []
        | x :: l' => match any_of x, go l' with Some v, Some vs => Some (v :: vs) | _, _ => None end
        end) l
  | JObj kvs =>
      AObject <$> (fix go (l : list (string * json)) (acc : list (string * any)) : option (list (string * any)) :=
        match l with
        | [] => Some acc
        | (k, x) :: l' => match any_of x with Some v => go l' (put k v acc) | None => None end
        end) kvs []
  end.

Definition to_any : assign any := fun _ j => any_of j.

(** ** Slices

    A slice is its backing array and its length.  Decoding into a slice that has
    been decoded into before, by an earlier field of the same name, writes over
    the old elements: an element that is [null] keeps what the array holds, also
    beyond the old length.  [null] gives a nil slice and [[]] a new empty one. *)
Record vec A := { v_back : list A; v_len : nat }.
Arguments v_back {A} v.
Arguments v_len {A} v.

Definition vec_nil {A} : vec A := {| v_back := []; v_len := 0 |}.
Definition vec_elems {A} (v : vec A) : list A := take (v_len v) (v_back v).

Fixpoint store_elems {A} (elem : assign A) (zero : A) (js : list json) (back : list A) : option (list A) :=
  match js with
  | [] => Some back
  | j :: js' =>
      let '(old, back') := match back with x :: b => (x, b) | [] => (zero, []) end in
      match elem old j, store_elems elem zero js' back' with
      | Some x, Some b => Some (x :: b)
      | _, _ => None
      end
  end.

Definition to_slice {A} (elem : assign A) (zero : A) : assign (vec A) := fun old j =>
  match j with
  | JArr [] => Some vec_nil
  | JArr l => (fun b => {| v_back := b; v_len := length l |}) <$> store_elems elem zero l (v_back old)
  | JNull => Some vec_nil
  | _ => None
  end.

(** ** Structs

    A field has the name of its tag.  The key of an object is compared with the
    names as it is, and then under case folding: besides the ASCII letters,
    U+017F (bytes C5 BF) folds with s and U+212A (bytes E2 84 AA) with k. *)
Fixpoint fold_name (s : string) : string :=
  match s with
  | EmptyString => ""
  | String a s1 =>
      match s1 with
      | String b s2 =>
          if (code a =? 197) && (code b =? 191) then String "s" (fold_name s2) else
          match s2 with
          | String c s3 =>
              if (code a =? 226) && (code b =? 132) && (code c =? 170) then String "k" (fold_name s3)
              else String (lower_ascii a) (fold_name s1)
          | EmptyString => String (lower_ascii a) (fold_name s1)
          end
      | EmptyString => String (lower_ascii a) ""
      end
  end.

Abbreviation struct A := (list (string * assign A)).

Definition find_field {A} (fs : struct A) (key : string) : option (assign A) :=
  match find (fun f => fst f == key) fs with
  | Some f => Some (snd f)
  | None => snd <$> find (fun f => fold_name (fst f) == fold_name key) fs
  end.

(** One field after the other; an unknown one is skipped. *)
Fixpoint store_fields {A} (fs : struct A) (x : A) (kvs : list (string * json)) : option A :=
  match kvs with
  | [] => Some x
  | (k, j) :: kvs' =>
      match find_field fs k with
      | None => store_fields fs x kvs'
      | Some set => match set x j with Some x' => store_fields fs x' kvs' | None => None end
      end
  end.

Definition to_struct {A} (fs : struct A) : assign A := fun old j =>
  match j with
  | JObj kvs => store_fields fs old kvs
  | JNull => Some old
  | _ => None
  end.

(** The assignment to a part of a value. *)
Definition field {A B} (get : A -> B) (set : A -> B -> A) (asg : assign B) : assign A := fun x j =>
  set x <$> asg (get x) j.

Definition unmarshal {A} (asg : assign A) (zero : A) (text : string) : option A :=
  match parse text with Some j => asg zero j | None => None end.
(** ** The bodies of the REST API *)

(** [evaluate.Request]: the fields with a tag, [SessionValid] has none. *)
Definition zero_request : Evaluate.Request :=
  Evaluate.Build_Request "" "" "" "" "" "" "" "" f0 "" "" false f0 false.

Definition request_struct : struct Evaluate.Request :=
  let R := Evaluate.Build_Request in
  [ ("user_id", field Evaluate.UserID
       (fun '(Evaluate.Build_Request _ b c d e f g h i j k l m n) v => R v b c d e f g h i j k l m n) to_string);
    ("amount", field Evaluate.Amount
       (fun '(Evaluate.Build_Request a _ c d e f g h i j k l m n) v => R a v c d e f g h i j k l m n) to_string);
    ("currency", field Evaluate.Currency
       (fun '(Evaluate.Build_Request a b _ d e f g h i j k l m n) v => R a b v d e f g h i j k l m n) to_string);
    ("asset", field Evaluate.Asset
       (fun '(Evaluate.Build_Request a b c _ e f g h i j k l m n) v => R a b c v e f g h i j k l m n) to_string);
    ("rail", field Evaluate.Rail
       (fun '(Evaluate.Build_Request a b c d _ f g h i j k l m n) v => R a b c d v f g h i j k l m n) to_string);
    ("dest_address", field Evaluate.DestAddress
       (fun '(Evaluate.Build_Request a b c d e _ g h i j k l m n) v => R a b c d e v g h i j k l m n) to_string);
    ("dest_chain", field Evaluate.DestChain
       (fun '(Evaluate.Build_Request a b c d e f _ h i j k l m n) v => R a b c d e f v h i j k l m n) to_string);
    ("kyt_verdict", field Evaluate.KYTVerdict
       (fun '(Evaluate.Build_Request a b c d e f g _ i j k l m n) v => R a b c d e f g v i j k l m n) to_string);
    ("fraud_score", field Evaluate.FraudScore
       (fun '(Evaluate.Build_Request a b c d e f g h _ j k l m n) v => R a b c d e f g h v j k l m n) to_float);
    ("kyc_status", field Evaluate.KYCStatus
       (fun '(Evaluate.Build_Request a b c d e f g h i _ k l m n) v => R a b c d e f g h i v k l m n) to_string);
    ("user_tier", field Evaluate.UserTier
       (fun '(Evaluate.Build_Request a b c d e f g h i j _ l m n) v => R a b c d e f g h i j v l m n) to_string);
    ("session_2fa_passed", field Evaluate.Session2FA
       (fun '(Evaluate.Build_Request a b c d e f g h i j k _ m n) v => R a b c d e f g h i j k v m n) to_bool);
    ("fx_rate_to_usd", field Evaluate.FXRateToUSD
       (fun '(Evaluate.Build_Request a b c d e f g h i j k l _ n) v => R a b c d e f g h i j k l v n) to_float) ].

Definition dec_evaluate : string -> option Evaluate.Request :=
  unmarshal (to_struct request_struct) zero_request.

Definition add_struct : struct Api.addWhitelistRequest :=
  let R := Api.Build_addWhitelistRequest in
  [ ("user_id", field Api.a_UserID (fun '(Api.Build_addWhitelistRequest _ b c d) v => R v b c d) to_string);
    ("chain", field Api.a_Chain (fun '(Api.Build_addWhitelistRequest a _ c d) v => R a v c d) to_string);
    ("address", field Api.a_Address (fun '(Api.Build_addWhitelistRequest a b _ d) v => R a b v d) to_string);
    ("label", field Api.a_Label (fun '(Api.Build_addWhitelistRequest a b c _) v => R a b c v) to_string) ].

Definition dec_add : string -> option Api.addWhitelistRequest :=
  unmarshal (to_struct add_struct) (Api.Build_addWhitelistRequest "" "" "" "").

Definition verify_struct : struct Api.verifyWhitelistRequest :=
  let R := Api.Build_verifyWhitelistRequest in
  [ ("chain", field Api.v_Chain (fun '(Api.Build_verifyWhitelistRequest _ b) v => R v b) to_string);
    ("address", field Api.v_Address (fun '(Api.Build_verifyWhitelistRequest a _) v => R a v) to_string) ].

Definition dec_verify : string -> option Api.verifyWhitelistRequest :=
  unmarshal (to_struct verify_struct) (Api.Build_verifyWhitelistRequest "" "").

Definition resolve_struct : struct Api.resolveReviewRequest :=
  let R := Api.Build_resolveReviewRequest in
  [ ("assignee", field Api.r_Assignee (fun '(Api.Build_resolveReviewRequest _ b) v => R v b) to_string);
    ("resolution", field Api.r_Resolution (fun '(Api.Build_resolveReviewRequest a _) v => R a v) to_string) ].

Definition dec_resolve : string -> option Api.resolveReviewRequest :=
  unmarshal (to_struct resolve_struct) (Api.Build_resolveReviewRequest "" "").

#[global] Instance body_decoder : Api.BodyDecoder :=
  {| Api.dec_evaluate := dec_evaluate; Api.dec_add := dec_add; Api.dec_verify := dec_verify;
     Api.dec_resolve := dec_resolve |}.

(** ** Tokens *)

(** The header of a token: its key id and algorithm. *)
Definition header_struct : struct (string * string) :=
  [ ("kid", field fst (fun h v => (v, snd h)) to_string);
    ("alg", field snd (fun h v => (fst h, v)) to_string) ].

Definition dec_header (text : string) : option string :=
  fst <$> unmarshal (to_struct header_struct) ("", "") text.

(** The claims, with the slice of the scopes beside them while it is written. *)
Definition zero_claims : Auth.Claims := Auth.Build_Claims "" "" ANil "" [] 0 0.

Definition on_claims {B} (get : Auth.Claims -> B) (set : Auth.Claims -> B -> Auth.Claims) (asg : assign B)
  : assign (Auth.Claims * vec string) :=
  field (fun s => get (fst s)) (fun s v => (set (fst s) v, snd s)) asg.

Definition claims_struct : struct (Auth.Claims * vec string) :=
  let R := Auth.Build_Claims in
  [ ("sub", on_claims Auth.Sub (fun '(Auth.Build_Claims _ b c d e f g) v => R v b c d e f g) to_string);
    ("iss", on_claims Auth.Iss (fun '(Auth.Build_Claims a _ c d e f g) v => R a v c d e f g) to_string);
    ("aud", on_claims Auth.Aud (fun '(Auth.Build_Claims a b _ d e f g) v => R a b v d e f g) to_any);
    ("scope", on_claims Auth.Scope (fun '(Auth.Build_Claims a b c _ e f g) v => R a b c v e f g) to_string);
    ("scopes", field snd (fun s v => (fst s, v)) (to_slice to_string ""));
    ("exp", on_claims Auth.Exp (fun '(Auth.Build_Claims a b c d e _ g) v => R a b c d e v g) to_int64);
    ("iat", on_claims Auth.Iat (fun '(Auth.Build_Claims a b c d e f _) v => R a b c d e f v) to_int64) ].

Definition close_claims (s : Auth.Claims * vec string) : Auth.Claims :=
  let '(Auth.Build_Claims a b c d _ f g) := fst s in Auth.Build_Claims a b c d (vec_elems (snd s)) f g.

Definition dec_claims (text : string) : option Auth.Claims :=
  close_claims <$> unmarshal (to_struct claims_struct) (zero_claims, vec_nil) text.

(** The text of the error of a failed call, for the type it decodes into, is a
    parameter, as the text of [%q] of a string is. *)
Class Texts := {
  unmarshal_error : string -> string -> error;
  text_quoted : string -> string
}.

Definition or_error `{Texts} {A} (type text : string) (r : option A) : Res A :=
  match r with Some x => inr x | None => inl (unmarshal_error type text) end.

#[global] Instance token_decoder `{Texts} : Auth.Decoder :=
  {| Auth.dec_header := fun t => or_error "header" t (dec_header t);
     Auth.dec_claims := fun t => or_error "Claims" t (dec_claims t);
     Auth.sprint_float := Format.print_float;
     Auth.sprint_quoted := text_quoted |}.

(** ** Key sets *)

Definition key_struct : struct (string * string) :=
  [ ("kid", field fst (fun k v => (v, snd k)) to_string);
    ("kty", field snd (fun k v => (fst k, v)) to_string) ].

Definition jwks_struct : struct (vec (string * string)) :=
  [ ("keys", to_slice (to_struct key_struct) ("", "")) ].

Definition dec_jwks (text : string) : option (list string) :=
  (fun v => fst <$> vec_elems v) <$> unmarshal (to_struct jwks_struct) vec_nil text.

(** What one GET of the key set gives, from the answer of the server. *)
Definition jwks_response `{Texts} (status : Z) (body : Res string) : Auth.jwks_answer :=
  Auth.JwksResponse status
    (match body with inl e => inl e | inr text => or_error "jwks" text (dec_jwks text) end).

(** ** Data files of a bundle *)

(** [json.Unmarshal(body, &v)] for a [map[string]any]; [null] is the nil map. *)
Definition dec_object (text : string) : option (gmap string any) :=
  match parse text with
  | Some JNull => Some ∅
  | Some (JObj kvs) =>
      match any_of (JObj kvs) with Some (AObject l) => Some (list_to_map l) | _ => None end
  | _ => None
  end.

Definition json_file `{Texts} (path text : string) : file :=
  JsonFile path (or_error "map[string]any" text (dec_object text)).
(** ** Evaluation on concrete inputs *)

Example decode_request_ex :
  dec_evaluate (q "{'user_id':'u','AMOUNT':'1','fraud_score':1e-1,'user_id':null,'SessionValid':true,'x':[1]}")
  = Some (Evaluate.Build_Request "u" "1" "" "" "" "" "" "" (lit 1 (-1)) "" "" false f0 false).
Proof. vm_compute. reflexivity. Qed.

Example decode_bad_ex :
  map (fun s => dec_evaluate (q s)) ["[]"; "{'user_id':1}"; "{'fraud_score':'1'}"; "{'fraud_score':1e400}"; "{"; "3"]
  = repeat None 6 /\
  dec_evaluate "null" = Some zero_request.
Proof. vm_compute. auto. Qed.

(** A third value of the same field finds the elements of the first. *)
Example decode_claims_ex :
  (fun c => (Auth.Scopes c, Auth.Exp c)) <$>
    dec_claims (q "{'scopes':['a','policy:admin'],'scopes':['b'],'ScopeS':[null,null],'exp':17}")
  = Some (["b"; "policy:admin"], 17)
  /\ dec_claims (q "{'exp':1.5e9}") = None
  /\ dec_jwks (q "{'keys':[{'kid':'k1','kty':'OKP'},{},{'KID':'k2'}]}") = Some ["k1"; ""; "k2"].
Proof. vm_compute. auto. Qed.

(** ** Structs, field by field *)

(** What an object holds for one field of a struct: the values under the names
    that fold to it are assigned one after the other. *)
Fixpoint last_field {B} (asg : assign B) (old : B) (name : string) (kvs : list (string * json)) : option B :=
  match kvs with
  | [] => Some old
  | (k, j) :: kvs' =>
      if fold_name k == name then
        match asg old j with Some v => last_field asg v name kvs' | None => None end
      else last_field asg old name kvs'
  end.

(** The names of the tags are folded already. *)
Definition folded {A} (fs : struct A) : bool := forallb (fun f => fold_name (fst f) == fst f) fs.

Lemma find_field_folded {A} (fs : struct A) k :
  folded fs = true -> NoDup (fst <$> fs) ->
  find_field fs k = snd <$> find (fun f => fst f == fold_name k) fs.
Proof.
  unfold folded, find_field. intros Hf Hn. induction fs as [|[n a] fs IH]; [done|].
  cbn [forallb fst] in Hf. apply andb_true_iff in Hf as [Hn1 Hf]. go_bool.
  apply NoDup_cons in Hn as [Hni Hn]. specialize (IH Hf Hn). cbn [find fst]. rewrite Hn1.
  case_bool_decide as H1.
  - subst k. rewrite Hn1. rewrite bool_decide_eq_true_2 by done. done.
  - destruct (find (fun f => fst f == k) fs) as [[m b]|] eqn:Hfind; [|case_bool_decide; [done|]; exact IH].
    rewrite bool_decide_eq_false_2; [exact IH|]. intros ->. apply find_some in Hfind as [Hin Hm].
    go_bool. simpl in Hm. subst m. apply Hni. apply list_elem_of_fmap. exists (k, b).
    split; [|by apply list_elem_of_In]. rewrite forallb_forall in Hf. specialize (Hf _ Hin).
    go_bool. simpl in Hf. by rewrite Hf.
Qed.
(** The request an object describes, from a given one. *)
Definition request_of (r : Evaluate.Request) (kvs : list (string * json)) : option Evaluate.Request :=
  user ← last_field to_string (Evaluate.UserID r) "user_id" kvs;
  amount ← last_field to_string (Evaluate.Amount r) "amount" kvs;
  currency ← last_field to_string (Evaluate.Currency r) "currency" kvs;
  asset ← last_field to_string (Evaluate.Asset r) "asset" kvs;
  rail ← last_field to_string (Evaluate.Rail r) "rail" kvs;
  addr ← last_field to_string (Evaluate.DestAddress r) "dest_address" kvs;
  chain ← last_field to_string (Evaluate.DestChain r) "dest_chain" kvs;
  kyt ← last_field to_string (Evaluate.KYTVerdict r) "kyt_verdict" kvs;
  fraud ← last_field to_float (Evaluate.FraudScore r) "fraud_score" kvs;
  kyc ← last_field to_string (Evaluate.KYCStatus r) "kyc_status" kvs;
  tier ← last_field to_string (Evaluate.UserTier r) "user_tier" kvs;
  twofa ← last_field to_bool (Evaluate.Session2FA r) "session_2fa_passed" kvs;
  fx ← last_field to_float (Evaluate.FXRateToUSD r) "fx_rate_to_usd" kvs;
  Some (Evaluate.Build_Request user amount currency asset rail addr chain kyt fraud kyc tier twofa fx
          (Evaluate.SessionValid r)).

(** A failed assignment to one field fails the whole, whichever field it is. *)
Ltac fail_all :=
  repeat match goal with |- context [@mbind option _ _ _ _ (last_field ?a ?o ?n ?l)] =>
    destruct (last_field a o n l); simpl; [|done] end.

(** The field named [n], if any: one goal for each name and one for none. *)
Ltac names n :=
  repeat match goal with |- context [bool_decide (?s = n)] =>
    destruct (decide (n = s)) as [->|];
    [ repeat (rewrite bool_decide_eq_true_2 by done);
      repeat (rewrite bool_decide_eq_false_2 by done)
    | rewrite (bool_decide_eq_false_2 (s = n)), (bool_decide_eq_false_2 (n = s)) by congruence ] end.

Lemma find_request k :
  find_field request_struct k = snd <$> find (fun f => fst f == fold_name k) request_struct.
Proof. apply find_field_folded; [by vm_compute|]. apply (bool_decide_unpack _). by vm_compute. Qed.

Lemma store_request r kvs : store_fields request_struct r kvs = request_of r kvs.
Proof.
  revert r. induction kvs as [|[k j] kvs IH]; intros r; [by destruct r|].
  unfold request_of. cbn [store_fields last_field]. rewrite find_request.
  generalize (fold_name k) as n. intros n.
  remember request_struct as fs eqn:Hfs in IH |- *. rewrite Hfs at 1. unfold request_struct. cbn [find fst].
  destruct r as [a b c d e f g h i kk l m o p]. names n; cbn [fmap option_fmap option_map snd];
    [..|rewrite IH; done].
  all: unfold field; cbn [Evaluate.UserID Evaluate.Amount Evaluate.Currency Evaluate.Asset Evaluate.Rail
      Evaluate.DestAddress Evaluate.DestChain Evaluate.KYTVerdict Evaluate.FraudScore Evaluate.KYCStatus
      Evaluate.UserTier Evaluate.Session2FA Evaluate.FXRateToUSD Evaluate.SessionValid];
    match goal with |- context [@fmap option _ _ _ _ (?asg ?old ?x)] => destruct (asg old x) end;
    cbn [fmap option_fmap option_map]; [by rewrite IH|by fail_all].
Qed.
(** ** Properties *)

(** The body of an evaluate call is read field by field: the request that is
    evaluated has, for each field, what the object of the body holds under the
    field's name in any case, the last value that is not null or else the zero
    value; unknown fields are skipped, the session flag cannot be given, and a
    value of another type anywhere, text that is not JSON and a body that is
    neither an object nor null fail. *)
Theorem dec_evaluate_fields text :
  dec_evaluate text = match parse text with
                      | Some (JObj kvs) => request_of zero_request kvs
                      | Some JNull => Some zero_request
                      | _ => None
                      end.
Proof.
  unfold dec_evaluate, unmarshal. destruct (parse text) as [[]|]; try done. apply store_request.
Qed.

Lemma last_field_skip {B} (asg : assign B) old n k j kvs :
  (fold_name k == n) = false -> last_field asg old n ((k, j) :: kvs) = last_field asg old n kvs.
Proof. cbn [last_field]. by intros ->. Qed.

Lemma last_field_hit {B} (asg : assign B) old n k j kvs :
  (fold_name k == n) = true ->
  last_field asg old n ((k, j) :: kvs)
  = match asg old j with Some v => last_field asg v n kvs | None => None end.
Proof. cbn [last_field]. by intros ->. Qed.

Lemma last_field_nil {B} (asg : assign B) old n : last_field asg old n [] = Some old.
Proof. done. Qed.

Ltac by_eval := vm_compute; reflexivity.

(** A request as a client writes it, with the texts of its two numbers. *)
Definition request_tree (r : Evaluate.Request) (fraud fx : string) : json :=
  JObj [ ("user_id", JStr (Evaluate.UserID r)); ("amount", JStr (Evaluate.Amount r));
         ("currency", JStr (Evaluate.Currency r)); ("asset", JStr (Evaluate.Asset r));
         ("rail", JStr (Evaluate.Rail r)); ("dest_address", JStr (Evaluate.DestAddress r));
         ("dest_chain", JStr (Evaluate.DestChain r)); ("kyt_verdict", JStr (Evaluate.KYTVerdict r));
         ("fraud_score", JNum fraud); ("kyc_status", JStr (Evaluate.KYCStatus r));
         ("user_tier", JStr (Evaluate.UserTier r)); ("session_2fa_passed", JBool (Evaluate.Session2FA r));
         ("fx_rate_to_usd", JNum fx) ].

Definition utf8_request (r : Evaluate.Request) : Evaluate.Request :=
  let v := to_valid in
  Evaluate.Build_Request (v (Evaluate.UserID r)) (v (Evaluate.Amount r)) (v (Evaluate.Currency r))
    (v (Evaluate.Asset r)) (v (Evaluate.Rail r)) (v (Evaluate.DestAddress r)) (v (Evaluate.DestChain r))
    (v (Evaluate.KYTVerdict r)) (Evaluate.FraudScore r) (v (Evaluate.KYCStatus r)) (v (Evaluate.UserTier r))
    (Evaluate.Session2FA r) (Evaluate.FXRateToUSD r) false.

(** C25. A request survives the wire: a client that writes its fields as JSON has
    them evaluated, exactly where the strings are UTF-8, whatever characters they
    hold (quotes, control characters, HTML characters); each byte that is not UTF-8
    arrives as U+FFFD ([utf8_request]).  This is so for every text of its numbers
    that stands for them. *)
Theorem request_roundtrip r fraud fx :
  is_number fraud = true -> is_number fx = true ->
  ParseFloat fraud = (Evaluate.FraudScore r, None) -> ParseFloat fx = (Evaluate.FXRateToUSD r, None) ->
  dec_evaluate (print (request_tree r fraud fx)) = Some (utf8_request r).
Proof.
  intros Hn1 Hn2 Hp1 Hp2. unfold dec_evaluate, unmarshal.
  rewrite parse_printed; [|by cbn; rewrite Hn1, Hn2|by vm_compute].
  cbn [to_struct norm request_tree]. rewrite store_request. unfold request_of.
  assert (to_float (Evaluate.FraudScore zero_request) (JNum fraud) = Some (Evaluate.FraudScore r)) as Hf
    by (unfold to_float, float_of_text; by rewrite Hp1).
  assert (to_float (Evaluate.FXRateToUSD zero_request) (JNum fx) = Some (Evaluate.FXRateToUSD r)) as Hx
    by (unfold to_float, float_of_text; by rewrite Hp2).
  cbn [map norm]. do 13 (repeat (rewrite last_field_skip by by_eval); rewrite last_field_hit by by_eval;
    first [rewrite Hf|rewrite Hx|cbn [to_string to_bool]];
    repeat (rewrite last_field_skip by by_eval); rewrite last_field_nil; cbn [mbind option_bind]). done.
Qed.

Definition request_ex : Evaluate.Request :=
  Evaluate.Build_Request (String quote "u<1>") "12.50" "EUR" "BTC" "card" "bc1" "bitcoin" "clean" (lit 1 (-1))
    "verified" "gold" true (lit 108 (-2)) false.

Lemma request_roundtrip_witness :
  dec_evaluate (print (request_tree request_ex "0.1" "1.08")) = Some request_ex.
Proof. exact (request_roundtrip request_ex "0.1" "1.08" eq_refl eq_refl eq_refl eq_refl). Defined.

End Unmarshal.
