(* ===== verification/Wire.v ===== *)
(** * What is written to the wire

    The JSON texts of the service as trees of [JsonDecode]: the answers of the
    REST handlers ([writeJSON], [writeError], [healthz] of [internal/api/api.go]),
    with the tags of the structs they encode, and the texts the audit service
    signs and hashes ([internal/audit/audit.go]), which [AuditLog] builds as
    strings.

    A number is encoded with the formatting of [Json.Fmt]; what the results need
    of it is that the text of a finite number is a JSON number ([FmtOk]), which
    holds of the library's ([go_fmt_ok]). *)
From Stdlib Require Import ZArith Lia Ascii String SpecFloat.
From stdpp Require Import base gmap strings list.
From S2P Require Import Prelude GoLib Float64 Sha256 Json Engine JsonDecode Format.
From S2P Require Import Caps Velocity Whitelist Review AuditLog Metrics Evaluate EvaluateProps Auth Api ApiProps Unmarshal.

Open Scope Z_scope.
Open Scope go_scope.

Module Wire.
Import Json JsonDecode.

Class FmtOk `{Fmt} : Prop := {
  fmt_float_number x : is_finite x = true -> is_number (fmt_float x) = true
}.

#[export] Instance go_fmt_ok zone : @FmtOk (Format.go_fmt zone).
Proof. constructor. apply Format.json_float_number. Qed.

(** ** Trees of Go values *)

Section Trees.
Context `{Fmt}.

Definition float_tree (x : float64) : Res json :=
  if is_finite x then inr (JNum (fmt_float x)) else inl (Errorf "json: unsupported value").

Definition time_tree (t : time) : Res json :=
  match fmt_time t with
  | Some s => inr (JStr s)
  | None => inl (Errorf "json: error calling MarshalJSON for type time.Time")
  end.

Definition strings_tree (s : slice string) : json :=
  match s with None => JNull | Some l => JArr (JStr <$> l) end.

(** A field tagged [omitempty]. *)
Definition omit_empty (name s : string) : list (string * json) :=
  if s == "" then [] else [(name, JStr s)].

Fixpoint all_res {A} (l : list (Res A)) : Res (list A) :=
  match l with
  | [] => inr []
  | r :: l' => let? x := r in let? xs := all_res l' in inr (x :: xs)
  end.

(** The slices the stores return are nil when they are empty. *)
Definition list_tree {A} (f : A -> Res json) (l : list A) : Res json :=
  match l with
  | [] => inr JNull
  | _ => let? js := all_res (f <$> l) in inr (JArr js)
  end.

(** ** Answers *)

Definition rule_tree (r : Evaluate.AppliedRule) : json :=
  JObj (("id", JStr (Evaluate.ID r)) :: omit_empty "version" (Evaluate.Version r)).

Definition rules_tree (l : slice Evaluate.AppliedRule) : json :=
  match l with None => JNull | Some l => JArr (rule_tree <$> l) end.

Definition response_tree (r : Evaluate.Response) : Res json :=
  let? score := float_tree (Evaluate.Score r) in
  inr (JObj [ ("decision", JStr (Evaluate.Decision r));
              ("reasons", strings_tree (Evaluate.Reasons r));
              ("applied_rules", rules_tree (Evaluate.AppliedRules r));
              ("policy_version", JStr (Evaluate.PolicyVersion r));
              ("score", score);
              ("decision_id", JStr (Evaluate.DecisionID r)) ]).

(** The tag [omitempty] of [verified_at] has no effect on a struct: the field is
    always written. *)
Definition entry_tree (e : Whitelist.Entry) : Res json :=
  let? verified := time_tree (Whitelist.VerifiedAt e) in
  let? created := time_tree (Whitelist.CreatedAt e) in
  inr (JObj ([ ("user_id", JStr (Whitelist.UserID e)); ("chain", JStr (Whitelist.Chain e));
               ("address", JStr (Whitelist.Address e)) ] ++
             omit_empty "label" (Whitelist.Label e) ++
             [ ("status", JStr (Whitelist.Status e)); ("verified_at", verified); ("created_at", created) ])).

Definition resolved_tree (t : option time) : Res (list (string * json)) :=
  match t with
  | None => inr []
  | Some t => let? j := time_tree t in inr [("resolved_at", j)]
  end.

Definition item_tree (i : Review.Item) : Res json :=
  let? created := time_tree (Review.CreatedAt i) in
  let? resolved := resolved_tree (Review.ResolvedAt i) in
  inr (JObj (("decision_id", JStr (Review.DecisionID i)) :: omit_empty "tx_id" (Review.TxID i) ++
             ("status", JStr (Review.Status i)) :: omit_empty "assigned_to" (Review.AssignedTo i) ++
             ("created_at", created) :: resolved ++ omit_empty "resolution" (Review.Resolution i))).

Definition health_tree : json := JObj [("status", JStr "ok")].

(** [errorEnvelope]. *)
Definition error_tree (code msg : string) : json :=
  JObj [("error", JObj [("code", JStr code); ("message", JStr msg)])].

(** The keys of a map are written in order. *)
Definition answer_tree (b : Api.body) : Res json :=
  match b with
  | Api.BError code msg => inr (error_tree code msg)
  | Api.BHealth => inr health_tree
  | Api.BDecision resp => response_tree resp
  | Api.BEntry e => entry_tree e
  | Api.BEntries l => let? j := list_tree entry_tree l in inr (JObj [("entries", j)])
  | Api.BItem i => item_tree i
  | Api.BItems l => let? j := list_tree item_tree l in inr (JObj [("items", j)])
  | Api.BNoRules => inr (JObj [("rules", JArr [])])
  | Api.BRules version hash => inr (JObj [("hash", JStr hash); ("version", JStr version)])
  | Api.BPublished version hash activate =>
      inr (JObj [("activate", JBool activate); ("hash", JStr hash); ("version", JStr version)])
  | Api.BMetrics _ | Api.BNone => inl (Errorf "not written as JSON")
  end.

(** [json.NewEncoder(w).Encode(v)], its error dropped: nothing is written then. *)
Definition encode (j : Res json) : string :=
  match j with inr j => print j +:+ Metrics.nl | inl _ => "" end.

Record response := { status : Z; content_type : string; text : string }.

(** The answer as it is sent; what the router of [net/http] answers by itself has
    no entry, and an aborted handler sends nothing.  The status is written before
    the body is encoded. *)
Definition written (a : Api.answer) : option response :=
  match a with
  | Api.Answer st (Api.BMetrics t) =>
      Some {| status := st; content_type := "text/plain; version=0.0.4; charset=utf-8"; text := t |}
  | Api.Answer _ Api.BNone => None
  | Api.Answer st b => Some {| status := st; content_type := "application/json"; text := encode (answer_tree b) |}
  | Api.Aborted => None
  end.

(** ** Signed and hashed texts *)

Definition record_tree (rec : Audit.DecisionRecord) : Res json :=
  let? score := float_tree (Audit.Score rec) in
  let? created := time_tree (Audit.CreatedAt rec) in
  inr (JObj
    ([ ("decision_id", JStr (Audit.DecisionID rec)); ("policy_version", JStr (Audit.PolicyVersion rec));
       ("request_hash", JStr (Audit.RequestHash_ rec)); ("decision", JStr (Audit.Decision rec));
       ("reasons", strings_tree (Audit.Reasons rec)); ("applied_rules", strings_tree (Audit.AppliedRules rec));
       ("score", score); ("created_at", created) ] ++ omit_empty "signature" (Audit.Signature rec))).

Definition request_tree (req : Audit.Request) : Res json :=
  let? fraud := float_tree (Audit.FraudScore req) in
  inr (JObj
    [ ("user_id", JStr (Audit.UserID req)); ("amount", JStr (Audit.Amount req));
      ("currency", JStr (Audit.Currency req)); ("asset", JStr (Audit.Asset req));
      ("rail", JStr (Audit.Rail req)); ("dest_address", JStr (Audit.DestAddress req));
      ("dest_chain", JStr (Audit.DestChain req)); ("kyt_verdict", JStr (Audit.KYTVerdict req));
      ("fraud_score", fraud); ("kyc_status", JStr (Audit.KYCStatus req)) ]).

Definition text_of (j : Res json) : Res string :=
  match j with inr j => inr (print j) | inl e => inl e end.

End Trees.
(** ** Facts *)

Section Facts.
Context `{Fmt, !FmtOk}.

Definition shallow (n : Z) (j : json) : Prop := well_formed j = true /\ nesting j <= n.

Lemma shallow_le n m j : shallow n j -> n <= m -> shallow m j.
Proof. intros [Hw Hn] Hm. split; [done|lia]. Qed.

Lemma shallow_str n s : 0 <= n -> shallow n (JStr s).
Proof. done. Qed.

Lemma shallow_arr n l : 0 <= n -> Forall (shallow n) l -> shallow (n + 1) (JArr l).
Proof.
  intros Hn Hl. split.
  - simpl. apply forallb_forall. intros j Hj. apply list_elem_of_In in Hj. rewrite Forall_forall in Hl. by apply Hl.
  - cbn [nesting]. induction Hl as [|j l [_ Hj] Hl IH]; cbn [fold_right]; lia.
Qed.

Lemma shallow_obj n kvs : 0 <= n -> Forall (fun kv => shallow n (snd kv)) kvs -> shallow (n + 1) (JObj kvs).
Proof.
  intros Hn Hl. split.
  - simpl. apply forallb_forall. intros [k j] Hj. apply list_elem_of_In in Hj. rewrite Forall_forall in Hl.
    by apply (Hl (k, j)).
  - rewrite nesting_obj. induction Hl as [|[k j] l [_ Hj] Hl IH]; cbn [fold_right snd] in *; lia.
Qed.

Lemma shallow_float n x j : 0 <= n -> float_tree x = inr j -> shallow n j.
Proof.
  unfold float_tree. intros Hn. destruct (is_finite x) eqn:Hx; [|done]. intros [= <-].
  split; [|done]. simpl. by apply fmt_float_number.
Qed.

Lemma shallow_time n t j : 0 <= n -> time_tree t = inr j -> shallow n j.
Proof. unfold time_tree. intros Hn. destruct (fmt_time t); [|done]. by intros [= <-]. Qed.

Lemma shallow_strings n s : 1 <= n -> shallow n (strings_tree s).
Proof.
  intros Hn. destruct s as [l|]; [|split; [done|simpl; lia]].
  apply (shallow_le 1); [|done]. apply (shallow_arr 0); [done|].
  apply Forall_fmap, Forall_true. intros x. by apply shallow_str.
Qed.

Lemma shallow_omit n name s : 0 <= n -> Forall (fun kv => shallow n (snd kv)) (omit_empty name s).
Proof. unfold omit_empty. intros Hn. case_bool_decide; repeat constructor. simpl. lia. Qed.

Lemma all_res_forall {A} (P : A -> Prop) (l : list (Res A)) xs :
  (forall r x, r ∈ l -> r = inr x -> P x) -> all_res l = inr xs -> Forall P xs.
Proof.
  revert xs. induction l as [|r l IH]; simpl; intros xs HP; [by intros [= <-]|].
  destruct r as [|x] eqn:Hr; [done|]. destruct (all_res l) as [|ys]; [done|]. intros [= <-]. constructor.
  - by eapply HP; [left|].
  - apply IH; [|done]. intros r' y Hin. apply HP. by right.
Qed.

Lemma shallow_list {A} (f : A -> Res json) n l j :
  0 <= n -> (forall x j, f x = inr j -> shallow n j) -> list_tree f l = inr j -> shallow (n + 1) j.
Proof.
  intros Hn Hf. destruct l as [|x l]; [intros [= <-]; split; [done|simpl; lia]|].
  unfold list_tree. destruct (all_res (f <$> x :: l)) as [|js] eqn:Hj; [done|]. intros [= <-].
  apply shallow_arr; [done|]. apply (all_res_forall (shallow n)) in Hj; [done|].
  intros r y (z & -> & _)%list_elem_of_fmap Hz. by apply (Hf z).
Qed.

Ltac tree := repeat match goal with
  | |- Forall _ (_ ++ _) => apply Forall_app; split
  | |- Forall _ (_ :: _) => apply Forall_cons; split; cbn [snd]
  | |- Forall _ [] => constructor
  | |- Forall _ (omit_empty _ _) => apply shallow_omit; lia
  | |- shallow _ (JStr _) => apply shallow_str; lia
  | |- shallow _ (strings_tree _) => apply shallow_strings; lia
  | |- shallow _ (JBool _) => split; [done|simpl; lia]
  | H : float_tree _ = inr ?j |- shallow _ ?j => eapply shallow_float; [lia|exact H]
  | H : time_tree _ = inr ?j |- shallow _ ?j => eapply shallow_time; [lia|exact H]
  end.

Lemma shallow_rules n l : 2 <= n -> shallow n (rules_tree l).
Proof.
  intros Hn. destruct l as [l|]; [|split; [done|simpl; lia]].
  apply (shallow_le 2); [|done]. apply (shallow_arr 1); [done|]. apply Forall_fmap, Forall_true. intros r.
  apply (shallow_obj 0); [done|]. tree.
Qed.

Lemma shallow_response r j : response_tree r = inr j -> shallow 3 j.
Proof.
  unfold response_tree. destruct (float_tree _) as [|score] eqn:Hs; [done|]. intros [= <-].
  apply (shallow_obj 2); [done|]. tree. by apply shallow_rules.
Qed.

Lemma shallow_entry e j : entry_tree e = inr j -> shallow 1 j.
Proof.
  unfold entry_tree. destruct (time_tree (Whitelist.VerifiedAt e)) as [|v] eqn:Hv; [done|].
  destruct (time_tree (Whitelist.CreatedAt e)) as [|c] eqn:Hc; [done|]. intros [= <-].
  apply (shallow_obj 0); [done|]. tree.
Qed.

Lemma shallow_item i j : item_tree i = inr j -> shallow 1 j.
Proof.
  unfold item_tree, resolved_tree. destruct (time_tree (Review.CreatedAt i)) as [|c] eqn:Hc; [done|].
  destruct (Review.ResolvedAt i) as [t|]; [destruct (time_tree t) as [|r] eqn:Hr; [done|]|];
    intros [= <-]; apply (shallow_obj 0); try done; tree.
Qed.

Lemma shallow_answer b j : answer_tree b = inr j -> shallow 3 j.
Proof.
  destruct b; cbn [answer_tree]; try done.
  7: destruct (list_tree item_tree l) as [|t] eqn:Ht; [done|];
    apply (shallow_list _ 1) in Ht; [|done|apply shallow_item].
  6: by intros Hj%shallow_item; apply (shallow_le 1).
  5: destruct (list_tree entry_tree l) as [|t] eqn:Ht; [done|];
    apply (shallow_list _ 1) in Ht; [|done|apply shallow_entry].
  4: by intros Hj%shallow_entry; apply (shallow_le 1).
  3: by apply shallow_response.
  all: intros [= <-]; try (by vm_compute); apply (shallow_obj 2); try done; tree; try done.
Qed.
(** ** The audit texts as trees *)

Lemma print_strings s : print (strings_tree s) = enc_strings s.
Proof.
  destruct s as [l|]; [|done]. cbn [strings_tree print enc_strings]. f_equal. f_equal. f_equal.
  induction l as [|x l IH]; [done|]. cbn [fmap list_fmap map print]. by f_equal.
Qed.

Lemma float_text x : enc_float x = text_of (float_tree x).
Proof. unfold enc_float, float_tree. by destruct (is_finite x). Qed.

Lemma time_text t : enc_time t = text_of (time_tree t).
Proof. unfold enc_time, time_tree. by destruct (fmt_time t). Qed.

Lemma marshal_record_tree rec : Audit.marshal_record rec = text_of (record_tree rec).
Proof.
  unfold Audit.marshal_record, record_tree. rewrite float_text, time_text, <- !print_strings.
  destruct (float_tree _) as [|score]; [done|]. destruct (time_tree _) as [|created]; [done|].
  unfold omit_empty. case_bool_decide; reflexivity.
Qed.

Lemma marshal_request_tree req : Audit.marshal_request req = text_of (request_tree req).
Proof.
  unfold Audit.marshal_request, request_tree. rewrite float_text. by destruct (float_tree _) as [|fraud].
Qed.

Lemma shallow_record rec j : record_tree rec = inr j -> shallow 2 j.
Proof.
  unfold record_tree. destruct (float_tree _) as [|score] eqn:Hs; [done|].
  destruct (time_tree _) as [|created] eqn:Ht; [done|]. intros [= <-]. apply (shallow_obj 1); [done|]. tree.
Qed.

Lemma shallow_request req j : request_tree req = inr j -> shallow 1 j.
Proof.
  unfold request_tree. destruct (float_tree _) as [|fraud] eqn:Hs; [done|]. intros [= <-].
  apply (shallow_obj 0); [done|]. tree.
Qed.

(** Trees with the same text are the same, as far as UTF-8 goes. *)
Lemma shallow_print n j1 j2 :
  n <= maxNestingDepth -> shallow n j1 -> shallow n j2 -> print j1 = print j2 -> norm j1 = norm j2.
Proof.
  intros Hn [Hw1 Hd1] [Hw2 Hd2] Hp. apply (inj Some).
  rewrite <- (parse_printed j1), <- (parse_printed j2) by (done || lia). by rewrite Hp.
Qed.

Definition valid_strings (s : slice string) : slice string := option_map (map to_valid) s.

Lemma norm_strings s1 s2 :
  norm (strings_tree s1) = norm (strings_tree s2) -> valid_strings s1 = valid_strings s2.
Proof.
  destruct s1 as [l1|], s2 as [l2|]; try done. simpl. intros [= Hl]. f_equal. revert l2 Hl.
  induction l1 as [|x l1 IH]; intros [|y l2]; simpl; intros Hl; simplify_eq/=; [done|].
  f_equal; [done|]. by apply IH.
Qed.

End Facts.

(** ** Properties *)

Section Properties.
Context `{Fmt, !FmtOk}.

(** C20. The signed text determines what was decided: two records with the same
    canonical text (the one the signature covers) have the same id, policy
    version, request hash, decision, reasons, rules, the same text of the score
    and of the time, so a signature cannot be moved to a record that says
    something else; all of these after each byte that is not UTF-8 is replaced by
    U+FFFD, so that strings which differ only in such bytes are signed alike, and
    strings of UTF-8 only when they are equal. *)
Theorem signed_text_determines r1 r2 t :
  Audit.canonicalJSON r1 = inr t -> Audit.canonicalJSON r2 = inr t ->
  to_valid (Audit.DecisionID r1) = to_valid (Audit.DecisionID r2) /\
  to_valid (Audit.PolicyVersion r1) = to_valid (Audit.PolicyVersion r2) /\
  to_valid (Audit.RequestHash_ r1) = to_valid (Audit.RequestHash_ r2) /\
  to_valid (Audit.Decision r1) = to_valid (Audit.Decision r2) /\
  valid_strings (Audit.Reasons r1) = valid_strings (Audit.Reasons r2) /\
  valid_strings (Audit.AppliedRules r1) = valid_strings (Audit.AppliedRules r2) /\
  fmt_float (Audit.Score r1) = fmt_float (Audit.Score r2) /\
  to_valid <$> fmt_time (Audit.CreatedAt r1) = to_valid <$> fmt_time (Audit.CreatedAt r2).
Proof.
  unfold Audit.canonicalJSON. rewrite !marshal_record_tree. intros H1 H2.
  destruct (record_tree (Audit.with_signature r1 "")) as [|j1] eqn:E1; [done|].
  destruct (record_tree (Audit.with_signature r2 "")) as [|j2] eqn:E2; [done|].
  injection H1 as H1. injection H2 as H2.
  assert (norm j1 = norm j2) as Hn.
  { apply (shallow_print 2); [done|by eapply shallow_record|by eapply shallow_record|congruence]. }
  clear H1 H2. unfold record_tree, float_tree, time_tree in E1, E2.
  destruct r1, r2; cbn in E1, E2 |- *.
  repeat (case_match; simplify_eq/=).
  split_and!; first [done|by apply norm_strings|by f_equal].
Qed.

(** Every JSON answer can be read by a client, and is what the handler
    answered: unless the encoder refuses the value, the text that is written
    parses to the tree of the answer, with the strings made UTF-8. *)
Theorem answer_readable st b j :
  answer_tree b = inr j ->
  exists resp, written (Api.Answer st b) = Some resp /\ status resp = st /\
    content_type resp = "application/json" /\ parse (text resp) = Some (norm j).
Proof.
  intros Hj. pose proof (shallow_answer b j Hj) as [Hw Hn].
  eexists. split; [|split; [|split]].
  - unfold written. destruct b; try discriminate; reflexivity.
  - done.
  - done.
  - simpl. rewrite Hj. cbn [encode]. apply parse_printed_ws; [done|unfold maxNestingDepth; lia|done|done].
Qed.

End Properties.

(** ** Evaluations over the wire *)

(** What a client reads as the decision. *)
Definition read_decision (t : string) : option string :=
  match parse t with
  | Some (JObj kvs) => Unmarshal.last_field Unmarshal.to_string "" "decision" kvs
  | _ => None
  end.

Section Evaluations.
Context `{Fmt, !FmtOk} `{Audit.Ed25519} `{Engine.OPA} `{Unmarshal.Texts} {C WS RS AS K D : Type}
  `{Velocity.Counter C} `{Whitelist.Store WS} `{Review.Store RS} `{Audit.Store AS} `{Audit.Sink K}
  `{Api.PolicyDB D}.

Abbreviation Svcs := (@Api.Services _ _ C WS RS AS K D).

Lemma read_response resp j :
  response_tree resp = inr j -> read_decision (encode (inr j)) = Some (to_valid (Evaluate.Decision resp)).
Proof.
  intros Hj. pose proof (shallow_response resp j Hj) as [Hw Hn]. unfold read_decision, encode.
  rewrite parse_printed_ws by (done || unfold maxNestingDepth; lia).
  unfold response_tree in Hj. destruct (float_tree _) as [|score]; [done|]. injection Hj as <-.
  cbn [norm map]. rewrite Unmarshal.last_field_hit by Unmarshal.by_eval. cbn [Unmarshal.to_string].
  by repeat rewrite Unmarshal.last_field_skip by Unmarshal.by_eval.
Qed.

Lemma read_error_body c m : read_decision (encode (answer_tree (Api.BError c m))) = Some "".
Proof.
  unfold read_decision. cbn [answer_tree encode]. rewrite parse_printed_ws by done.
  unfold error_tree. cbn [norm map]. by rewrite Unmarshal.last_field_skip by Unmarshal.by_eval.
Qed.

Lemma read_error e resp : written (Api.writeError e) = Some resp -> read_decision (text resp) = Some "".
Proof.
  unfold Api.writeError. destruct (Api.toAppError e) as [[c m] st]. intros [= <-]. apply read_error_body.
Qed.
Lemma to_valid_high a s1 :
  128 <= code a -> exists b t, to_valid (String a s1) = String b t /\ 128 <= code b.
Proof.
  intros Ha. cbn [to_valid]. rewrite (proj2 (Z.ltb_ge (code a) 128)) by done.
  assert (exists b t, fffd +:+ to_valid s1 = String b t /\ 128 <= code b) as Hbad
    by (eexists _, _; split; [done|by vm_compute]).
  destruct s1 as [|b s2]; [done|]. destruct (rune2 a b); [by eauto|].
  destruct s2 as [|c s3]; [done|]. destruct (rune3 a b c); [by eauto|].
  destruct s3 as [|d s4]; [done|]. destruct (rune4 a b c d); [by eauto|done].
Qed.

Lemma to_valid_ascii t s :
  to_valid s = t -> Forall (fun c => code c < 128) (list_ascii_of_string t) -> s = t.
Proof.
  revert s. induction t as [|c t IH]; intros [|a s1] Ht Hc; try done;
    destruct (decide (128 <= code a)) as [Ha|Ha];
    try (destruct (to_valid_high a s1 Ha) as (b & u & Hu & Hb); rewrite Hu in Ht; simplify_eq);
    try (cbn [to_valid] in Ht; rewrite (proj2 (Z.ltb_lt (code a) 128)) in Ht by lia; simplify_eq).
  - apply Forall_cons in Hc as [Hc _]. lia.
  - apply Forall_cons in Hc as [_ Hc]. f_equal. by apply IH.
Qed.

(** Evaluations that the transport runs. *)
Lemma run_allowed (s : Svcs) w req cfg resp :
  Evaluate.caps (Api.Evaluate_ s) = Some cfg ->
  written (snd (Api.run_evaluate s w req)) = Some resp -> read_decision (text resp) = Some "allow" ->
  Evaluate.validate req = None /\ EvaluateProps.all_clear (Api.Evaluate_ s) (Api.w_eval w) cfg req.
Proof.
  intros Hcfg Hw Ha. unfold Api.run_evaluate in Hw. cbn [Evaluate.evaluate Evaluate.Service_Evaluator] in Hw.
  destruct (Evaluate.Evaluate (Api.Evaluate_ s) (Api.w_eval w) req) as [s' [out [err|]|]] eqn:He;
    [by rewrite (read_error _ _ Hw) in Ha| |done].
  destruct (Evaluate.validate req) as [err|] eqn:Hv;
    [by unfold Evaluate.Evaluate in He; rewrite Hv in He; simplify_eq|]. split; [done|].
  apply (EvaluateProps.allow_iff _ _ _ cfg s' out None); [done..|].
  cbn [snd written] in Hw. injection Hw as <-. cbn [text answer_tree] in Ha.
  destruct (response_tree out) as [e|j] eqn:Hj; [done|]. rewrite (read_response out j Hj) in Ha.
  injection Ha as Ha. apply to_valid_ascii in Ha; [done|]. repeat constructor.
Qed.

(** C19. An allow that reaches a client was earned: when the text a REST client gets
    for an evaluation reads as allow, its body was JSON that decodes to a valid
    request, its token was accepted if authentication is on, and that request
    passed every check (session, second factor, destination, daily counter, cap,
    policy engine) in the state the service had. *)
Theorem allowed_over_the_wire (s : Svcs) w r cfg resp :
  Evaluate.caps (Api.Evaluate_ s) = Some cfg -> Api.mux r = Api.REvaluate ->
  written (snd (Api.serve s w r)) = Some resp -> read_decision (text resp) = Some "allow" ->
  exists body req, Auth.Body r = inr body /\ Unmarshal.dec_evaluate body = Some req /\
    Evaluate.validate (Api.set_session req true) = None /\
    (Auth.Enabled (Api.Auth s) = true ->
      exists c claims, Api.Auth s = Some c /\ Auth.validateBearer c (Api.w_now w) r = inr claims) /\
    EvaluateProps.all_clear (Api.Evaluate_ s) (Api.w_eval w) cfg (Api.set_session req true).
Proof.
  intros Hcfg Hmux Hw Ha. unfold Api.serve in Hw.
  destruct (Auth.authMiddleware _ _ _) as [c m st|claims].
  { injection Hw as <-. pose proof (eq_trans (eq_sym (read_error_body c m)) Ha). done. }
  unfold Api.dispatch in Hw. rewrite Hmux in Hw. unfold Api.evaluateHandler, Api.decodeJSON in Hw.
  destruct (Auth.Body r) as [e|body] eqn:Hb; [by rewrite (read_error _ _ Hw) in Ha|].
  case_bool_decide; [by rewrite (read_error _ _ Hw) in Ha|].
  change (Api.dec_evaluate body) with (Unmarshal.dec_evaluate body) in Hw.
  destruct (Unmarshal.dec_evaluate body) as [req|] eqn:Hd; [|by rewrite (read_error _ _ Hw) in Ha].
  exists body, req. split; [done|]. split; [done|].
  destruct (Api.Auth s) as [c|] eqn:Hauth.
  2: { destruct (run_allowed _ _ _ _ _ Hcfg Hw Ha) as [Hv Hall]. split_and!; done. }
  destruct (Auth.Enabled (Some c)) eqn:Hen.
  2: { destruct (run_allowed _ _ _ _ _ Hcfg Hw Ha) as [Hv Hall]. split_and!; done. }
  destruct (Auth.validateBearer c (Api.w_now w) r) as [e|cl] eqn:Hb2; [by rewrite (read_error _ _ Hw) in Ha|].
  destruct (run_allowed _ _ _ _ _ Hcfg Hw Ha) as [Hv Hall]. split_and!; eauto.
Qed.

End Evaluations.

(** ** Witnesses *)

(** The library's formatting, in a zone two hours east of Greenwich. *)
Definition east : Fmt := Format.go_fmt (fun _ => 7200).

Definition sample_texts : Unmarshal.Texts :=
  {| Unmarshal.unmarshal_error := fun type _ => Errorf type; Unmarshal.text_quoted := id |}.

Definition sample_post (body : string) : Auth.http_request :=
  {| Auth.Method := "POST"; Auth.Segments := ["v1"; "policy"; "evaluate"]; Auth.Unclean := false;
     Auth.Query := fun _ => ""; Auth.Authorization := ""; Auth.Body := inr body |}.

Definition sample_body : string := q
  "{'user_id':'usr_1','amount':'100.00','currency':'USD','asset':'USDC','rail':'ach','dest_address':'0xabc',
    'dest_chain':'ethereum','kyt_verdict':'clean','fraud_score':0.1,'kyc_status':'verified','user_tier':'tier_1'}".

Abbreviation SampleServe := (@Api.serve east Audit.sample_ed Engine.sample_opa
  (@Unmarshal.token_decoder sample_texts) Unmarshal.body_decoder _ _ _ _ _ _ _ _ ApiProps.sample_db
  ApiProps.sample_evaluator).

Abbreviation sample_sent := (snd (SampleServe (ApiProps.sample_services None) ApiProps.sample_world
  (sample_post sample_body))).

(** The bytes of an allowed evaluation. *)
Example sample_answer :
  (fun r => (status r, text r)) <$> @written east sample_sent
  = Some (200, q "{'decision':'allow','reasons':['whitelisted','velocity_daily_ok'],'applied_rules':[{'id':'cap.tx.tier_1'},{'id':'allow.clean','version':'v1'}],'policy_version':'v1','score':0,'decision_id':'dec_1'}" +:+ Metrics.nl).
Proof. vm_compute. reflexivity. Qed.

Lemma allowed_over_the_wire_witness :
  exists body req, Auth.Body (sample_post sample_body) = inr body /\ Unmarshal.dec_evaluate body = Some req /\
    Evaluate.validate (Api.set_session req true) = None /\
    (Auth.Enabled None = true -> exists c claims, None = Some c /\
      @Auth.validateBearer (@Unmarshal.token_decoder sample_texts) c 10 (sample_post sample_body) = inr claims) /\
    EvaluateProps.all_clear (Api.Evaluate_ (ApiProps.sample_services None))
      (Api.w_eval ApiProps.sample_world) (Caps.DefaultConfig EvaluateProps.no_env) (Api.set_session req true).
Proof.
  apply (@allowed_over_the_wire east (go_fmt_ok _) Audit.sample_ed Engine.sample_opa sample_texts
    _ _ _ _ _ _ _ _ _ _ _ ApiProps.sample_db (ApiProps.sample_services None) ApiProps.sample_world
    (sample_post sample_body) (Caps.DefaultConfig EvaluateProps.no_env)
    (default {| status := 0; content_type := ""; text := "" |} (@written east sample_sent)));
    [reflexivity|reflexivity|vm_compute; reflexivity|vm_compute; reflexivity].
Defined.

Lemma answer_readable_witness :
  exists resp, @written east (Api.Answer 503 (Api.BError "c" (String quote "m"))) = Some resp /\
    status resp = 503 /\ content_type resp = "application/json" /\
    parse (text resp) = Some (JObj [("error", JObj [("code", JStr "c"); ("message", JStr (String quote "m"))])]).
Proof.
  exact (@answer_readable east (go_fmt_ok _) 503 (Api.BError "c" (String quote "m")) _ eq_refl).
Defined.

(** Two records that differ in a byte that is not UTF-8. *)
Definition sample_record (id : string) : Audit.DecisionRecord :=
  Audit.with_signature {| Audit.DecisionID := id; Audit.PolicyVersion := "v1"; Audit.RequestHash_ := "h";
    Audit.Decision := "deny"; Audit.Reasons := Some ["r"]; Audit.AppliedRules := None; Audit.Score := f0;
    Audit.CreatedAt := 5; Audit.Signature := "" |} "s".

(** The text that is signed, as the program writes it. *)
Example signed_text :
  @Audit.canonicalJSON east (sample_record "d-1") = inr (q
    "{'decision_id':'d-1','policy_version':'v1','request_hash':'h','decision':'deny','reasons':['r'],'applied_rules':null,'score':0,'created_at':'1970-01-01T02:00:00.000000005+02:00'}").
Proof. vm_compute. reflexivity. Qed.

Lemma signed_text_determines_witness :
  to_valid (String "255" "") = to_valid (String "254" "") /\ to_valid "v1" = to_valid "v1" /\
  to_valid "h" = to_valid "h" /\ to_valid "deny" = to_valid "deny" /\
  valid_strings (Some ["r"]) = valid_strings (Some ["r"]) /\ valid_strings None = valid_strings None /\
  @fmt_float east f0 = @fmt_float east f0 /\
  to_valid <$> @fmt_time east 5 = to_valid <$> @fmt_time east 5.
Proof.
  apply (@signed_text_determines east (go_fmt_ok _) (sample_record (String "255" ""))
    (sample_record (String "254" ""))
    (match @Audit.canonicalJSON east (sample_record (String "255" "")) with inr t => t | inl _ => "" end));
    vm_compute; reflexivity.
Defined.

End Wire.
