(* ===== verification/Db.v ===== *)
(** * Package db: the PostgreSQL stores and policy activation
    ([internal/db/whitelist.go], [review.go], [audit.go], [activate.go],
    [util.go], and the schema [migrations/000001_init.up.sql])

    The five tables are lists of rows in the order they were inserted; a SQL
    statement of the code is a function on them that checks the constraints the
    migration declares (primary keys, unique and foreign keys, the range of an
    INTEGER) and fails with the SQLSTATE PostgreSQL documents for them.  Columns
    [updated_at] are written and never read, and are left out.

    What can go wrong outside the tables is an oracle of the database: each
    statement sent may be refused or lost before it is executed, or its answer
    may be lost after it was.  What the server refuses for a reason outside the
    tables is such a refusal; so a text that PostgreSQL does not take (one with a
    NUL byte or invalid UTF-8, SQLSTATE 22021) is among its faults, and not among
    the constraints that the statements check.  Statements of one transaction work on a copy that
    replaces the tables when the transaction commits.  A SELECT without ORDER BY
    reads the rows in table order, and rows with equal sort keys keep it. *)
From Stdlib Require Import ZArith Lia Ascii String.
From stdpp Require Import base gmap strings list sorting.
From S2P Require Import Prelude GoLib Float64 Whitelist Review AuditLog.

Open Scope Z_scope.
Open Scope go_scope.

Module Db.

(** ** Values *)

(** [uuid.UUID]; [uuid.Nil] is all zero. *)
Definition uuid : Set := N.
Definition Nil : uuid := 0%N.

(** A TIMESTAMPTZ column has a resolution of one microsecond: what it gives
    back for a time written to it. *)
Class Postgres := {
  timestamptz : time -> time
}.

Definition nullableText (s : string) : option string := if s == "" then None else Some s.

Definition nullableTime (t : time) : option time := if is_zero_time t then None else Some t.

Definition nullableTimePtr (t : option time) : option time :=
  match t with
  | None => None
  | Some t' => if is_zero_time t' then None else Some t'
  end.

Definition pgUniqueViolation : string := "23505".

(** [errors.As(err, &pqErr)] and the code of what it finds. *)
Fixpoint isUniqueViolation (err : error) : bool :=
  match err with
  | PqErr code _ => code == pgUniqueViolation
  | Wrapf _ e => isUniqueViolation e
  | _ => false
  end.

(** ** Tables *)

Record whitelist_row := {
  w_id : uuid; w_user_id : string; w_chain : string; w_address : string;
  w_label : option string; w_verified_at : option time; w_status : string; w_created_at : time
}.

Record review_row := {
  q_id : uuid; q_decision_id : string; q_tx_id : option string; q_status : string;
  q_assigned_to : option string; q_created_at : time; q_resolved_at : option time;
  q_resolution : option string
}.

Record policy_row := { p_id : uuid; p_scope : string; p_active_version : option uuid }.

Record version_row := {
  v_id : uuid; v_policy_id : uuid; v_version : Z; v_rego_hash : string; v_rego_source : string;
  v_created_by : string
}.

Record decision_row := {
  d_decision_id : string; d_policy_version : uuid; d_request_hash : string; d_decision : string;
  d_reasons : list string; d_applied_rules : list string; d_score : float64;
  d_signature : option string; d_created_at : time
}.

Record tables := {
  whitelist_addresses : list whitelist_row;
  review_queue : list review_row;
  policies : list policy_row;
  policy_versions : list version_row;
  policy_decisions : list decision_row
}.

Definition empty_tables : tables :=
  {| whitelist_addresses := []; review_queue := []; policies := []; policy_versions := [];
     policy_decisions := [] |}.

Definition set_whitelist (t : tables) (l : list whitelist_row) : tables :=
  {| whitelist_addresses := l; review_queue := review_queue t; policies := policies t;
     policy_versions := policy_versions t; policy_decisions := policy_decisions t |}.
Definition set_queue (t : tables) (l : list review_row) : tables :=
  {| whitelist_addresses := whitelist_addresses t; review_queue := l; policies := policies t;
     policy_versions := policy_versions t; policy_decisions := policy_decisions t |}.
Definition set_policies (t : tables) (l : list policy_row) : tables :=
  {| whitelist_addresses := whitelist_addresses t; review_queue := review_queue t; policies := l;
     policy_versions := policy_versions t; policy_decisions := policy_decisions t |}.
Definition set_versions (t : tables) (l : list version_row) : tables :=
  {| whitelist_addresses := whitelist_addresses t; review_queue := review_queue t;
     policies := policies t; policy_versions := l; policy_decisions := policy_decisions t |}.
Definition set_decisions (t : tables) (l : list decision_row) : tables :=
  {| whitelist_addresses := whitelist_addresses t; review_queue := review_queue t;
     policies := policies t; policy_versions := policy_versions t; policy_decisions := l |}.

(** [UPDATE ... SET ... WHERE p]. *)
Definition update_where {A} (p : A -> bool) (f : A -> A) (l : list A) : list A :=
  (fun r => if p r then f r else r) <$> l.

(** ** Statements and their faults *)

Inductive stmt :=
| InsertWhitelist | ListWhitelist | SelectWhitelist | UpdateWhitelist
| InsertReview | SelectReview | ListReview | UpdateReview
| BeginTx | SelectPolicy | InsertPolicy | UpsertVersion | SetActive | CommitTx
| InsertDecision | SelectDecision | SelectActive.

(** An error of the server, with its SQLSTATE, or of the driver. *)
Inductive dberr :=
| Server (code msg : string)
| Driver (msg : string).

Definition err_of (e : dberr) : error :=
  match e with Server c m => PqErr c m | Driver m => Errorf m end.

Inductive fault :=
| NotExecuted (e : dberr)
| ReplyLost (e : dberr).

Definition fault_err (f : fault) : error :=
  match f with NotExecuted e | ReplyLost e => err_of e end.

(** The database: its tables, the number of statements that were executed, the
    faults to come and the ids [uuid.NewV7] will make for them ([Nil] when it
    fails: the code drops the error). *)
Record database := {
  tabs : tables;
  seq : nat;
  faults : nat -> stmt -> option fault;
  uuids : nat -> uuid
}.

Definition with_tabs (d : database) (t : tables) : database :=
  {| tabs := t; seq := seq d; faults := faults d; uuids := uuids d |}.
Definition tick (d : database) : database :=
  {| tabs := tabs d; seq := S (seq d); faults := faults d; uuids := uuids d |}.

Definition NewV7 (d : database) : uuid := uuids d (seq d).

(** [ExecContext], and [QueryRowContext] on an INSERT ... RETURNING. *)
Definition exec {A} (d : database) (q : stmt) (run : tables -> dberr + (tables * A))
  : database * Res A :=
  let d' := tick d in
  match faults d (seq d) q, run (tabs d) with
  | Some (NotExecuted e), _ => (d', inl (err_of e))
  | Some (ReplyLost e), inr (t, _) => (with_tabs d' t, inl (err_of e))
  | Some (ReplyLost e), inl _ => (d', inl (err_of e))
  | None, inl e => (d', inl (err_of e))
  | None, inr (t, a) => (with_tabs d' t, inr a)
  end.

(** [QueryContext] and the reading of its rows. *)
Definition query {A} (d : database) (q : stmt) (sel : tables -> A) : Res A :=
  match faults d (seq d) q with
  | Some f => inl (fault_err f)
  | None => inr (sel (tabs d))
  end.

(** [QueryRowContext] and [Scan]: the first row, or [sql.ErrNoRows]. *)
Definition query_row {A} (d : database) (q : stmt) (sel : tables -> list A) : Res A :=
  let? rows := query d q sel in
  match rows with
  | r :: _ => inr r
  | [] => inl (Sentinel SqlErrNoRows)
  end.

(** [BeginTx], the statements, [Commit]; [tx.Rollback] is deferred. *)
Definition rollback (d d' : database) : database := with_tabs d' (tabs d).

Definition transaction {A} (d : database) (body : database -> database * Res A) : database * Res A :=
  match exec d BeginTx (fun t => inr (t, tt)) with
  | (d1, inl err) => (d1, inl (Wrapf "begin tx" err))
  | (d1, inr _) =>
      match body d1 with
      | (d2, inl err) => (rollback d1 d2, inl err)
      | (d2, inr a) =>
          match faults d2 (seq d2) CommitTx with
          | None => (tick d2, inr a)
          | Some (ReplyLost e) => (tick d2, inl (Wrapf "commit" (err_of e)))
          | Some (NotExecuted e) => (rollback d1 (tick d2), inl (Wrapf "commit" (err_of e)))
          end
      end
  end.

(** The errors of the constraints, with the codes of the server's manual. *)
Definition unique_violation : dberr :=
  Server "23505" "duplicate key value violates unique constraint".
Definition foreign_key_violation : dberr :=
  Server "23503" "insert or update violates foreign key constraint".
Definition out_of_range : dberr := Server "22003" "value is out of range for type integer".

(** ** Package whitelist's store *)

Definition w_dest (r : whitelist_row) : Whitelist.dest := (w_user_id r, w_chain r, w_address r).

Definition insert_whitelist (r : whitelist_row) (t : tables) : dberr + (tables * unit) :=
  if existsb (fun r' => (w_id r' == w_id r) || (w_dest r' == w_dest r)) (whitelist_addresses t)
  then inl unique_violation
  else inr (set_whitelist t (whitelist_addresses t ++ [r]), tt).

(** [ORDER BY created_at]. *)
Definition w_before (r1 r2 : whitelist_row) : Prop := w_created_at r1 <= w_created_at r2.
Definition q_before (r1 r2 : review_row) : Prop := q_created_at r1 <= q_created_at r2.

#[global] Instance w_before_dec : RelDecision w_before.
Proof. intros r1 r2. unfold w_before. apply _. Defined.
#[global] Instance q_before_dec : RelDecision q_before.
Proof. intros r1 r2. unfold q_before. apply _. Defined.

Section Stores.
Context `{Postgres}.

Definition wl_Add (d : database) (e : Whitelist.Entry) : database * option error :=
  let id := NewV7 d in
  let row := {| w_id := id; w_user_id := Whitelist.UserID e; w_chain := Whitelist.Chain e;
                w_address := Whitelist.Address e; w_label := nullableText (Whitelist.Label e);
                w_verified_at := timestamptz <$> nullableTime (Whitelist.VerifiedAt e);
                w_status := Whitelist.Status e;
                w_created_at := timestamptz (Whitelist.CreatedAt e) |} in
  match exec d InsertWhitelist (insert_whitelist row) with
  | (d', inl err) =>
      (d', Some (if isUniqueViolation err then Sentinel WlErrDuplicate else err))
  | (d', inr _) => (d', None)
  end.

(** A NULL label reads as the empty string, a NULL time as the zero time. *)
Definition scanWhitelistRow (r : whitelist_row) : Whitelist.Entry :=
  {| Whitelist.UserID := w_user_id r; Whitelist.Chain := w_chain r;
     Whitelist.Address := w_address r; Whitelist.Label := default "" (w_label r);
     Whitelist.Status := w_status r; Whitelist.VerifiedAt := default zero_time (w_verified_at r);
     Whitelist.CreatedAt := w_created_at r |}.

Definition scanWhitelistRows (rows : list whitelist_row) : list Whitelist.Entry :=
  scanWhitelistRow <$> rows.

Definition wl_List (d : database) (userID : string) : list Whitelist.Entry * option error :=
  match query d ListWhitelist (fun t =>
          merge_sort w_before
            (filter (fun r => w_user_id r = userID) (whitelist_addresses t))) with
  | inl err => ([], Some err)
  | inr rows => (scanWhitelistRows rows, None)
  end.

Definition wl_Get (d : database) (userID chain address : string)
  : option Whitelist.Entry * option error :=
  match query_row d SelectWhitelist (fun t =>
          filter (fun r => w_dest r = (userID, chain, address)) (whitelist_addresses t)) with
  | inr row => (Some (scanWhitelistRow row), None)
  | inl err => if errors_is err SqlErrNoRows then (None, None) else (None, Some err)
  end.

(** The statement's [RowsAffected] is its result. *)
Definition update_whitelist (e : Whitelist.Entry) (t : tables) : dberr + (tables * nat) :=
  let p r := w_dest r == Whitelist.entry_dest e in
  let f r := {| w_id := w_id r; w_user_id := w_user_id r; w_chain := w_chain r;
                w_address := w_address r; w_label := nullableText (Whitelist.Label e);
                w_verified_at := timestamptz <$> nullableTime (Whitelist.VerifiedAt e);
                w_status := Whitelist.Status e; w_created_at := w_created_at r |} in
  inr (set_whitelist t (update_where p f (whitelist_addresses t)),
       length (List.filter p (whitelist_addresses t))).

Definition wl_Update (d : database) (e : Whitelist.Entry) : database * option error :=
  match exec d UpdateWhitelist (update_whitelist e) with
  | (d', inl err) => (d', Some err)
  | (d', inr n) => (d', if (n =? 0)%nat then Some (Sentinel WlErrNotFound) else None)
  end.

#[global] Instance WhitelistStore : Whitelist.Store database := {|
  Whitelist.store_Add := wl_Add; Whitelist.store_List := wl_List;
  Whitelist.store_Get := wl_Get; Whitelist.store_Update := wl_Update |}.

(** ** Package review's store *)

(** The key of [review_queue] is its own id; [decision_id] refers to a decision
    and is not declared unique. *)
Definition insert_review (r : review_row) (t : tables) : dberr + (tables * unit) :=
  if existsb (fun r' => q_id r' == q_id r) (review_queue t) then inl unique_violation
  else if existsb (fun r' => d_decision_id r' == q_decision_id r) (policy_decisions t)
  then inr (set_queue t (review_queue t ++ [r]), tt)
  else inl foreign_key_violation.

Definition rev_Put (d : database) (item : Review.Item) : database * option error :=
  let id := NewV7 d in
  let row := {| q_id := id; q_decision_id := Review.DecisionID item;
                q_tx_id := nullableText (Review.TxID item); q_status := Review.Status item;
                q_assigned_to := nullableText (Review.AssignedTo item);
                q_created_at := timestamptz (Review.CreatedAt item);
                q_resolved_at := timestamptz <$> nullableTimePtr (Review.ResolvedAt item);
                q_resolution := nullableText (Review.Resolution item) |} in
  match exec d InsertReview (insert_review row) with
  | (d', inl err) =>
      (d', Some (if isUniqueViolation err then Sentinel RevErrDuplicate else err))
  | (d', inr _) => (d', None)
  end.

Definition scanReviewRow (r : review_row) : Review.Item :=
  {| Review.DecisionID := q_decision_id r; Review.TxID := default "" (q_tx_id r);
     Review.Status := q_status r; Review.AssignedTo := default "" (q_assigned_to r);
     Review.CreatedAt := q_created_at r; Review.ResolvedAt := q_resolved_at r;
     Review.Resolution := default "" (q_resolution r) |}.

Definition rev_Get (d : database) (decisionID : string) : option Review.Item * option error :=
  match query_row d SelectReview (fun t =>
          filter (fun r => q_decision_id r = decisionID) (review_queue t)) with
  | inr row => (Some (scanReviewRow row), None)
  | inl err => if errors_is err SqlErrNoRows then (None, None) else (None, Some err)
  end.

Definition rev_List (d : database) (status : string) : list Review.Item * option error :=
  match query d ListReview (fun t =>
          merge_sort q_before
            (if status == "" then review_queue t
             else filter (fun r => q_status r = status) (review_queue t))) with
  | inl err => ([], Some err)
  | inr rows => (scanReviewRow <$> rows, None)
  end.

Definition update_review (item : Review.Item) (t : tables) : dberr + (tables * nat) :=
  let p r := q_decision_id r == Review.DecisionID item in
  let f r := {| q_id := q_id r; q_decision_id := q_decision_id r; q_tx_id := q_tx_id r;
                q_status := Review.Status item;
                q_assigned_to := nullableText (Review.AssignedTo item);
                q_created_at := q_created_at r;
                q_resolved_at := timestamptz <$> nullableTimePtr (Review.ResolvedAt item);
                q_resolution := nullableText (Review.Resolution item) |} in
  inr (set_queue t (update_where p f (review_queue t)), length (List.filter p (review_queue t))).

Definition rev_Update (d : database) (item : Review.Item) : database * option error :=
  match exec d UpdateReview (update_review item) with
  | (d', inl err) => (d', Some err)
  | (d', inr n) => (d', if (n =? 0)%nat then Some (Sentinel RevErrNotFound) else None)
  end.

#[global] Instance ReviewStore : Review.Store database := {|
  Review.store_Put := rev_Put; Review.store_Get := rev_Get;
  Review.store_List := rev_List; Review.store_Update := rev_Update |}.

(** ** Policies and their versions *)

Definition insert_policy (r : policy_row) (t : tables) : dberr + (tables * unit) :=
  if existsb (fun r' => p_id r' == p_id r) (policies t) then inl unique_violation
  else inr (set_policies t (policies t ++ [r]), tt).

Definition ensurePolicy (d : database) (scope : string) : database * Res uuid :=
  match query_row d SelectPolicy (fun t =>
          p_id <$> filter (fun r => p_scope r = scope) (policies t)) with
  | inr id => (d, inr id)
  | inl err =>
      if negb (errors_is err SqlErrNoRows) then (d, inl (Wrapf "lookup policy" err))
      else
        let id := NewV7 d in
        match exec d InsertPolicy
                (insert_policy {| p_id := id; p_scope := scope; p_active_version := None |}) with
        | (d', inl err) => (d', inl (Wrapf "insert policy" err))
        | (d', inr _) => (d', inr id)
        end
  end.

(** FNV-1a over the bytes of the string, at 32 bits. *)
Fixpoint fnv1a (h : Z) (s : string) : Z :=
  match s with
  | EmptyString => h
  | String c s' => fnv1a (Z.lxor h (code c) * 16777619 mod 2^32) s'
  end.

Definition versionToInt (version : string) : Res Z :=
  match Atoi version with
  | Some n => inr n
  | None => inr (fnv1a 2166136261 version mod 9000000 + 1000000)
  end.

Definition int32_range (z : Z) : bool := (-2^31 <=? z) && (z <? 2^31).

Definition set_hash (h : string) (r : version_row) : version_row :=
  {| v_id := v_id r; v_policy_id := v_policy_id r; v_version := v_version r; v_rego_hash := h;
     v_rego_source := v_rego_source r; v_created_by := v_created_by r |}.

(** [INSERT ... ON CONFLICT (policy_id, version) DO UPDATE SET rego_hash =
    EXCLUDED.rego_hash RETURNING id]. *)
Definition upsert_version (r : version_row) (t : tables) : dberr + (tables * uuid) :=
  let same r' := (v_policy_id r' == v_policy_id r) && (v_version r' == v_version r) in
  if negb (int32_range (v_version r)) then inl out_of_range
  else match List.find same (policy_versions t) with
       | Some r0 =>
           inr (set_versions t (update_where same (set_hash (v_rego_hash r)) (policy_versions t)),
                v_id r0)
       | None =>
           if existsb (fun r' => v_id r' == v_id r) (policy_versions t) then inl unique_violation
           else if existsb (fun p => p_id p == v_policy_id r) (policies t)
           then inr (set_versions t (policy_versions t ++ [r]), v_id r)
           else inl foreign_key_violation
       end.

Definition set_active (vid policyID : uuid) (t : tables) : dberr + (tables * unit) :=
  if existsb (fun v => v_id v == vid) (policy_versions t) then
    inr (set_policies t (update_where (fun p => p_id p == policyID) (fun p =>
           {| p_id := p_id p; p_scope := p_scope p; p_active_version := Some vid |}) (policies t)), tt)
  else inl foreign_key_violation.

Definition ensurePolicyVersion (d : database) (policyID : uuid)
    (version regoHash regoSource createdBy : string) : database * Res uuid :=
  match versionToInt version with
  | inl err => (d, inl (Wrapf ("parse version " +:+ version) err))
  | inr versionInt =>
      let id := NewV7 d in
      match exec d UpsertVersion
              (upsert_version {| v_id := id; v_policy_id := policyID; v_version := versionInt;
                 v_rego_hash := regoHash; v_rego_source := regoSource;
                 v_created_by := createdBy |}) with
      | (d1, inl err) => (d1, inl (Wrapf "ensure policy_version" err))
      | (d1, inr existingID) =>
          match exec d1 SetActive (set_active existingID policyID) with
          | (d2, inl err) => (d2, inl (Wrapf "set active_version" err))
          | (d2, inr _) => (d2, inr existingID)
          end
      end
  end.

(** The database is nil when the service runs without one. *)
Definition ActivatePolicyVersion (database_ : option database)
    (scope version regoHash regoSource createdBy : string) : option database * Res uuid :=
  match database_ with
  | None => (None, inl (Errorf "db is required"))
  | Some d =>
      if version == "" then (Some d, inl (Errorf "version is required"))
      else
        let '(d', res) := transaction d (fun tx =>
          match ensurePolicy tx scope with
          | (tx1, inl err) => (tx1, inl err)
          | (tx1, inr policyID) =>
              match ensurePolicyVersion tx1 policyID version regoHash regoSource createdBy with
              | (tx2, inl err) => (tx2, inl err)
              | (tx2, inr vid) =>
                  match exec tx2 SetActive (set_active vid policyID) with
                  | (tx3, inl err) => (tx3, inl (Wrapf "set active_version" err))
                  | (tx3, inr _) => (tx3, inr vid)
                  end
              end
          end) in
        (Some d', res)
  end.

(** The version column is read as text and parsed again. *)
Definition parseVersionInt (s : string) : Z :=
  match Atoi s with
  | Some n => n
  | None => match versionToInt s with inr v => v | inl _ => 0 end
  end.

Definition active_rows (scope : string) (t : tables) : list (string * string) :=
  p ← filter (fun p => p_scope p = scope) (policies t);
  v ← filter (fun v => Some (v_id v) = p_active_version p) (policy_versions t);
  [(Itoa (v_version v), v_rego_hash v)].

Definition GetActiveVersion (database_ : option database) (scope : string) : Res (string * string) :=
  match database_ with
  | None => inl (Errorf "db is required")
  | Some d =>
      match query_row d SelectActive (active_rows scope) with
      | inl err =>
          if errors_is err SqlErrNoRows then inl (Sentinel DbErrNoActiveVersion)
          else inl (Wrapf "get active version" err)
      | inr (v, h) => inr (Itoa (parseVersionInt v), h)
      end
  end.

(** ** Package audit's store *)

Record AuditStore := { adb : database; policyVersionID : uuid }.

Definition NewAuditStore (d : database) : AuditStore := {| adb := d; policyVersionID := Nil |}.

Definition EnsurePolicyVersion (s : AuditStore) (version regoHash regoSource createdBy : string)
  : AuditStore * option error :=
  if version == "" then (s, Some (Errorf "policy version is required"))
  else if policyVersionID s != Nil then (s, None)
  else
    let '(d', res) := transaction (adb s) (fun tx =>
      match ensurePolicy tx "default" with
      | (tx1, inl err) => (tx1, inl err)
      | (tx1, inr policyID) =>
          ensurePolicyVersion tx1 policyID version regoHash regoSource createdBy
      end) in
    match res with
    | inl err => ({| adb := d'; policyVersionID := policyVersionID s |}, Some err)
    | inr vid => ({| adb := d'; policyVersionID := vid |}, None)
    end.

Definition insert_decision (r : decision_row) (t : tables) : dberr + (tables * unit) :=
  if existsb (fun r' => d_decision_id r' == d_decision_id r) (policy_decisions t)
  then inl unique_violation
  else if existsb (fun v => v_id v == d_policy_version r) (policy_versions t)
  then inr (set_decisions t (policy_decisions t ++ [r]), tt)
  else inl foreign_key_violation.

(** The row of a record; nil slices are written as empty arrays, an empty
    signature as NULL. *)
Definition decision_row_of (vid : uuid) (rec : Audit.DecisionRecord) : decision_row :=
  {| d_decision_id := Audit.DecisionID rec; d_policy_version := vid;
     d_request_hash := Audit.RequestHash_ rec; d_decision := Audit.Decision rec;
     d_reasons := elems (Audit.Reasons rec); d_applied_rules := elems (Audit.AppliedRules rec);
     d_score := Audit.Score rec; d_signature := nullableText (Audit.Signature rec);
     d_created_at := timestamptz (Audit.CreatedAt rec) |}.

Definition aud_Put (s : AuditStore) (rec : Audit.DecisionRecord) : AuditStore * option error :=
  if Audit.DecisionID rec == "" then (s, Some (Errorf "decision_id required"))
  else if policyVersionID s == Nil then
    (s, Some (Errorf "EnsurePolicyVersion must be called before Put"))
  else
    let '(d', res) := exec (adb s) InsertDecision
                        (insert_decision (decision_row_of (policyVersionID s) rec)) in
    ({| adb := d'; policyVersionID := policyVersionID s |},
     match res with
     | inl err => Some (if isUniqueViolation err then Sentinel AudErrDuplicateDecision else err)
     | inr _ => None
     end).

(** A row of [policy_decisions] joined with the text of its version. *)
Definition decision_rows (decisionID : string) (t : tables) : list (decision_row * string) :=
  r ← filter (fun r => d_decision_id r = decisionID) (policy_decisions t);
  v ← filter (fun v => v_id v = d_policy_version r) (policy_versions t);
  [(r, Itoa (v_version v))].

Definition scanDecisionRow (row : decision_row * string) : Audit.DecisionRecord :=
  let '(r, version) := row in
  {| Audit.DecisionID := d_decision_id r; Audit.PolicyVersion := version;
     Audit.RequestHash_ := d_request_hash r; Audit.Decision := d_decision r;
     Audit.Reasons := Some (d_reasons r); Audit.AppliedRules := Some (d_applied_rules r);
     Audit.Score := d_score r; Audit.CreatedAt := d_created_at r;
     Audit.Signature := default "" (d_signature r) |}.

Definition aud_Get (s : AuditStore) (decisionID : string)
  : option Audit.DecisionRecord * option error :=
  match query_row (adb s) SelectDecision (decision_rows decisionID) with
  | inr row => (Some (scanDecisionRow row), None)
  | inl err => if errors_is err SqlErrNoRows then (None, None) else (None, Some err)
  end.

#[global] Instance AuditStore_Store : Audit.Store AuditStore := {|
  Audit.store_Put := aud_Put; Audit.store_Get := aud_Get |}.

End Stores.

End Db.
