(* ===== verification/DbTables.v ===== *)
(** * Tables, statements and transactions of package db

    Lemmas on tables with a key and on statements with faults; the whitelist
    store as an instance of [Whitelist.StoreSpec]; the schema of the migration
    as an invariant of every statement; what a transaction leaves. *)
From Stdlib Require Import ZArith Lia Ascii String.
From stdpp Require Import base gmap strings list sorting pretty.
From S2P Require Import Prelude GoLib Float64 Json Whitelist Review AuditLog Db.

Open Scope Z_scope.
Open Scope go_scope.

Module DbTables.

Create HintDb db.
Import Db.

(** ** Tables with a key *)

Section Keys.
Context {R K : Type} `{Countable K} (kf : R -> K).

Lemma NoDup_snoc rows r : NoDup (kf <$> rows) -> kf r ∉ kf <$> rows -> NoDup (kf <$> (rows ++ [r])).
Proof.
  intros Hnd Hr. rewrite fmap_app. apply NoDup_app. split_and!; [done| |apply NoDup_singleton].
  intros k Hk ->%list_elem_of_singleton. done.
Qed.

(** A test for a key in the table. *)
Lemma existsb_key rows k :
  existsb (fun r => kf r == k) rows = true <-> k ∈ kf <$> rows.
Proof.
  rewrite existsb_exists, list_elem_of_fmap. setoid_rewrite bool_decide_eq_true.
  setoid_rewrite <- list_elem_of_In. naive_solver.
Qed.

Lemma existsb_key_false rows k :
  existsb (fun r => kf r == k) rows = false <-> k ∉ kf <$> rows.
Proof. rewrite <- existsb_key. destruct (existsb _ _); naive_solver. Qed.

(** [UPDATE] of the row with a key. *)
Lemma update_where_keys (p : R -> bool) f rows :
  (forall r, kf (f r) = kf r) -> kf <$> update_where p f rows = kf <$> rows.
Proof.
  intros Hf. unfold update_where. rewrite <- list_fmap_compose.
  apply list_fmap_ext. intros i r _. simpl. by destruct (p r).
Qed.

(** [SELECT] by key. *)
Lemma filter_key rows k :
  NoDup (kf <$> rows) ->
  match filter (fun r => kf r = k) rows with
  | [] => k ∉ kf <$> rows
  | [r] => r ∈ rows /\ kf r = k
  | _ => False
  end.
Proof.
  induction rows as [|r rows IH]; intros Hnd; [apply not_elem_of_nil|].
  rewrite fmap_cons in Hnd |- *. apply NoDup_cons in Hnd as [Hr Hnd]. specialize (IH Hnd).
  rewrite filter_cons. destruct (decide (kf r = k)) as [<-|Hne].
  - assert (filter (fun r' => kf r' = kf r) rows = []) as ->.
    { apply filter_none, Forall_forall. intros r' Hr' Heq. apply Hr. rewrite <- Heq.
      apply list_elem_of_fmap. eauto. }
    split; [by left|done].
  - destruct (filter _ rows) as [|r1 [|r2 l]]; [|destruct IH; split; [by right|done]|done].
    rewrite not_elem_of_cons. split; [congruence|done].
Qed.

Lemma key_unique rows r1 r2 :
  NoDup (kf <$> rows) -> r1 ∈ rows -> r2 ∈ rows -> kf r1 = kf r2 -> r1 = r2.
Proof.
  intros Hnd H1 H2 Hk. pose proof (filter_key rows (kf r2) Hnd) as Hf.
  assert (r1 ∈ filter (fun r => kf r = kf r2) rows) as F1 by (by apply list_elem_of_filter).
  assert (r2 ∈ filter (fun r => kf r = kf r2) rows) as F2 by (by apply list_elem_of_filter).
  destruct (filter _ _) as [|w [|]]; [by apply elem_of_nil in F1| |done].
  apply list_elem_of_singleton in F1, F2. congruence.
Qed.

Lemma count_key rows k :
  length (List.filter (fun r => kf r == k) rows) = 0%nat <-> k ∉ kf <$> rows.
Proof.
  rewrite length_zero_iff_nil, <- existsb_key_false.
  induction rows as [|r rows IH]; simpl; [done|]. by case_bool_decide.
Qed.

End Keys.

Section Keyed.
Context {R V K : Type} `{Countable K} (kf : R -> K) (vf : R -> V).

(** The map a table with distinct keys stands for. *)
Definition tmap (rows : list R) : gmap K V := list_to_map ((fun r => (kf r, vf r)) <$> rows).

Lemma tmap_keys rows : ((fun r => (kf r, vf r)) <$> rows).*1 = kf <$> rows.
Proof. rewrite <- list_fmap_compose. done. Qed.

Lemma tmap_Some rows k v :
  NoDup (kf <$> rows) -> tmap rows !! k = Some v <-> exists r, r ∈ rows /\ kf r = k /\ vf r = v.
Proof.
  intros Hnd. unfold tmap. rewrite <- elem_of_list_to_map by (by rewrite tmap_keys).
  rewrite list_elem_of_fmap. naive_solver.
Qed.

Lemma tmap_None rows k : tmap rows !! k = None <-> k ∉ kf <$> rows.
Proof. unfold tmap. rewrite <- not_elem_of_list_to_map. by rewrite tmap_keys. Qed.

Lemma tmap_snoc rows r :
  NoDup (kf <$> rows) -> kf r ∉ kf <$> rows -> tmap (rows ++ [r]) = <[kf r := vf r]> (tmap rows).
Proof.
  intros Hnd Hr. apply map_eq. intros k. apply option_eq. intros v.
  rewrite tmap_Some by (by apply NoDup_snoc). rewrite lookup_insert_Some, tmap_Some by done.
  setoid_rewrite elem_of_app. setoid_rewrite list_elem_of_singleton. split.
  - intros (r' & [Hr'| ->] & <- & <-); [|by left]. right. split; [|eauto].
    intros Heq. apply Hr. rewrite Heq. apply list_elem_of_fmap. eauto.
  - intros [[<- <-]|[_ (r' & ? & ? & ?)]]; eauto 10.
Qed.

Lemma tmap_update_at rows k f r0 :
  NoDup (kf <$> rows) -> (forall r, kf (f r) = kf r) -> r0 ∈ rows -> kf r0 = k ->
  tmap (update_where (fun r => kf r == k) f rows) = <[k := vf (f r0)]> (tmap rows).
Proof.
  intros Hnd Hk Hin Hk0. apply map_eq. intros k'. apply option_eq. intros v'.
  rewrite tmap_Some by (by rewrite update_where_keys).
  unfold update_where. setoid_rewrite list_elem_of_fmap.
  destruct (decide (k = k')) as [<-|Hne].
  - rewrite lookup_insert_eq. split.
    + intros (r & (r' & -> & Hr') & Hkr & <-). case_bool_decide as E.
      * assert (r' = r0) as -> by (eapply (key_unique kf); [done..|congruence]). done.
      * done.
    + intros [= <-]. exists (f r0). split; [|by rewrite Hk]. exists r0.
      by rewrite bool_decide_eq_true_2.
  - rewrite lookup_insert_ne, tmap_Some by done. split.
    + intros (r & (r' & -> & Hr') & Hkr & <-). exists r'. case_bool_decide; [|done].
      rewrite Hk in Hkr. congruence.
    + intros (r & Hr & <- & <-). exists r. split; [|done]. exists r.
      rewrite bool_decide_eq_false_2; [done|congruence].
Qed.

Lemma tmap_update rows k f v :
  NoDup (kf <$> rows) -> (forall r, kf (f r) = kf r) -> (forall r, vf (f r) = v) ->
  k ∈ kf <$> rows ->
  tmap (update_where (fun r => kf r == k) f rows) = <[k := v]> (tmap rows).
Proof.
  intros Hnd Hk Hv (r0 & -> & Hin)%list_elem_of_fmap.
  by rewrite (tmap_update_at rows (kf r0) f r0), Hv.
Qed.

End Keyed.

(** ** Statements *)

(** A statement changes the tables as it says, or not at all; without a fault
    the answer tells which. *)
Lemma exec_cases {A} d q (run : tables -> dberr + (tables * A)) d' res :
  exec d q run = (d', res) ->
  seq d' = S (seq d) /\ faults d' = faults d /\ uuids d' = uuids d /\
  ((tabs d' = tabs d /\ exists e, res = inl (err_of e)) \/
   (exists a, run (tabs d) = inr (tabs d', a) /\ (res = inr a \/ exists e, res = inl (err_of e)))).
Proof.
  unfold exec. intros He.
  destruct (faults d (seq d) q) as [[e|e]|], (run (tabs d)) as [e'|[t a]];
    simplify_eq/=; split_and!; try done; naive_solver.
Qed.

Definition healthy (d : database) : Prop := forall n q, faults d n q = None.

Lemma exec_healthy {A} d q (run : tables -> dberr + (tables * A)) :
  healthy d ->
  exec d q run = match run (tabs d) with
                 | inl e => (tick d, inl (err_of e))
                 | inr (t, a) => (with_tabs (tick d) t, inr a)
                 end.
Proof. intros Hh. unfold exec. rewrite Hh. by destruct (run (tabs d)) as [|[? ?]]. Qed.

Lemma query_healthy {A} d q (sel : tables -> A) : healthy d -> query d q sel = inr (sel (tabs d)).
Proof. intros Hh. unfold query. by rewrite Hh. Qed.

Lemma err_of_not_no_rows e : errors_is (err_of e) SqlErrNoRows = false.
Proof. by destruct e. Qed.

(** [sql.ErrNoRows] comes from an empty result, never from a fault. *)
Lemma query_row_cases {A} d q (sel : tables -> list A) :
  match query_row d q sel with
  | inr r => faults d (seq d) q = None /\ exists rs, sel (tabs d) = r :: rs
  | inl err =>
      if errors_is err SqlErrNoRows then faults d (seq d) q = None /\ sel (tabs d) = []
      else exists f, faults d (seq d) q = Some f
  end.
Proof.
  unfold query_row, query. destruct (faults d (seq d) q) as [[e|e]|].
  - unfold fault_err. rewrite err_of_not_no_rows. eauto.
  - unfold fault_err. rewrite err_of_not_no_rows. eauto.
  - destruct (sel (tabs d)); simpl; eauto.
Qed.

(** ** The whitelist store keeps the promises of its interface *)

Section WhitelistStore.
Context `{Postgres}.

Definition w_state (r : whitelist_row) : string * time :=
  (w_status r, default zero_time (w_verified_at r)).

Definition wl_inv (d : database) : Prop := NoDup (w_dest <$> whitelist_addresses (tabs d)).

Definition wl_view (d : database) : gmap Whitelist.dest (string * time) :=
  tmap w_dest w_state (whitelist_addresses (tabs d)).

Definition wl_stored (t : time) : time := default zero_time (timestamptz <$> nullableTime t).

#[global] Program Instance WhitelistStore_StoreSpec : Whitelist.StoreSpec database := {|
  Whitelist.dest_ok := fun _ => true; Whitelist.stored := wl_stored;
  Whitelist.store_inv := wl_inv; Whitelist.view := wl_view |}.
Next Obligation.
  intros d u c a Hd _. simpl. unfold wl_Get.
  match goal with |- context [query_row d SelectWhitelist ?f] =>
    pose proof (query_row_cases d SelectWhitelist f) as Hq;
    destruct (query_row d SelectWhitelist f) as [err|r] end.
  - destruct (errors_is err SqlErrNoRows); [|done]. destruct Hq as [_ Hq].
    pose proof (filter_key w_dest (whitelist_addresses (tabs d)) (u, c, a) Hd) as Hf.
    rewrite Hq in Hf. by apply tmap_None.
  - destruct Hq as (_ & rs & Hq).
    pose proof (filter_key w_dest (whitelist_addresses (tabs d)) (u, c, a) Hd) as Hf.
    rewrite Hq in Hf. destruct rs; [|done]. destruct Hf as [Hr Hk]. split; [exact Hk|].
    apply tmap_Some; [done|]. by exists r.
Qed.
Next Obligation.
  intros d e Hd _. simpl. unfold wl_Add.
  match goal with |- context [exec d _ (insert_whitelist ?r)] => set (row := r) end.
  destruct (exec d InsertWhitelist (insert_whitelist row)) as [d' res] eqn:He.
  assert (forall t, insert_whitelist row (tabs d) = inr (t, tt) ->
    NoDup (w_dest <$> whitelist_addresses t) /\ wl_view d !! w_dest row = None /\
    tmap w_dest w_state (whitelist_addresses t) = <[w_dest row := w_state row]> (wl_view d)) as Hins.
  { intros t. unfold insert_whitelist. destruct (existsb _ _) eqn:Hex; [done|]. intros [= <-]. simpl.
    assert (w_dest row ∉ w_dest <$> whitelist_addresses (tabs d)) as Hnew.
    { apply existsb_key_false. apply not_true_iff_false. intros Ht. apply not_true_iff_false in Hex.
      apply Hex. apply existsb_exists in Ht as (r & Hr & Hk). apply existsb_exists.
      exists r. split; [done|]. rewrite Hk. apply orb_true_r. }
    split_and!; [by apply NoDup_snoc|by apply tmap_None|by apply tmap_snoc]. }
  apply exec_cases in He as (_ & _ & _ & [[Ht [e' ->]]|([] & Hrun & Hres)]).
  - split; [unfold wl_inv; by rewrite Ht|]. left. unfold wl_view. by rewrite Ht.
  - destruct (Hins _ Hrun) as (Hnd & Hnone & Hv).
    destruct Hres as [-> | [e' ->]]; (split; [done|]); simpl; [|right]; done.
Qed.
Next Obligation.
  intros d e Hd _. simpl. unfold wl_Update.
  destruct (exec d UpdateWhitelist (update_whitelist e)) as [d' res] eqn:He.
  assert (wl_inv d' /\ (tabs d' = tabs d /\ (exists er, res = inl er) \/
    (exists n, (res = inr n \/ exists er, res = inl er) /\
      update_whitelist e (tabs d) = inr (tabs d', n)))) as [Hinv Hcase].
  { apply exec_cases in He as (_ & _ & _ & [[Ht [e' ->]]|(n & Hrun & Hres)]).
    - unfold wl_inv. rewrite Ht. split; [done|]. left. eauto.
    - split; [|right; exists n; split; [destruct Hres as [->|[? ->]]; eauto|done]].
      unfold update_whitelist in Hrun. injection Hrun as Ht _. unfold wl_inv. rewrite <- Ht.
      simpl. by rewrite update_where_keys. }
  destruct Hcase as [[Ht [er ->]]|(n & Hres & Hrun)].
  - split; [done|]. left. unfold wl_view. by rewrite Ht.
  - unfold update_whitelist in Hrun. injection Hrun as Ht Hn.
    assert (n = 0%nat -> wl_view d' = wl_view d) as Hz.
    { intros ->. unfold wl_view. rewrite <- Ht. simpl. f_equal. unfold update_where.
      apply count_key in Hn. rewrite <- (list_fmap_id (whitelist_addresses (tabs d))) at 2.
      apply list_fmap_ext. intros i r Hr. rewrite bool_decide_eq_false_2; [done|].
      intros Hk. apply Hn. rewrite <- Hk. apply list_elem_of_fmap. exists r. split; [done|].
      by eapply list_elem_of_lookup_2. }
    assert (n <> 0%nat -> is_Some (wl_view d !! Whitelist.entry_dest e) /\
      wl_view d' = <[Whitelist.entry_dest e := (Whitelist.Status e, wl_stored (Whitelist.VerifiedAt e))]>
                     (wl_view d)) as Hnz.
    { intros Hne. destruct (decide (Whitelist.entry_dest e ∈ w_dest <$> whitelist_addresses (tabs d)))
        as [Hin|Hout].
      - split.
        + apply list_elem_of_fmap in Hin as (r & Hr & Hin). exists (w_state r).
          apply tmap_Some; [done|]. by exists r.
        + unfold wl_view. rewrite <- Ht. simpl. by apply tmap_update.
      - apply count_key in Hout. congruence. }
    destruct Hres as [-> | [er ->]]; (split; [done|]); simpl.
    + destruct (n =? 0)%nat eqn:Hn0; [apply Nat.eqb_eq in Hn0|apply Nat.eqb_neq in Hn0]; simpl; auto.
    + destruct (decide (n = 0%nat)); auto.
Qed.

End WhitelistStore.

(** ** The schema

    The constraints of the migration. *)

Definition v_key (v : version_row) : uuid * Z := (v_policy_id v, v_version v).

Record schema (t : tables) : Prop := {
  sc_w_id : NoDup (w_id <$> whitelist_addresses t);
  sc_w_dest : NoDup (w_dest <$> whitelist_addresses t);
  sc_q_id : NoDup (q_id <$> review_queue t);
  sc_q_decision : q_decision_id <$> review_queue t ⊆ d_decision_id <$> policy_decisions t;
  sc_p_id : NoDup (p_id <$> policies t);
  sc_p_active : omap p_active_version (policies t) ⊆ v_id <$> policy_versions t;
  sc_v_id : NoDup (v_id <$> policy_versions t);
  sc_v_key : NoDup (v_key <$> policy_versions t);
  sc_v_policy : v_policy_id <$> policy_versions t ⊆ p_id <$> policies t;
  sc_v_range : Forall (fun v => int32_range (v_version v) = true) (policy_versions t);
  sc_d_id : NoDup (d_decision_id <$> policy_decisions t);
  sc_d_version : d_policy_version <$> policy_decisions t ⊆ v_id <$> policy_versions t
}.

(** What the code adds to it: one policy per scope, whose active version is one
    of its own. *)
Record one_policy (t : tables) : Prop := {
  op_scope : NoDup (p_scope <$> policies t);
  op_active : forall p v, p ∈ policies t -> v ∈ policy_versions t ->
    p_active_version p = Some (v_id v) -> v_policy_id v = p_id p
}.

Lemma schema_empty : schema empty_tables.
Proof. split; simpl; try apply NoDup_nil_2; try set_solver; constructor. Qed.

Lemma one_policy_empty : one_policy empty_tables.
Proof. split; simpl; [apply NoDup_nil_2|set_solver]. Qed.

(** A statement that keeps a property of the tables. *)
Definition keeps {A} (P : tables -> Prop) (run : tables -> dberr + (tables * A)) : Prop :=
  forall t t' a, P t -> run t = inr (t', a) -> P t'.

Lemma sub_fmap_app {A B} (f : A -> B) l k m : l ⊆ f <$> k -> l ⊆ f <$> (k ++ m).
Proof. intros Hl x Hx. rewrite fmap_app. apply elem_of_app. left. by apply Hl. Qed.

Lemma sub_fmap_snoc {A B} (f : A -> B) l k x : f <$> l ⊆ k -> f x ∈ k -> f <$> (l ++ [x]) ⊆ k.
Proof.
  intros Hl Hx y. rewrite fmap_app. intros [Hy| ->%list_elem_of_singleton]%elem_of_app; [by apply Hl|done].
Qed.

#[global] Hint Resolve NoDup_snoc sub_fmap_app sub_fmap_snoc : db.

(** Case analysis on the guards of a statement, then the constraints one by
    one: those about other tables, and projections an UPDATE does not touch,
    are as before. *)
Ltac schema_solve :=
  split; simpl; rewrite ?update_where_keys by done; auto with db.

Lemma existsb_or_false {A} (f g : A -> bool) l :
  existsb (fun x => f x || g x) l = false -> existsb f l = false /\ existsb g l = false.
Proof.
  induction l as [|x l IH]; simpl; [done|]. intros H. go_bool.
  destruct (IH ltac:(done)) as [-> ->]. split; apply orb_false_iff; done.
Qed.

Lemma insert_whitelist_schema r : keeps schema (insert_whitelist r).
Proof.
  intros t t' [] []. unfold insert_whitelist. destruct (existsb _ _) eqn:Hex; [done|]. intros [= <-].
  apply existsb_or_false in Hex as [Hid%existsb_key_false Hdest%existsb_key_false].
  split; simpl; auto with db.
Qed.

Lemma update_whitelist_schema `{Postgres} e : keeps schema (update_whitelist e).
Proof. intros t t' n []. unfold update_whitelist. intros [= <- _]. schema_solve. Qed.

Lemma insert_review_schema r : keeps schema (insert_review r).
Proof.
  intros t t' [] []. unfold insert_review. destruct (existsb _ (review_queue t)) eqn:Hq; [done|].
  destruct (existsb _ (policy_decisions t)) eqn:Hd; [|done]. intros [= <-].
  apply existsb_key_false in Hq. apply existsb_key in Hd. split; simpl; auto with db.
Qed.

Lemma update_review_schema `{Postgres} i : keeps schema (update_review i).
Proof. intros t t' n []. unfold update_review. intros [= <- _]. schema_solve. Qed.

Lemma insert_policy_schema r : p_active_version r = None -> keeps schema (insert_policy r).
Proof.
  intros Hr t t' [] []. unfold insert_policy. destruct (existsb _ _) eqn:Hex; [done|]. intros [= <-].
  apply existsb_key_false in Hex. split; simpl; auto with db.
  rewrite omap_app. simpl. rewrite Hr, app_nil_r. done.
Qed.

Lemma find_key_None {R K} `{EqDecision K} `{!Countable K} (kf : R -> K) k l :
  List.find (fun r => kf r == k) l = None -> k ∉ kf <$> l.
Proof.
  rewrite find_None_Forall, Forall_forall. intros Hl (r & -> & Hr)%list_elem_of_fmap.
  specialize (Hl r Hr). by rewrite bool_decide_eq_true_2 in Hl.
Qed.

Lemma v_key_eq r r' :
  (v_policy_id r' == v_policy_id r) && (v_version r' == v_version r) = (v_key r' == v_key r).
Proof. unfold v_key. repeat case_bool_decide; simplify_eq/=; congruence. Qed.

Lemma find_ext {A} (f g : A -> bool) l : (forall x, f x = g x) -> List.find f l = List.find g l.
Proof. intros Hfg. induction l as [|x l IH]; simpl; [done|]. by rewrite Hfg, IH. Qed.

Lemma upsert_version_cases r t t' vid :
  upsert_version r t = inr (t', vid) ->
  int32_range (v_version r) = true /\
  ((exists r0, r0 ∈ policy_versions t /\ v_key r0 = v_key r /\ vid = v_id r0 /\
      t' = set_versions t (update_where (fun r' => v_key r' == v_key r)
                             (set_hash (v_rego_hash r)) (policy_versions t))) \/
   (v_key r ∉ v_key <$> policy_versions t /\ v_id r ∉ v_id <$> policy_versions t /\
    v_policy_id r ∈ p_id <$> policies t /\ vid = v_id r /\
    t' = set_versions t (policy_versions t ++ [r]))).
Proof.
  unfold upsert_version. destruct (int32_range (v_version r)); [simpl|done]. intros Hu. split; [done|].
  rewrite (find_ext _ (fun r' => v_key r' == v_key r)) in Hu by apply v_key_eq.
  destruct (List.find _ _) as [r0|] eqn:Hf.
  - left. injection Hu as Ht Hv. apply find_Some_split in Hf as (l1 & l2 & Hl & Hk & _). go_bool.
    exists r0. split_and!; [rewrite Hl; set_solver|done|done|].
    rewrite <- Ht. f_equal. apply list_fmap_ext. intros i r' _. by rewrite v_key_eq.
  - right. apply find_key_None in Hf.
    destruct (existsb _ (policy_versions t)) eqn:Hid; [done|].
    destruct (existsb _ (policies t)) eqn:Hp; [|done]. simplify_eq.
    apply existsb_key_false in Hid. apply existsb_key in Hp. done.
Qed.

Lemma upsert_version_schema r : keeps schema (upsert_version r).
Proof.
  intros t t' vid [] Hu. apply upsert_version_cases in Hu as (Hr & [(r0 & Hin & Hk & -> & ->)|
    (Hkey & Hid & Hp & -> & ->)]).
  - schema_solve. unfold update_where. rewrite Forall_fmap. eapply Forall_impl; [done|].
    simpl. intros v Hv. by case_bool_decide.
  - split; simpl; auto with db. apply Forall_app. split; [done|by constructor].
Qed.

Lemma set_active_schema vid pid : keeps schema (set_active vid pid).
Proof.
  intros t t' [] []. unfold set_active. destruct (existsb _ _) eqn:Hv; [|done]. intros [= <-].
  apply existsb_key in Hv. schema_solve.
  intros x (p & Hp & Hx)%list_elem_of_omap. apply list_elem_of_fmap in Hp as (p' & -> & Hp').
  case_bool_decide; simplify_eq/=; [done|]. apply sc_p_active0, list_elem_of_omap. eauto.
Qed.

Lemma insert_decision_schema r : keeps schema (insert_decision r).
Proof.
  intros t t' [] []. unfold insert_decision. destruct (existsb _ (policy_decisions t)) eqn:Hd; [done|].
  destruct (existsb _ (policy_versions t)) eqn:Hv; [|done]. intros [= <-].
  apply existsb_key_false in Hd. apply existsb_key in Hv. split; simpl; auto with db.
Qed.

(** ** Transactions *)

Lemma exec_keeps {A} (P : tables -> Prop) d q (run : tables -> dberr + (tables * A)) d' res :
  keeps P run -> P (tabs d) -> exec d q run = (d', res) -> P (tabs d').
Proof.
  intros Hrun HP He. apply exec_cases in He as (_ & _ & _ & [[-> _]|(a & Hr & _)]); [done|].
  by eapply Hrun.
Qed.

(** A statement answered without an error was executed. *)
Lemma exec_ok {A} d q (run : tables -> dberr + (tables * A)) d' a :
  exec d q run = (d', inr a) ->
  run (tabs d) = inr (tabs d', a) /\ seq d' = S (seq d) /\ faults d' = faults d /\ uuids d' = uuids d.
Proof.
  intros He. apply exec_cases in He as (? & ? & ? & [[_ [e ?]]|(a' & Hr & [?|[e ?]])]); [done| |done].
  by simplify_eq.
Qed.

(** The version row an activation leaves, as against the tables before it: a new
    row with what the call gave, or the row of that policy and number, which keeps
    its id, source and author and gets the hash. *)
Definition stored_as (t : tables) (h src by_ : string) (v : version_row) : Prop :=
  v_rego_hash v = h /\
  ((v_rego_source v = src /\ v_created_by v = by_ /\ v_id v ∉ v_id <$> policy_versions t) \/
   exists v0, v0 ∈ policy_versions t /\ v = set_hash h v0).

(** What a transaction leaves: the tables as they were, or as its statements
    made them, which all succeeded.  An answer means the latter; an error then is
    the lost answer of the commit. *)
Lemma transaction_cases {A} d (body : database -> database * Res A) d' res :
  transaction d body = (d', res) ->
  (tabs d' = tabs d /\ exists e, res = inl e) \/
  (exists d1 d2 a, tabs d1 = tabs d /\ faults d1 = faults d /\ uuids d1 = uuids d /\
     seq d1 = S (seq d) /\ body d1 = (d2, inr a) /\ tabs d' = tabs d2 /\
     (res = inr a \/
      exists e, faults d2 (seq d2) CommitTx = Some (ReplyLost e) /\ res = inl (Wrapf "commit" (err_of e)))).
Proof.
  unfold transaction. destruct (exec d BeginTx _) as [d1 [e|[]]] eqn:Hb; intros Ht.
  - simplify_eq. left. apply exec_cases in Hb as (_ & _ & _ & [[-> _]|(? & [= ->] & _)]); eauto.
  - apply exec_ok in Hb as ([= Hb] & Hs & Hf & Hu).
    destruct (body d1) as [d2 [e|a]] eqn:Hbody.
    + simplify_eq/=. left. rewrite Hb. eauto.
    + destruct (faults d2 (seq d2) CommitTx) as [[e|e]|] eqn:Hft; simplify_eq/=.
      * left. rewrite Hb. eauto.
      * right. exists d1, d2, a. split_and!; eauto.
      * right. exists d1, d2, a. split_and!; eauto.
Qed.

End DbTables.
