(* ===== verification/DbProps.v ===== *)
(** * Properties of the PostgreSQL stores

    Policy activation as an all-or-nothing change that round trips; the tables
    stay well formed under every operation of the package; the audit table is
    append-only, and what is lost in it; the whitelist table as a map. *)
From Stdlib Require Import ZArith Lia Ascii String.
From stdpp Require Import base gmap strings list sorting pretty.
From S2P Require Import Prelude GoLib Float64 Json Whitelist Review AuditLog Db DbTables.

Open Scope Z_scope.
Open Scope go_scope.

Module DbProps.
Import Db DbTables.

(** ** Activation *)

(** Both kinds of constraint together. *)
Definition db_ok (t : tables) : Prop := schema t /\ one_policy t.

Definition set_active_row (vid : uuid) (p : policy_row) : policy_row :=
  {| p_id := p_id p; p_scope := p_scope p; p_active_version := Some vid |}.

Lemma set_active_cases vid pid t t' a :
  set_active vid pid t = inr (t', a) ->
  vid ∈ v_id <$> policy_versions t /\
  t' = set_policies t (update_where (fun p => p_id p == pid) (set_active_row vid) (policies t)).
Proof.
  unfold set_active. destruct (existsb _ _) eqn:Hv; [|done]. intros [= <- _].
  apply existsb_key in Hv. done.
Qed.

Lemma set_active_ok vid pid t t' a :
  db_ok t -> (forall v, v ∈ policy_versions t -> v_id v = vid -> v_policy_id v = pid) ->
  set_active vid pid t = inr (t', a) -> db_ok t'.
Proof.
  intros [Hs [Hsc Hac]] Hv Ha. split; [by eapply set_active_schema|].
  apply set_active_cases in Ha as [_ ->]. split; simpl.
  - by rewrite update_where_keys.
  - intros p v Hp Hvin. unfold update_where in Hp. apply list_elem_of_fmap in Hp as (p' & -> & Hp').
    case_bool_decide as Hpid; [|by apply Hac]. simpl. intros [= Heq]. rewrite Hpid. by apply Hv.
Qed.

Lemma ensurePolicy_spec d scope d' pid :
  db_ok (tabs d) -> ensurePolicy d scope = (d', inr pid) ->
  db_ok (tabs d') /\ policy_versions (tabs d') = policy_versions (tabs d) /\
  (exists p, p ∈ policies (tabs d') /\ p_id p = pid /\ p_scope p = scope) /\
  (forall p, p_scope p <> scope -> p ∈ policies (tabs d') <-> p ∈ policies (tabs d)).
Proof.
  intros [Hs [Hsc Hac]]. unfold ensurePolicy.
  match goal with |- context [query_row d SelectPolicy ?f] =>
    pose proof (query_row_cases d SelectPolicy f) as Hq;
    destruct (query_row d SelectPolicy f) as [err|id] end.
  - destruct (errors_is err SqlErrNoRows); simpl; [|done].
    destruct Hq as [_ Hq]. apply fmap_nil_inv in Hq.
    destruct (exec d InsertPolicy _) as [d1 [e|[]]] eqn:He; [done|]. intros [= <- <-].
    apply exec_ok in He as [Hins _]. assert (schema (tabs d1)) as Hs1
      by (eapply insert_policy_schema, Hins; done).
    unfold insert_policy in Hins. destruct (existsb _ _); [done|]. injection Hins as Ht.
    rewrite <- Ht in Hs1 |- *. pose proof (filter_key p_scope (policies (tabs d)) scope Hsc) as Hf.
    rewrite Hq in Hf. split_and!; simpl; try done.
    + split; [done|]. split; simpl; [by apply NoDup_snoc|].
      intros p v [Hp| ->%list_elem_of_singleton]%elem_of_app Hv; [by apply Hac|done].
    + eexists. split; [apply elem_of_app; right; by apply list_elem_of_singleton|done].
    + intros p Hp. rewrite elem_of_app, list_elem_of_singleton. naive_solver.
  - intros [= <- <-]. destruct Hq as (_ & rs & Hq).
    destruct (filter _ _) as [|p l] eqn:Hf; [done|]. simplify_eq/=.
    assert (p ∈ filter (fun r => p_scope r = scope) (policies (tabs d))) as Hp
      by (rewrite Hf; by left).
    apply list_elem_of_filter in Hp as [Hp1 Hp2]. split_and!; try done. by exists p.
Qed.

Lemma versionToInt_total version : exists n, versionToInt version = inr n.
Proof. unfold versionToInt. destruct (Atoi version); eauto. Qed.

Lemma update_where_same {R} (p : R -> bool) f rows :
  Forall (fun r => p r = true -> f r = r) rows -> update_where p f rows = rows.
Proof.
  intros Hf. unfold update_where. rewrite <- (list_fmap_id rows) at 2. apply list_fmap_ext.
  intros i r Hr. rewrite Forall_forall in Hf. specialize (Hf r (list_elem_of_lookup_2 _ _ _ Hr)).
  simpl. destruct (p r); auto.
Qed.

Lemma ensurePolicyVersion_spec d pid version h src by_ d' vid :
  db_ok (tabs d) -> ensurePolicyVersion d pid version h src by_ = (d', inr vid) ->
  db_ok (tabs d') /\
  policies (tabs d') = update_where (fun p => p_id p == pid) (set_active_row vid) (policies (tabs d)) /\
  (exists v n, v ∈ policy_versions (tabs d') /\ v_id v = vid /\ v_key v = (pid, n) /\
     stored_as (tabs d) h src by_ v /\ versionToInt version = inr n /\ int32_range n = true) /\
  (forall v, v_policy_id v <> pid ->
     v ∈ policy_versions (tabs d') <-> v ∈ policy_versions (tabs d)).
Proof.
  intros [Hs [Hsc Hac]]. unfold ensurePolicyVersion.
  destruct (versionToInt version) as [e|n] eqn:Hn; [done|].
  destruct (exec d UpsertVersion _) as [d1 [e|vid1]] eqn:Hu; [done|].
  destruct (exec d1 SetActive _) as [d2 [e|[]]] eqn:Ha; [done|]. intros [= <- <-].
  apply exec_ok in Hu as [Hu _]. apply exec_ok in Ha as [Ha _].
  pose proof (upsert_version_schema _ _ _ _ Hs Hu) as Hs1.
  apply upsert_version_cases in Hu as [Hr Hu]. simpl in Hr.
  pose proof (set_active_cases _ _ _ _ _ Ha) as [_ Ht2].
  assert (policies (tabs d1) = policies (tabs d) /\
    (exists v, v ∈ policy_versions (tabs d1) /\ v_id v = vid1 /\ v_key v = (pid, n) /\
       stored_as (tabs d) h src by_ v) /\
    (forall v, v_policy_id v <> pid ->
       v ∈ policy_versions (tabs d1) <-> v ∈ policy_versions (tabs d)) /\
    (forall p v, p ∈ policies (tabs d) -> v ∈ policy_versions (tabs d1) ->
       p_active_version p = Some (v_id v) -> v_policy_id v = p_id p)) as (Hp1 & Hv1 & Hfr & Hac1).
  { destruct Hu as [(r0 & Hin & Hk & -> & Ht)|(Hkey & Hid & Hpid & -> & Ht)]; rewrite Ht; simpl;
      (split; [done|]).
    - unfold update_where. split_and!.
      + exists (set_hash h r0). split_and!; try done; [|split; [done|]; right; by exists r0].
        apply list_elem_of_fmap. exists r0. by rewrite bool_decide_eq_true_2.
      + intros v Hv. rewrite list_elem_of_fmap. split.
        * intros (v' & -> & Hv'). case_bool_decide as E; [|done].
          unfold v_key in E. simpl in E. simplify_eq/=.
        * intros Hv'. exists v. split; [|done]. rewrite bool_decide_eq_false_2; [done|].
          unfold v_key. simpl. congruence.
      + intros p v Hp Hv Hpv. apply list_elem_of_fmap in Hv as (v' & -> & Hv').
        specialize (Hac p v' Hp Hv'). case_bool_decide; auto.
    - split_and!.
      + eexists. split; [apply elem_of_app; right; by apply list_elem_of_singleton|].
        split_and!; try done. split; [done|]. by left.
      + intros v Hv. rewrite elem_of_app, list_elem_of_singleton. naive_solver.
      + intros p v Hp [Hv| ->%list_elem_of_singleton]%elem_of_app Hpv; [by apply Hac|].
        exfalso. apply Hid. simpl in *. apply (sc_p_active _ Hs). apply list_elem_of_omap. eauto. }
  assert (db_ok (tabs d1)) as Hok1 by (split; [done|]; split; rewrite Hp1; done).
  destruct Hv1 as (v & Hv & Hvid & Hvk & Hvh). split_and!.
  - eapply set_active_ok; [exact Hok1| |exact Ha]. intros v' Hv' Hid'.
    assert (v' = v) as -> by (eapply (key_unique v_id); [apply Hs1|done..|congruence]).
    by injection Hvk.
  - rewrite Ht2. simpl. by rewrite Hp1.
  - exists v, n. rewrite Ht2. done.
  - rewrite Ht2. done.
Qed.

(** The active version of a scope, as a relation. *)
Definition active (t : tables) (scope : string) (x : string * string) : Prop :=
  exists p v, p ∈ policies t /\ p_scope p = scope /\ v ∈ policy_versions t /\
    p_active_version p = Some (v_id v) /\ x = (Itoa (v_version v), v_rego_hash v).

Lemma active_rows_elem scope t x : x ∈ active_rows scope t <-> active t scope x.
Proof.
  unfold active_rows, active. rewrite list_elem_of_bind. setoid_rewrite list_elem_of_bind.
  setoid_rewrite list_elem_of_filter. setoid_rewrite list_elem_of_singleton. naive_solver.
Qed.

Lemma active_unique t scope x y : db_ok t -> active t scope x -> active t scope y -> x = y.
Proof.
  intros [Hs Ho] (p & v & Hp & Hsc & Hv & Ha & ->) (p' & v' & Hp' & Hsc' & Hv' & Ha' & ->).
  assert (p = p') as <- by (eapply (key_unique p_scope); [apply Ho|done..|congruence]).
  assert (v = v') as <- by (eapply (key_unique v_id); [apply Hs|done..|congruence]). done.
Qed.

(** What [GetActiveVersion] answers when the database does. *)
Lemma GetActiveVersion_spec d scope x :
  db_ok (tabs d) -> healthy d ->
  GetActiveVersion (Some d) scope = inr x <-> active (tabs d) scope x.
Proof.
  intros Hok Hh. unfold GetActiveVersion, query_row. rewrite query_healthy by done.
  rewrite <- active_rows_elem. destruct (active_rows scope (tabs d)) as [|[v h] l] eqn:Hl; simpl.
  - rewrite elem_of_nil. done.
  - assert (active (tabs d) scope (v, h)) as Hv by (apply active_rows_elem; rewrite Hl; by left).
    assert (Itoa (parseVersionInt v) = v) as ->.
    { destruct Hv as (p & r & _ & _ & Hr & _ & [= -> _]). unfold parseVersionInt.
      rewrite Atoi_Itoa; [done|]. pose proof (sc_v_range _ (proj1 Hok)) as Hf.
      rewrite Forall_forall in Hf. specialize (Hf r Hr). unfold int32_range in Hf. go_bool.
      unfold int64_range. lia. }
    split; [intros [= <-]; by left|]. intros Hx. f_equal. rewrite <- Hl in Hx.
    apply active_rows_elem in Hx. by eapply active_unique.
Qed.

Lemma GetActiveVersion_none d scope :
  healthy d -> (forall x, ~ active (tabs d) scope x) ->
  GetActiveVersion (Some d) scope = inl (Sentinel DbErrNoActiveVersion).
Proof.
  intros Hh Hn. unfold GetActiveVersion, query_row. rewrite query_healthy by done.
  destruct (active_rows scope (tabs d)) as [|x l] eqn:Hl; [done|].
  exfalso. apply (Hn x). apply active_rows_elem. rewrite Hl. by left.
Qed.

(** An activation, as a relation between the tables before and after it: the
    scope's active version is a row with the number of the version, its hash, and
    the source and author as [stored_as] says; other scopes keep theirs. *)
Definition activated (t t' : tables) (scope version h src by_ : string) (vid : uuid) : Prop :=
  db_ok t' /\
  (exists n p v, versionToInt version = inr n /\ int32_range n = true /\
     p ∈ policies t' /\ p_scope p = scope /\ p_active_version p = Some vid /\
     v ∈ policy_versions t' /\ v_id v = vid /\ v_policy_id v = p_id p /\ v_version v = n /\
     stored_as t h src by_ v) /\
  (forall scope' x, scope' <> scope -> active t' scope' x <-> active t scope' x).

Lemma activated_active t t' scope version h src by_ vid :
  activated t t' scope version h src by_ vid ->
  exists n, versionToInt version = inr n /\ int32_range n = true /\ active t' scope (Itoa n, h).
Proof.
  intros (_ & (n & p & v & Hn & Hr & Hp & Hsc & Ha & Hv & Hid & _ & Hvn & Hh & _) & _). exists n. split_and!; [done..|].
  exists p, v. split_and!; [done..|congruence|congruence].
Qed.

(** The three statements of an activation, when they all succeed. *)
Lemma activation_body d scope version h src by_ d1 pid d2 vid :
  db_ok (tabs d) -> ensurePolicy d scope = (d1, inr pid) ->
  ensurePolicyVersion d1 pid version h src by_ = (d2, inr vid) ->
  activated (tabs d) (tabs d2) scope version h src by_ vid /\
  (forall v, v ∈ policy_versions (tabs d2) -> v_id v = vid -> v_policy_id v = pid) /\
  update_where (fun p => p_id p == pid) (set_active_row vid) (policies (tabs d2)) = policies (tabs d2).
Proof.
  intros Hok Hp Hv. destruct (ensurePolicy_spec d scope d1 pid Hok Hp)
    as (Hok1 & Hv1 & (p & Hpin & Hpid & Hpsc) & Hpfr).
  destruct (ensurePolicyVersion_spec d1 pid version h src by_ d2 vid Hok1 Hv)
    as (Hok2 & Hp2 & (v & n & Hvin & Hvid & Hvk & Hvh & Hn & Hr) & Hvfr).
  assert (v_policy_id v = pid) as Hvp by (by injection Hvk).
  split_and!; [split_and!; [done| |]| |]; cycle 2.
  - intros v' Hv' Hid'. assert (v' = v) as -> by
      (eapply (key_unique v_id); [apply Hok2|done..|congruence]). done.
  - apply update_where_same, Forall_forall. rewrite Hp2. unfold update_where.
    intros q (q' & -> & _)%list_elem_of_fmap. destruct (decide (p_id q' = pid)) as [E|E].
    + by rewrite (bool_decide_eq_true_2 (p_id q' = pid)).
    + rewrite (bool_decide_eq_false_2 (p_id q' = pid)) by done. intros Hd. go_bool. done.
  - exists n, (set_active_row vid p), v. split_and!; try done.
    + rewrite Hp2. unfold update_where. apply list_elem_of_fmap. exists p.
      by rewrite bool_decide_eq_true_2.
    + simpl. congruence.
    + by injection Hvk.
    + unfold stored_as in *. by rewrite <- Hv1.
  - intros scope' x Hne. unfold active.
    (* a policy of another scope has another id, and so have its versions *)
    assert (forall q, p_scope q = scope' -> q ∈ policies (tabs d2) <-> q ∈ policies (tabs d)) as Hq.
    { intros q Hq. rewrite Hp2. rewrite <- (Hpfr q) by congruence. unfold update_where.
      rewrite list_elem_of_fmap. split.
      - intros (q' & -> & Hq'). case_bool_decide as E; [|done]. simpl in Hq.
        assert (q' = p) by (eapply (key_unique p_id); [apply Hok1|done..|congruence]). congruence.
      - intros Hq'. exists q. split; [|done]. case_bool_decide as E; [|done].
        assert (q = p) by (eapply (key_unique p_id); [apply Hok1|done..|congruence]). congruence. }
    assert (forall q, p_scope q = scope' -> q ∈ policies (tabs d1) -> p_id q <> pid) as Hqid.
    { intros q Hqs Hqin Heq.
      assert (q = p) by (eapply (key_unique p_id); [apply Hok1|done..|congruence]). congruence. }
    split; intros (q & w & Hqin & Hqs & Hw & Ha & ->); exists q, w;
      (split_and!; [by apply Hq|done| |done|done]).
    + rewrite <- Hv1. apply Hvfr; [|done]. rewrite (op_active _ (proj2 Hok2) q w Hqin Hw Ha).
      apply Hqid; [done|]. apply Hpfr; [congruence|]. by apply Hq.
    + apply Hvfr; [|by rewrite Hv1]. rewrite (op_active _ (proj2 Hok) q w Hqin Hw Ha).
      apply Hqid; [done|]. apply Hpfr; [congruence|done].
Qed.

(** The statements keep the oracle of the database. *)
Lemma exec_faults {A} d q (run : tables -> dberr + (tables * A)) d' res :
  exec d q run = (d', res) -> faults d' = faults d.
Proof. intros He. by apply exec_cases in He as (_ & Hf & _). Qed.

Lemma ensurePolicy_faults d scope d' res : ensurePolicy d scope = (d', res) -> faults d' = faults d.
Proof.
  unfold ensurePolicy. destruct (query_row _ _ _); [|by intros [= <- _]]. destruct (negb _); [by intros [= <- _]|].
  destruct (exec d InsertPolicy _) as [d1 [e1|a]] eqn:He; intros [= <- _]; by eapply exec_faults.
Qed.

Lemma ensurePolicyVersion_faults d pid version h src by_ d' res :
  ensurePolicyVersion d pid version h src by_ = (d', res) -> faults d' = faults d.
Proof.
  unfold ensurePolicyVersion. destruct (versionToInt version); [by intros [= <- _]|].
  destruct (exec d UpsertVersion _) as [d1 [e1|a]] eqn:He; [intros [= <- _]; by eapply exec_faults|].
  apply exec_faults in He as <-. destruct (exec d1 SetActive _) as [d2 [e2|b]] eqn:He2; intros [= <- _]; by eapply exec_faults.
Qed.

(** The answer to the commit of a statement to come is lost. *)
Definition commit_lost (d : database) (err : error) : Prop :=
  exists k e, faults d k CommitTx = Some (ReplyLost e) /\ err = Wrapf "commit" (err_of e).

Lemma activation_cases d scope version h src by_ d' res :
  db_ok (tabs d) -> ActivatePolicyVersion (Some d) scope version h src by_ = (Some d', res) ->
  (tabs d' = tabs d /\ exists e, res = inl e) \/
  (exists vid, activated (tabs d) (tabs d') scope version h src by_ vid /\
     (res = inr vid \/ exists e, commit_lost d e /\ res = inl e)).
Proof.
  intros Hok. unfold ActivatePolicyVersion. case_bool_decide; [intros [= <- <-]; eauto|].
  destruct (transaction d _) as [d3 r] eqn:Ht. intros [= <- <-].
  apply transaction_cases in Ht as [[-> He]|(d0 & d2 & vid & Ht & Hf0 & _ & _ & Hbody & Htab & Hres)]; [by left|].
  right. exists vid. rewrite Htab. destruct (ensurePolicy d0 scope) as [d1 [e|pid]] eqn:Hp; [done|].
  destruct (ensurePolicyVersion d1 pid version h src by_) as [d4 [e|vid']] eqn:Hv; [done|].
  destruct (exec d4 SetActive _) as [d5 [e|[]]] eqn:Ha; [done|]. injection Hbody as <- <-.
  assert (faults d5 = faults d) as Hf5.
  { rewrite (exec_faults _ _ _ _ _ Ha), (ensurePolicyVersion_faults _ _ _ _ _ _ _ _ Hv), (ensurePolicy_faults _ _ _ _ Hp). done. }
  rewrite <- Ht in Hok |- *.
  destruct (activation_body d0 scope version h src by_ d1 pid d4 vid' Hok Hp Hv) as (Hact & Hvp & Hsame).
  apply exec_ok in Ha as [Ha _]. apply set_active_cases in Ha as [_ Ha].
  assert (tabs d5 = tabs d4) as ->.
  { rewrite Ha, Hsame. by destruct (tabs d4). }
  split; [done|]. destruct Hres as [->|(e & Hft & ->)]; [by left|right]. eexists. split; [|done].
  exists (seq d5), e. split; [by rewrite <- Hf5|done].
Qed.

(** C12. Activation is all or nothing, whatever statement fails.  An id is
    answered exactly when the tables are those of the activation: the scope's
    active version is the row with that id, of the scope's policy, with the number
    of the version and the hash of the call; it is a new row with the source and
    author of the call, or the row that had this number, whose source and author
    stay; every other scope keeps its active version.  An error leaves the tables
    as they were, except when it is the loss of the answer to the commit, which
    may leave those of the activation. *)
Theorem activation_atomic d scope version h src by_ d' res :
  db_ok (tabs d) -> ActivatePolicyVersion (Some d) scope version h src by_ = (Some d', res) ->
  match res with
  | inr vid => activated (tabs d) (tabs d') scope version h src by_ vid
  | inl err => tabs d' = tabs d \/
      (commit_lost d err /\ exists vid, activated (tabs d) (tabs d') scope version h src by_ vid)
  end.
Proof.
  intros Hok Ha. apply activation_cases in Ha as [[Ht [e ->]]|(vid & Ha & [->|(e & Hl & ->)])]; [by left|done| |done].
  right. eauto.
Qed.

(** ** Activation without faults *)

(** The ids to come are new. *)
Definition fresh_uuids (d : database) : Prop :=
  forall n, (seq d <= n)%nat ->
    uuids d n ∉ p_id <$> policies (tabs d) /\ uuids d n ∉ v_id <$> policy_versions (tabs d).

Definition same_oracle (d d' : database) : Prop :=
  faults d' = faults d /\ uuids d' = uuids d /\ (seq d <= seq d')%nat.

Lemma healthy_oracle d d' : same_oracle d d' -> healthy d -> healthy d'.
Proof. intros (Hf & _) Hh n q. rewrite Hf. apply Hh. Qed.

Lemma same_oracle_trans d1 d2 d3 : same_oracle d1 d2 -> same_oracle d2 d3 -> same_oracle d1 d3.
Proof. unfold same_oracle. intros (?&?&?) (?&?&?). split_and!; [congruence..|lia]. Qed.

#[local] Hint Resolve healthy_oracle same_oracle_trans : db.

Lemma tick_oracle d : same_oracle d (tick d).
Proof. unfold same_oracle. simpl. auto. Qed.

Lemma ensurePolicy_succeeds d scope :
  healthy d -> uuids d (seq d) ∉ p_id <$> policies (tabs d) ->
  exists d' pid, ensurePolicy d scope = (d', inr pid) /\ same_oracle d d'.
Proof.
  intros Hh Hfr. unfold ensurePolicy, query_row. rewrite query_healthy by done.
  cbn beta iota. destruct (p_id <$> filter _ _) as [|id l]; simpl;
    [|exists d, id; unfold same_oracle; auto].
  rewrite exec_healthy by done. unfold insert_policy. simpl.
  replace (existsb _ _) with false by (symmetry; by apply existsb_key_false).
  eexists _, _. split; [done|]. apply tick_oracle.
Qed.

Lemma ensurePolicyVersion_succeeds d pid version h src by_ n :
  healthy d -> uuids d (seq d) ∉ v_id <$> policy_versions (tabs d) ->
  pid ∈ p_id <$> policies (tabs d) -> versionToInt version = inr n -> int32_range n = true ->
  exists d' vid, ensurePolicyVersion d pid version h src by_ = (d', inr vid) /\ same_oracle d d'.
Proof.
  intros Hh Hfr Hp Hn Hr. unfold ensurePolicyVersion. rewrite Hn, exec_healthy by done.
  match goal with |- context [upsert_version ?r (tabs d)] => set (row := r) end.
  assert (exists t vid, upsert_version row (tabs d) = inr (t, vid) /\ vid ∈ v_id <$> policy_versions t)
    as (t & vid & Hu & Hv).
  { unfold upsert_version. change (v_version row) with n. rewrite Hr. simpl.
    destruct (List.find _ _) as [r0|] eqn:Hf.
    - eexists _, _. split; [done|]. simpl. rewrite update_where_keys by done.
      apply find_Some_split in Hf as (l1 & l2 & -> & _). rewrite fmap_app. set_solver.
    - replace (existsb _ (policy_versions _)) with false by (symmetry; by apply existsb_key_false).
      replace (existsb _ (policies _)) with true by (symmetry; by apply existsb_key).
      eexists _, _. split; [done|]. simpl. rewrite fmap_app. set_solver. }
  rewrite Hu. rewrite exec_healthy by done. unfold set_active. simpl.
  replace (existsb _ _) with true by (symmetry; by apply existsb_key).
  eexists _, _. split; [done|]. unfold same_oracle. simpl. auto.
Qed.

Lemma ensurePolicyVersion_range d pid version h src by_ n :
  healthy d -> versionToInt version = inr n -> int32_range n = false ->
  exists d' e, ensurePolicyVersion d pid version h src by_ = (d', inl e).
Proof.
  intros Hh Hn Hr. unfold ensurePolicyVersion. rewrite Hn, exec_healthy by done.
  unfold upsert_version. simpl. rewrite Hr. simpl. eauto.
Qed.

(** A lookup depends on what is active only. *)
Lemma GetActiveVersion_ext d d' scope :
  db_ok (tabs d) -> db_ok (tabs d') -> healthy d -> healthy d' ->
  (forall x, active (tabs d') scope x <-> active (tabs d) scope x) ->
  GetActiveVersion (Some d') scope = GetActiveVersion (Some d) scope.
Proof.
  intros Hok Hok' Hh Hh' Hiff. destruct (GetActiveVersion (Some d) scope) as [e|x] eqn:Hg.
  - assert (forall x, ~ active (tabs d) scope x) as Hn.
    { intros x Hx. apply GetActiveVersion_spec in Hx; [|done..]. congruence. }
    rewrite GetActiveVersion_none in Hg by done. rewrite <- Hg.
    apply GetActiveVersion_none; [done|]. intros x Hx. by apply (Hn x), Hiff.
  - apply GetActiveVersion_spec; [done..|]. by apply Hiff, GetActiveVersion_spec.
Qed.

(** Without faults activation and lookup round trip: activating a version
    whose number fits the column succeeds, looking the scope up then gives that
    number and hash, and other scopes are as before.  A number outside 32 bits
    (the version is parsed at 64 bits) is refused and changes nothing. *)
Theorem activation_roundtrip d scope version h src by_ n :
  db_ok (tabs d) -> healthy d -> fresh_uuids d -> version <> "" -> versionToInt version = inr n ->
  exists d' res, ActivatePolicyVersion (Some d) scope version h src by_ = (Some d', res) /\
    if int32_range n then
      (exists vid, res = inr vid) /\ db_ok (tabs d') /\
      GetActiveVersion (Some d') scope = inr (Itoa n, h) /\
      forall scope', scope' <> scope ->
        GetActiveVersion (Some d') scope' = GetActiveVersion (Some d) scope'
    else (exists e, res = inl e) /\ tabs d' = tabs d.
Proof.
  intros Hok Hh Hfr Hne Hn. unfold ActivatePolicyVersion. rewrite bool_decide_eq_false_2 by done.
  unfold transaction. rewrite exec_healthy by done. set (d0 := with_tabs (tick d) (tabs d)).
  assert (same_oracle d d0) as Ho by (unfold same_oracle; simpl; auto).
  destruct (ensurePolicy_succeeds d0 scope) as (d1 & pid & Hp & Ho1);
    [by apply (healthy_oracle d)|apply (Hfr (S (seq d))); lia|]. rewrite Hp.
  destruct (ensurePolicy_spec d0 scope d1 pid Hok Hp) as (Hok1 & Hv1 & (p & Hpin & Hpid & _) & _).
  assert (healthy d1) as Hh1 by eauto with db.
  destruct (int32_range n) eqn:Hr.
  - destruct (ensurePolicyVersion_succeeds d1 pid version h src by_ n) as (d2 & vid & Hv & Ho2); try done.
    { rewrite Hv1. destruct (same_oracle_trans _ _ _ Ho Ho1) as (_ & -> & Hsq). by apply Hfr. }
    { apply list_elem_of_fmap. exists p. done. }
    rewrite Hv. destruct (activation_body d0 scope version h src by_ d1 pid d2 vid Hok Hp Hv)
      as (Hact0 & Hvp & Hsame). destruct (activated_active _ _ _ _ _ _ _ _ Hact0) as (n' & Hn' & _ & Hact).
    destruct Hact0 as (Hok2 & _ & Hfrm).
    assert (n' = n) as -> by congruence. assert (healthy d2) as Hh2 by eauto with db.
    rewrite exec_healthy by done. unfold set_active.
    assert (vid ∈ v_id <$> policy_versions (tabs d2)) as Hvin.
    { destruct (ensurePolicyVersion_spec _ _ _ _ _ _ _ _ Hok1 Hv) as (_ & _ & (v & _ & ? & ? & _) & _).
      apply list_elem_of_fmap. eauto. }
    replace (existsb _ _) with true by (symmetry; by apply existsb_key).
    change (fun p0 : policy_row => {| p_id := p_id p0; p_scope := p_scope p0; p_active_version := Some vid |})
      with (set_active_row vid).
    rewrite Hsame. replace (set_policies (tabs d2) (policies (tabs d2))) with (tabs d2)
      by (by destruct (tabs d2)).
    simpl. rewrite Hh2. eexists _, _. split; [done|]. split_and!; [eauto|done| |].
    + apply GetActiveVersion_spec; done.
    + intros scope' Hsc. apply GetActiveVersion_ext; try done. intros x. by apply Hfrm.
  - destruct (ensurePolicyVersion_range d1 pid version h src by_ n Hh1 Hn Hr) as (d2 & e & ->).
    eexists _, _. split; [done|]. eauto.
Qed.

(** ** Every operation of the package on one database

    The stores share the database handle; the audit store also holds the id of
    the policy version it writes. *)
Section Calls.
Context `{Postgres}.

Inductive call :=
| CWhitelistAdd (e : Whitelist.Entry)
| CWhitelistUpdate (e : Whitelist.Entry)
| CReviewPut (i : Review.Item)
| CReviewUpdate (i : Review.Item)
| CAuditPut (rec : Audit.DecisionRecord)
| CEnsureVersion (version hash source by_ : string)
| CActivate (scope version hash source by_ : string).

Definition with_db (s : AuditStore) (d : database) : AuditStore :=
  {| adb := d; policyVersionID := policyVersionID s |}.

Definition do_call (s : AuditStore) (c : call) : AuditStore :=
  match c with
  | CWhitelistAdd e => with_db s (fst (wl_Add (adb s) e))
  | CWhitelistUpdate e => with_db s (fst (wl_Update (adb s) e))
  | CReviewPut i => with_db s (fst (rev_Put (adb s) i))
  | CReviewUpdate i => with_db s (fst (rev_Update (adb s) i))
  | CAuditPut rec => fst (aud_Put s rec)
  | CEnsureVersion v h src by_ => fst (EnsurePolicyVersion s v h src by_)
  | CActivate sc v h src by_ =>
      with_db s (default (adb s) (fst (ActivatePolicyVersion (Some (adb s)) sc v h src by_)))
  end.

Definition run_calls (s : AuditStore) (cs : list call) : AuditStore := fold_left do_call cs s.

(** A property of the tables that all statements keep is kept by all calls. *)
Section Keep.
Context (P : tables -> Prop).

Definition is_policy_call (c : call) : bool :=
  match c with CEnsureVersion _ _ _ _ | CActivate _ _ _ _ _ => true | _ => false end.

(** The calls of one statement; [stmt_keeps] is what is asked of it. *)
Definition stmt_keeps (c : call) : Prop :=
  match c with
  | CWhitelistAdd _ => forall r, keeps P (insert_whitelist r)
  | CWhitelistUpdate e => keeps P (update_whitelist e)
  | CReviewPut _ => forall r, keeps P (insert_review r)
  | CReviewUpdate i => keeps P (update_review i)
  | CAuditPut _ => forall r, keeps P (insert_decision r)
  | _ => True
  end.

Lemma do_stmt_keeps s c :
  is_policy_call c = false -> stmt_keeps c -> P (tabs (adb s)) -> P (tabs (adb (do_call s c))).
Proof.
  intros Hp Hc HP. destruct c; simpl in *; try done.
  - unfold wl_Add. destruct (exec _ _ _) as [d' [er|[]]] eqn:He; simpl; eapply exec_keeps in He; eauto.
  - unfold wl_Update. destruct (exec _ _ _) as [d' [er|n]] eqn:He; simpl; eapply exec_keeps in He; eauto.
  - unfold rev_Put. destruct (exec _ _ _) as [d' [er|[]]] eqn:He; simpl; eapply exec_keeps in He; eauto.
  - unfold rev_Update. destruct (exec _ _ _) as [d' [er|n]] eqn:He; simpl; eapply exec_keeps in He; eauto.
  - unfold aud_Put. do 2 (case_bool_decide; [done|]). destruct (exec _ _ _) as [d' r] eqn:He. simpl.
    eapply exec_keeps in He; eauto.
Qed.

Context (KP : forall r, p_active_version r = None -> keeps P (insert_policy r))
  (KS : forall r, keeps P (upsert_version r)) (KA : forall v p, keeps P (set_active v p)).

Lemma ensurePolicy_keeps d scope d' res :
  P (tabs d) -> ensurePolicy d scope = (d', res) -> P (tabs d').
Proof.
  intros HP. unfold ensurePolicy. destruct (query_row d SelectPolicy _); [|by intros [= <- _]].
  destruct (negb _); [by intros [= <- _]|]. destruct (exec d _ _) as [d1 [e1|[]]] eqn:He;
    intros [= <- _]; eapply exec_keeps in He; eauto.
Qed.

Lemma ensurePolicyVersion_keeps d pid version h src by_ d' res :
  P (tabs d) -> ensurePolicyVersion d pid version h src by_ = (d', res) -> P (tabs d').
Proof.
  intros HP. unfold ensurePolicyVersion. destruct (versionToInt version); [by intros [= <- _]|].
  destruct (exec d _ _) as [d1 [e|vid]] eqn:Hu; [intros [= <- _]; eapply exec_keeps in Hu; eauto|].
  destruct (exec d1 _ _) as [d2 [e|[]]] eqn:Ha; intros [= <- _]; eapply exec_keeps in Ha; eauto;
    eapply exec_keeps in Hu; eauto.
Qed.

Lemma transaction_keeps {A} d (body : database -> database * Res A) d' res :
  P (tabs d) -> (forall d1 d2 a, P (tabs d1) -> body d1 = (d2, inr a) -> P (tabs d2)) ->
  transaction d body = (d', res) -> P (tabs d').
Proof.
  intros HP Hb Ht. apply transaction_cases in Ht as [[-> _]|(d1 & d2 & a & Ht & _ & _ & _ & Hbody & -> & _)];
    [done|]. apply (Hb d1 d2 a); [by rewrite Ht|done].
Qed.

Lemma EnsurePolicyVersion_keeps s v h src by_ :
  P (tabs (adb s)) -> P (tabs (adb (fst (EnsurePolicyVersion s v h src by_)))).
Proof.
  intros HP. unfold EnsurePolicyVersion. do 2 (destruct (_ : bool); [done|]).
  destruct (transaction _ _) as [d' r] eqn:Ht.
  assert (P (tabs d')); [|by destruct r]. eapply transaction_keeps; [exact HP| |exact Ht].
  clear Ht. intros d1 d2 a HP1. cbn beta. destruct (ensurePolicy d1 _) as [d3 [er|pid]] eqn:Hp; [done|].
  eapply ensurePolicy_keeps in Hp; eauto using ensurePolicyVersion_keeps.
Qed.

Lemma ActivatePolicyVersion_keeps d sc v h src by_ :
  P (tabs d) -> P (tabs (default d (fst (ActivatePolicyVersion (Some d) sc v h src by_)))).
Proof.
  intros HP. unfold ActivatePolicyVersion. case_bool_decide; [done|].
  destruct (transaction _ _) as [d' r] eqn:Ht. simpl.
  eapply transaction_keeps; [exact HP| |exact Ht]. clear Ht. intros d1 d2 a HP1. cbn beta.
  destruct (ensurePolicy d1 _) as [d3 [er|pid]] eqn:Hp; [done|].
  eapply ensurePolicy_keeps in Hp; [|done].
  destruct (ensurePolicyVersion d3 _ _ _ _ _) as [d4 [er|vid]] eqn:Hv; [done|].
  eapply ensurePolicyVersion_keeps in Hv; [|done].
  destruct (exec d4 _ _) as [d5 [er|[]]] eqn:Ha; intros [= <- _]; eapply exec_keeps in Ha; eauto.
Qed.

Lemma do_call_keeps s c : stmt_keeps c -> P (tabs (adb s)) -> P (tabs (adb (do_call s c))).
Proof.
  intros Hc HP. destruct (is_policy_call c) eqn:Hp; [|by apply do_stmt_keeps].
  destruct c; try done; [by apply EnsurePolicyVersion_keeps|by apply ActivatePolicyVersion_keeps].
Qed.

Context (KW : forall r, keeps P (insert_whitelist r)) (KU : forall e, keeps P (update_whitelist e))
  (KR : forall r, keeps P (insert_review r)) (KV : forall i, keeps P (update_review i))
  (KD : forall r, keeps P (insert_decision r)).

Lemma run_calls_keeps s cs : P (tabs (adb s)) -> P (tabs (adb (run_calls s cs))).
Proof.
  revert s. induction cs as [|c cs IH]; intros s HP; [done|]. apply IH.
  apply do_call_keeps; [|done]. by destruct c; simpl.
Qed.

End Keep.

Lemma run_calls_schema s cs :
  schema (tabs (adb s)) -> schema (tabs (adb (run_calls s cs))).
Proof.
  apply run_calls_keeps; auto using insert_whitelist_schema, update_whitelist_schema,
    insert_review_schema, update_review_schema, insert_policy_schema, upsert_version_schema,
    set_active_schema, insert_decision_schema.
Qed.

(** *** Nothing is lost from the audit table *)

Definition v_ident (v : version_row) : uuid * Z := (v_id v, v_version v).

Definition extends (t t' : tables) : Prop :=
  policy_decisions t `prefix_of` policy_decisions t' /\
  v_ident <$> policy_versions t `prefix_of` v_ident <$> policy_versions t'.

Lemma upsert_version_extends t0 r : keeps (extends t0) (upsert_version r).
Proof.
  intros t t' vid [Hd Hv] Hu.
  apply upsert_version_cases in Hu as (_ & [(r0 & _ & _ & -> & ->)|(_ & _ & _ & -> & ->)]);
    (split; [done|]); simpl.
  - rewrite update_where_keys; done.
  - rewrite fmap_app. etransitivity; [exact Hv|]. by apply prefix_app_r.
Qed.

Lemma insert_decision_extends t0 r : keeps (extends t0) (insert_decision r).
Proof.
  intros t t' [] [Hd Hv]. unfold insert_decision. repeat (destruct (existsb _ _); try done).
  intros [= <-]. split; [|done]. simpl. etransitivity; [exact Hd|]. by apply prefix_app_r.
Qed.

Lemma run_calls_extends s cs : extends (tabs (adb s)) (tabs (adb (run_calls s cs))).
Proof.
  apply (run_calls_keeps (extends (tabs (adb s)))); auto using upsert_version_extends,
    insert_decision_extends; [..|by split];
    intros; intros t t' a [Hd Hv];
    unfold insert_whitelist, update_whitelist, insert_review, update_review, insert_policy, set_active;
    repeat (destruct (existsb _ _)); by intros [= <- _].
Qed.

End Calls.

(** *** The tables stay well formed *)

#[local] Arguments ActivatePolicyVersion : simpl never.
#[local] Arguments EnsurePolicyVersion : simpl never.

Section WellFormed.
Context `{Postgres}.

(** The version id the audit store writes is that of a row, once it is set. *)
Definition store_ok (s : AuditStore) : Prop :=
  db_ok (tabs (adb s)) /\
  (policyVersionID s <> Nil -> policyVersionID s ∈ v_id <$> policy_versions (tabs (adb s))).

Lemma v_ident_ids (l : list version_row) : fst <$> (v_ident <$> l) = v_id <$> l.
Proof. by rewrite <- list_fmap_compose. Qed.

Lemma extends_version_ids t t' x :
  extends t t' -> x ∈ v_id <$> policy_versions t -> x ∈ v_id <$> policy_versions t'.
Proof.
  intros [_ [l Hv]]. rewrite <- !v_ident_ids, Hv, fmap_app, elem_of_app. auto.
Qed.

(** Calls that leave the tables of policies alone. *)
Lemma one_policy_same t t' :
  policies t' = policies t -> policy_versions t' = policy_versions t -> one_policy t -> one_policy t'.
Proof. intros Hp Hv [? ?]. split; rewrite Hp, ?Hv; done. Qed.

Lemma do_call_version s c :
  is_policy_call c = false -> policyVersionID (do_call s c) = policyVersionID s.
Proof.
  intros Hc. destruct c; try done. simpl. unfold aud_Put. do 2 (case_bool_decide; [done|]).
  by destruct (exec _ _ _) as [d' res].
Qed.

Lemma other_calls_policies s c :
  is_policy_call c = false ->
  let t := tabs (adb s) in let t' := tabs (adb (do_call s c)) in
  policies t' = policies t /\ policy_versions t' = policy_versions t.
Proof.
  intros Hc. cbn zeta. apply (do_stmt_keeps (fun t => policies t = policies (tabs (adb s)) /\
    policy_versions t = policy_versions (tabs (adb s)))); [done| |done].
  destruct c; try done; simpl; intros; intros t t' x [Hp Hv];
    unfold insert_whitelist, update_whitelist, insert_review, update_review, insert_decision;
    repeat (destruct (existsb _ _)); by intros [= <- _].
Qed.

Lemma EnsurePolicyVersion_spec s version h src by_ s' err :
  db_ok (tabs (adb s)) -> EnsurePolicyVersion s version h src by_ = (s', err) ->
  db_ok (tabs (adb s')) /\
  (policyVersionID s' = policyVersionID s /\ (err = None -> policyVersionID s <> Nil) \/
   (err = None /\ policyVersionID s = Nil /\
    exists v n, v ∈ policy_versions (tabs (adb s')) /\ v_id v = policyVersionID s' /\
      versionToInt version = inr n /\ v_version v = n /\ v_rego_hash v = h)).
Proof.
  intros Hok. unfold EnsurePolicyVersion. case_bool_decide; [intros [= <- <-]; auto|].
  case_bool_decide as Hnil; [simpl|intros [= <- <-]; auto].
  destruct (transaction _ _) as [d' res] eqn:Ht. intros Hs.
  apply transaction_cases in Ht as [[Ht [e ->]]|(d0 & d2 & vid & Ht & _ & _ & _ & Hbody & Htab & Hres)].
  - injection Hs as <- <-. simpl. rewrite Ht. auto.
  - destruct (ensurePolicy d0 "default") as [d1 [e|pid]] eqn:Hp; [done|].
    rewrite <- Ht in Hok. destruct (ensurePolicy_spec d0 "default" d1 pid Hok Hp) as (Hok1 & _).
    destruct (ensurePolicyVersion_spec d1 pid version h src by_ d2 vid Hok1 Hbody)
      as (Hok2 & _ & (v & n & Hv & Hid & Hk & [Hh _] & Hn & _) & _).
    destruct Hres as [->|(e & _ & ->)]; injection Hs as <- <-; simpl; rewrite Htab; split; auto.
    right. split_and!; try done. exists v, n. injection Hk as _ Hk. done.
Qed.

Lemma do_call_ok s c : store_ok s -> store_ok (do_call s c).
Proof.
  intros [Hok Hpv]. pose proof (run_calls_extends s [c]) as Hext. simpl in Hext.
  destruct (is_policy_call c) eqn:Hc.
  - destruct c; try done; simpl in *.
    + destruct (EnsurePolicyVersion s version hash source by_) as [s' err] eqn:He. simpl in *.
      apply EnsurePolicyVersion_spec in He as [Hok' He]; [|done]. split; [done|].
      destruct He as [[Hid _]|(_ & _ & v & n & Hv & Hid & _)].
      * rewrite Hid. intros Hne. eapply extends_version_ids; [exact Hext|auto].
      * intros _. rewrite <- Hid. apply list_elem_of_fmap. eauto.
    + destruct (ActivatePolicyVersion _ _ _ _ _ _) as [o res] eqn:Ha.
      destruct o as [d'|]; [|unfold ActivatePolicyVersion in Ha; repeat (go_case_in Ha); done].
      simpl in *. split; [|intros Hne; eapply extends_version_ids; [exact Hext|auto]].
      apply activation_cases in Ha as [[Ht _]|(vid & [Ha _] & _)]; [|done|done]. simpl. by rewrite Ht.
  - destruct (other_calls_policies s c Hc) as (Hp & Hv). pose proof (do_call_version s c Hc) as Hid. split.
    + split; [by apply (run_calls_schema s [c]), Hok|]. by eapply one_policy_same, Hok.
    + by rewrite Hid, Hv.
Qed.

Lemma run_calls_ok s cs : store_ok s -> store_ok (run_calls s cs).
Proof. revert s. induction cs as [|c cs IH]; intros s Hs; [done|]. by apply IH, do_call_ok. Qed.

(** C30. The tables stay well formed under every sequence of operations of the
    package, whatever faults occur: the keys, references and ranges the
    migration declares hold; there is one policy per scope (no constraint says
    so) and its active version is a version of that policy; and the version the
    audit store writes exists. *)
Theorem tables_well_formed faults_ uuids_ cs :
  let s := run_calls (NewAuditStore
    {| tabs := empty_tables; seq := 0; faults := faults_; uuids := uuids_ |}) cs in
  let t := tabs (adb s) in
  schema t /\ NoDup (p_scope <$> policies t) /\
  (forall p v, p ∈ policies t -> v ∈ policy_versions t -> p_active_version p = Some (v_id v) ->
     v_policy_id v = p_id p) /\
  (policyVersionID s <> Nil -> policyVersionID s ∈ v_id <$> policy_versions t).
Proof.
  cbn zeta. match goal with |- context [run_calls ?s cs] =>
    destruct (run_calls_ok s cs) as [[? [? ?]] ?]; [|done] end.
  split; [split; [apply schema_empty|apply one_policy_empty]|done].
Qed.

(** ** The audit table *)

(** A record as it is read back. *)
Definition readback (version : string) (rec : Audit.DecisionRecord) : Audit.DecisionRecord :=
  {| Audit.DecisionID := Audit.DecisionID rec; Audit.PolicyVersion := version;
     Audit.RequestHash_ := Audit.RequestHash_ rec; Audit.Decision := Audit.Decision rec;
     Audit.Reasons := Some (elems (Audit.Reasons rec));
     Audit.AppliedRules := Some (elems (Audit.AppliedRules rec));
     Audit.Score := Audit.Score rec; Audit.CreatedAt := timestamptz (Audit.CreatedAt rec);
     Audit.Signature := Audit.Signature rec |}.

Lemma default_nullableText s : default "" (nullableText s) = s.
Proof. unfold nullableText. case_bool_decide; simpl; congruence. Qed.

Lemma aud_Put_ok s rec s' :
  aud_Put s rec = (s', None) ->
  Audit.DecisionID rec <> "" /\ policyVersionID s <> Nil /\ policyVersionID s' = policyVersionID s /\
  policy_versions (tabs (adb s')) = policy_versions (tabs (adb s)) /\
  Audit.DecisionID rec ∉ d_decision_id <$> policy_decisions (tabs (adb s)) /\
  policy_decisions (tabs (adb s')) =
    policy_decisions (tabs (adb s)) ++ [decision_row_of (policyVersionID s) rec].
Proof.
  unfold aud_Put. do 2 (case_bool_decide; [done|]).
  destruct (exec _ _ _) as [d' [e|[]]] eqn:He; [done|]. intros [= <-]. simpl.
  apply exec_ok in He as [He _]. unfold insert_decision in He.
  destruct (existsb _ (policy_decisions _)) eqn:Hd; [done|].
  destruct (existsb _ (policy_versions _)); [|done]. injection He as <-. simpl.
  apply existsb_key_false in Hd. done.
Qed.

(** The rows a lookup finds for a decision that is in the table. *)
Lemma decision_rows_unique t r v :
  schema t -> r ∈ policy_decisions t -> (d_policy_version r, v) ∈ v_ident <$> policy_versions t ->
  decision_rows (d_decision_id r) t = [(r, Itoa v)].
Proof.
  intros Hs Hr Hv. unfold decision_rows.
  pose proof (filter_key d_decision_id _ (d_decision_id r) (sc_d_id _ Hs)) as Hf.
  assert (r ∈ filter (fun r' => d_decision_id r' = d_decision_id r) (policy_decisions t)) as Hin
    by (by apply list_elem_of_filter).
  destruct (filter _ (policy_decisions t)) as [|r' [|]]; [by apply elem_of_nil in Hin| |done].
  apply list_elem_of_singleton in Hin as <-.
  apply list_elem_of_fmap in Hv as (w & Hw & Hwin). unfold v_ident in Hw.
  pose proof (filter_key v_id _ (d_policy_version r) (sc_v_id _ Hs)) as Hg.
  assert (w ∈ filter (fun v' => v_id v' = d_policy_version r) (policy_versions t)) as Hin
    by (apply list_elem_of_filter; split; [congruence|done]).
  simpl. destruct (filter _ (policy_versions t)) as [|w' [|]]; [by apply elem_of_nil in Hin| |done].
  apply list_elem_of_singleton in Hin as <-. simpl. congruence.
Qed.

(** C32. The audit table is append-only: once a decision has been written, every
    later lookup of it, after any operations of the package and whatever faults
    occur, gives the same record or fails, and no second record is accepted
    under its id. *)
Theorem audit_record_permanent s rec s' cs rec' :
  store_ok s -> aud_Put s rec = (s', None) -> Audit.DecisionID rec' = Audit.DecisionID rec ->
  let s2 := run_calls s' cs in
  exists v, v ∈ policy_versions (tabs (adb s)) /\ v_id v = policyVersionID s /\
    match aud_Get s2 (Audit.DecisionID rec) with
    | (r, None) => r = Some (readback (Itoa (v_version v)) rec)
    | (r, Some _) => r = None
    end /\ snd (aud_Put s2 rec') <> None.
Proof.
  intros Hok Hput Hid. cbn zeta. pose proof (do_call_ok s (CAuditPut rec) Hok) as Hok'.
  simpl in Hok'. rewrite Hput in Hok'. simpl in Hok'.
  apply aud_Put_ok in Hput as (Hne & Hnil & Hpv & Hvs & _ & Hds).
  destruct (run_calls_ok s' cs Hok') as [[Hs2 _] _].
  destruct (run_calls_extends s' cs) as [[dl Hd] [vl Hv]].
  pose proof (proj2 Hok Hnil) as Hin. apply list_elem_of_fmap in Hin as (v & Hvid & Hvin).
  exists v. set (s2 := run_calls s' cs) in *. set (row := decision_row_of (policyVersionID s) rec) in *.
  assert (row ∈ policy_decisions (tabs (adb s2))) as Hrow by (rewrite Hd, Hds; set_solver).
  assert ((d_policy_version row, v_version v) ∈ v_ident <$> policy_versions (tabs (adb s2))) as Hver.
  { rewrite Hv, Hvs. apply elem_of_app. left. apply list_elem_of_fmap. exists v. split; [|done].
    unfold v_ident. simpl. congruence. }
  split_and!; [done|done| |].
  - unfold aud_Get.
    pose proof (query_row_cases (adb s2) SelectDecision (decision_rows (Audit.DecisionID rec))) as Hq.
    change (Audit.DecisionID rec) with (d_decision_id row) in Hq.
    rewrite (decision_rows_unique _ row (v_version v)) in Hq by done.
    change (d_decision_id row) with (Audit.DecisionID rec) in Hq.
    destruct (query_row _ _ _) as [er|x].
    + destruct (errors_is er SqlErrNoRows); [by destruct Hq|done].
    + destruct Hq as (_ & rs & [= <- _]). unfold scanDecisionRow, readback. simpl.
      by rewrite default_nullableText.
  - unfold aud_Put. rewrite Hid, (bool_decide_eq_false_2 (_ = "")) by done.
    case_bool_decide; [done|]. destruct (exec _ _ _) as [d' [e|[]]] eqn:He; [done|].
    apply exec_ok in He as [He _]. unfold insert_decision in He. simpl in He.
    replace (existsb _ (policy_decisions _)) with true in He; [done|]. symmetry.
    apply existsb_key. rewrite Hid. apply list_elem_of_fmap. by exists row.
Qed.

End WellFormed.

(** ** Versions and numbers *)

(** The number of a version that is not one itself has seven digits, and fits
    the column. *)
Lemma versionToInt_hash version n :
  Atoi version = None -> versionToInt version = inr n -> 1000000 <= n < 10000000.
Proof.
  intros Ha. unfold versionToInt. rewrite Ha. intros [= <-].
  pose proof (Z.mod_pos_bound (fnv1a 2166136261 version) 9000000). lia.
Qed.

Lemma versionToInt_decimal n : int64_range n -> versionToInt (Itoa n) = inr n.
Proof. intros Hn. unfold versionToInt. by rewrite Atoi_Itoa. Qed.

(** *** The signed text of a record that was read back *)

Section Signed.
Context `{Json.Fmt} `{Postgres}.

(** Characters [json.Marshal] writes as they are. *)
Definition json_plain (s : string) : bool :=
  forallb (fun c => (code c <? 128) && (Json.enc_ascii c == String c "") && (c != Json.quote))
    (String.list_ascii_of_string s).

Lemma enc_chars_plain s :
  json_plain s = true -> Json.enc_chars s = s /\ free Json.quote s = true.
Proof.
  induction s as [|c s IH]; [done|]. unfold json_plain in *. cbn [String.list_ascii_of_string forallb].
  intros Hp. apply andb_true_iff in Hp as [Hc Hs]. destruct (IH Hs) as [He Hf].
  apply andb_true_iff in Hc as [Hc Hq]. apply andb_true_iff in Hc as [Hc Hx].
  apply bool_decide_eq_true in Hx. cbn [Json.enc_chars free]. rewrite Hc, Hx, He, Hq, Hf. done.
Qed.

Lemma pretty_N_plain (n : N) : json_plain (pretty n) = true.
Proof.
  assert (forall x s, json_plain s = true -> json_plain (pretty.pretty_N_go x s) = true) as Hgo.
  { intros x. induction (N.lt_wf_0 x) as [x _ IH]; intros s Hs.
    destruct (decide (x = 0%N)) as [->|Hx]; [done|].
    rewrite pretty.pretty_N_go_step by lia. apply IH; [apply N.div_lt; lia|].
    unfold json_plain in *. cbn [String.list_ascii_of_string forallb]. rewrite Hs.
    unfold pretty.pretty_N_char. repeat case_match; reflexivity. }
  unfold pretty, pretty.pretty_N. case_decide; [reflexivity|]. by apply Hgo.
Qed.

Lemma Itoa_plain n : json_plain (Itoa n) = true.
Proof.
  destruct (Z_lt_ge_dec n 0) as [Hn|Hn].
  - rewrite Itoa_neg by done. unfold json_plain. cbn [String.list_ascii_of_string forallb].
    apply pretty_N_plain.
  - rewrite Itoa_nonneg by lia. apply pretty_N_plain.
Qed.

(** The signed text up to and after the policy version. *)
Lemma canonicalJSON_split rec payload :
  Audit.canonicalJSON rec = inr payload ->
  exists rest, payload =
    ("{" +:+ Json.enc_field ("decision_id", Json.enc_string (Audit.DecisionID rec)) +:+ "," +:+
     Json.enc_string "policy_version" +:+ ":" +:+ String Json.quote "") +:+
    (Json.enc_chars (Audit.PolicyVersion rec) +:+ String Json.quote rest).
Proof.
  unfold Audit.canonicalJSON, Audit.marshal_record.
  destruct (Json.enc_float _) as [e|sc]; [done|]. destruct (Json.enc_time _) as [e|tm]; [done|].
  intros [= <-]. unfold Json.enc_object. cbn [fmap list_fmap app Json.join].
  unfold Json.enc_field at 2. cbn [fst snd]. unfold Json.enc_string at 3.
  assert (forall c a b, String c a +:+ b = String c (a +:+ b)) as Hcons by done.
  assert (forall b : string, "" +:+ b = b) as Hnil by done.
  eexists. repeat rewrite ?string_app_assoc, ?Hcons, ?Hnil. reflexivity.
Qed.

(** The signature of a record that was stored cannot be checked against what
    the database gives back: the version column holds a number derived from the
    policy version, so for a version that is a hash the signed text of the
    record read back is another one than the text that was signed. *)
Theorem signed_text_lost rec n payload payload' :
  Atoi (Audit.PolicyVersion rec) = None -> json_plain (Audit.PolicyVersion rec) = true ->
  versionToInt (Audit.PolicyVersion rec) = inr n ->
  Audit.canonicalJSON rec = inr payload ->
  Audit.canonicalJSON (readback (Itoa n) rec) = inr payload' -> payload' <> payload.
Proof.
  intros Ha Hp Hn Hc Hc' ->.
  destruct (canonicalJSON_split _ _ Hc) as [r1 E1]. destruct (canonicalJSON_split _ _ Hc') as [r2 E].
  rewrite E1 in E.
  change (Audit.DecisionID (readback (Itoa n) rec)) with (Audit.DecisionID rec) in E.
  apply (inj (String.append _)) in E.
  destruct (enc_chars_plain _ Hp) as [Hp1 Hf1]. rewrite Hp1 in E. destruct (enc_chars_plain _ (Itoa_plain n)) as [He Hf2].
  change (Audit.PolicyVersion (readback (Itoa n) rec)) with (Itoa n) in E. rewrite He in E.
  apply join_inj_l in E as [E _]; [|done..]. pose proof (versionToInt_hash _ _ Ha Hn).
  rewrite E, Atoi_Itoa in Ha; [done|]. unfold int64_range. lia.
Qed.

End Signed.

(** ** The whitelist table as a map

    The reference: a map from destinations to entries. *)
Section WhitelistMap.
Context `{Postgres}.
Import Whitelist.

(** An entry as the columns keep it. *)
Definition norm_entry (created : time) (e : Entry) : Entry :=
  {| UserID := UserID e; Chain := Chain e; Address := Address e; Label := Label e;
     Status := Status e; VerifiedAt := wl_stored (VerifiedAt e); CreatedAt := created |}.

Definition spec_add (m : gmap dest Entry) (e : Entry) : gmap dest Entry * option error :=
  match m !! entry_dest e with
  | Some _ => (m, Some (Sentinel WlErrDuplicate))
  | None => (<[entry_dest e := norm_entry (timestamptz (CreatedAt e)) e]> m, None)
  end.

Definition spec_update (m : gmap dest Entry) (e : Entry) : gmap dest Entry * option error :=
  match m !! entry_dest e with
  | None => (m, Some (Sentinel WlErrNotFound))
  | Some e0 => (<[entry_dest e := norm_entry (CreatedAt e0) e]> m, None)
  end.

Definition wl_map (d : database) : gmap dest Entry :=
  tmap w_dest scanWhitelistRow (whitelist_addresses (tabs d)).

Lemma wl_map_Some d r :
  wl_inv d -> r ∈ whitelist_addresses (tabs d) -> wl_map d !! w_dest r = Some (scanWhitelistRow r).
Proof. intros Hd Hr. apply tmap_Some; [done|]. by exists r. Qed.

Lemma wl_Add_refines d e :
  healthy d -> wl_inv d -> NewV7 d ∉ w_id <$> whitelist_addresses (tabs d) ->
  (wl_map (fst (wl_Add d e)), snd (wl_Add d e)) = spec_add (wl_map d) e.
Proof.
  intros Hh Hd Hid. unfold wl_Add, spec_add. rewrite exec_healthy by done.
  unfold insert_whitelist. destruct (existsb _ _) eqn:Hex.
  - apply existsb_exists in Hex as (r & Hr & Hk). apply list_elem_of_In in Hr.
    apply orb_true_iff in Hk as [Hk|Hk]; go_bool; simpl in Hk.
    + exfalso. apply Hid. rewrite <- Hk. apply list_elem_of_fmap. eauto.
    + change (w_dest r = entry_dest e) in Hk. rewrite <- Hk, (wl_map_Some d r Hd Hr). done.
  - apply existsb_or_false in Hex as [_ Hex%existsb_key_false].
    assert (wl_map d !! entry_dest e = None) as -> by (by apply tmap_None).
    unfold wl_map at 1. simpl. rewrite tmap_snoc by done. unfold scanWhitelistRow, norm_entry. simpl.
    by rewrite default_nullableText.
Qed.

Lemma wl_Update_refines d e :
  healthy d -> wl_inv d ->
  (wl_map (fst (wl_Update d e)), snd (wl_Update d e)) = spec_update (wl_map d) e.
Proof.
  intros Hh Hd. unfold wl_Update, spec_update. rewrite exec_healthy by done. unfold update_whitelist.
  cbn beta iota. destruct (length _ =? 0)%nat eqn:Hn; [apply Nat.eqb_eq in Hn|apply Nat.eqb_neq in Hn];
    rewrite count_key in Hn.
  - assert (wl_map d !! entry_dest e = None) as -> by (by apply tmap_None).
    unfold wl_map at 1. simpl. rewrite update_where_same; [done|]. apply Forall_forall.
    intros r Hr Hk. exfalso. go_bool. apply Hn. rewrite <- Hk. apply list_elem_of_fmap. eauto.
  - destruct (decide (entry_dest e ∈ w_dest <$> whitelist_addresses (tabs d))) as [Hin|]; [|done].
    apply list_elem_of_fmap in Hin as (r & Hk & Hr). 
    assert (wl_map d !! entry_dest e = Some (scanWhitelistRow r)) as ->
      by (rewrite Hk; by apply wl_map_Some).
    simpl. f_equal. unfold wl_map at 1. simpl.
    rewrite (tmap_update_at w_dest scanWhitelistRow _ _ _ r) by done.
    f_equal. unfold scanWhitelistRow, norm_entry. simpl. rewrite default_nullableText.
    unfold w_dest in Hk. injection Hk as -> -> ->. done.
Qed.

Lemma wl_Get_refines d u c a :
  healthy d -> wl_inv d -> wl_Get d u c a = (wl_map d !! (u, c, a), None).
Proof.
  intros Hh Hd. unfold wl_Get, query_row. rewrite query_healthy by done. cbn beta iota.
  pose proof (filter_key w_dest (whitelist_addresses (tabs d)) (u, c, a) Hd) as Hf.
  destruct (filter _ _) as [|r [|]]; simpl; [|destruct Hf as [Hr <-]; by rewrite wl_map_Some|done].
  f_equal. symmetry. by apply tmap_None.
Qed.

Lemma wl_List_refines d u :
  healthy d -> wl_inv d ->
  let '(es, err) := wl_List d u in
  err = None /\ Sorted (fun e1 e2 => CreatedAt e1 <= CreatedAt e2) es /\ NoDup (entry_dest <$> es) /\
  forall e, e ∈ es <-> wl_map d !! entry_dest e = Some e /\ UserID e = u.
Proof.
  intros Hh Hd. unfold wl_List. rewrite query_healthy by done. split; [done|].
  unfold scanWhitelistRows. set (rows := merge_sort w_before _).
  assert (rows ≡ₚ filter (fun r => w_user_id r = u) (whitelist_addresses (tabs d))) as Hperm
    by apply merge_sort_Permutation.
  assert (w_dest <$> rows = entry_dest <$> (scanWhitelistRow <$> rows)) as Hkeys
    by (by rewrite <- list_fmap_compose).
  split_and!.
  - assert (Sorted w_before rows) as Hsorted.
    { apply Sorted_merge_sort. intros r1 r2. unfold w_before. lia. }
    clear -Hsorted. induction Hsorted as [|r l Hl IH Hhd]; simpl; constructor; [done|].
    destruct Hhd; simpl; by constructor.
  - rewrite <- Hkeys, Hperm. eapply sublist_NoDup; [exact Hd|]. apply fmap_sublist, sublist_filter.
  - intros e. rewrite list_elem_of_fmap. setoid_rewrite Hperm. setoid_rewrite list_elem_of_filter.
    split.
    + intros (r & -> & <- & Hr). split; [|done].
      change (entry_dest (scanWhitelistRow r)) with (w_dest r). by apply wl_map_Some.
    + intros [Hm <-]. apply tmap_Some in Hm as (r & Hr & _ & <-); [|done]. by exists r.
Qed.

(** What a store answers that refines an operation on the map: with no fault the
    map and the answer of the operation; an error and the map as it was when the
    statement is not executed; an error and the map of the operation when only its
    answer is lost. *)
Definition answers (f : option fault) (m : gmap dest Entry) (spec : gmap dest Entry * option error)
    (m' : gmap dest Entry) (err : option error) : Prop :=
  match f with
  | None => (m', err) = spec
  | Some (NotExecuted _) => m' = m /\ err <> None
  | Some (ReplyLost _) => m' = fst spec /\ err <> None
  end.

(** The same tables on a server without faults. *)
Definition calm (d : database) : database :=
  {| tabs := tabs d; seq := seq d; faults := fun _ _ => None; uuids := uuids d |}.

Lemma exec_calm {A} d q (run : tables -> dberr + (tables * A)) :
  match faults d (seq d) q with
  | None => tabs (fst (exec d q run)) = tabs (fst (exec (calm d) q run)) /\ snd (exec d q run) = snd (exec (calm d) q run)
  | Some (NotExecuted e) => tabs (fst (exec d q run)) = tabs d /\ snd (exec d q run) = inl (err_of e)
  | Some (ReplyLost e) =>
      tabs (fst (exec d q run)) = tabs (fst (exec (calm d) q run)) /\ snd (exec d q run) = inl (err_of e)
  end.
Proof.
  unfold exec, calm. cbn. destruct (faults d (seq d) q) as [[e|e]|], (run (tabs d)) as [x|[t a]]; done.
Qed.

Lemma wl_map_tabs d d' : tabs d' = tabs d -> wl_map d' = wl_map d.
Proof. unfold wl_map. by intros ->. Qed.

Lemma wl_Add_answers d e :
  wl_inv d -> NewV7 d ∉ w_id <$> whitelist_addresses (tabs d) ->
  answers (faults d (seq d) InsertWhitelist) (wl_map d) (spec_add (wl_map d) e)
    (wl_map (fst (wl_Add d e))) (snd (wl_Add d e)).
Proof.
  intros Hd Hid. pose proof (wl_Add_refines (calm d) e (fun _ _ => eq_refl) Hd Hid) as Hc.
  unfold wl_Add in *. change (NewV7 (calm d)) with (NewV7 d) in Hc. set (run := insert_whitelist _) in *.
  pose proof (exec_calm d InsertWhitelist run) as Hx. change (wl_map (calm d)) with (wl_map d) in Hc.
  rewrite <- Hc. destruct (exec d InsertWhitelist run) as [d1 r1], (exec (calm d) InsertWhitelist run) as [d2 r2].
  unfold answers. destruct (faults d (seq d) InsertWhitelist) as [[x|x]|]; cbn [fst snd] in Hx; destruct Hx as [Ht ->];
    cbn [fst snd]; try (split; [|done]); destruct r2; cbn [fst snd]; by rewrite (wl_map_tabs _ _ Ht).
Qed.

Lemma wl_Update_answers d e :
  wl_inv d ->
  answers (faults d (seq d) UpdateWhitelist) (wl_map d) (spec_update (wl_map d) e)
    (wl_map (fst (wl_Update d e))) (snd (wl_Update d e)).
Proof.
  intros Hd. pose proof (wl_Update_refines (calm d) e (fun _ _ => eq_refl) Hd) as Hc.
  unfold wl_Update in *. pose proof (exec_calm d UpdateWhitelist (update_whitelist e)) as Hx.
  change (wl_map (calm d)) with (wl_map d) in Hc. rewrite <- Hc.
  destruct (exec d UpdateWhitelist _) as [d1 r1], (exec (calm d) UpdateWhitelist _) as [d2 r2].
  unfold answers. destruct (faults d (seq d) UpdateWhitelist) as [[x|x]|]; cbn [fst snd] in Hx; destruct Hx as [Ht ->];
    cbn [fst snd]; try (split; [|done]); destruct r2; cbn [fst snd]; by rewrite (wl_map_tabs _ _ Ht).
Qed.

(** C31. The PostgreSQL whitelist refines a map from (user, chain, address) to
    entries, whatever the server does.  A statement it executes and answers gives
    the answer of the map, errors included, and the map's new contents; one it
    refuses (for its text, or for any other reason outside the tables) or never
    gets is answered with an error and leaves the map; one whose answer is lost is
    answered with an error and may have changed the map as the operation does.
    Lookups and listings give the map's contents, or the error and nothing; a
    listing is in order of creation and has exactly the user's entries.  Times come
    back as the column keeps them, and an update does not change the creation
    time.  The id made for a new row is assumed to be new. *)
Theorem db_whitelist_refines_map d e u c a :
  wl_inv d -> NewV7 d ∉ w_id <$> whitelist_addresses (tabs d) ->
  answers (faults d (seq d) InsertWhitelist) (wl_map d) (spec_add (wl_map d) e)
    (wl_map (fst (wl_Add d e))) (snd (wl_Add d e)) /\
  answers (faults d (seq d) UpdateWhitelist) (wl_map d) (spec_update (wl_map d) e)
    (wl_map (fst (wl_Update d e))) (snd (wl_Update d e)) /\
  wl_inv (fst (wl_Add d e)) /\ wl_inv (fst (wl_Update d e)) /\
  wl_Get d u c a = match faults d (seq d) SelectWhitelist with
                   | None => (wl_map d !! (u, c, a), None)
                   | Some f => (None, Some (fault_err f))
                   end /\
  (let '(es, err) := wl_List d u in
   match faults d (seq d) ListWhitelist with
   | None =>
       err = None /\ Sorted (fun e1 e2 => CreatedAt e1 <= CreatedAt e2) es /\ NoDup (entry_dest <$> es) /\
       forall e', e' ∈ es <-> wl_map d !! entry_dest e' = Some e' /\ UserID e' = u
   | Some f => es = [] /\ err = Some (fault_err f)
   end).
Proof.
  intros Hd Hid. split_and!; auto using wl_Add_answers, wl_Update_answers.
  - pose proof (Add_spec d e Hd eq_refl) as Ha. simpl in Ha. by destruct (wl_Add d e), Ha.
  - pose proof (Update_spec d e Hd eq_refl) as Ha. simpl in Ha. by destruct (wl_Update d e), Ha.
  - pose proof (wl_Get_refines (calm d) u c a (fun _ _ => eq_refl) Hd) as Hc.
    change (wl_map (calm d)) with (wl_map d) in Hc. rewrite <- Hc.
    unfold wl_Get, query_row, query. cbn [calm faults seq]. destruct (faults d (seq d) SelectWhitelist) as [f|]; [|done].
    cbn. assert (errors_is (fault_err f) SqlErrNoRows = false) as -> by (destruct f; apply err_of_not_no_rows). done.
  - pose proof (wl_List_refines (calm d) u (fun _ _ => eq_refl) Hd) as Hc. change (wl_map (calm d)) with (wl_map d) in Hc.
    unfold wl_List, query in *. cbn [calm faults seq] in Hc. by destruct (faults d (seq d) ListWhitelist) as [f|].
Qed.

End WhitelistMap.

(** ** Concrete databases *)

Definition sample_pg : Postgres := {| timestamptz := fun t => t - t mod 1000 |}.

(** A new database whose statement number [n] meets the fault [f n]. *)
Definition new_database (f : nat -> stmt -> option fault) : database :=
  {| tabs := empty_tables; seq := 0; faults := f; uuids := fun n => N.of_nat (S n) |}.

Definition sample_database : database := new_database (fun _ _ => None).

Lemma new_database_ok f : db_ok (tabs (new_database f)).
Proof. split; [apply schema_empty|apply one_policy_empty]. Qed.

(** The answer of a commit is lost. *)
Definition lost_commit : database :=
  new_database (fun _ q => match q with CommitTx => Some (ReplyLost (Driver "EOF")) | _ => None end).

Lemma activation_atomic_witness :
  let r := ActivatePolicyVersion (Some lost_commit) "default" "v1" "h1" "package p" "api" in
  let t' := tabs (default lost_commit (fst r)) in
  length (policy_versions t') = 1%nat /\
  match snd r with
  | inr vid => activated empty_tables t' "default" "v1" "h1" "package p" "api" vid
  | inl err => t' = empty_tables \/
      (commit_lost lost_commit err /\ exists vid, activated empty_tables t' "default" "v1" "h1" "package p" "api" vid)
  end.
Proof.
  cbn zeta. split; [vm_compute; reflexivity|].
  apply (activation_atomic lost_commit "default" "v1" "h1" "package p" "api");
    [apply new_database_ok|vm_compute; reflexivity].
Defined.

Lemma activation_roundtrip_witness :
  exists d' res,
    ActivatePolicyVersion (Some sample_database) "default" "7" "h1" "package p" "api" = (Some d', res) /\
    (exists vid, res = inr vid) /\ db_ok (tabs d') /\
    GetActiveVersion (Some d') "default" = inr ("7", "h1") /\
    forall scope', scope' <> "default" ->
      GetActiveVersion (Some d') scope' = GetActiveVersion (Some sample_database) scope'.
Proof.
  apply (activation_roundtrip sample_database "default" "7" "h1" "package p" "api" 7);
    [apply new_database_ok|done| |done|reflexivity].
  intros n _. split; apply not_elem_of_nil.
Defined.

(** A version number of more than 32 bits, such as a time stamp, is refused. *)
Example activation_out_of_range :
  snd (ActivatePolicyVersion (Some sample_database) "default" "20240101120000" "h" "package p" "api")
  = inl (Wrapf "ensure policy_version" (PqErr "22003" "value is out of range for type integer")).
Proof. vm_compute. reflexivity. Qed.

Definition sample_record : Audit.DecisionRecord :=
  {| Audit.DecisionID := "dec_1"; Audit.PolicyVersion := "7f"; Audit.RequestHash_ := "aa";
     Audit.Decision := "allow"; Audit.Reasons := Some ["whitelisted"]; Audit.AppliedRules := None;
     Audit.Score := f0; Audit.CreatedAt := 1500; Audit.Signature := "ab" |}.

(** The audit store after start-up. *)
Definition sample_audit_store : AuditStore :=
  fst (EnsurePolicyVersion (NewAuditStore sample_database) "7f" "7f" "" "policy-engine").

Lemma sample_audit_store_ok : store_ok sample_audit_store.
Proof.
  apply (@do_call_ok sample_pg (NewAuditStore sample_database) (CEnsureVersion "7f" "7f" "" "policy-engine")).
  split; [apply new_database_ok|done].
Qed.

Lemma audit_record_permanent_witness :
  let s' := fst (@aud_Put sample_pg sample_audit_store sample_record) in
  let s2 := @run_calls sample_pg s' [CAuditPut sample_record; CActivate "default" "8" "h" "package p" "api"] in
  exists v, v ∈ policy_versions (tabs (adb sample_audit_store)) /\
    v_id v = policyVersionID sample_audit_store /\
    match aud_Get s2 "dec_1" with
    | (r, None) => r = Some (@readback sample_pg (Itoa (v_version v)) sample_record)
    | (r, Some _) => r = None
    end /\ snd (@aud_Put sample_pg s2 sample_record) <> None.
Proof.
  apply (@audit_record_permanent sample_pg sample_audit_store sample_record);
    [apply sample_audit_store_ok|vm_compute; reflexivity|reflexivity].
Defined.

Definition sample_payload (version : string) : string :=
  match @Audit.canonicalJSON Audit.sample_fmt (@readback sample_pg version sample_record) with
  | inr p => p
  | inl _ => ""
  end.

Lemma signed_text_lost_witness :
  match versionToInt "7f", @Audit.canonicalJSON Audit.sample_fmt sample_record with
  | inr n, inr payload => sample_payload (Itoa n) <> payload
  | _, _ => False
  end.
Proof.
  destruct (versionToInt "7f") as [e|n] eqn:Hn; [vm_compute in Hn; discriminate|].
  destruct (@Audit.canonicalJSON Audit.sample_fmt sample_record) as [e|payload] eqn:Hp;
    [vm_compute in Hp; discriminate|].
  assert (n = 6211632) as Hn' by (vm_compute in Hn; by injection Hn).
  refine (@signed_text_lost Audit.sample_fmt sample_pg sample_record n payload _ _ _ Hn Hp _);
    [vm_compute; reflexivity..|]. rewrite Hn'. vm_compute. reflexivity.
Defined.

(** The answer to the second insertion is lost: an error, but the row is there. *)
Definition lossy_database : database :=
  new_database (fun n q => if (n =? 1)%nat then Some (ReplyLost (Driver "EOF")) else None).

Lemma db_whitelist_refines_map_witness :
  let e a := {| Whitelist.UserID := "u|x"; Whitelist.Chain := "btc"; Whitelist.Address := a;
              Whitelist.Label := ""; Whitelist.Status := "PENDING";
              Whitelist.VerifiedAt := zero_time; Whitelist.CreatedAt := 1500 |} in
  let d := fst (@wl_Add sample_pg lossy_database (e "a")) in
  NewV7 d ∉ w_id <$> whitelist_addresses (tabs d) /\
  wl_map (fst (@wl_Add sample_pg d (e "b"))) = fst (@spec_add sample_pg (wl_map d) (e "b")) /\
  snd (@wl_Add sample_pg d (e "b")) <> None.
Proof.
  cbn zeta. match goal with |- NewV7 ?d0 ∉ _ /\ wl_map (fst (wl_Add _ ?e0)) = _ /\ _ => set (d := d0); set (e := e0) end.
  assert (NewV7 d ∉ w_id <$> whitelist_addresses (tabs d)) as Hid.
  { rewrite (eq_refl : w_id <$> whitelist_addresses (tabs d) = [1%N]). by intros ?%list_elem_of_singleton. }
  split; [exact Hid|].
  destruct (@db_whitelist_refines_map sample_pg d e "u|x" "btc" "a") as [H _]; [|exact Hid|exact H].
  change (NoDup [("u|x", "btc", "a")]). apply NoDup_singleton.
Defined.

(** Published versions are not immutable: two versions whose hashes fall on
    the same number share a row, which then has the hash of the second and the
    source of the first, whatever these are; and both activations report
    success with the same id. *)
Theorem version_collision_rewrites h1 src1 h2 src2 :
  exists v1 v2 d1 d2 id r, v1 <> v2 /\ Atoi v1 = None /\ Atoi v2 = None /\
    ActivatePolicyVersion (Some sample_database) "default" v1 h1 src1 "api" = (Some d1, inr id) /\
    ActivatePolicyVersion (Some d1) "default" v2 h2 src2 "api" = (Some d2, inr id) /\
    policy_versions (tabs d2) = [r] /\ v_rego_hash r = h2 /\ v_rego_source r = src1 /\
    exists n, GetActiveVersion (Some d2) "default" = inr (Itoa n, h2).
Proof.
  exists "fc4fb94d36f45aa9d13358022455e55db4b6f0eb536a1b2897c90dfd3df9eb9b",
    "485419d81203cab12d4ca99c7f567f62b0c54ca876dcd3b9e6fce67862fa668d".
  eexists _, _, _, _. split; [done|]. split; [vm_compute; reflexivity|].
  split; [vm_compute; reflexivity|]. split; [vm_compute; reflexivity|].
  split; [vm_compute; reflexivity|]. split_and!; [reflexivity..|]. by exists 8509604.
Qed.

End DbProps.
