(* ===== verification/DbConcurrent.v ===== *)
(** * Concurrent transactions on the policy tables
    ([internal/db/activate.go], [internal/db/audit.go])

    Every replica of the service, and every publish request, activates policy
    versions in transactions of its own ([ActivatePolicyVersion], and
    [EnsurePolicyVersion] when a replica starts).  Here such a transaction is a
    session that sends one statement at a time; the statements of different
    sessions interleave as PostgreSQL lets them at its default isolation level,
    READ COMMITTED:

    - a statement sees the committed rows and the session's own;
    - a statement waits while another open transaction has written the row it
      would write, or a row with the same unique key;
    - a commit makes the writes of the session visible at once, a failed
      statement or commit rolls them back.

    Other transactions change the other tables as they like.  A session that is
    not interrupted does what the functions of [Db] do ([session_alone]).  Rows
    are in the table in the order of their commits. *)
From Stdlib Require Import ZArith Lia Ascii String.
From stdpp Require Import base gmap strings list.
From S2P Require Import Prelude GoLib Float64 Whitelist Review AuditLog Db DbTables DbProps.

Open Scope Z_scope.
Open Scope go_scope.

Module DbConcurrent.
Import Db DbTables DbProps.

(** ** Writes *)

(** The statements that write, with the rows they were sent with. *)
Inductive write :=
| WPolicy (r : policy_row)
| WVersion (r : version_row)
| WActive (vid pid : uuid).

(** The statement and the id it returns, or that was sent with it. *)
Definition run_write (a : write) (t : tables) : dberr + (tables * uuid) :=
  match a with
  | WPolicy r => match insert_policy r t with inl e => inl e | inr (t', _) => inr (t', p_id r) end
  | WVersion r => upsert_version r t
  | WActive vid pid => match set_active vid pid t with inl e => inl e | inr (t', _) => inr (t', vid) end
  end.

Definition write_stmt (a : write) : stmt :=
  match a with WPolicy _ => InsertPolicy | WVersion _ => UpsertVersion | WActive _ _ => SetActive end.

(** The tables with the writes of an open transaction. *)
Definition apply (t : tables) (a : write) : tables :=
  match run_write a t with inl _ => t | inr (t', _) => t' end.

Definition view (t : tables) (log : list write) : tables := foldl apply t log.

(** Two writes of which the second has to wait for the end of the first one's
    transaction: the same unique key, or the same row. *)
Definition conflict (a b : write) : bool :=
  match a, b with
  | WPolicy r, WPolicy r' => p_id r == p_id r'
  | WVersion r, WVersion r' => (v_key r == v_key r') || (v_id r == v_id r')
  | WActive _ pid, WActive _ pid' => pid == pid'
  | _, _ => false
  end.

(** ** Sessions *)

Inductive kind := Activate | Ensure.

(** A call, with the ids it will make and the faults it will meet. *)
Record call := {
  c_kind : kind;
  c_scope : string;
  c_version : string;
  c_hash : string;
  c_source : string;
  c_by : string;
  c_uuids : nat -> uuid;
  c_faults : nat -> stmt -> option fault
}.

Inductive pc :=
| AtBegin
| AtSelect
| AtInsert
| AtUpsert (pid : uuid)
| AtActive (pid vid : uuid)
| AtAgain (pid vid : uuid)
| AtCommit (vid : uuid)
| Done (res : Res uuid).

Record session := { s_call : call; s_seq : nat; s_log : list write; s_pc : pc }.

Definition open (c : call) : session := {| s_call := c; s_seq := 0; s_log := []; s_pc := AtBegin |}.

(** The database as the session sees it. *)
Definition db_of (t : tables) (s : session) : database :=
  {| tabs := view t (s_log s); seq := s_seq s; faults := c_faults (s_call s); uuids := c_uuids (s_call s) |}.

Definition goto (s : session) (d : database) (log : list write) (p : pc) : session :=
  {| s_call := s_call s; s_seq := seq d; s_log := log; s_pc := p |}.

(** The deferred rollback. *)
Definition fail (s : session) (d : database) (err : error) : session := goto s d [] (Done (inl err)).

Definition policy_row_of (c : call) (id : uuid) : policy_row :=
  {| p_id := id; p_scope := c_scope c; p_active_version := None |}.

Definition version_row_of (c : call) (pid id : uuid) (n : Z) : version_row :=
  {| v_id := id; v_policy_id := pid; v_version := n; v_rego_hash := c_hash c; v_rego_source := c_source c;
     v_created_by := c_by c |}.

Definition required (k : kind) : string :=
  match k with Activate => "version is required" | Ensure => "policy version is required" end.

(** Sending a write; [None] while it has to wait. *)
Definition send (t : tables) (waits : write -> bool) (s : session) (a : write) (ctx : string)
    (next : uuid -> pc) : option (tables * session) :=
  if waits a then None
  else match exec (db_of t s) (write_stmt a) (run_write a) with
       | (d, inl err) => Some (t, fail s d (Wrapf ctx err))
       | (d, inr id) => Some (t, goto s d (s_log s ++ [a]) (next id))
       end.

Definition sstep (t : tables) (waits : write -> bool) (s : session) : option (tables * session) :=
  let c := s_call s in
  let d := db_of t s in
  match s_pc s with
  | AtBegin =>
      if c_version c == "" then Some (t, fail s d (Errorf (required (c_kind c))))
      else match exec d BeginTx (fun t => inr (t, tt)) with
           | (d', inl err) => Some (t, fail s d' (Wrapf "begin tx" err))
           | (d', inr _) => Some (t, goto s d' [] AtSelect)
           end
  | AtSelect =>
      match query_row d SelectPolicy (fun t => p_id <$> filter (fun r => p_scope r = c_scope c) (policies t)) with
      | inr id => Some (t, goto s d (s_log s) (AtUpsert id))
      | inl err =>
          if negb (errors_is err SqlErrNoRows) then Some (t, fail s d (Wrapf "lookup policy" err))
          else Some (t, goto s d (s_log s) AtInsert)
      end
  | AtInsert => send t waits s (WPolicy (policy_row_of c (NewV7 d))) "insert policy" AtUpsert
  | AtUpsert pid =>
      match versionToInt (c_version c) with
      | inl err => Some (t, fail s d (Wrapf ("parse version " +:+ c_version c) err))
      | inr n => send t waits s (WVersion (version_row_of c pid (NewV7 d) n)) "ensure policy_version" (AtActive pid)
      end
  | AtActive pid vid =>
      send t waits s (WActive vid pid) "set active_version"
        (fun _ => match c_kind c with Activate => AtAgain pid vid | Ensure => AtCommit vid end)
  | AtAgain pid vid => send t waits s (WActive vid pid) "set active_version" (fun _ => AtCommit vid)
  | AtCommit vid =>
      match faults d (seq d) CommitTx with
      | None => Some (tabs d, goto s (tick d) [] (Done (inr vid)))
      | Some (ReplyLost e) => Some (tabs d, fail s (tick d) (Wrapf "commit" (err_of e)))
      | Some (NotExecuted e) => Some (t, fail s (tick d) (Wrapf "commit" (err_of e)))
      end
  | Done _ => None
  end.

(** The steps of a session that is not interrupted. *)
Fixpoint alone (n : nat) (t : tables) (s : session) : tables * session :=
  match n with
  | O => (t, s)
  | S n' => match sstep t (fun _ => false) s with Some (t', s') => alone n' t' s' | None => (t, s) end
  end.

(** The call as a function of [Db]. *)
Definition whole (t : tables) (c : call) : tables * Res uuid :=
  let d := {| tabs := t; seq := 0; faults := c_faults c; uuids := c_uuids c |} in
  match c_kind c with
  | Activate =>
      let '(d', res) := ActivatePolicyVersion (Some d) (c_scope c) (c_version c) (c_hash c) (c_source c) (c_by c) in
      (match d' with Some d' => tabs d' | None => t end, res)
  | Ensure =>
      let '(s', err) := EnsurePolicyVersion {| adb := d; policyVersionID := Nil |} (c_version c) (c_hash c) (c_source c) (c_by c) in
      (tabs (adb s'), match err with Some e => inl e | None => inr (policyVersionID s') end)
  end.

(** [EnsurePolicyVersion] has its scope fixed. *)
Definition scope_ok (c : call) : Prop := c_kind c = Ensure -> c_scope c = "default".

(** ** Interleavings *)

(** The calls that have committed, in the order of their commits, are kept with
    their answers. *)
Record state := { committed : tables; sessions : list session; history : list (call * Res uuid) }.

Definition waits_for (ss : list session) (i : nat) (a : write) : bool :=
  existsb (fun j => negb (j =? i)%nat &&
    match ss !! j with Some s => existsb (conflict a) (s_log s) | None => false end) (List.seq 0 (length ss)).

(** A commit that took effect. *)
Definition commits (s : session) : bool :=
  match s_pc s with
  | AtCommit _ => match c_faults (s_call s) (s_seq s) CommitTx with Some (NotExecuted _) => false | _ => true end
  | _ => false
  end.

Definition answer (s : session) : Res uuid := match s_pc s with Done r => r | _ => inl (Errorf "") end.

Definition record (s s' : session) (h : list (call * Res uuid)) : list (call * Res uuid) :=
  if commits s then h ++ [(s_call s, answer s')] else h.

Inductive step : state -> state -> Prop :=
| step_open t ss h c :
    scope_ok c ->
    step {| committed := t; sessions := ss; history := h |}
      {| committed := t; sessions := ss ++ [open c]; history := h |}
| step_session t ss h i s t' s' :
    ss !! i = Some s -> sstep t (waits_for ss i) s = Some (t', s') ->
    step {| committed := t; sessions := ss; history := h |}
      {| committed := t'; sessions := <[i := s']> ss; history := record s s' h |}
| step_other t ss h t' :
    policies t' = policies t -> policy_versions t' = policy_versions t ->
    step {| committed := t; sessions := ss; history := h |}
      {| committed := t'; sessions := ss; history := h |}.

Definition start (t : tables) : state := {| committed := t; sessions := []; history := [] |}.

Inductive reach (t0 : tables) : state -> Prop :=
| reach_start : reach t0 (start t0)
| reach_step x x' : reach t0 x -> step x x' -> reach t0 x'.
(** ** A session alone *)

Lemma view_snoc t log a t' id : run_write a (view t log) = inr (t', id) -> view t (log ++ [a]) = t'.
Proof. intros Ha. unfold view. rewrite foldl_app. cbn [foldl]. fold (view t log). unfold apply. by rewrite Ha. Qed.

(** After a successful statement the session sees what the statement left. *)
Lemma exec_view t s a d id p :
  exec (db_of t s) (write_stmt a) (run_write a) = (d, inr id) ->
  db_of t (goto s d (s_log s ++ [a]) p) = d.
Proof.
  intros He. destruct (exec_cases _ _ _ _ _ He) as (_ & Hf & Hu & [[_ [e [=]]]|(x & Hr & _)]).
  unfold db_of, goto. cbn [s_call s_seq s_log]. rewrite (view_snoc _ _ _ _ _ Hr).
  destruct d as [dt ds df du]. cbn in *. by subst.
Qed.

(** The functions of [Db] send the same statements. *)
Lemma exec_policy d r :
  exec d InsertPolicy (insert_policy r)
  = (fst (exec d InsertPolicy (run_write (WPolicy r))),
     match snd (exec d InsertPolicy (run_write (WPolicy r))) with inl e => inl e | inr _ => inr tt end).
Proof.
  unfold exec, run_write. destruct (insert_policy r (tabs d)) as [e|[t []]];
    by destruct (faults d (seq d) InsertPolicy) as [[|]|].
Qed.

Lemma exec_active d vid pid :
  exec d SetActive (set_active vid pid)
  = (fst (exec d SetActive (run_write (WActive vid pid))),
     match snd (exec d SetActive (run_write (WActive vid pid))) with inl e => inl e | inr _ => inr tt end).
Proof.
  unfold exec, run_write. destruct (set_active vid pid (tabs d)) as [e|[t []]];
    by destruct (faults d (seq d) SetActive) as [[|]|].
Qed.

Lemma exec_policy_id d r d' id :
  exec d InsertPolicy (run_write (WPolicy r)) = (d', inr id) -> id = p_id r.
Proof.
  unfold exec, run_write. destruct (insert_policy r (tabs d)) as [e|[t []]];
    destruct (faults d (seq d) InsertPolicy) as [[|]|]; intros [= <- <-]; done.
Qed.

(** One session step at each place, in terms of the database it sees. *)
Definition rest (n : nat) (t : tables) (x : option (tables * session)) (s : session) : tables * session :=
  match x with Some (t', s') => alone n t' s' | None => (t, s) end.

Lemma alone_step n t s : alone (S n) t s = rest n t (sstep t (fun _ => false) s) s.
Proof. done. Qed.

Lemma alone_done n t s r : s_pc s = Done r -> alone n t s = (t, s).
Proof. intros Hp. destruct n; [done|]. cbn [alone]. unfold sstep. by rewrite Hp. Qed.

Definition ends (x : tables * session) (t : tables) (res : Res uuid) : Prop :=
  fst x = t /\ s_pc (snd x) = Done res.

Lemma ends_fail n t s d err : ends (alone n t (fail s d err)) t (inl err).
Proof. rewrite (alone_done _ _ _ (inl err)) by done. done. Qed.

(** From a place on, a session does the rest of the transaction's body. *)
Definition finish (t : tables) (x : database * Res uuid) : tables * Res uuid :=
  match x with
  | (_, inl err) => (t, inl err)
  | (d, inr vid) =>
      match faults d (seq d) CommitTx with
      | None => (tabs d, inr vid)
      | Some (ReplyLost e) => (tabs d, inl (Wrapf "commit" (err_of e)))
      | Some (NotExecuted e) => (t, inl (Wrapf "commit" (err_of e)))
      end
  end.

Lemma ends_commit n t s vid :
  s_pc s = AtCommit vid -> ends (alone (S n) t s) (fst (finish t (db_of t s, inr vid))) (snd (finish t (db_of t s, inr vid))).
Proof.
  intros Hp. rewrite alone_step. unfold sstep. rewrite Hp. cbn [finish].
  destruct (faults (db_of t s) (seq (db_of t s)) CommitTx) as [[e|e]|]; cbn [rest];
    try apply ends_fail; rewrite (alone_done _ _ _ (inr vid)) by done; done.
Qed.

Lemma ends_send n t s a ctx next x :
  sstep t (fun _ => false) s = send t (fun _ => false) s a ctx next ->
  match exec (db_of t s) (write_stmt a) (run_write a) with
  | (d, inl err) => finish t (d, inl (Wrapf ctx err)) = x
  | (d, inr id) => ends (alone n t (goto s d (s_log s ++ [a]) (next id))) (fst x) (snd x)
  end -> ends (alone (S n) t s) (fst x) (snd x).
Proof.
  intros Hs. rewrite alone_step, Hs. unfold send.
  destruct (exec (db_of t s) (write_stmt a) (run_write a)) as [d [err|id]]; cbn [rest]; [|done].
  cbn [finish]. intros <-. apply ends_fail.
Qed.

Definition set_again (c : call) (d : database) (pid vid : uuid) : database * Res uuid :=
  match c_kind c with
  | Ensure => (d, inr vid)
  | Activate =>
      match exec d SetActive (set_active vid pid) with
      | (d', inl err) => (d', inl (Wrapf "set active_version" err))
      | (d', inr _) => (d', inr vid)
      end
  end.

Lemma ends_again n t s pid vid :
  s_pc s = AtAgain pid vid -> c_kind (s_call s) = Activate ->
  let x := finish t (set_again (s_call s) (db_of t s) pid vid) in ends (alone (S (S n)) t s) (fst x) (snd x).
Proof.
  intros Hp Hk x. apply (ends_send _ t s (WActive vid pid) "set active_version" (fun _ => AtCommit vid));
    [unfold sstep; by rewrite Hp|].
  subst x. unfold set_again. rewrite Hk, exec_active.
  destruct (exec (db_of t s) (write_stmt (WActive vid pid)) (run_write (WActive vid pid))) as [d [err|id]] eqn:He;
    cbn [write_stmt] in He; rewrite He; cbn [fst snd]; [done|].
  rewrite <- (exec_view t s (WActive vid pid) d id (AtCommit vid) He) at 2 3. by apply ends_commit.
Qed.

(** [ensurePolicyVersion], and the UPDATE that [ActivatePolicyVersion] sends once
    more. *)
Definition body (c : call) (d : database) (pid : uuid) : database * Res uuid :=
  match ensurePolicyVersion d pid (c_version c) (c_hash c) (c_source c) (c_by c) with
  | (d', inl err) => (d', inl err)
  | (d', inr vid) => set_again c d' pid vid
  end.

Lemma ends_active n t s pid vid :
  s_pc s = AtActive pid vid ->
  let x := finish t (match exec (db_of t s) SetActive (set_active vid pid) with
                     | (d, inl err) => (d, inl (Wrapf "set active_version" err))
                     | (d, inr _) => set_again (s_call s) d pid vid
                     end) in
  ends (alone (S (S (S n))) t s) (fst x) (snd x).
Proof.
  intros Hp x. apply (ends_send _ t s (WActive vid pid) "set active_version"
    (fun _ => match c_kind (s_call s) with Activate => AtAgain pid vid | Ensure => AtCommit vid end));
    [unfold sstep; by rewrite Hp|].
  subst x. rewrite exec_active.
  destruct (exec (db_of t s) (write_stmt (WActive vid pid)) (run_write (WActive vid pid))) as [d [err|id]] eqn:He;
    cbn [write_stmt] in He; rewrite He; cbn [fst snd]; [done|].
  pose proof (fun p => exec_view t s (WActive vid pid) d id p He) as Hv.
  destruct (c_kind (s_call s)) eqn:Hk.
  - pose proof (ends_again n t (goto s d (s_log s ++ [WActive vid pid]) (AtAgain pid vid)) pid vid eq_refl Hk) as Hn.
    cbv zeta in Hn. rewrite Hv in Hn. exact Hn.
  - unfold set_again. rewrite Hk.
    pose proof (ends_commit (S n) t (goto s d (s_log s ++ [WActive vid pid]) (AtCommit vid)) vid eq_refl) as Hn.
    rewrite Hv in Hn. exact Hn.
Qed.

Lemma ends_upsert n t s pid :
  s_pc s = AtUpsert pid ->
  let x := finish t (body (s_call s) (db_of t s) pid) in ends (alone (S (S (S (S n)))) t s) (fst x) (snd x).
Proof.
  intros Hp x. unfold body, ensurePolicyVersion in x.
  destruct (versionToInt (c_version (s_call s))) as [err|v] eqn:Hver.
  { rewrite alone_step. unfold sstep. rewrite Hp, Hver. cbn [rest]. apply ends_fail. }
  set (r := version_row_of (s_call s) pid (NewV7 (db_of t s)) v).
  apply (ends_send _ t s (WVersion r) "ensure policy_version" (AtActive pid)); [unfold sstep; by rewrite Hp, Hver|].
  subst x. fold (version_row_of (s_call s) pid (NewV7 (db_of t s)) v). fold r. cbn [write_stmt].
  change (run_write (WVersion r)) with (upsert_version r).
  destruct (exec (db_of t s) UpsertVersion (upsert_version r)) as [d [err|id]] eqn:He; [done|].
  pose proof (ends_active n t (goto s d (s_log s ++ [WVersion r]) (AtActive pid id)) pid id eq_refl) as Hn.
  cbv zeta in Hn. rewrite (exec_view t s (WVersion r) d id _ He) in Hn. cbn [goto s_call] in Hn.
  destruct (exec d SetActive (set_active id pid)) as [d2 [err|[]]]; exact Hn.
Qed.

Lemma ends_select n t s :
  s_pc s = AtSelect -> s_log s = [] ->
  let x := finish t (match ensurePolicy (db_of t s) (c_scope (s_call s)) with
                     | (d, inl err) => (d, inl err)
                     | (d, inr pid) => body (s_call s) d pid
                     end) in
  ends (alone (6 + n) t s) (fst x) (snd x).
Proof.
  intros Hp Hl x. cbn [Nat.add]. rewrite alone_step. unfold sstep. rewrite Hp. subst x. unfold ensurePolicy.
  destruct (query_row (db_of t s) SelectPolicy _) as [err|id]; cbn [rest].
  - destruct (negb (errors_is err SqlErrNoRows)); cbn [rest]; [apply ends_fail|].
    set (s1 := goto s (db_of t s) (s_log s) AtInsert). change (db_of t s) with (db_of t s1).
    fold (policy_row_of (s_call s) (NewV7 (db_of t s1))). set (r := policy_row_of (s_call s) (NewV7 (db_of t s1))).
    apply (ends_send _ t s1 (WPolicy r) "insert policy" AtUpsert); [done|]. cbn [write_stmt]. rewrite exec_policy.
    destruct (exec (db_of t s1) InsertPolicy (run_write (WPolicy r))) as [d [err'|id]] eqn:He; cbn [fst snd]; [done|].
    pose proof (exec_policy_id _ _ _ _ He) as ->. cbn [p_id r policy_row_of].
    pose proof (ends_upsert n t (goto s1 d (s_log s1 ++ [WPolicy r]) (AtUpsert (NewV7 (db_of t s1)))) _ eq_refl) as Hn.
    cbv zeta in Hn. rewrite (exec_view t s1 (WPolicy r) d _ _ He) in Hn. exact Hn.
  - apply (ends_upsert (S n) t (goto s (db_of t s) (s_log s) (AtUpsert id)) id eq_refl).
Qed.

Lemma transaction_finish d (f : database -> database * Res uuid) :
  (tabs (fst (transaction d f)), snd (transaction d f)) =
  match exec d BeginTx (fun t => inr (t, tt)) with
  | (d1, inl err) => (tabs d, inl (Wrapf "begin tx" err))
  | (d1, inr _) => finish (tabs d) (f d1)
  end.
Proof.
  unfold transaction. destruct (exec d BeginTx _) as [d1 res] eqn:He.
  assert (tabs d1 = tabs d) as Ht by (apply exec_cases in He as (_ & _ & _ & [[? _]|(a & [= <-] & _)]); done).
  destruct res as [err|[]]; [by rewrite <- Ht|].
  destruct (f d1) as [d2 [err|vid]]; cbn [finish fst snd]; [by rewrite <- Ht|].
  destruct (faults d2 (seq d2) CommitTx) as [[e|e]|]; cbn [fst snd rollback with_tabs tabs tick]; by rewrite <- ?Ht.
Qed.

(** The body of the transaction of a call. *)
Definition tx_body (c : call) (d : database) : database * Res uuid :=
  match ensurePolicy d (c_scope c) with
  | (d1, inl err) => (d1, inl err)
  | (d1, inr pid) => body c d1 pid
  end.

Lemma ends_begin n t c :
  let d := db_of t (open c) in
  let x := if c_version c == "" then (t, inl (Errorf (required (c_kind c))))
           else (tabs (fst (transaction d (tx_body c))), snd (transaction d (tx_body c))) in
  ends (alone (7 + n) t (open c)) (fst x) (snd x).
Proof.
  cbv zeta. change (7 + n)%nat with (S (6 + n)). rewrite alone_step. unfold sstep. cbn [open s_pc s_call].
  destruct (c_version c == ""); [apply ends_fail|].
  pose proof (transaction_finish (db_of t (open c)) (tx_body c)) as Hx.
  destruct (exec (db_of t (open c)) BeginTx _) as [d1 [err|[]]] eqn:He; cbn [rest];
    rewrite Hx; cbn [fst snd]; [apply ends_fail|].
  pose proof (ends_select n t (goto (open c) d1 [] AtSelect) eq_refl eq_refl) as Hn. cbv zeta in Hn.
  assert (db_of t (goto (open c) d1 [] AtSelect) = d1) as Hd.
  { apply exec_cases in He as (_ & Hf & Hu & [[? [e [=]]]|(a & [= Ht] & _)]).
    destruct d1 as [dt ds df du]. cbn in *. by subst. }
  rewrite Hd in Hn. exact Hn.
Qed.

Lemma whole_eq t c : scope_ok c ->
  whole t c = if c_version c == "" then (t, inl (Errorf (required (c_kind c))))
    else let d := db_of t (open c) in (tabs (fst (transaction d (tx_body c))), snd (transaction d (tx_body c))).
Proof.
  intros Hs. unfold whole, tx_body, body, set_again, scope_ok in *. destruct (c_kind c).
  - unfold ActivatePolicyVersion. destruct (c_version c == ""); [done|]. cbv zeta.
    change {| tabs := t; seq := 0; faults := c_faults c; uuids := c_uuids c |} with (db_of t (open c)).
    by destruct (transaction _ _) as [d' res].
  - rewrite Hs by done. unfold EnsurePolicyVersion. destruct (c_version c == ""); [done|]. cbn [policyVersionID adb].
    cbv zeta. change {| tabs := t; seq := 0; faults := c_faults c; uuids := c_uuids c |} with (db_of t (open c)).
    assert (forall f g : database -> database * Res uuid, (forall d, f d = g d) ->
      transaction (db_of t (open c)) f = transaction (db_of t (open c)) g) as Hext
      by (intros f g Hfg; unfold transaction; destruct (exec _ _ _) as [d1 [|[]]]; by rewrite ?Hfg).
    change (Nil != Nil) with false.
    match goal with
    | |- _ = (tabs (fst (transaction _ ?g)), _) =>
        match goal with |- context [transaction _ ?f] => rewrite (Hext g f) end
    end; [by destruct (transaction _ _) as [d' [err|vid]]|].
    intros d. cbn beta. destruct (ensurePolicy d "default") as [d1 [err|pid]]; [done|].
    by destruct (ensurePolicyVersion _ _ _ _ _ _) as [d2 [err|vid]].
Qed.
(** A session that is not interrupted does what the functions of [Db] do. *)
Lemma session_alone n t c : scope_ok c -> ends (alone (7 + n) t (open c)) (fst (whole t c)) (snd (whole t c)).
Proof. intros Hs. rewrite (whole_eq t c Hs). apply ends_begin. Qed.

(** ** What the commits of others leave alone *)

Definition policy_key (p : policy_row) : uuid * string := (p_id p, p_scope p).

Definition find_version (k : uuid * Z) (t : tables) : option version_row :=
  List.find (fun r => v_key r == k) (policy_versions t).

(** A change of the tables under an open transaction with writes [log]. *)
Record calm (log : list write) (t t' : tables) : Prop := {
  calm_policies : (policy_key <$> policies t) `prefix_of` (policy_key <$> policies t');
  calm_new r : WPolicy r ∈ log -> p_id r ∉ p_id <$> policies t -> p_id r ∉ p_id <$> policies t';
  calm_find r : WVersion r ∈ log -> find_version (v_key r) t' = find_version (v_key r) t;
  calm_id r : WVersion r ∈ log -> v_id r ∉ v_id <$> policy_versions t -> v_id r ∉ v_id <$> policy_versions t'
}.

Lemma calm_other log t t' :
  policies t' = policies t -> policy_versions t' = policy_versions t -> calm log t t'.
Proof. intros Hp Hv. unfold find_version. split; rewrite ?Hp, ?Hv; try done. unfold find_version. by rewrite Hv. Qed.

Lemma calm_refl log t : calm log t t.
Proof. by apply calm_other. Qed.

Lemma calm_trans log t1 t2 t3 : calm log t1 t2 -> calm log t2 t3 -> calm log t1 t3.
Proof. intros [] []. split; [by etransitivity|auto..]. intros r Hr. by rewrite calm_find1, calm_find0. Qed.

Lemma calm_sub log log' t t' : log' ⊆ log -> calm log t t' -> calm log' t t'.
Proof. intros Hs []. split; auto. Qed.

Lemma ids_of_keys t : p_id <$> policies t = (policy_key <$> policies t).*1.
Proof. by rewrite <- list_fmap_compose. Qed.

Lemma calm_ids log t t' pid : calm log t t' -> pid ∈ p_id <$> policies t -> pid ∈ p_id <$> policies t'.
Proof.
  intros [[l Hl] _ _ _] Hp. rewrite ids_of_keys in Hp |- *. rewrite Hl, fmap_app. apply elem_of_app. by left.
Qed.

Lemma find_app {A} (f : A -> bool) l l' :
  List.find f (l ++ l') = match List.find f l with Some x => Some x | None => List.find f l' end.
Proof. induction l as [|x l IH]; cbn; [done|]. by destruct (f x). Qed.

Lemma find_update k k' h vs : k <> k' ->
  List.find (fun r => v_key r == k) (update_where (fun r => v_key r == k') (set_hash h) vs)
  = List.find (fun r => v_key r == k) vs.
Proof.
  intros Hk. induction vs as [|r vs IH]; [done|]. unfold update_where in *. cbn [fmap list_fmap List.find]. rewrite IH.
  destruct (decide (v_key r = k')) as [E|E]; [|by rewrite (bool_decide_eq_false_2 (v_key r = k'))].
  rewrite (bool_decide_eq_true_2 (v_key r = k')) by done. change (v_key (set_hash h r)) with (v_key r).
  by rewrite bool_decide_eq_false_2 by congruence.
Qed.

(** A write that no write of the log has to wait for. *)
Lemma calm_write log t b :
  (forall a, a ∈ log -> conflict a b = false) -> calm log t (apply t b).
Proof.
  intros Hc. unfold apply. destruct (run_write b t) as [e|[t' id]] eqn:Hb; [apply calm_refl|].
  destruct b as [r'|r'|vid pid]; cbn [run_write] in Hb.
  - unfold insert_policy in Hb. destruct (existsb _ _); [done|]. injection Hb as <- <-.
    split; cbn [policies policy_versions set_policies]; try done.
    + rewrite fmap_app. by exists [policy_key r'].
    + intros r Hr Hn. rewrite fmap_app. specialize (Hc _ Hr). cbn in Hc. go_bool.
      by intros [?|?%list_elem_of_singleton]%elem_of_app.
  - destruct (upsert_version_cases _ _ _ _ Hb) as (_ & [(r0 & _ & _ & _ & ->)|(Hk & Hi & _ & _ & ->)]);
      (split; cbn [policies policy_versions set_versions]; try done).
    + intros r Hr. unfold find_version. cbn [policy_versions set_versions]. specialize (Hc _ Hr). cbn in Hc. go_bool.
      by apply find_update.
    + intros r _. by rewrite update_where_keys.
    + intros r Hr. unfold find_version. cbn [policy_versions set_versions]. specialize (Hc _ Hr). cbn in Hc. go_bool.
      rewrite find_app. destruct (List.find _ _); [done|]. cbn. by rewrite bool_decide_eq_false_2 by done.
    + intros r Hr Hn. rewrite fmap_app. specialize (Hc _ Hr). cbn in Hc. go_bool.
      by intros [?|?%list_elem_of_singleton]%elem_of_app.
  - unfold set_active in Hb. destruct (existsb _ _); [|done]. injection Hb as <- <-.
    split; cbn [policies policy_versions set_policies]; try done; rewrite ?update_where_keys; try done.
Qed.

Lemma calm_view log t log' :
  (forall a b, a ∈ log -> b ∈ log' -> conflict a b = false) -> calm log t (view t log').
Proof.
  revert t. induction log' as [|b log' IH]; intros t Hc; [apply calm_refl|]. cbn [view foldl].
  eapply calm_trans; [apply (calm_write _ _ b); set_solver|]. apply IH. set_solver.
Qed.
(** ** What an open session has written *)

(** The policy of the session: committed, or a new row of its own. *)
Definition owns (t : tables) (c : call) (pid : uuid) (pre : list write) : Prop :=
  (pre = [] /\ (pid, c_scope c) ∈ policy_key <$> policies t) \/
  (pre = [WPolicy (policy_row_of c pid)] /\ pid ∉ p_id <$> policies t).

(** The row has what the call gives. *)
Definition row_from (c : call) (r : version_row) : Prop :=
  v_rego_hash r = c_hash c /\ v_rego_source r = c_source c /\ v_created_by r = c_by c.

(** The version row sent gives the id [vid]: that of the row with its key, or its
    own. *)
Definition gives (t : tables) (c : call) (r : version_row) (pid vid : uuid) : Prop :=
  v_policy_id r = pid /\ row_from c r /\ versionToInt (c_version c) = inr (v_version r) /\
  int32_range (v_version r) = true /\
  match find_version (v_key r) t with
  | Some r0 => vid = v_id r0
  | None => vid = v_id r /\ v_id r ∉ v_id <$> policy_versions t
  end.

Definition wrote (t : tables) (s : session) (pid vid : uuid) (more : list write) : Prop :=
  exists pre r, s_log s = pre ++ WVersion r :: more /\ owns t (s_call s) pid pre /\ gives t (s_call s) r pid vid.

Definition logged (t : tables) (s : session) : Prop :=
  match s_pc s with
  | AtBegin | AtSelect | AtInsert | Done _ => s_log s = []
  | AtUpsert pid => owns t (s_call s) pid (s_log s)
  | AtActive pid vid => wrote t s pid vid []
  | AtAgain pid vid => wrote t s pid vid [WActive vid pid]
  | AtCommit vid => exists pid, wrote t s pid vid [WActive vid pid] \/ wrote t s pid vid [WActive vid pid; WActive vid pid]
  end.

Lemma owns_calm t t' c pid pre : calm pre t t' -> owns t c pid pre -> owns t' c pid pre.
Proof.
  intros [[l Hl] Hnew _ _] [[-> Hp]|[-> Hn]]; [left|right]; (split; [done|]).
  - rewrite Hl. apply elem_of_app. by left.
  - apply (Hnew (policy_row_of c pid)); [by left|done].
Qed.

Lemma gives_calm log t t' c r pid vid : calm log t t' -> WVersion r ∈ log -> gives t c r pid vid -> gives t' c r pid vid.
Proof.
  intros [_ _ Hf Hi] Hr (H1 & H2 & H3 & H4 & H5). unfold gives. rewrite (Hf r Hr). split_and!; try done.
  destruct (find_version _ _); [done|]. destruct H5. auto.
Qed.

Lemma wrote_calm t t' s pid vid more : calm (s_log s) t t' -> wrote t s pid vid more -> wrote t' s pid vid more.
Proof.
  intros Hc (pre & r & Hl & Ho & Hg). exists pre, r. split; [done|]. rewrite Hl in Hc. split.
  - eapply owns_calm; [|done]. eapply calm_sub; [|done]. intros x Hx. apply elem_of_app. by left.
  - eapply gives_calm; [done| |done]. apply elem_of_app. right. by left.
Qed.

Lemma logged_calm t t' s : calm (s_log s) t t' -> logged t s -> logged t' s.
Proof.
  intros Hc. unfold logged. destruct (s_pc s); try done.
  - by apply owns_calm.
  - by apply wrote_calm.
  - by apply wrote_calm.
  - intros (pid & [Hw|Hw]); exists pid; [left|right]; by eapply wrote_calm.
Qed.

(** *** The writes of a session take effect *)

Lemma find_version_elem k t r : find_version k t = Some r -> r ∈ policy_versions t /\ v_key r = k.
Proof.
  unfold find_version. intros (l1 & l2 & -> & Hk & _)%find_Some_split. go_bool. split; [|done].
  apply elem_of_app. right. by left.
Qed.

Lemma find_version_None k t : find_version k t = None -> k ∉ v_key <$> policy_versions t.
Proof. apply find_key_None. Qed.

Lemma owns_view t c pid pre :
  owns t c pid pre ->
  policy_versions (view t pre) = policy_versions t /\ (pid, c_scope c) ∈ policy_key <$> policies (view t pre).
Proof.
  intros [[-> Hp]|[-> Hn]]; [done|]. cbn [view foldl]. unfold apply, run_write, insert_policy. cbn [policy_row_of p_id].
  destruct (existsb _ _) eqn:He; [by apply existsb_key in He|]. cbn. split; [done|].
  rewrite fmap_app. apply elem_of_app. right. by left.
Qed.

Lemma gives_upsert t c r pid vid :
  gives t c r pid vid -> pid ∈ p_id <$> policies t ->
  exists t', upsert_version r t = inr (t', vid) /\ policies t' = policies t /\
    exists v, v ∈ policy_versions t' /\ v_id v = vid /\ v_key v = v_key r /\
      stored_as t (c_hash c) (c_source c) (c_by c) v.
Proof.
  intros (Hp & (Hh & Hsrc & Hby) & _ & Hr & Hf) Hpid. unfold upsert_version. rewrite Hr. cbn [negb].
  rewrite (find_ext _ (fun r' => v_key r' == v_key r)) by apply v_key_eq. fold (find_version (v_key r) t).
  destruct (find_version (v_key r) t) as [r0|] eqn:Hv.
  - subst vid. eexists. split; [done|]. split; [done|]. apply find_version_elem in Hv as [Hin Hk].
    exists (set_hash (v_rego_hash r) r0).
    split_and!; try done; [|split; [done|]; right; exists r0; by rewrite Hh]. cbn [policy_versions set_versions]. unfold update_where.
    apply list_elem_of_fmap. exists r0. split; [|done]. by rewrite v_key_eq, bool_decide_eq_true_2.
  - destruct Hf as [-> Hid]. destruct (existsb _ (policy_versions t)) eqn:He; [by apply existsb_key in He|].
    assert (existsb (fun p => p_id p == v_policy_id r) (policies t) = true) as -> by (apply existsb_key; congruence).
    eexists. split; [done|]. split; [done|]. exists r.
    split_and!; try done; [|split; [done|]; by left]. cbn. apply elem_of_app. right. by left.
Qed.

Lemma active_ok t vid pid :
  vid ∈ v_id <$> policy_versions t ->
  run_write (WActive vid pid) t
  = inr (set_policies t (update_where (fun p => p_id p == pid) (set_active_row vid) (policies t)), vid).
Proof. intros Hv. cbn [run_write]. unfold set_active. apply existsb_key in Hv. by rewrite Hv. Qed.

Lemma key_id t pid sc : (pid, sc) ∈ policy_key <$> policies t -> pid ∈ p_id <$> policies t.
Proof. rewrite ids_of_keys. intros Hp. apply list_elem_of_fmap. by exists (pid, sc). Qed.

(** The last write of an open session was executed, and still would be. *)
Lemma owns_runs t c pid : owns t c pid [WPolicy (policy_row_of c pid)] ->
  exists t', run_write (WPolicy (policy_row_of c pid)) t = inr (t', pid).
Proof.
  intros [[? _]|[_ Hn]]; [done|]. cbn [run_write]. unfold insert_policy.
  destruct (existsb _ _) eqn:He; [by apply existsb_key in He|]. eauto.
Qed.

Lemma gives_ext t t' c r pid vid :
  policy_versions t' = policy_versions t -> gives t c r pid vid -> gives t' c r pid vid.
Proof. intros Hv. unfold gives, find_version. by rewrite Hv. Qed.

Lemma wrote_runs t s pid vid more :
  wrote t s pid vid more ->
  exists pre r t', s_log s = pre ++ WVersion r :: more /\
    run_write (WVersion r) (view t pre) = inr (t', vid) /\ view t (pre ++ [WVersion r]) = t' /\
    (pid, c_scope (s_call s)) ∈ policy_key <$> policies t' /\
    exists v, v ∈ policy_versions t' /\ v_id v = vid /\ v_policy_id v = pid /\
      versionToInt (c_version (s_call s)) = inr (v_version v) /\
      stored_as t (c_hash (s_call s)) (c_source (s_call s)) (c_by (s_call s)) v.
Proof.
  intros (pre & r & Hl & Ho & Hg). destruct (owns_view _ _ _ _ Ho) as [Hv Hp].
  pose proof (gives_ext t (view t pre) _ _ _ _ Hv Hg) as Hg'.
  destruct (gives_upsert _ _ _ _ _ Hg' (key_id _ _ _ Hp)) as (t' & Hu & Hpol & v & Hin & Hid & Hk & Hh).
  exists pre, r, t'. split_and!; try done; [by eapply view_snoc|by rewrite Hpol|].
  destruct Hg as (H1 & _ & H3 & _). exists v. unfold v_key in Hk. split_and!; try done; try congruence.
  unfold stored_as in *. by rewrite <- Hv.
Qed.
(** ** Steps of a session *)

Lemma upsert_gives t c r t' vid :
  upsert_version r t = inr (t', vid) -> row_from c r -> versionToInt (c_version c) = inr (v_version r) ->
  gives t c r (v_policy_id r) vid.
Proof.
  intros Hu Hh Hv. unfold upsert_version in Hu. destruct (int32_range (v_version r)) eqn:Hr; [cbn [negb] in Hu|done].
  unfold gives. split_and!; try done.
  rewrite (find_ext _ (fun r' => v_key r' == v_key r)) in Hu by apply v_key_eq. fold (find_version (v_key r) t) in Hu.
  destruct (find_version (v_key r) t) as [r0|]; [by injection Hu|].
  destruct (existsb _ (policy_versions t)) eqn:He; [done|]. destruct (existsb _ (policies t)); [|done].
  injection Hu as _ <-. split; [done|]. by apply existsb_key_false in He.
Qed.

(** A step of a session either commits, or leaves the tables and adds at most one
    write, which it did not have to wait for. *)
Definition advances (t : tables) (waits : write -> bool) (s s' : session) : Prop :=
  logged t s' /\ s_call s' = s_call s /\
  (s_log s' = [] \/ s_log s' = s_log s \/ exists a, s_log s' = s_log s ++ [a] /\ waits a = false).

Lemma fail_advances t waits s d err : advances t waits s (fail s d err).
Proof. split; [done|]. split; [done|]. by left. Qed.

Lemma send_advances t waits s a ctx next t' s' :
  send t waits s a ctx next = Some (t', s') ->
  (forall d id tx, exec (db_of t s) (write_stmt a) (run_write a) = (d, inr id) ->
     run_write a (view t (s_log s)) = inr (tx, id) -> logged t (goto s d (s_log s ++ [a]) (next id))) ->
  t' = t /\ advances t waits s s'.
Proof.
  unfold send. destruct (waits a) eqn:Hw; [done|].
  destruct (exec (db_of t s) (write_stmt a) (run_write a)) as [d [err|id]] eqn:He; intros [= <- <-] Hl; (split; [done|]).
  - apply fail_advances.
  - destruct (exec_cases _ _ _ _ _ He) as (_ & _ & _ & [[_ [e [=]]]|(x & Hr & Hx)]).
    assert (x = id) as -> by (destruct Hx as [[= <-]|[e [=]]]; done).
    split; [by eapply Hl|]. split; [done|]. right. right. by exists a.
Qed.

Lemma select_advances t waits s t' s' :
  s_pc s = AtSelect -> s_log s = [] -> sstep t waits s = Some (t', s') -> t' = t /\ advances t waits s s'.
Proof.
  intros Hp Hl. unfold sstep. rewrite Hp.
  pose proof (query_row_cases (db_of t s) SelectPolicy
    (fun t => p_id <$> filter (fun r => p_scope r = c_scope (s_call s)) (policies t))) as Hq.
  destruct (query_row _ _ _) as [err|id].
  - destruct (negb _); intros [= <- <-]; (split; [done|]); [apply fail_advances|].
    split; [done|]. split; [done|]. by left.
  - intros [= <- <-]. split; [done|]. split; [|split; [done|by right; left]].
    unfold logged. cbn [goto s_pc s_log s_call]. left. split; [done|]. destruct Hq as (_ & rs & Hq).
    assert (id ∈ p_id <$> filter (fun r => p_scope r = c_scope (s_call s)) (policies t)) as Hin.
    { cbn [db_of tabs] in Hq. rewrite Hl in Hq. cbn [view foldl] in Hq. rewrite Hq. by left. }
    apply list_elem_of_fmap in Hin as (p & -> & [Hsc Hin]%list_elem_of_filter).
    apply list_elem_of_fmap. exists p. unfold policy_key. by rewrite Hsc.
Qed.

Lemma insert_advances t waits s t' s' :
  s_pc s = AtInsert -> s_log s = [] -> sstep t waits s = Some (t', s') -> t' = t /\ advances t waits s s'.
Proof.
  intros Hp Hl. unfold sstep. rewrite Hp. intros Hs. apply (send_advances _ _ _ _ _ _ _ _ Hs).
  intros d id tx He Hr. rewrite Hl in Hr. cbn [view foldl] in Hr. unfold logged.
  cbn [goto s_pc s_call s_log]. rewrite Hl. cbn [app]. cbn [run_write] in Hr. unfold insert_policy in Hr.
  destruct (existsb _ _) eqn:Hx; [done|]. injection Hr as _ <-. cbn [policy_row_of p_id]. right. split; [done|].
  by apply existsb_key_false in Hx.
Qed.

Lemma upsert_advances t waits s t' s' pid :
  s_pc s = AtUpsert pid -> logged t s -> sstep t waits s = Some (t', s') -> t' = t /\ advances t waits s s'.
Proof.
  intros Hp Hl. unfold sstep. rewrite Hp. destruct (versionToInt (c_version (s_call s))) as [err|n] eqn:Hv.
  { intros [= <- <-]. split; [done|]. apply fail_advances. }
  intros Hs. apply (send_advances _ _ _ _ _ _ _ _ Hs). intros d id tx He Hr. unfold logged in *. rewrite Hp in Hl.
  cbn [goto s_pc]. unfold wrote. cbn [goto s_pc s_call s_log].
  exists (s_log s). eexists. split; [done|]. split; [done|].
  apply (gives_ext (view t (s_log s))); [by destruct (owns_view _ _ _ _ Hl)|]. by eapply upsert_gives.
Qed.

Lemma active_advances t waits s t' s' pid vid more next ctx :
  wrote t s pid vid more -> send t waits s (WActive vid pid) ctx next = Some (t', s') ->
  (forall s2, wrote t s2 pid vid (more ++ [WActive vid pid]) -> s_pc s2 = next vid -> logged t s2) ->
  t' = t /\ advances t waits s s'.
Proof.
  intros Hw Hs Hn. apply (send_advances _ _ _ _ _ _ _ _ Hs). intros d id tx He Hr.
  assert (id = vid) as ->.
  { cbn [run_write] in Hr. destruct (set_active _ _ _) as [e|[? ?]]; [done|]. by injection Hr. }
  apply Hn; [|done]. destruct Hw as (pre & r & Hl & Ho & Hg). exists pre, r. cbn [goto s_log s_call].
  split; [|done]. rewrite Hl, <- app_assoc. done.
Qed.

Lemma sstep_cases t waits s t' s' :
  logged t s -> sstep t waits s = Some (t', s') ->
  if commits s then t' = view t (s_log s) /\ s_call s' = s_call s /\ s_log s' = [] /\ exists r, s_pc s' = Done r
  else t' = t /\ advances t waits s s'.
Proof.
  intros Hl Hs. assert ((forall x, s_pc s <> AtCommit x) -> commits s = false) as Hc.
  { intros Hx. unfold commits. destruct (s_pc s) as [| | | | | |x|]; try done. by destruct (Hx x). }
  destruct (s_pc s) as [| | |pid|pid vid|pid vid|vid|res] eqn:Hp.
  - rewrite Hc by done. unfold logged in Hl. rewrite Hp in Hl. unfold sstep in Hs. rewrite Hp in Hs.
    destruct (c_version _ == ""); [injection Hs as <- <-; split; [done|apply fail_advances]|].
    destruct (exec _ _ _) as [d [err|[]]]; injection Hs as <- <-; (split; [done|]); [apply fail_advances|].
    split; [done|]. split; [done|]. by left.
  - rewrite Hc by done. unfold logged in Hl. rewrite Hp in Hl. by apply select_advances.
  - rewrite Hc by done. unfold logged in Hl. rewrite Hp in Hl. by apply insert_advances.
  - rewrite Hc by done. by eapply upsert_advances.
  - rewrite Hc by done. unfold logged in Hl. rewrite Hp in Hl. unfold sstep in Hs. rewrite Hp in Hs.
    eapply active_advances; [done|done|]. cbn [app]. intros s2 Hw Hp2. unfold logged. rewrite Hp2.
    destruct (c_kind (s_call s)); [done|]. exists pid. by left.
  - rewrite Hc by done. unfold logged in Hl. rewrite Hp in Hl. unfold sstep in Hs. rewrite Hp in Hs.
    eapply active_advances; [done|done|]. cbn [app]. intros s2 Hw Hp2. unfold logged. rewrite Hp2.
    exists pid. by right.
  - clear Hc. unfold commits, sstep in *. rewrite Hp in *. cbn [db_of faults seq tabs] in Hs.
    destruct (c_faults (s_call s) (s_seq s) CommitTx) as [[e|e]|]; injection Hs as <- <-.
    + split; [done|]. apply fail_advances.
    + split_and!; try done. by eexists.
    + split_and!; try done. by eexists.
  - unfold sstep in Hs. by rewrite Hp in Hs.
Qed.
(** ** Invariant of the interleavings *)

Definition exclusive (ss : list session) : Prop :=
  forall i j si sj a b, i <> j -> ss !! i = Some si -> ss !! j = Some sj ->
    a ∈ s_log si -> b ∈ s_log sj -> conflict a b = false.

Definition sound (x : state) : Prop :=
  Forall (logged (committed x)) (sessions x) /\ exclusive (sessions x).

Lemma conflict_sym a b : conflict a b = conflict b a.
Proof.
  destruct a, b; cbn; try done; [apply bool_decide_ext; split; congruence| |apply bool_decide_ext; split; congruence].
  f_equal; apply bool_decide_ext; split; congruence.
Qed.

Lemma waits_for_spec ss i a :
  waits_for ss i a = true <-> exists j s b, j <> i /\ ss !! j = Some s /\ b ∈ s_log s /\ conflict a b = true.
Proof.
  unfold waits_for. rewrite existsb_exists. split.
  - intros (j & _ & Hj). apply andb_true_iff in Hj as [Hn Hj]. apply negb_true_iff, Nat.eqb_neq in Hn.
    destruct (ss !! j) as [s|] eqn:Hs; [|done]. apply existsb_exists in Hj as (b & Hb & Hc).
    exists j, s, b. split_and!; try done. by apply list_elem_of_In.
  - intros (j & s & b & Hn & Hs & Hb & Hc). exists j. split.
    + apply in_seq. apply lookup_lt_Some in Hs. lia.
    + rewrite Hs. apply andb_true_iff. split; [by apply negb_true_iff, Nat.eqb_neq|].
      apply existsb_exists. exists b. split; [by apply list_elem_of_In|done].
Qed.

Lemma waits_for_false ss i a j s b :
  waits_for ss i a = false -> j <> i -> ss !! j = Some s -> b ∈ s_log s -> conflict a b = false.
Proof.
  intros Hw Hn Hs Hb. destruct (conflict a b) eqn:Hc; [|done].
  assert (waits_for ss i a = true) by (apply waits_for_spec; eauto 10). congruence.
Qed.

(** Replacing a session by one with fewer writes, or one more that did not have
    to wait. *)
Lemma exclusive_insert ss i s s' :
  exclusive ss -> ss !! i = Some s ->
  (forall a, a ∈ s_log s' -> a ∈ s_log s \/ waits_for ss i a = false) -> exclusive (<[i := s']> ss).
Proof.
  intros He Hi Hl.
  assert (forall a j sj b, a ∈ s_log s' -> j <> i -> ss !! j = Some sj -> b ∈ s_log sj -> conflict a b = false) as Hnew.
  { intros a j sj b Ha Hj Hsj Hb. destruct (Hl a Ha) as [Ho|Hw]; [by apply (He i j s sj)|by eapply waits_for_false]. }
  intros j1 j2 s1 s2 a b Hn H1 H2 Ha Hb.
  destruct (decide (j1 = i)) as [->|N1], (decide (j2 = i)) as [->|N2]; try done.
  - rewrite list_lookup_insert_eq in H1 by (by eapply lookup_lt_Some). injection H1 as <-.
    rewrite list_lookup_insert_ne in H2 by done. by eapply Hnew.
  - rewrite list_lookup_insert_eq in H2 by (by eapply lookup_lt_Some). injection H2 as <-.
    rewrite list_lookup_insert_ne in H1 by done. rewrite conflict_sym. by eapply Hnew.
  - rewrite list_lookup_insert_ne in H1, H2 by done. by apply (He j1 j2 s1 s2).
Qed.

Lemma others_logged t t' ss i :
  Forall (logged t) ss -> (forall j s, j <> i -> ss !! j = Some s -> calm (s_log s) t t') ->
  forall s', logged t' s' -> Forall (logged t') (<[i := s']> ss).
Proof.
  intros Hl Hc s' Hs'. apply Forall_lookup_2. intros j s Hj. destruct (decide (j = i)) as [->|Hn].
  - destruct (decide (i < length ss)%nat) as [Hlt|Hge].
    + rewrite list_lookup_insert_eq in Hj by done. by injection Hj as <-.
    + apply lookup_lt_Some in Hj. rewrite length_insert in Hj. lia.
  - rewrite list_lookup_insert_ne in Hj by done. eapply logged_calm; [by eapply Hc|].
    by apply (Forall_lookup_1 _ _ j s Hl).
Qed.

Lemma step_sound x x' : sound x -> step x x' -> sound x'.
Proof.
  intros [Hl He] Hs. destruct Hs as [t ss h c Hsc|t ss h i s t' s' Hi Hs|t ss h t' Hp Hv]; unfold sound in *;
    cbn [committed sessions] in *.
  - split; [apply Forall_app; split; [done|]; by constructor|].
    assert (forall k sk, (ss ++ [open c]) !! k = Some sk -> ss !! k = Some sk \/ s_log sk = []) as Hk.
    { intros k sk Hk. apply lookup_app_Some in Hk as [Hk|[_ Hk]]; [by left|].
      apply list_lookup_singleton_Some in Hk as [_ <-]. by right. }
    intros i j si sj a b Hn Hi Hj Ha Hb.
    destruct (Hk _ _ Hi) as [Hi'|Hi'], (Hk _ _ Hj) as [Hj'|Hj'];
      try (by apply (He i j si sj)); (rewrite Hi' in Ha || rewrite Hj' in Hb); by apply elem_of_nil in Ha || by apply elem_of_nil in Hb.
  - pose proof (sstep_cases _ _ _ _ _ (Forall_lookup_1 _ _ i s Hl Hi) Hs) as Hx. destruct (commits s).
    + destruct Hx as (-> & Hc & Hlog & r & Hr). split.
      * apply (others_logged t _ ss i Hl); [|unfold logged; by rewrite Hr].
        intros j sj Hn Hj. apply calm_view. intros a b Ha Hb. by apply (He j i sj s).
      * apply (exclusive_insert ss i s); [done|done|]. rewrite Hlog. intros a Ha. by apply elem_of_nil in Ha.
    + destruct Hx as (-> & Hlg & Hc & Hlog). split.
      * apply (others_logged t _ ss i Hl); [|done]. intros. apply calm_refl.
      * apply (exclusive_insert ss i s); [done|done|]. intros a Ha. destruct Hlog as [Hlog|[Hlog|(a' & Hlog & Hw)]];
          rewrite Hlog in Ha; [by apply elem_of_nil in Ha|by left|].
        apply elem_of_app in Ha as [Ha|Ha%list_elem_of_singleton]; [by left|]. subst. by right.
  - split; [|done]. eapply Forall_impl; [exact Hl|]. intros s. apply logged_calm. by apply calm_other.
Qed.

Lemma db_reach_sound t0 x : reach t0 x -> sound x.
Proof.
  induction 1 as [|x x' Hx IH Hs]; [|by eapply step_sound]. split; [constructor|].
  intros i j si sj a b _ Hi. cbn [start sessions] in Hi. by rewrite lookup_nil in Hi.
Qed.
(** ** A commit is seen whole *)

(** The activated version of a scope, in the tables [t] a commit leaves of [t0]:
    its number, and its hash, source and author, which are the call's in a new row
    and, but for the hash, the old ones in a row that was there. *)
Definition visible (t0 t : tables) (c : call) (vid : uuid) : Prop :=
  exists p v, p ∈ policies t /\ p_scope p = c_scope c /\ p_active_version p = Some vid /\
    v ∈ policy_versions t /\ v_id v = vid /\ v_policy_id v = p_id p /\
    versionToInt (c_version c) = inr (v_version v) /\ stored_as t0 (c_hash c) (c_source c) (c_by c) v.

Lemma active_visible t0 t c pid vid v :
  (pid, c_scope c) ∈ policy_key <$> policies t -> v ∈ policy_versions t -> v_id v = vid -> v_policy_id v = pid ->
  versionToInt (c_version c) = inr (v_version v) -> stored_as t0 (c_hash c) (c_source c) (c_by c) v ->
  let t' := apply t (WActive vid pid) in
  visible t0 t' c vid /\ (pid, c_scope c) ∈ policy_key <$> policies t' /\ policy_versions t' = policy_versions t.
Proof.
  intros Hp Hv Hid Hpid Hn Hh t'.
  assert (vid ∈ v_id <$> policy_versions t) as Hin by (apply list_elem_of_fmap; by exists v).
  assert (t' = set_policies t (update_where (fun p => p_id p == pid) (set_active_row vid) (policies t))) as ->
    by (unfold t', apply; by rewrite (active_ok t vid pid Hin)).
  cbn [policies policy_versions set_policies]. split_and!; [|by rewrite update_where_keys|done].
  apply list_elem_of_fmap in Hp as (p & Hk & Hp). injection Hk as -> Hsc.
  exists (set_active_row vid p), v. split_and!; try done. cbn [policies set_policies]. unfold update_where.
  apply list_elem_of_fmap. exists p. split; [|done]. by rewrite bool_decide_eq_true_2.
Qed.

Lemma view_cons t pre a more : view t (pre ++ a :: more) = view (view t (pre ++ [a])) more.
Proof. unfold view. by rewrite <- foldl_app, <- app_assoc. Qed.

Lemma commit_visible t s vid : s_pc s = AtCommit vid -> logged t s -> visible t (view t (s_log s)) (s_call s) vid.
Proof.
  intros Hp Hl. unfold logged in Hl. rewrite Hp in Hl. destruct Hl as (pid & [Hw|Hw]);
    destruct (wrote_runs _ _ _ _ _ Hw) as (pre & r & t' & Hlog & _ & Hv & Hk & v & Hin & Hid & Hpid & Hn & Hh);
    rewrite Hlog, view_cons, Hv; cbn [view foldl];
    destruct (active_visible t t' (s_call s) pid vid v Hk Hin Hid Hpid Hn Hh) as (Hvis & Hk' & Hvs).
  - done.
  - by destruct (active_visible t (apply t' (WActive vid pid)) (s_call s) pid vid v Hk' ltac:(by rewrite Hvs) Hid Hpid Hn Hh).
Qed.

(** ** Waiting *)

Definition rank (s : session) : nat :=
  match s_pc s with
  | AtBegin => 0 | AtSelect => 1 | AtInsert => 2 | AtUpsert _ => 3 | AtActive _ _ => 4 | AtAgain _ _ => 5
  | AtCommit _ => 6 | Done _ => 7
  end.

Definition is_done (s : session) : bool := match s_pc s with Done _ => true | _ => false end.

Definition wants (s : session) (a : write) : Prop :=
  match s_pc s, a with
  | AtInsert, WPolicy _ | AtUpsert _, WVersion _ => True
  | AtActive pid vid, WActive v p | AtAgain pid vid, WActive v p => v = vid /\ p = pid
  | _, _ => False
  end.

Lemma sstep_waits t waits s :
  sstep t waits s = None -> is_done s = true \/ exists a, waits a = true /\ wants s a.
Proof.
  assert (forall a ctx next, send t waits s a ctx next = None -> waits a = true) as Hsend.
  { intros a ctx next. unfold send. destruct (waits a); [done|]. by destruct (exec _ _ _) as [d [|]]. }
  unfold sstep, wants, is_done. destruct (s_pc s); try (intros Hs; right; eexists; split; [by eapply Hsend|done]); try auto.
  - destruct (_ == ""); [done|]. by destruct (exec _ _ _) as [d [|[]]].
  - destruct (query_row _ _ _); [by destruct (negb _)|done].
  - destruct (versionToInt _); [done|]. intros Hs. right. eexists. split; [by eapply Hsend|done].
  - destruct (faults _ _ _) as [[|]|]; done.
Qed.

(** A session that has written what another one wants is further on. *)
Lemma log_rank t s b : logged t s -> b ∈ s_log s ->
  is_done s = false /\
  match b with WPolicy _ => 3 <= rank s | WVersion _ => 4 <= rank s | WActive _ _ => 5 <= rank s end%nat.
Proof.
  intros Hl Hb. unfold logged, is_done, rank in *. destruct (s_pc s);
    try (rewrite Hl in Hb; by apply elem_of_nil in Hb); (split; [done|]); try (destruct b; lia).
  - destruct Hl as [[Hl _]|[Hl _]]; rewrite Hl in Hb; [by apply elem_of_nil in Hb|].
    apply list_elem_of_singleton in Hb as ->. lia.
  - destruct Hl as (pre & r & Hl & Ho & _). rewrite Hl in Hb.
    apply elem_of_app in Hb as [Hb|Hb%list_elem_of_singleton]; [|subst; lia].
    destruct Ho as [[-> _]|[-> _]]; [by apply elem_of_nil in Hb|]. apply list_elem_of_singleton in Hb as ->. lia.
Qed.

Lemma again_holds t s pid vid : logged t s -> s_pc s = AtAgain pid vid -> WActive vid pid ∈ s_log s.
Proof.
  unfold logged. intros Hl Hp. rewrite Hp in Hl. destruct Hl as (pre & r & -> & _). apply elem_of_app. right. right. by left.
Qed.

Lemma waiting_rank t ss i j s s' a b :
  exclusive ss -> i <> j -> ss !! i = Some s -> ss !! j = Some s' -> logged t s -> logged t s' ->
  wants s a -> b ∈ s_log s' -> conflict a b = true -> (rank s < rank s')%nat.
Proof.
  intros He Hn Hi Hj Hl Hl' Ha Hb Hc. destruct (log_rank _ _ _ Hl' Hb) as [_ Hr].
  destruct (s_pc s) as [| | |pid|pid vid|pid vid|vid|] eqn:Hp; unfold wants in Ha; rewrite Hp in Ha; try done;
    destruct a; try done; destruct b; try done; unfold rank at 1; rewrite Hp; try lia.
  destruct Ha as [-> ->]. pose proof (He i j s s' _ _ Hn Hi Hj (again_holds _ _ _ _ Hl Hp) Hb) as Hx. by rewrite Hx in Hc.
Qed.

Lemma progress x i s :
  sound x -> sessions x !! i = Some s -> is_done s = false ->
  exists j s' t2 s2, sessions x !! j = Some s' /\ sstep (committed x) (waits_for (sessions x) j) s' = Some (t2, s2).
Proof.
  intros [Hl He]. remember (7 - rank s)%nat as n eqn:Hn. revert i s Hn.
  induction n as [n IH] using (well_founded_induction lt_wf); intros i s Hn Hi Hd.
  destruct (sstep (committed x) (waits_for (sessions x) i) s) as [[t2 s2]|] eqn:Hs; [by exists i, s, t2, s2|].
  apply sstep_waits in Hs as [Hs|(a & Hw & Ha)]; [congruence|].
  apply waits_for_spec in Hw as (j & s' & b & Hj & Hs' & Hb & Hc).
  pose proof (Forall_lookup_1 _ _ i s Hl Hi) as Hls. pose proof (Forall_lookup_1 _ _ j s' Hl Hs') as Hls'.
  pose proof (waiting_rank _ _ i j _ _ _ _ He ltac:(done) Hi Hs' Hls Hls' Ha Hb Hc) as Hr.
  destruct (log_rank _ _ _ Hls' Hb) as [Hd' _].
  assert (rank s' < 7)%nat by (unfold rank, is_done in *; destruct (s_pc s'); done || lia).
  apply (IH (7 - rank s')%nat ltac:(lia) j s' eq_refl Hs' Hd').
Qed.
(** ** Serial executions *)

(** The calls one after the other, each as a function of [Db]; in between the other
    tables change. *)
Inductive serially (t0 : tables) : list (call * Res uuid) -> tables -> Prop :=
| serially_start : serially t0 [] t0
| serially_call h t c : serially t0 h t -> serially t0 (h ++ [(c, snd (whole t c))]) (fst (whole t c))
| serially_other h t t' :
    serially t0 h t -> policies t' = policies t -> policy_versions t' = policy_versions t -> serially t0 h t'.

(** The scope of the call has a policy. *)
Definition known (t : tables) (c : call) : Prop := c_scope c ∈ p_scope <$> policies t.

(** What a session would be at, had it run alone on the present tables. *)
Inductive reached (t : tables) (c : call) : session -> Prop :=
| reached_open : reached t c (open c)
| reached_step s s' :
    reached t c s -> (forall vid, s_pc s <> AtCommit vid) ->
    sstep t (fun _ => false) s = Some (t, s') -> reached t c s'.

Lemma not_commit_commits s : (forall vid, s_pc s <> AtCommit vid) -> commits s = false.
Proof. intros Hp. unfold commits. destruct (s_pc s) as [| | | | | |vid|]; try done. by destruct (Hp vid). Qed.

Lemma reached_logged t c s : reached t c s -> logged t s /\ s_call s = c.
Proof.
  induction 1 as [|s s' Hr [IH Hc] Hp Hs]; [done|]. pose proof (sstep_cases _ _ _ _ _ IH Hs) as Hx.
  rewrite not_commit_commits in Hx by done. destruct Hx as (_ & Hl & Hcall & _). split; [done|congruence].
Qed.

Lemma alone_add n m t s : alone (n + m) t s = let '(t', s') := alone n t s in alone m t' s'.
Proof.
  revert t s. induction n as [|n IH]; intros t s; [done|]. cbn [Nat.add alone].
  destruct (sstep t _ s) as [[t' s']|] eqn:Hs; [apply IH|]. destruct m; cbn [alone]; [done|]. by rewrite Hs.
Qed.

Lemma reached_alone t c s : reached t c s -> exists n, alone n t (open c) = (t, s).
Proof.
  induction 1 as [|s s' Hr [n IH] Hp Hs]; [by exists 0%nat|]. exists (n + 1)%nat. rewrite alone_add, IH. cbn [alone].
  by rewrite Hs.
Qed.

(** A session that has come to its end alone did what the function does. *)
Lemma reached_whole t c s t' s' r :
  scope_ok c -> reached t c s -> sstep t (fun _ => false) s = Some (t', s') -> s_pc s' = Done r ->
  whole t c = (t', r).
Proof.
  intros Hsc Hr Hs Hd. destruct (reached_alone _ _ _ Hr) as [n Hn].
  destruct (session_alone (n + 1) t c Hsc) as [Ht Hp].
  replace (7 + (n + 1))%nat with ((n + 1) + 7)%nat in Ht, Hp by lia.
  assert (alone (n + 1) t (open c) = (t', s')) as Ha by (rewrite alone_add, Hn; cbn [alone]; by rewrite Hs).
  rewrite alone_add, Ha, (alone_done _ _ _ _ Hd) in Ht, Hp. cbn [fst snd] in Ht, Hp. rewrite Hd in Hp.
  injection Hp as ->. rewrite Ht. by destruct (whole t c).
Qed.

(** *** What a session has done it would do on calmly changed tables too *)

Lemma select_keys t sc :
  p_id <$> filter (fun r => p_scope r = sc) (policies t) = (filter (fun k => k.2 = sc) (policy_key <$> policies t)).*1.
Proof.
  induction (policies t) as [|p ps IH]; [done|]. rewrite fmap_cons, !filter_cons. cbn [policy_key snd].
  destruct (decide (p_scope p = sc)); rewrite ?fmap_cons, IH; done.
Qed.

Lemma send_same t t' s a ctx next id tx tx' s' :
  run_write a (view t (s_log s)) = inr (tx, id) -> run_write a (view t' (s_log s)) = inr (tx', id) ->
  send t (fun _ => false) s a ctx next = Some (t, s') -> send t' (fun _ => false) s a ctx next = Some (t', s').
Proof.
  intros Hr Hr'. unfold send, exec. cbn [db_of tabs faults seq]. rewrite Hr, Hr'.
  destruct (c_faults _ _ _) as [[e|e]|]; by intros [= <-].
Qed.

Lemma send_inv t s a ctx next s' :
  send t (fun _ => false) s a ctx next = Some (t, s') -> is_done s' = false ->
  exists tx id, run_write a (view t (s_log s)) = inr (tx, id) /\ s_log s' = s_log s ++ [a] /\
    s_pc s' = next id /\ s_call s' = s_call s.
Proof.
  unfold send. destruct (exec _ _ _) as [d [err|id]] eqn:He; intros [= <-] Hd; [done|].
  apply exec_ok in He as (Hr & _). eauto 10.
Qed.

Lemma wrote_ids t s pid vid more :
  wrote t s pid vid more -> more = [] \/ more = [WActive vid pid] ->
  vid ∈ v_id <$> policy_versions (view t (s_log s)).
Proof.
  intros Hw Hm. destruct (wrote_runs _ _ _ _ _ Hw) as (pre & r & t' & Hlog & _ & Hv & Hk & v & Hin & Hid & Hpid & Hn & Hh).
  assert (vid ∈ v_id <$> policy_versions t') as Hin' by (apply list_elem_of_fmap; by exists v).
  rewrite Hlog, view_cons, Hv. destruct Hm as [->| ->]; cbn [view foldl]; [done|].
  destruct (active_visible t t' (s_call s) pid vid v Hk Hin Hid Hpid Hn Hh) as (_ & _ & ->). done.
Qed.

Lemma upsert_same t t' s pid s' :
  s_pc s = AtUpsert pid -> is_done s' = false -> logged t' s' ->
  sstep t (fun _ => false) s = Some (t, s') -> sstep t' (fun _ => false) s = Some (t', s').
Proof.
  intros Hp Hd Hl. unfold sstep. rewrite Hp. destruct (versionToInt _) as [err|n]; [by intros [= <-]|].
  change (NewV7 (db_of t' s)) with (NewV7 (db_of t s)). set (r := version_row_of _ _ _ _). intros Hs.
  destruct (send_inv _ _ _ _ _ _ Hs Hd) as (tx & id & Hr & Hlog & Hpc & Hc).
  unfold logged in Hl. rewrite Hpc in Hl. apply wrote_runs in Hl as (pre & r' & t2 & Hlog' & Hr' & _).
  rewrite Hlog in Hlog'. apply app_inj_tail in Hlog' as [<- [= <-]]. by eapply send_same.
Qed.

Lemma active_same t t' s pid vid more ctx next s' :
  wrote t' s pid vid more -> more = [] \/ more = [WActive vid pid] -> is_done s' = false ->
  send t (fun _ => false) s (WActive vid pid) ctx next = Some (t, s') ->
  send t' (fun _ => false) s (WActive vid pid) ctx next = Some (t', s').
Proof.
  intros Hw Hm Hd Hs. destruct (send_inv _ _ _ _ _ _ Hs Hd) as (tx & id & Hr & _).
  assert (id = vid) as ->.
  { cbn [run_write] in Hr. destruct (set_active _ _ _) as [e|[? ?]]; [done|]. by injection Hr. }
  eapply send_same; [exact Hr|apply active_ok; by eapply wrote_ids|done].
Qed.

Lemma select_same t t' s s' :
  s_pc s = AtSelect -> s_log s = [] -> is_done s' = false -> known t (s_call s) -> calm [] t t' ->
  sstep t (fun _ => false) s = Some (t, s') -> sstep t' (fun _ => false) s = Some (t', s').
Proof.
  intros Hp Hl Hd Hk [[l Hpre] _ _ _]. unfold sstep. rewrite Hp. unfold query_row, query. cbn [db_of tabs faults seq].
  rewrite Hl. cbn [view foldl]. destruct (c_faults _ _ _) as [f|].
  { unfold fault_err. destruct f; rewrite err_of_not_no_rows; cbn [negb]; intros [= <-]; done. }
  rewrite !select_keys, Hpre, filter_app, fmap_app.
  destruct ((filter _ (policy_key <$> policies t)).*1) as [|id ids] eqn:He; [|cbn [app]; by intros [= <-]].
  exfalso. unfold known in Hk. apply list_elem_of_fmap in Hk as (p & Hsc & Hin).
  apply fmap_nil_inv in He. assert (policy_key p ∈ filter (fun k => k.2 = c_scope (s_call s)) (policy_key <$> policies t)) as Hx.
  { apply list_elem_of_filter. split; [done|]. apply list_elem_of_fmap. by exists p. }
  rewrite He in Hx. by apply elem_of_nil in Hx.
Qed.

Lemma sstep_same t t' s s' :
  logged t s -> logged t' s -> logged t' s' -> is_done s' = false -> known t (s_call s) -> calm (s_log s) t t' ->
  (forall vid, s_pc s <> AtCommit vid) ->
  sstep t (fun _ => false) s = Some (t, s') -> sstep t' (fun _ => false) s = Some (t', s').
Proof.
  intros Hl Hl2 Hl' Hd Hk Hc Hn Hs. destruct (s_pc s) as [| | |pid|pid vid|pid vid|vid|res] eqn:Hp.
  - revert Hs. unfold sstep. rewrite Hp. destruct (c_version _ == ""); [by intros [= <-]|].
    unfold exec. cbn [db_of tabs faults seq]. destruct (c_faults _ _ _) as [[e|e]|]; by intros [= <-].
  - unfold logged in Hl. rewrite Hp in Hl. rewrite Hl in Hc. by eapply select_same.
  - unfold sstep in *. rewrite Hp in *. change (NewV7 (db_of t' s)) with (NewV7 (db_of t s)).
    destruct (send_inv _ _ _ _ _ _ Hs Hd) as (tx & id & Hr & Hlog & Hpc & Hcall).
    assert (id = NewV7 (db_of t s)) as ->.
    { cbn [run_write] in Hr. destruct (insert_policy _ _) as [e|[? ?]]; [done|]. by injection Hr. }
    unfold logged in Hl, Hl'. rewrite Hp in Hl. rewrite Hpc, Hlog, Hl, Hcall in Hl'. cbn [app] in Hl'.
    destruct (owns_runs _ _ _ Hl') as [t2 Hr']. eapply send_same; [exact Hr| |exact Hs]. rewrite Hl. exact Hr'.
  - by eapply upsert_same.
  - unfold logged in Hl2. rewrite Hp in Hl2. unfold sstep in *. rewrite Hp in *. eapply active_same; eauto.
  - unfold logged in Hl2. rewrite Hp in Hl2. unfold sstep in *. rewrite Hp in *. eapply active_same; eauto.
  - by destruct (Hn vid).
  - unfold sstep in Hs. by rewrite Hp in Hs.
Qed.

Lemma sstep_grows t s s' :
  logged t s -> (forall vid, s_pc s <> AtCommit vid) -> sstep t (fun _ => false) s = Some (t, s') ->
  is_done s' = false -> s_log s ⊆ s_log s'.
Proof.
  intros Hl Hn Hs Hd. destruct (s_pc s) as [| | |pid|pid vid|pid vid|vid|res] eqn:Hp;
    try (unfold logged in Hl; rewrite Hp in Hl; rewrite Hl; by apply list_subseteq_nil);
    try (by destruct (Hn vid)); unfold sstep in Hs; rewrite Hp in Hs; try done.
  - destruct (versionToInt _); [by injection Hs as <-|].
    destruct (send_inv _ _ _ _ _ _ Hs Hd) as (tx & id & _ & -> & _). intros x Hx. apply elem_of_app. by left.
  - destruct (send_inv _ _ _ _ _ _ Hs Hd) as (tx & id & _ & -> & _). intros x Hx. apply elem_of_app. by left.
  - destruct (send_inv _ _ _ _ _ _ Hs Hd) as (tx & id & _ & -> & _). intros x Hx. apply elem_of_app. by left.
Qed.

Lemma reached_calm t t' c s :
  known t c -> reached t c s -> is_done s = false -> calm (s_log s) t t' -> reached t' c s.
Proof.
  intros Hk Hr. induction Hr as [|s s' Hr IH Hp Hs]; intros Hd Hc; [constructor|].
  destruct (reached_logged _ _ _ Hr) as [Hl Hcall].
  assert (logged t s') as Hl' by (by eapply reached_logged, reached_step).
  pose proof (calm_sub _ _ _ _ (sstep_grows _ _ _ Hl Hp Hs Hd) Hc) as Hc'.
  econstructor; [apply IH; [|done]|done|].
  - unfold is_done. destruct (s_pc s) eqn:E; try done. unfold sstep in Hs. by rewrite E in Hs.
  - eapply sstep_same; [exact Hl| | |done|by rewrite Hcall|done|done|done]; by eapply logged_calm.
Qed.
(** *** The commits are a serial execution *)

Lemma sstep_nowait t waits s x : sstep t waits s = Some x -> sstep t (fun _ => false) s = Some x.
Proof.
  assert (forall a ctx next, send t waits s a ctx next = Some x -> send t (fun _ => false) s a ctx next = Some x) as Hsend.
  { intros a ctx next. unfold send. by destruct (waits a). }
  unfold sstep. destruct (s_pc s); try done; try apply Hsend. destruct (versionToInt _); [done|apply Hsend].
Qed.

Definition tracked (t : tables) (s : session) : Prop := is_done s = true \/ reached t (s_call s) s.

Record serial_ok (t0 : tables) (x : state) : Prop := {
  so_serial : serially t0 (history x) (committed x);
  so_keys : (policy_key <$> policies t0) `prefix_of` (policy_key <$> policies (committed x));
  so_scope : Forall (fun s => scope_ok (s_call s)) (sessions x);
  so_tracked : Forall (tracked (committed x)) (sessions x)
}.

Lemma known_keys t t' c :
  (policy_key <$> policies t) `prefix_of` (policy_key <$> policies t') -> known t c -> known t' c.
Proof.
  intros [l Hl]. unfold known. rewrite (list_fmap_compose policy_key snd (policies t) : p_scope <$> _ = _).
  rewrite (list_fmap_compose policy_key snd (policies t') : p_scope <$> _ = _), Hl, fmap_app. intros Hx.
  apply elem_of_app. by left.
Qed.

Lemma tracked_calm t t' s : known t (s_call s) -> calm (s_log s) t t' -> tracked t s -> tracked t' s.
Proof.
  intros Hk Hc [Hd|Hr]; [by left|]. destruct (is_done s) eqn:Hd; [by left|]. right. by eapply reached_calm.
Qed.

Lemma Forall_insert_other {A} (P Q : A -> Prop) l i x :
  Forall P l -> (forall j y, j <> i -> l !! j = Some y -> P y -> Q y) -> Q x -> Forall Q (<[i := x]> l).
Proof.
  intros Hl Ho Hx. apply Forall_lookup_2. intros j y Hj. destruct (decide (j = i)) as [->|Hn].
  - pose proof (lookup_lt_Some _ _ _ Hj) as Hlt. rewrite length_insert in Hlt.
    rewrite list_lookup_insert_eq in Hj by done. by injection Hj as <-.
  - rewrite list_lookup_insert_ne in Hj by done. eapply Ho; [done|done|]. by apply (Forall_lookup_1 _ _ j y Hl).
Qed.

Lemma commit_serial t0 t ss h i s t' s' :
  serial_ok t0 {| committed := t; sessions := ss; history := h |} -> sound {| committed := t; sessions := ss; history := h |} ->
  Forall (fun s => known t0 (s_call s)) ss -> ss !! i = Some s -> sstep t (waits_for ss i) s = Some (t', s') ->
  commits s = true -> serial_ok t0 {| committed := t'; sessions := <[i := s']> ss; history := h ++ [(s_call s, answer s')] |}.
Proof.
  intros [Hser Hkeys Hsc Htr] [Hl He] Hk Hi Hs Hcm. cbn [committed sessions history] in *.
  pose proof (sstep_cases _ _ _ _ _ (Forall_lookup_1 _ _ i s Hl Hi) Hs) as Hx. rewrite Hcm in Hx.
  destruct Hx as (Ht & Hc & Hlog & r & Hr). apply sstep_nowait in Hs.
  assert (reached t (s_call s) s) as Hreach.
  { destruct (Forall_lookup_1 _ _ i s Htr Hi) as [Hd|]; [|done]. unfold commits, is_done in *. by destruct (s_pc s). }
  pose proof (reached_whole _ _ _ _ _ _ (Forall_lookup_1 _ _ i s Hsc Hi) Hreach Hs Hr) as Hw.
  assert (forall log, (forall a b, a ∈ log -> b ∈ s_log s -> conflict a b = false) -> calm log t t') as Hcalm
    by (intros log Hlg; rewrite Ht; by apply calm_view).
  split; cbn [committed sessions history].
  - unfold answer. rewrite Hr. pose proof (serially_call t0 h t (s_call s) Hser) as Hsc'. by rewrite Hw in Hsc'.
  - etransitivity; [exact Hkeys|]. apply (calm_policies []), Hcalm. intros a b Ha. by apply elem_of_nil in Ha.
  - apply Forall_insert; [done|]. rewrite Hc. by apply (Forall_lookup_1 _ _ i s Hsc).
  - apply (Forall_insert_other (tracked t)); [done| |left; unfold is_done; by rewrite Hr].
    intros j sj Hn Hj. apply tracked_calm.
    + apply (known_keys t0); [done|]. by apply (Forall_lookup_1 _ _ j sj Hk).
    + apply Hcalm. intros a b Ha Hb. by apply (He j i sj s).
Qed.

Lemma step_calls x x' : sound x -> step x x' -> (s_call <$> sessions x) `prefix_of` (s_call <$> sessions x').
Proof.
  intros [Hl _] Hs. destruct Hs as [t ss h c Hsc|t ss h i s t' s' Hi Hs|t ss h t' Hp Hv]; cbn [sessions committed] in *.
  - rewrite fmap_app. by eexists.
  - pose proof (sstep_cases _ _ _ _ _ (Forall_lookup_1 _ _ i s Hl Hi) Hs) as Hx.
    assert (s_call s' = s_call s) as Hc by (destruct (commits s); [by destruct Hx as (_ & ? & _)|by destruct Hx as (_ & _ & ? & _)]).
    rewrite list_fmap_insert, Hc, list_insert_id; [done|]. by rewrite list_lookup_fmap, Hi.
  - done.
Qed.

Lemma known_prefix t0 (ss ss' : list session) :
  (s_call <$> ss) `prefix_of` (s_call <$> ss') -> Forall (fun s => known t0 (s_call s)) ss' ->
  Forall (fun s => known t0 (s_call s)) ss.
Proof.
  intros [l Hl] Hk. assert (Forall (known t0) (s_call <$> ss')) as Hk' by (apply Forall_fmap; exact Hk).
  rewrite Hl in Hk'. apply Forall_app in Hk' as [Hk' _]. rewrite Forall_fmap in Hk'. exact Hk'.
Qed.

Lemma step_serial t0 x x' :
  serial_ok t0 x -> sound x -> Forall (fun s => known t0 (s_call s)) (sessions x) -> step x x' -> serial_ok t0 x'.
Proof.
  intros Hso Hsd Hk Hs. destruct Hs as [t ss h c Hsc|t ss h i s t' s' Hi Hs|t ss h t' Hp Hv].
  - destruct Hso as [Hser Hkeys Hscp Htr]. split; cbn [committed sessions history] in *; try done.
    + apply Forall_app. split; [done|]. by constructor.
    + apply Forall_app. split; [done|]. constructor; [right; constructor|done].
  - unfold record. destruct (commits s) eqn:Hcm; [by eapply commit_serial|].
    destruct Hso as [Hser Hkeys Hscp Htr]. destruct Hsd as [Hl He]. cbn [committed sessions history] in *.
    pose proof (sstep_cases _ _ _ _ _ (Forall_lookup_1 _ _ i s Hl Hi) Hs) as Hx. rewrite Hcm in Hx.
    destruct Hx as (-> & Hlg & Hc & _). apply sstep_nowait in Hs.
    split; cbn [committed sessions history]; try done.
    + apply Forall_insert; [done|]. rewrite Hc. by apply (Forall_lookup_1 _ _ i s Hscp).
    + apply Forall_insert; [done|]. destruct (Forall_lookup_1 _ _ i s Htr Hi) as [Hd|Hr].
      { unfold is_done, sstep in *. by destruct (s_pc s). }
      destruct (is_done s') eqn:Hd; [by left|]. right. rewrite Hc. apply (reached_step _ _ s); [done| |done].
      intros vid Hp. unfold sstep, commits in *. rewrite Hp in *. cbn [db_of faults seq] in Hs.
      destruct (c_faults _ _ _) as [[|]|]; try done. by injection Hs as <-.
  - destruct Hso as [Hser Hkeys Hscp Htr]. split; cbn [committed sessions history] in *; try done.
    + by eapply serially_other.
    + by rewrite Hp.
    + apply Forall_lookup_2. intros j sj Hj. apply (tracked_calm t); [|by apply calm_other|by apply (Forall_lookup_1 _ _ j sj Htr)].
      apply (known_keys t0); [done|]. by apply (Forall_lookup_1 _ _ j sj Hk).
Qed.

Lemma reach_serial t0 x :
  reach t0 x -> Forall (fun s => known t0 (s_call s)) (sessions x) -> serial_ok t0 x.
Proof.
  induction 1 as [|x x' Hx IH Hs]; intros Hk; [split; [constructor|done|constructor..]|].
  pose proof (db_reach_sound _ _ Hx) as Hsd. pose proof (known_prefix _ _ _ (step_calls _ _ Hsd Hs) Hk) as Hk'.
  by apply (step_serial t0 x); [apply IH| | |].
Qed.

(** ** Properties *)

(** C24. Concurrent activations are serializable: when the scopes of the calls
    have a policy to begin with, then whatever statements of however many
    transactions are interleaved, in whatever order, and whichever of them fail,
    the policies and versions committed are those of the committed calls run one
    after the other in the order of their commits, and every caller has the
    answer of that run. *)
Theorem activations_serialize t0 x :
  reach t0 x -> Forall (fun s => known t0 (s_call s)) (sessions x) -> serially t0 (history x) (committed x).
Proof. intros Hx Hk. by destruct (reach_serial _ _ Hx Hk). Qed.

(** C26. Transactions never deadlock: in every state the statements lead to, if some
    transaction is open then some transaction can go on (the rows are locked in
    one order: policy, version, active version). *)
Theorem activations_progress t0 x i s :
  reach t0 x -> sessions x !! i = Some s -> is_done s = false -> exists j s' t2 s2,
    sessions x !! j = Some s' /\ sstep (committed x) (waits_for (sessions x) j) s' = Some (t2, s2).
Proof. intros Hx. apply progress. by eapply db_reach_sound. Qed.

(** C27. An answered activation is committed whole, also where two replicas create the
    policy of a scope at the same time: in the tables the commit leaves, a policy
    of the scope has the version of the answer active, and that version is the
    policy's own, with the number and the hash of the call.  It is a new row with
    the call's source and author; or the row the policy had for that number before
    the commit, which keeps its source and author (the upsert changes the hash
    only). *)
Theorem activation_committed t0 x x' c vid :
  reach t0 x -> step x x' -> history x' = history x ++ [(c, inr vid)] ->
  visible (committed x) (committed x') c vid.
Proof.
  intros Hx Hs Hh. pose proof (db_reach_sound _ _ Hx) as [Hl _].
  assert (forall h : list (call * Res uuid), h <> h ++ [(c, inr vid)]) as Hne
    by (intros h E; apply (f_equal length) in E; rewrite length_app in E; cbn in E; lia).
  destruct Hs as [t ss h c' Hsc|t ss h i s t' s' Hi Hs|t ss h t' Hp Hv]; cbn [history committed sessions] in *;
    try (by destruct (Hne h)).
  unfold record in Hh. destruct (commits s) eqn:Hcm; [|by destruct (Hne h)].
  apply app_inv_head in Hh. injection Hh as <- Ha.
  pose proof (Forall_lookup_1 _ _ i s Hl Hi) as Hls.
  pose proof (sstep_cases _ _ _ _ _ Hls Hs) as Hxx. rewrite Hcm in Hxx. destruct Hxx as (-> & _).
  apply commit_visible; [|done]. unfold commits, sstep in *. destruct (s_pc s); try done. cbn [db_of faults seq] in Hs.
  destruct (c_faults _ _ _) as [[|]|]; try done; injection Hs as <-; cbn in Ha; congruence.
Qed.
(** ** Schedules *)

Inductive act := Open (c : call) | Go (i : nat).

Definition play1 (x : state) (a : act) : option state :=
  match a with
  | Open c =>
      match c_kind c, c_scope c == "default" with
      | Ensure, false => None
      | _, _ => Some {| committed := committed x; sessions := sessions x ++ [open c]; history := history x |}
      end
  | Go i =>
      match sessions x !! i with
      | Some s =>
          match sstep (committed x) (waits_for (sessions x) i) s with
          | Some (t', s') =>
              Some {| committed := t'; sessions := <[i := s']> (sessions x); history := record s s' (history x) |}
          | None => None
          end
      | None => None
      end
  end.

(** An action that is not possible is left out. *)
Fixpoint play (x : state) (acts : list act) : state :=
  match acts with
  | [] => x
  | a :: acts' => play (default x (play1 x a)) acts'
  end.

Lemma db_play1_step x a x' : play1 x a = Some x' -> step x x'.
Proof.
  destruct x as [t ss h]. destruct a as [c|i]; cbn [play1 committed sessions history].
  - destruct (c_kind c) eqn:Hk; [|destruct (c_scope c == "default") eqn:Hs; [|done]]; intros [= <-];
      constructor; unfold scope_ok; rewrite Hk; [done|]. go_bool. done.
  - destruct (ss !! i) as [s|] eqn:Hi; [|done]. destruct (sstep t _ s) as [[t' s']|] eqn:Hs; [|done].
    intros [= <-]. by econstructor.
Qed.

Lemma db_play_reach t0 x acts : reach t0 x -> reach t0 (play x acts).
Proof.
  revert x. induction acts as [|a acts IH]; intros x Hx; [done|]. cbn [play]. apply IH.
  destruct (play1 x a) as [x'|] eqn:Ha; [|done]. cbn [default]. econstructor; [done|]. by eapply db_play1_step.
Qed.

(** ** Witnesses *)

Definition sample_call (k : kind) (version hash : string) (ids : list uuid) : call :=
  {| c_kind := k; c_scope := "default"; c_version := version; c_hash := hash; c_source := "package p"; c_by := "ops";
     c_uuids := fun n => nth n ids Nil; c_faults := fun _ _ => None |}.

Definition sample_tables : tables :=
  set_policies empty_tables [{| p_id := 1%N; p_scope := "default"; p_active_version := None |}].

(** Two publishers: the second UPDATE of the active version waits for the commit
    of the first transaction. *)
Definition sample_acts : list act :=
  [Open (sample_call Activate "7" "h7" [10; 11]%N); Open (sample_call Activate "8" "h8" [20; 21]%N);
   Go 0; Go 1; Go 1; Go 0; Go 0; Go 1; Go 1; Go 0; Go 1; Go 0].

Definition sample_mid : state := play (start sample_tables) sample_acts.
Definition sample_end : state := play sample_mid [Go 1; Go 0; Go 0; Go 0].

Example sample_runs :
  map s_pc (sessions sample_mid) = [AtActive 1%N 11%N; AtCommit 21%N] /\
  map snd (history sample_end) = [inr 21%N; inr 11%N] /\
  p_active_version <$> policies (committed sample_end) = [Some 11%N].
Proof. vm_compute. done. Qed.

Lemma activations_serialize_witness : serially sample_tables (history sample_end) (committed sample_end).
Proof.
  apply (activations_serialize sample_tables sample_end).
  - apply db_play_reach, db_play_reach. constructor.
  - assert (forallb (fun s => c_scope (s_call s) == "default") (sessions sample_end) = true) as Hs by (vm_compute; reflexivity).
    apply Forall_forall. intros s Hin. rewrite forallb_forall in Hs. apply list_elem_of_In, Hs in Hin. go_bool.
    unfold known. rewrite Hin. apply list_elem_of_here.
Defined.

Definition sample_waiting : session := default (open (sample_call Activate "" "" [])) (sessions sample_mid !! 0%nat).

Lemma activations_progress_witness :
  exists j s' t2 s2, sessions sample_mid !! j = Some s' /\
    sstep (committed sample_mid) (waits_for (sessions sample_mid) j) s' = Some (t2, s2).
Proof.
  apply (activations_progress sample_tables sample_mid 0 sample_waiting);
    [apply db_play_reach; constructor|reflexivity|reflexivity].
Defined.

Definition sample_after : state := default sample_mid (play1 sample_mid (Go 1)).

Lemma activation_committed_witness :
  visible (committed sample_mid) (committed sample_after) (sample_call Activate "8" "h8" [20; 21]%N) 21%N.
Proof.
  apply (activation_committed sample_tables sample_mid sample_after);
    [apply db_play_reach; constructor|apply (db_play1_step _ (Go 1)); reflexivity|reflexivity].
Defined.

(** Two replicas that start at the same time on an empty database both find no
    policy and both insert one: nothing keeps scopes unique.  One after the other
    they leave one policy. *)
Example two_policies :
  let a := sample_call Ensure "7" "h7" [0; 10; 11]%N in
  let b := sample_call Ensure "8" "h8" [0; 20; 21]%N in
  let x := play (start empty_tables)
    [Open a; Open b; Go 0; Go 1; Go 0; Go 1; Go 0; Go 1; Go 0; Go 1; Go 0; Go 1; Go 0; Go 1] in
  map snd (history x) = [inr 11%N; inr 21%N] /\
  policy_key <$> policies (committed x) = [(10%N, "default"); (20%N, "default")] /\
  active_rows "default" (committed x) = [("7", "h7"); ("8", "h8")] /\
  policy_key <$> policies (fst (whole (fst (whole empty_tables a)) b)) = [(10%N, "default")].
Proof. vm_compute. done. Qed.

End DbConcurrent.
