(* ===== verification/Production.v ===== *)
(** * The service on one database

    In production the whitelist, the review queue and the audit trail are tables
    of one PostgreSQL database ([cmd/policy-engine/main.go]): the three stores
    hold the same handle.  A state of the service with that wiring has the same
    database in all three places, and each call that changes it through one
    store is followed by [share], which lets the others see it.

    [finalize_db] and [Evaluate_db] are [finalize] and [Evaluate] of
    [evaluate.go] for this wiring; [pstep] is one step of the running service,
    whoever makes it. *)
From Stdlib Require Import ZArith Lia Ascii String SpecFloat.
From stdpp Require Import base gmap strings list relations.
From S2P Require Import Prelude GoLib Float64 Json.
From S2P Require Import Caps Velocity Whitelist Review AuditLog Metrics Engine Evaluate EvaluateProps.
From S2P Require Import Db DbTables DbProps.

Open Scope Z_scope.
Open Scope go_scope.

Module Production.
Import Json Evaluate Db.

Section Production.
Context `{Fmt} `{Audit.Ed25519} `{Postgres} {E C K : Type}
  `{Engine.Engine E} `{Velocity.Counter C} `{Audit.Sink K}.

Abbreviation Svc := (Service E C database database AuditStore K).

(** ** One database behind three stores *)

Definition set_whitelist (s : Svc) (d : database) : Svc :=
  {| engine := engine s; velocity := velocity s; caps := caps s; whitelist := d;
     review := review s; audit := audit s; metrics := metrics s;
     sessionValidDefault := sessionValidDefault s |}.

Definition set_engine (s : Svc) (e : E) : Svc :=
  {| engine := e; velocity := velocity s; caps := caps s; whitelist := whitelist s;
     review := review s; audit := audit s; metrics := metrics s;
     sessionValidDefault := sessionValidDefault s |}.

Definition share_audit (d : database) (a : Audit.Service AuditStore K) : Audit.Service AuditStore K :=
  Audit.set_store a ((fun st => {| adb := d; policyVersionID := policyVersionID st |}) <$> Audit.store a).

Definition share (d : database) (s : Svc) : Svc :=
  set_audit (set_review (set_whitelist s d) ((fun _ => d) <$> review s)) (share_audit d <$> audit s).

(** The database as the audit store and the review store left it. *)
Definition audit_db (s : Svc) : database :=
  match audit s with
  | Some a => match Audit.store a with Some st => adb st | None => whitelist s end
  | None => whitelist s
  end.

Definition review_db (s : Svc) : database := default (whitelist s) (review s).

(** ** The decision path *)

Definition finalize_db (s : Svc) (o : Oracle) (req : Request) (v : verdict)
  : Svc * (Response * option error) :=
  let resp := {| Decision := v_decision v; Reasons := v_reasons v; AppliedRules := v_rules v;
                 PolicyVersion := Engine.eng_Version (engine s); Score := v_score v;
                 DecisionID := new_id o |} in
  let s1 := set_metrics s (count_decision (v_decision v) (metrics s)) in
  let '(s2, err) := emit s1 o req resp in
  let s2 := share (audit_db s2) s2 in
  match err with
  | Some err => (s2, (resp, Some err))
  | None => let s3 := park s2 o resp in (share (review_db s3) s3, (resp, None))
  end.

Definition Evaluate_db (s : Svc) (o : Oracle) (req : Request) : Svc * outcome :=
  match validate req with
  | Some err => (s, Returned zero_response (Some err))
  | None =>
      match route s o req with
      | None => (deferred s o, Panicked)
      | Some (s1, v) =>
          let '(s2, (resp, err)) := finalize_db s1 o req v in
          (deferred s2 o, Returned resp err)
      end
  end.

(** ** The running service

    A request is evaluated, an entry is added or verified, an item is resolved,
    a version is published, the engine is replaced by a reload, or the audit
    worker takes a record off its queue. *)
Inductive pstep : Svc -> Svc -> Prop :=
| p_evaluate s o req s' out :
    Evaluate_db s o req = (s', out) -> pstep s s'
| p_add s now u c a l :
    pstep s (share (fst (Whitelist.Add (whitelist s) now u c a l)) s)
| p_verify s now u c a :
    pstep s (share (fst (Whitelist.Verify (whitelist s) now u c a)) s)
| p_resolve s rv n net now d who res :
    now <> zero_time -> review s = Some rv -> pstep s (share (fst (fst (Review.Resolve rv n net now d who res))) s)
| p_publish s scope version hash source by_ d' res e' m' :
    ActivatePolicyVersion (Some (whitelist s)) scope version hash source by_ = (Some d', res) ->
    pstep s (set_metrics (set_engine (share d' s) e') m')
| p_reload s e' : pstep s (set_engine s e')
| p_work s a a' :
    audit s = Some a -> Audit.work a = Some a' -> pstep s (set_audit s (Some a')).

(** ** Coherence *)

(** All stores are there, on the same database, and the audit service writes
    to its store before it answers. *)
Definition wired (d : database) (pv : uuid) (s : Svc) : Prop :=
  whitelist s = d /\ review s = Some d /\
  exists a, audit s = Some a /\ Audit.syncPersist a = true /\
    Audit.store a = Some {| adb := d; policyVersionID := pv |}.

(** The stores are there, whatever database they hold. *)
Definition handles (pv : uuid) (s : Svc) : Prop :=
  is_Some (review s) /\
  exists a st, audit s = Some a /\ Audit.syncPersist a = true /\ Audit.store a = Some st /\
    policyVersionID st = pv.

Lemma wired_handles d pv s : wired d pv s -> handles pv s.
Proof. intros (_ & Hr & a & Ha & Hsy & Hst). split; [by eexists|]. eauto 10. Qed.

Lemma share_handles d pv s : handles pv s -> wired d pv (share d s).
Proof.
  intros [[r Hr] (a & st & Ha & Hsy & Hst & Hpv)]. unfold share. split_and!; simpl; [done|by rewrite Hr|].
  rewrite Ha. simpl. eexists. split_and!; [done|done|]. unfold share_audit. simpl. by rewrite Hst, <- Hpv.
Qed.

Lemma share_wired d d' pv s : wired d pv s -> wired d' pv (share d' s).
Proof. intros Hw. eapply share_handles, wired_handles, Hw. Qed.

Lemma share_same d pv s : wired d pv s -> share d s = s.
Proof.
  intros (Hw & Hr & a & Ha & Hsy & Hst). unfold share, set_audit, set_review, set_whitelist,
    share_audit, Audit.set_store. destruct s; simpl in *. subst. simpl. f_equal. f_equal.
  destruct a; simpl in *. subst. done.
Qed.

Lemma metrics_wired d pv s m : wired d pv s -> wired d pv (set_metrics s m).
Proof. done. Qed.

Lemma velocity_wired d pv s v : wired d pv s -> wired d pv (set_velocity s v).
Proof. done. Qed.

Lemma deferred_wired d pv s o : wired d pv s -> wired d pv (deferred s o).
Proof. done. Qed.

(** ** The effect of a call on the database *)

Definition audit_store (d : database) (pv : uuid) : AuditStore := {| adb := d; policyVersionID := pv |}.

Lemma aud_Put_version s rec : policyVersionID (fst (aud_Put s rec)) = policyVersionID s.
Proof.
  unfold aud_Put. do 2 (case_bool_decide; [done|]). by destruct (exec _ _ _) as [d' res].
Qed.

(** The error of a failed write is never taken for a full queue. *)
Lemma aud_Put_error s rec s' e : aud_Put s rec = (s', Some e) -> errors_is e AudErrDropped = false.
Proof.
  unfold aud_Put. do 2 (case_bool_decide; [by intros [= <- <-]|]).
  destruct (exec _ _ _) as [d' [er|[]]] eqn:He; intros Hp; simplify_eq.
  apply DbTables.exec_cases in He as (_ & _ & _ & [[_ [x [= ->]]]|(a & _ & [[=]|[x [= ->]]])]);
    destruct x; simpl; try case_bool_decide; done.
Qed.

Lemma Sign_error sg rec e : Audit.Sign sg rec = inl e -> errors_is e AudErrDropped = false.
Proof.
  unfold Audit.Sign, Audit.canonicalJSON, Audit.marshal_record, enc_float, enc_time.
  intros Hs. repeat (go_case_in Hs; simplify_eq/=); done.
Qed.

Lemma enqueue_error (a : Audit.Service AuditStore K) rec a' e :
  Audit.enqueue a rec = (a', Some e) -> errors_is e AudErrDropped = true.
Proof. unfold Audit.enqueue. destruct (_ <? _)%nat; intros [= <- <-]. done. Qed.

(** The record of a call, as the audit service signs it. *)
Definition signed_record (s : Svc) (o : Oracle) (req : Request) (resp : Response) (rec : Audit.DecisionRecord) : Prop :=
  exists a sig, audit s = Some a /\
    Audit.Sign (Audit.signer a) (Audit.stamp (make_record req resp) (emit_now o)) = inr sig /\
    rec = Audit.with_signature (Audit.stamp (make_record req resp) (emit_now o)) sig.

Lemma signed_record_fields s o req resp rec :
  signed_record s o req resp rec ->
  Audit.DecisionID rec = DecisionID resp /\ Audit.Decision rec = Decision resp.
Proof. intros (a & sig & _ & _ & ->). unfold Audit.stamp. by destruct (is_zero_time _). Qed.

(** Emission: either signing fails and nothing is written, or the record is
    put, and the call fails exactly if that does. *)
Lemma emit_db (s : Svc) d pv o req resp s2 err :
  wired d pv s -> emit s o req resp = (s2, err) ->
  (wired d pv s2 /\ err <> None) \/
  exists rec st' e, signed_record s o req resp rec /\
    aud_Put (audit_store d pv) rec = (st', e) /\ (err = None <-> e = None) /\
    audit_db s2 = adb st' /\ wired (adb st') pv (share (adb st') s2).
Proof.
  intros (Hw & Hr & a & Ha & Hsy & Hst). unfold emit. rewrite Ha.
  destruct (Audit.Emit a (emit_now o) (make_record req resp)) as [a' e] eqn:Hem.
  apply Audit.Emit_cases in Hem as [(e1 & Hs & -> & ->)|(sig & Hs & Hrest)].
  { apply Sign_error in Hs. simpl. rewrite Hs. intros [= <- <-]. left. split; [|done].
    split_and!; [done|done|]. exists a. done. }
  set (rec := Audit.with_signature (Audit.stamp (make_record req resp) (emit_now o)) sig) in *.
  cbn zeta in Hrest.
  assert (signed_record s o req resp rec) as Hsr by (by exists a, sig).
  assert (forall a1 st1 (x : option error),
    aud_Put (audit_store d pv) rec = (st1, x) -> Audit.store a1 = Some st1 -> Audit.syncPersist a1 = true ->
    audit_db (set_audit s (Some a1)) = adb st1 /\ wired (adb st1) pv (share (adb st1) (set_audit s (Some a1))))
    as Hwire.
  { intros a1 st1 x Hput Hst1 Hsy1. split; [unfold audit_db; simpl; by rewrite Hst1|].
    apply share_handles. split; [by eexists|]. exists a1, st1. split_and!; [done..|].
    pose proof (aud_Put_version (audit_store d pv) rec) as Hv. by rewrite Hput in Hv. }
  unfold Audit.persist_sync in Hrest. rewrite Hsy, Hst in Hrest. simpl in Hrest.
  fold (audit_store d pv) in Hrest. intros Hret. right.
  destruct (aud_Put (audit_store d pv) rec) as [st' [er|]] eqn:Hput.
  - destruct Hrest as [(e1 & [= <- <-] & ->)|(a1 & [=] & _)].
    pose proof (aud_Put_error _ _ _ _ Hput) as Her. simpl in Hret. rewrite Her in Hret.
    injection Hret as <- <-.
    exists rec, st', (Some er). split_and!; try done. by apply (Hwire _ _ (Some er)).
  - destruct Hrest as [(e1 & [=] & _)|(a1 & [= <-] & Hq)].
    pose proof (Audit.enqueue_shape _ _ _ _ Hq) as ((_ & _ & Hsy1 & _) & Hst1 & _). simpl in Hst1, Hsy1.
    assert (Audit.syncPersist a' = true) as Hsy' by congruence.
    destruct e as [e|]; [rewrite (enqueue_error _ _ _ _ Hq) in Hret|]; injection Hret as <- <-;
      exists rec, st', None; (split_and!; try done); by apply (Hwire _ _ None).
Qed.

(** The item [Park] writes. *)
Definition parked_item (id : string) (now : time) : Review.Item :=
  {| Review.DecisionID := id; Review.TxID := ""; Review.Status := Review.StatusPending;
     Review.AssignedTo := ""; Review.CreatedAt := now; Review.ResolvedAt := None;
     Review.Resolution := "" |}.

Lemma park_db (s : Svc) d pv o resp :
  wired d pv s -> DecisionID resp <> "" ->
  let s3 := park s o resp in
  let d3 := if Decision resp == "manual_review"
            then fst (rev_Put d (parked_item (DecisionID resp) (park_now o))) else d in
  review_db s3 = d3 /\ wired d3 pv (share d3 s3).
Proof.
  intros Hwd Hne. pose proof Hwd as (Hw & Hr & a & Ha & Hsy & Hst). cbn zeta. unfold park.
  case_bool_decide; [rewrite Hr|].
  - unfold Review.Park. rewrite bool_decide_eq_false_2 by done. simpl. fold (parked_item (DecisionID resp) (park_now o)).
    destruct (rev_Put d (parked_item (DecisionID resp) (park_now o))) as [d3 [e|]]; simpl;
      (split; [done|]); apply share_handles; (split; [by eexists|]); simpl; eauto 10.
  - split; [unfold review_db; by rewrite Hr|]. by eapply share_wired.
Qed.

(** A call puts at most one record and, when that succeeded and the decision is
    manual_review, one item under the same id; it answers without an error
    exactly if the record was put. *)
Lemma Evaluate_db_calls (s : Svc) d pv o req s' out :
  wired d pv s -> Evaluate_db s o req = (s', out) ->
  exists cs, wired (adb (DbProps.run_calls (audit_store d pv) cs)) pv s' /\
    match out with
    | Returned resp None =>
        exists rec, signed_record s o req resp rec /\ DecisionID resp = new_id o /\
          snd (aud_Put (audit_store d pv) rec) = None /\
          cs = DbProps.CAuditPut rec ::
               (if Decision resp == "manual_review"
                then [DbProps.CReviewPut (parked_item (DecisionID resp) (park_now o))] else [])
    | _ => cs = [] \/ exists rec, cs = [DbProps.CAuditPut rec]
    end.
Proof.
  intros Hwd. unfold Evaluate_db. destruct (validate req) as [ve|].
  { intros [= <- <-]. exists []. auto. }
  destruct (route s o req) as [[s1 v]|] eqn:Hroute.
  2:{ intros [= <- <-]. exists []. split; [exact Hwd|auto]. }
  assert (wired d pv s1 /\ audit s1 = audit s) as [Hw1 Hau].
  { destruct (caps s) as [cfg|] eqn:Hc; [|unfold route in Hroute; by rewrite Hc in Hroute].
    destruct (EvaluateProps.route_priority s o cfg req Hc) as (v' & w & Hr' & _).
    assert (s1 = set_velocity s v') as -> by congruence. split; [exact Hwd|done]. }
  unfold finalize_db. set (resp := {| Decision := v_decision v |}).
  assert (DecisionID resp = new_id o) as Hnew by done. clearbody resp.
  destruct (emit _ o req resp) as [s2 err] eqn:Hem.
  apply (emit_db _ d pv) in Hem as [[Hw2 Herr]|(rec & st' & e & Hsr & Hput & Hiff & Hadb & Hw2)];
    [..|exact Hw1].
  - destruct err as [err|]; [|done]. intros [= <- <-]. exists []. split; [|auto]. simpl.
    apply deferred_wired. replace (audit_db s2) with d; [by eapply share_wired|].
    destruct Hw2 as (_ & _ & a & Ha & _ & Hst). unfold audit_db. by rewrite Ha, Hst.
  - rewrite Hadb. assert (adb (fst (aud_Put (audit_store d pv) rec)) = adb st') as Hst by (by rewrite Hput).
    destruct err as [err|].
    + intros [= <- <-]. exists [DbProps.CAuditPut rec]. split; [|eauto]. simpl. rewrite Hst.
      by apply deferred_wired.
    + assert (e = None) as -> by (by apply Hiff). clear Hiff.
      pose proof (DbProps.aud_Put_ok _ _ _ Hput) as (Hne & _).
      pose proof (signed_record_fields _ _ _ _ _ Hsr) as [Hid _]. rewrite Hid in Hne.
      assert (signed_record s o req resp rec) as Hsr'
        by (destruct Hsr as (a & sig & Ha & Hs); exists a, sig; split; [by rewrite <- Hau|done]).
      destruct (park_db _ _ _ o resp Hw2 Hne) as [Hrdb Hw3]. rewrite Hrdb.
      intros [= <- <-].
      exists (DbProps.CAuditPut rec :: (if Decision resp == "manual_review"
                then [DbProps.CReviewPut (parked_item (DecisionID resp) (park_now o))] else [])).
      split; [|exists rec; split_and!; try done; by rewrite Hput].
      apply deferred_wired. revert Hw3.
      destruct (Decision resp == "manual_review"); simpl; rewrite Hst; intros Hw3; exact Hw3.
Qed.

(** ** The effect of every step on the database *)

(** What a step may write: the calls it makes, in order, when it finds the
    store [st]. *)
Inductive writes (st : AuditStore) : list DbProps.call -> Prop :=
| w_none : writes st []
| w_add e : writes st [DbProps.CWhitelistAdd e]
| w_verify e : writes st [DbProps.CWhitelistUpdate e]
| w_record rec : writes st [DbProps.CAuditPut rec]
| w_park rec now :
    snd (aud_Put st rec) = None ->
    writes st [DbProps.CAuditPut rec; DbProps.CReviewPut (parked_item (Audit.DecisionID rec) now)]
| w_resolve i now who res :
    Review.valid_resolution res = true -> now <> zero_time ->
    writes st [DbProps.CReviewUpdate (Review.resolve_item i now who res)]
| w_publish scope version hash source by_ :
    writes st [DbProps.CActivate scope version hash source by_].

Lemma Add_writes d pv now u c a l :
  exists cs, writes (audit_store d pv) cs /\
    fst (Whitelist.Add d now u c a l) = adb (DbProps.run_calls (audit_store d pv) cs).
Proof.
  unfold Whitelist.Add. destruct (_ || _); [exists []; split; [constructor|done]|].
  match goal with |- context [Whitelist.store_Add d ?e] =>
    exists [DbProps.CWhitelistAdd e]; split; [constructor|]; simpl;
    destruct (wl_Add d e) as [d' [err|]]; done end.
Qed.

Lemma Verify_writes d pv now u c a :
  exists cs, writes (audit_store d pv) cs /\
    fst (Whitelist.Verify d now u c a) = adb (DbProps.run_calls (audit_store d pv) cs).
Proof.
  unfold Whitelist.Verify. destruct (Whitelist.store_Get d u c a) as [[e|] [err|]];
    try (exists []; split; [constructor|done]).
  case_bool_decide; [exists []; split; [constructor|done]|].
  exists [DbProps.CWhitelistUpdate (Whitelist.mark_verified e now)]. split; [constructor|]. simpl.
  by destruct (wl_Update d _) as [d' [err|]].
Qed.

Lemma Resolve_writes d pv n net now id who res :
  now <> zero_time ->
  exists cs, writes (audit_store d pv) cs /\
    fst (fst (Review.Resolve d n net now id who res)) = adb (DbProps.run_calls (audit_store d pv) cs).
Proof.
  intros Hnow. unfold Review.Resolve. destruct (Review.valid_resolution res) eqn:Hres;
    [simpl|exists []; split; [constructor|done]].
  destruct (rev_Get d id) as [[i|] [err|]]; try (exists []; split; [constructor|done]).
  case_bool_decide; [exists []; split; [constructor|done]|].
  exists [DbProps.CReviewUpdate (Review.resolve_item i now who res)]. split; [by constructor|]. simpl.
  by destruct (rev_Update d _) as [d' [err|]].
Qed.

Lemma writes_version st cs : writes st cs -> policyVersionID (DbProps.run_calls st cs) = policyVersionID st.
Proof.
  destruct 1; try done; exact (aud_Put_version st rec).
Qed.

(** With synchronous persistence the worker does not touch the store. *)
Lemma work_store (a a' : Audit.Service AuditStore K) :
  Audit.work a = Some a' -> Audit.syncPersist a = true ->
  Audit.store a' = Audit.store a /\ Audit.syncPersist a' = true.
Proof.
  unfold Audit.work. destruct (Audit.exited a), (Audit.queue a) as [|rec q]; intros [= <-] Hsy.
  unfold Audit.work_on. simpl. rewrite Hsy. unfold Audit.publish. simpl.
  destruct (Audit.sink a) as [sk|]; [|done]. by destruct (Audit.sink_Publish sk rec) as [sk' [e|]].
Qed.

Lemma pstep_writes s s' d pv :
  wired d pv s -> pstep s s' ->
  exists cs, writes (audit_store d pv) cs /\ wired (adb (DbProps.run_calls (audit_store d pv) cs)) pv s'.
Proof.
  intros Hwd Hstep. pose proof Hwd as (Hw & Hr & a & Ha & Hsy & Hst).
  destruct Hstep as [s o req s' out He|s now u c ad l|s now u c ad|s rv n net now id who res Hnow Hrv
    |s scope version hash source by_ d' res e' m' Hact|s e'|s a0 a' Ha0 Hwork].
  - destruct (Evaluate_db_calls s d pv o req s' out Hwd He) as (cs & Hw' & Hcs). exists cs. split; [|done].
    destruct out as [resp [err|]|];
      [destruct Hcs as [->|[rec ->]]; constructor| |destruct Hcs as [->|[rec ->]]; constructor].
    destruct Hcs as (rec & Hsr & _ & Hput & ->). destruct (signed_record_fields _ _ _ _ _ Hsr) as [<- _].
    destruct (Decision resp == "manual_review"); by constructor.
  - rewrite Hw. destruct (Add_writes d pv now u c ad l) as (cs & Hcs & ->).
    exists cs. split; [done|]. by eapply share_wired.
  - rewrite Hw. destruct (Verify_writes d pv now u c ad) as (cs & Hcs & ->).
    exists cs. split; [done|]. by eapply share_wired.
  - assert (rv = d) as -> by congruence.
    destruct (Resolve_writes d pv n net now id who res Hnow) as (cs & Hcs & ->).
    exists cs. split; [done|]. by eapply share_wired.
  - exists [DbProps.CActivate scope version hash source by_]. split; [constructor|].
    cbn [DbProps.run_calls fold_left DbProps.do_call adb DbProps.with_db audit_store].
    rewrite <- Hw, Hact. cbn [fst default]. exact (share_wired _ d' pv s Hwd).
  - exists []. split; [constructor|exact Hwd].
  - exists []. split; [constructor|]. simpl. assert (a0 = a) as -> by congruence.
    destruct (work_store a a' Hwork Hsy) as [Hst' Hsy']. split_and!; [done|done|].
    exists a'. simpl. split_and!; [done|done|congruence].
Qed.

(** ** The queue in the database *)

(** One row per decision, each of them pending or resolved. *)
Definition queue_fine (t : tables) : Prop :=
  NoDup (q_decision_id <$> review_queue t) /\
  Forall (fun r => Review.item_ok (scanReviewRow r)) (review_queue t).

Definition touches_queue (c : DbProps.call) : bool :=
  match c with DbProps.CReviewPut _ | DbProps.CReviewUpdate _ => true | _ => false end.

Lemma other_calls_queue st c :
  touches_queue c = false ->
  review_queue (tabs (adb (DbProps.do_call st c))) = review_queue (tabs (adb st)).
Proof.
  intros Hc. apply (DbProps.do_call_keeps (fun t => review_queue t = review_queue (tabs (adb st)))); try done.
  - intros r _ t t' x Ht. unfold insert_policy. destruct (existsb _ _); by intros [= <- _].
  - intros r t t' x Ht Hu.
    by apply DbTables.upsert_version_cases in Hu as (_ & [(r0 & _ & _ & -> & ->)|(_ & _ & _ & -> & ->)]).
  - intros v p t t' x Ht. unfold set_active. destruct (existsb _ _); by intros [= <- _].
  - destruct c; try done; simpl; intros; intros t t' x Hq;
      unfold insert_whitelist, update_whitelist, insert_decision;
      repeat (destruct (existsb _ _)); by intros [= <- _].
Qed.

Lemma rev_Put_queue d i :
  let t := tabs d in let t' := tabs (fst (rev_Put d i)) in
  t' = t \/ exists r, review_queue t' = review_queue t ++ [r] /\ q_decision_id r = Review.DecisionID i /\
    (Review.ResolvedAt i = None -> scanReviewRow r =
       {| Review.DecisionID := Review.DecisionID i; Review.TxID := Review.TxID i;
          Review.Status := Review.Status i; Review.AssignedTo := Review.AssignedTo i;
          Review.CreatedAt := timestamptz (Review.CreatedAt i); Review.ResolvedAt := None;
          Review.Resolution := Review.Resolution i |}).
Proof.
  cbn zeta. unfold rev_Put. destruct (exec d _ _) as [d' res] eqn:He.
  replace (fst _) with d' by (by destruct res).
  apply DbTables.exec_cases in He as (_ & _ & _ & [[-> _]|([] & Hrun & _)]); [by left|]. right.
  unfold insert_review in Hrun. repeat (destruct (existsb _ _); try done). injection Hrun as <-. simpl.
  eexists. split; [done|]. split; [done|]. intros Hres. unfold scanReviewRow. simpl.
  rewrite !DbProps.default_nullableText, Hres. done.
Qed.

Lemma rev_Update_queue d i now who res :
  now <> zero_time -> Review.valid_resolution res = true ->
  let i' := Review.resolve_item i now who res in
  let t := tabs d in let t' := tabs (fst (rev_Update d i')) in
  queue_fine t -> queue_fine t'.
Proof.
  cbn zeta. intros Hnow Hres [Hnd Hok]. unfold rev_Update. destruct (exec d _ _) as [d' r] eqn:He.
  replace (fst _) with d' by (by destruct r).
  apply DbTables.exec_cases in He as (_ & _ & _ & [[-> _]|(n & Hrun & _)]); [by split|].
  unfold update_review in Hrun. injection Hrun as <- _. split; simpl.
  - by rewrite DbTables.update_where_keys.
  - unfold update_where. rewrite Forall_fmap. eapply Forall_impl; [exact Hok|]. intros row Hrow. simpl.
    case_bool_decide; [|done]. right. simpl. rewrite DbProps.default_nullableText. split_and!; try done.
    unfold is_zero_time. destruct (now =? zero_time) eqn:Hz; [go_bool; done|]. by eexists.
Qed.

Lemma writes_queue st cs :
  DbProps.store_ok st -> queue_fine (tabs (adb st)) -> writes st cs ->
  queue_fine (tabs (adb (DbProps.run_calls st cs))).
Proof.
  intros Hok Hq. assert (forall c, touches_queue c = false ->
    queue_fine (tabs (adb (DbProps.do_call st c)))) as Hother.
  { intros c Hc. unfold queue_fine. by rewrite other_calls_queue. }
  destruct 1 as [|e|e|rec|rec now Hput|i now who res Hres Hnow|scope version hash source by_];
    [exact Hq|by apply Hother..| | |by apply Hother].
  - set (st1 := DbProps.do_call st (DbProps.CAuditPut rec)).
    assert (aud_Put st rec = (st1, None)) as Hp.
    { unfold st1. simpl. destruct (aud_Put st rec). simpl in *. by subst. }
    apply DbProps.aud_Put_ok in Hp as (_ & _ & _ & _ & Hnew & _).
    assert (review_queue (tabs (adb st1)) = review_queue (tabs (adb st))) as Hsame
      by (by apply other_calls_queue).
    change (queue_fine (tabs (fst (rev_Put (adb st1) (parked_item (Audit.DecisionID rec) now))))).
    destruct (rev_Put_queue (adb st1) (parked_item (Audit.DecisionID rec) now)) as [->|(r & Hr & Hid & Hscan)];
      [unfold queue_fine; by rewrite Hsame|].
    destruct Hq as [Hnd Hitems]. split; rewrite Hr, Hsame.
    + apply DbTables.NoDup_snoc; [done|]. rewrite Hid. intros Hin. apply Hnew.
      by apply (DbTables.sc_q_decision _ (proj1 (proj1 Hok))).
    + apply Forall_app. split; [done|]. constructor; [|done]. rewrite Hscan by done. left. done.
  - simpl. by apply rev_Update_queue.
Qed.

(** ** The invariant of the running service *)

Definition prod_inv (pv : uuid) (s : Svc) : Prop :=
  exists d, wired d pv s /\ DbProps.store_ok (audit_store d pv) /\ queue_fine (tabs d).

Lemma store_of_calls d pv cs :
  writes (audit_store d pv) cs ->
  DbProps.run_calls (audit_store d pv) cs =
  audit_store (adb (DbProps.run_calls (audit_store d pv) cs)) pv.
Proof.
  intros Hcs. pose proof (writes_version _ _ Hcs) as Hv.
  destruct (DbProps.run_calls _ cs) as [d' pv']. simpl in *. by subst.
Qed.

Lemma pstep_inv pv s s' : prod_inv pv s -> pstep s s' -> prod_inv pv s'.
Proof.
  intros (d & Hw & Hok & Hq) Hstep. destruct (pstep_writes s s' d pv Hw Hstep) as (cs & Hcs & Hw').
  exists (adb (DbProps.run_calls (audit_store d pv) cs)). split_and!; [done| |].
  - rewrite <- (store_of_calls d pv cs Hcs). by apply DbProps.run_calls_ok.
  - by apply writes_queue.
Qed.

Lemma psteps_inv pv s s' : prod_inv pv s -> rtc pstep s s' -> prod_inv pv s'.
Proof. intros Hi Hs. induction Hs as [|s s1 s' Hstep _ IH]; [done|]. by apply IH, (pstep_inv pv s). Qed.

(** ** Which version a decision is recorded under *)

Definition recorded_under (pv : uuid) (old : list decision_row) (t : tables) : Prop :=
  forall r, r ∈ policy_decisions t -> r ∈ old \/ d_policy_version r = pv.

Lemma call_recorded_under old st c :
  DbProps.is_policy_call c = false \/ (exists a b x y z, c = DbProps.CActivate a b x y z) ->
  recorded_under (policyVersionID st) old (tabs (adb st)) ->
  recorded_under (policyVersionID st) old (tabs (adb (DbProps.do_call st c))).
Proof.
  intros Hc Hrec.
  assert ((exists rec, c = DbProps.CAuditPut rec) \/ (forall rec, c <> DbProps.CAuditPut rec))
    as [[rec ->]|Hno] by (destruct c; eauto; right; done).
  - simpl. unfold aud_Put. do 2 (case_bool_decide; [done|]).
    destruct (exec _ _ _) as [d' res] eqn:He. simpl.
    apply DbTables.exec_cases in He as (_ & _ & _ & [[-> _]|([] & Hrun & _)]); [done|].
    unfold insert_decision in Hrun. repeat (destruct (existsb _ _); try done). injection Hrun as <-. simpl.
    intros r [Hr| ->%list_elem_of_singleton]%elem_of_app; [by apply Hrec|by right].
  - apply (DbProps.do_call_keeps (recorded_under (policyVersionID st) old)); [..|done].
    + intros r _ t t' x Ht. unfold insert_policy. destruct (existsb _ _); by intros [= <- _].
    + intros r t t' x Ht Hu.
      by apply DbTables.upsert_version_cases in Hu as (_ & [(r0 & _ & _ & -> & ->)|(_ & _ & _ & -> & ->)]).
    + intros v p t t' x Ht. unfold set_active. destruct (existsb _ _); by intros [= <- _].
    + destruct c; try done; simpl; try (by destruct (Hno rec)); intros; intros t t' x Hq;
        unfold insert_whitelist, update_whitelist, insert_review, update_review;
        repeat (destruct (existsb _ _)); by intros [= <- _].
Qed.

Lemma writes_recorded old st cs :
  writes st cs -> recorded_under (policyVersionID st) old (tabs (adb st)) ->
  recorded_under (policyVersionID st) old (tabs (adb (DbProps.run_calls st cs))).
Proof.
  intros Hcs Hr.
  assert (forall c, DbProps.is_policy_call c = false ->
    recorded_under (policyVersionID st) old (tabs (adb (DbProps.do_call st c)))) as Hcall
    by (intros c Hc; apply call_recorded_under; auto).
  destruct Hcs as [|e|e|rec|rec now Hput|i now who res Hv Hn|scope version hash source by_];
    [exact Hr|by apply Hcall..| |by apply Hcall|].
  - specialize (Hcall (DbProps.CAuditPut rec) eq_refl).
    rewrite <- (aud_Put_version st rec) in Hcall |- *.
    apply (call_recorded_under old (fst (aud_Put st rec)) (DbProps.CReviewPut _)); [by left|done].
  - apply call_recorded_under; [right; eauto 10|done].
Qed.

Lemma psteps_recorded pv old s s' d :
  wired d pv s -> recorded_under pv old (tabs d) -> rtc pstep s s' ->
  exists d', wired d' pv s' /\ recorded_under pv old (tabs d').
Proof.
  intros Hw Hr Hs. revert d Hw Hr. induction Hs as [s|s s1 s' Hstep _ IH]; intros d Hw Hr; [eauto|].
  destruct (pstep_writes s s1 d pv Hw Hstep) as (cs & Hcs & Hw1).
  eapply IH; [exact Hw1|]. by apply (writes_recorded old (audit_store d pv)).
Qed.

Lemma wired_unique d d' pv s : wired d pv s -> wired d' pv s -> d = d'.
Proof. intros (<- & _) (<- & _). done. Qed.

(** ** Properties *)

(** C5. Running on PostgreSQL, the service keeps its tables in order whatever
    requests, verifications, resolutions, publications, reloads and database
    faults come in whatever order: all stores work on the same database; its
    constraints hold; no decision is in the review queue twice, although no
    constraint forbids it; and every item is pending or resolved, and belongs to
    a recorded decision. *)
Theorem production_tables_in_order pv s s' :
  prod_inv pv s -> rtc pstep s s' ->
  exists d, whitelist s' = d /\ review s' = Some d /\ audit_db s' = d /\ DbProps.db_ok (tabs d) /\
    NoDup (q_decision_id <$> review_queue (tabs d)) /\
    forall r, r ∈ review_queue (tabs d) ->
      Review.item_ok (scanReviewRow r) /\
      q_decision_id r ∈ d_decision_id <$> policy_decisions (tabs d).
Proof.
  intros Hi Hs. destruct (psteps_inv pv s s' Hi Hs) as (d & (Hw & Hr & a & Ha & _ & Hst) & [Hok _] & [Hnd Hit]).
  exists d. split_and!; [done|done|unfold audit_db; by rewrite Ha, Hst|done|done|].
  intros r Hrin. rewrite Forall_forall in Hit. split; [by apply Hit|].
  apply (DbTables.sc_q_decision _ (proj1 Hok)). apply list_elem_of_fmap. eauto.
Qed.

(** The audit row of an answer, and the store after it. *)
Lemma answer_row s d pv o req s' resp :
  wired d pv s -> Evaluate_db s o req = (s', Returned resp None) ->
  exists st1 rec, signed_record s o req resp rec /\ aud_Put (audit_store d pv) rec = (st1, None) /\
    policy_decisions (tabs (adb st1)) = policy_decisions (tabs d) ++ [decision_row_of pv rec] /\
    review_queue (tabs (adb st1)) = review_queue (tabs d) /\
    faults (adb st1) = faults d /\ uuids (adb st1) = uuids d /\ seq (adb st1) = S (seq d) /\
    wired (if Decision resp == "manual_review"
           then fst (rev_Put (adb st1) (parked_item (DecisionID resp) (park_now o))) else adb st1) pv s'.
Proof.
  intros Hw He. destruct (Evaluate_db_calls s d pv o req s' _ Hw He) as (cs & Hw' & rec & Hsr & _ & Hput & ->).
  destruct (aud_Put (audit_store d pv) rec) as [st1 e1] eqn:Hp. simpl in Hput. subst e1. exists st1, rec.
  pose proof (DbProps.aud_Put_ok _ _ _ Hp) as (_ & _ & _ & _ & _ & Hds). split_and!; [done..| | | | |].
  - pose proof (other_calls_queue (audit_store d pv) (DbProps.CAuditPut rec) eq_refl) as Hq. simpl in Hq. by rewrite Hp in Hq.
  - unfold aud_Put in Hp. do 2 (case_bool_decide; [done|]). destruct (exec _ _ _) as [d1 [e|[]]] eqn:Hx; [done|].
    injection Hp as <-. by apply DbTables.exec_ok in Hx as (_ & _ & ? & _).
  - unfold aud_Put in Hp. do 2 (case_bool_decide; [done|]). destruct (exec _ _ _) as [d1 [e|[]]] eqn:Hx; [done|].
    injection Hp as <-. by apply DbTables.exec_ok in Hx as (_ & _ & _ & ?).
  - unfold aud_Put in Hp. do 2 (case_bool_decide; [done|]). destruct (exec _ _ _) as [d1 [e|[]]] eqn:Hx; [done|].
    injection Hp as <-. by apply DbTables.exec_ok in Hx as (_ & ? & _).
  - simpl in Hw'. rewrite Hp in Hw'. by destruct (Decision resp == "manual_review").
Qed.

(** The insertion of an item that refers to a recorded decision. *)
Lemma rev_Put_item d i :
  NewV7 d ∉ q_id <$> review_queue (tabs d) ->
  Review.DecisionID i ∈ d_decision_id <$> policy_decisions (tabs d) -> Review.ResolvedAt i = None ->
  let d' := fst (rev_Put d i) in
  policy_decisions (tabs d') = policy_decisions (tabs d) /\
  match faults d (seq d) InsertReview with
  | Some (NotExecuted _) => review_queue (tabs d') = review_queue (tabs d)
  | _ => exists q, review_queue (tabs d') = review_queue (tabs d) ++ [q] /\
      scanReviewRow q =
        {| Review.DecisionID := Review.DecisionID i; Review.TxID := Review.TxID i;
           Review.Status := Review.Status i; Review.AssignedTo := Review.AssignedTo i;
           Review.CreatedAt := timestamptz (Review.CreatedAt i); Review.ResolvedAt := None;
           Review.Resolution := Review.Resolution i |}
  end.
Proof.
  intros Hid Hdec Hres. cbn zeta. unfold rev_Put. match goal with |- context [insert_review ?r] => set (row := r) end.
  assert (insert_review row (tabs d) = inr (set_queue (tabs d) (review_queue (tabs d) ++ [row]), tt)) as Hins.
  { unfold insert_review.
    replace (existsb _ (review_queue _)) with false by (symmetry; by apply DbTables.existsb_key_false).
    by replace (existsb _ (policy_decisions _)) with true by (symmetry; by apply DbTables.existsb_key). }
  assert (scanReviewRow row = {| Review.DecisionID := Review.DecisionID i; Review.TxID := Review.TxID i;
           Review.Status := Review.Status i; Review.AssignedTo := Review.AssignedTo i;
           Review.CreatedAt := timestamptz (Review.CreatedAt i); Review.ResolvedAt := None;
           Review.Resolution := Review.Resolution i |}) as Hscan
    by (unfold row, scanReviewRow; simpl; by rewrite !DbProps.default_nullableText, Hres).
  unfold exec. rewrite Hins. destruct (faults d (seq d) InsertReview) as [[e|e]|]; simpl; eauto.
Qed.

(** C6. An answer without an error is stored, whatever the database does: its
    decision is the last row of the audit table, under the version the process
    started with.  For manual_review the insertion of the item follows, and its
    error is dropped: a pending item for the decision is the last row of the review
    queue, unless that statement was not executed, and then the queue is as before.
    Other decisions leave the queue alone.  The id made for the item is assumed to
    be new. *)
Theorem answer_is_stored s d pv o req s' resp :
  wired d pv s -> (forall n, uuids d n ∉ q_id <$> review_queue (tabs d)) ->
  Evaluate_db s o req = (s', Returned resp None) ->
  exists d' row, wired d' pv s' /\
    policy_decisions (tabs d') = policy_decisions (tabs d) ++ [row] /\
    d_decision_id row = DecisionID resp /\ d_decision row = Decision resp /\ d_policy_version row = pv /\
    if Decision resp == "manual_review" then
      match faults d (S (seq d)) InsertReview with
      | Some (NotExecuted _) => review_queue (tabs d') = review_queue (tabs d)
      | _ => exists q, review_queue (tabs d') = review_queue (tabs d) ++ [q] /\
          scanReviewRow q = parked_item (DecisionID resp) (timestamptz (park_now o))
      end
    else review_queue (tabs d') = review_queue (tabs d).
Proof.
  intros Hw Hfr He. destruct (answer_row s d pv o req s' resp Hw He)
    as (st1 & rec & Hsr & _ & Hds & Hq1 & Hf & Hu & Hsq & Hw').
  destruct (signed_record_fields _ _ _ _ _ Hsr) as [Hid Hdec].
  eexists _, (decision_row_of pv rec). split; [exact Hw'|].
  destruct (Decision resp == "manual_review"); [|by split_and!].
  destruct (rev_Put_item (adb st1) (parked_item (DecisionID resp) (park_now o))) as [Hsame Hitem]; [| |done|].
  - unfold NewV7. rewrite Hq1, Hu. apply Hfr.
  - rewrite Hds, fmap_app, <- Hid. apply elem_of_app. right. by left.
  - rewrite Hsq, Hf in Hitem. rewrite Hsame. split_and!; try done. rewrite <- Hq1.
    by destruct (faults d (S (seq d)) InsertReview) as [[|]|].
Qed.

(** C8. A decision is on the audit trail, signed, before it is answered: on
    PostgreSQL, the only store that production writes to before it answers, an
    answer without an error means that the last row of the audit table has the
    response's id, decision, reasons, rules and score, the hash of the request, the
    time of the emission as the column keeps it, and a signature that verifies for
    the record the service signed, which is that of the response with its policy
    version.  (Read back, the row gives another record, with the number of the
    stored version and the column's time, for which the signature does not verify:
    [DbProps.signed_text_lost].) *)
Theorem decision_recorded_signed (Hed : Audit.Ed25519Ok) s d pv o req s' resp a :
  wired d pv s -> audit s = Some a -> Audit.signer_ok (Audit.signer a) ->
  Evaluate_db s o req = (s', Returned resp None) ->
  exists d' row sig, wired d' pv s' /\ policy_decisions (tabs d') = policy_decisions (tabs d) ++ [row] /\
    d_decision_id row = DecisionID resp /\ d_decision row = Decision resp /\
    d_reasons row = elems (Reasons resp) /\ d_applied_rules row = ID <$> elems (AppliedRules resp) /\
    d_score row = Score resp /\ d_request_hash row = Audit.RequestHash (toAuditReq req) /\
    d_created_at row = timestamptz (emit_now o) /\ d_signature row = Some sig /\
    Audit.Verify (Audit.signer a)
      {| Audit.DecisionID := DecisionID resp; Audit.PolicyVersion := PolicyVersion resp;
         Audit.RequestHash_ := Audit.RequestHash (toAuditReq req); Audit.Decision := Decision resp;
         Audit.Reasons := Reasons resp; Audit.AppliedRules := Audit.AppliedRules (make_record req resp);
         Audit.Score := Score resp; Audit.CreatedAt := emit_now o; Audit.Signature := sig |} = None.
Proof.
  intros Hw Ha Hsg He. destruct (answer_row s d pv o req s' resp Hw He)
    as (st1 & rec & (a0 & sig & Ha0 & Hsig & Hrec) & _ & Hds & _ & _ & _ & _ & Hw').
  assert (a0 = a) as -> by congruence.
  pose proof (Audit.Sign_Verify _ _ _ Hsg Hsig) as Hver. rewrite <- Hrec in Hver.
  assert (sig <> "") as Hne by (by eapply Audit.Sign_nonempty).
  eexists _, (decision_row_of pv rec), sig. split; [exact Hw'|].
  assert (policy_decisions (tabs (if Decision resp == "manual_review"
    then fst (rev_Put (adb st1) (parked_item (DecisionID resp) (park_now o))) else adb st1))
    = policy_decisions (tabs (adb st1))) as ->.
  { destruct (Decision resp == "manual_review"); [|done].
    unfold rev_Put. destruct (exec _ _ _) as [d1 [e|[]]] eqn:Hx; simpl;
      apply DbTables.exec_cases in Hx as (_ & _ & _ & [[-> _]|([] & Hrun & _)]); try done;
      unfold insert_review in Hrun; repeat (destruct (existsb _ _); try done); by injection Hrun as <-. }
  assert (rec = {| Audit.DecisionID := DecisionID resp; Audit.PolicyVersion := PolicyVersion resp;
         Audit.RequestHash_ := Audit.RequestHash (toAuditReq req); Audit.Decision := Decision resp;
         Audit.Reasons := Reasons resp; Audit.AppliedRules := Audit.AppliedRules (make_record req resp);
         Audit.Score := Score resp; Audit.CreatedAt := emit_now o; Audit.Signature := sig |}) as Heq by done.
  rewrite Heq in Hds, Hver |- *. split_and!; try done.
  - exact (elems_append_all None _).
  - simpl. unfold nullableText. by rewrite bool_decide_eq_false_2.
Qed.

(** The version recorded with a decision is the one of the policy the process
    started with: whatever policies are published or reloaded afterwards, each
    decision made is stored under that version. *)
Theorem decisions_recorded_under_boot_version pv s s' d d' r :
  wired d pv s -> rtc pstep s s' -> wired d' pv s' ->
  r ∈ policy_decisions (tabs d') -> r ∈ policy_decisions (tabs d) \/ d_policy_version r = pv.
Proof.
  intros Hw Hs Hw' Hr.
  destruct (psteps_recorded pv (policy_decisions (tabs d)) s s' d Hw) as (d2 & Hw2 & Hrec);
    [by left|done|]. rewrite (wired_unique d' d2 pv s' Hw' Hw2) in Hr. by apply Hrec.
Qed.

End Production.

(** ** A concrete service *)

Abbreviation SampleProd := (@Service Audit.sample_ed (@Engine.OPAEngine Engine.sample_opa)
  Velocity.MemoryCounter database database AuditStore Audit.MemorySink).

Definition sample_entry : Whitelist.Entry :=
  {| Whitelist.UserID := "usr_1"; Whitelist.Chain := "ethereum"; Whitelist.Address := "0xabc";
     Whitelist.Label := "wallet"; Whitelist.Status := Whitelist.StatusVerified;
     Whitelist.VerifiedAt := 2000; Whitelist.CreatedAt := 1000 |}.

(** The database after start-up, with one verified address. *)
Definition sample_store : AuditStore :=
  @DbProps.run_calls DbProps.sample_pg (NewAuditStore DbProps.sample_database)
    [DbProps.CEnsureVersion "v1" "v1" "" "policy-engine"; DbProps.CWhitelistAdd sample_entry].

Definition sample_engine (version flag : string) : @Engine.OPAEngine Engine.sample_opa :=
  @Engine.NewOPAEngine Engine.sample_opa (Engine.sample_bundle version flag).

Definition sample_prod (flag : string) : SampleProd :=
  @NewService Audit.sample_ed _ _ _ _ _ _ (sample_engine "v1" flag)
    (Some Velocity.NewMemoryCounter) (Some (Caps.DefaultConfig EvaluateProps.no_env))
    (adb sample_store) (Some (adb sample_store))
    (Some (Audit.WithSyncPersist (@Audit.NewService Audit.sample_ed AuditStore Audit.MemorySink
       Audit.sample_signer (Some sample_store) (Some Audit.NewMemorySink) 16)))
    Metrics.zero.

Lemma sample_store_ok : DbProps.store_ok sample_store.
Proof. apply DbProps.run_calls_ok. split; [apply DbProps.new_database_ok|done]. Qed.

Lemma sample_prod_wired flag : wired (adb sample_store) 3%N (sample_prod flag).
Proof. split_and!; [done|done|]. eexists. split_and!; [done|done|]. vm_compute. reflexivity. Qed.

Lemma sample_prod_inv flag : prod_inv 3%N (sample_prod flag).
Proof.
  exists (adb sample_store). split; [apply sample_prod_wired|]. split; [exact sample_store_ok|].
  split; [apply NoDup_nil_2|constructor].
Qed.

Abbreviation SampleEvaluate_db :=
  (@Evaluate_db Audit.sample_fmt Audit.sample_ed DbProps.sample_pg _ _ _ _ _).
Abbreviation sample_pstep := (@pstep Audit.sample_fmt Audit.sample_ed DbProps.sample_pg _ _ _ _ _ _).

Definition sample_call (s : SampleProd) : SampleProd * outcome :=
  SampleEvaluate_db s (EvaluateProps.sample_oracle 10000 "dec_1") (EvaluateProps.sample_req "100.00").

Lemma sample_call_step s : sample_pstep s (fst (sample_call s)).
Proof.
  apply (p_evaluate s (EvaluateProps.sample_oracle 10000 "dec_1") (EvaluateProps.sample_req "100.00")
    _ (snd (sample_call s))).
  unfold sample_call. by destruct (SampleEvaluate_db _ _ _).
Qed.

Lemma production_tables_in_order_witness :
  let s' := fst (sample_call (sample_prod "manual_review")) in
  exists d, whitelist s' = d /\ review s' = Some d /\ audit_db s' = d /\ DbProps.db_ok (tabs d) /\
    NoDup (q_decision_id <$> review_queue (tabs d)) /\
    forall r, r ∈ review_queue (tabs d) ->
      Review.item_ok (scanReviewRow r) /\
      q_decision_id r ∈ d_decision_id <$> policy_decisions (tabs d).
Proof.
  apply (@production_tables_in_order Audit.sample_fmt Audit.sample_ed DbProps.sample_pg _ _ _ _ _ _ 3%N
    (sample_prod "manual_review")); [apply sample_prod_inv|]. apply rtc_once, sample_call_step.
Defined.

Definition sample_response (r : SampleProd * outcome) : Response :=
  match snd r with Returned resp _ => resp | Panicked => zero_response end.

Lemma answer_is_stored_witness :
  let r := sample_call (sample_prod "manual_review") in
  exists d' row, wired d' 3%N (fst r) /\ policy_decisions (tabs d') = [row] /\
    d_decision_id row = "dec_1" /\ d_decision row = "manual_review" /\ d_policy_version row = 3%N /\
    exists q, review_queue (tabs d') = [q] /\ scanReviewRow q = parked_item "dec_1" 10000.
Proof.
  cbn zeta.
  apply (@answer_is_stored Audit.sample_fmt Audit.sample_ed DbProps.sample_pg _ _ _ _ _
    (sample_prod "manual_review") (adb sample_store) 3%N (EvaluateProps.sample_oracle 10000 "dec_1")
    (EvaluateProps.sample_req "100.00") _ (sample_response (sample_call (sample_prod "manual_review"))));
    [apply sample_prod_wired| |vm_compute; reflexivity].
  intros n. apply not_elem_of_nil.
Defined.

Lemma decision_recorded_signed_witness :
  exists d' row sig, wired d' 3%N (fst (sample_call (sample_prod "allow"))) /\
    policy_decisions (tabs d') = [row] /\ d_decision_id row = "dec_1" /\ d_decision row = "allow" /\
    d_signature row = Some sig.
Proof.
  destruct (@decision_recorded_signed Audit.sample_fmt Audit.sample_ed DbProps.sample_pg _ _ _ _ _ Audit.sample_ed_ok
    (sample_prod "allow") (adb sample_store) 3%N (EvaluateProps.sample_oracle 10000 "dec_1")
    (EvaluateProps.sample_req "100.00") (fst (sample_call (sample_prod "allow")))
    (sample_response (sample_call (sample_prod "allow")))
    (Audit.WithSyncPersist (@Audit.NewService Audit.sample_ed AuditStore Audit.MemorySink
       Audit.sample_signer (Some sample_store) (Some Audit.NewMemorySink) 16)))
    as (d' & row & sig & Hw & Hp & Hid & Hdec & _ & _ & _ & _ & _ & Hs & _);
    [apply sample_prod_wired|reflexivity|reflexivity|vm_compute; reflexivity|].
  exists d', row, sig. exact (conj Hw (conj Hp (conj Hid (conj Hdec Hs)))).
Defined.

(** The insertion of the item fails: the answer is manual_review without an error,
    the decision is recorded, and nobody will review it. *)
Definition sample_unparked : SampleProd * outcome :=
  let d := adb sample_store in
  let d' := {| tabs := tabs d; seq := seq d;
               faults := fun _ q => match q with InsertReview => Some (NotExecuted (Driver "EOF")) | _ => None end;
               uuids := uuids d |} in
  sample_call (share d' (sample_prod "manual_review")).

Example park_error_dropped :
  match snd sample_unparked with
  | Returned resp err => (Decision resp, err) = ("manual_review", None)
  | Panicked => False
  end /\
  length (policy_decisions (tabs (whitelist (fst sample_unparked)))) = 1%nat /\
  review_queue (tabs (whitelist (fst sample_unparked))) = [].
Proof. vm_compute. done. Qed.

(** A policy is reloaded before the decision is made. *)
Lemma decisions_recorded_under_boot_version_witness :
  let s := set_engine (sample_prod "allow") (sample_engine "v2" "allow") in
  let s' := fst (sample_call s) in
  match snd (sample_call s) with
  | Returned resp _ => PolicyVersion resp = "v2"
  | Panicked => False
  end /\
  exists r, policy_decisions (tabs (whitelist s')) = [r] /\
    (r ∈ policy_decisions (tabs (adb sample_store)) \/ d_policy_version r = 3%N).
Proof.
  cbn zeta. split; [vm_compute; reflexivity|].
  set (s' := fst (sample_call (set_engine (sample_prod "allow") (sample_engine "v2" "allow")))).
  destruct (policy_decisions (tabs (whitelist s'))) as [|r l] eqn:Hr; [vm_compute in Hr; discriminate|].
  assert (l = []) as -> by (apply (f_equal (fun x => tail x)) in Hr; vm_compute in Hr; by rewrite <- Hr).
  exists r. split; [done|].
  apply (@decisions_recorded_under_boot_version Audit.sample_fmt Audit.sample_ed DbProps.sample_pg _ _ _ _ _ _
    3%N (sample_prod "allow") s' (adb sample_store) (whitelist s')).
  - apply sample_prod_wired.
  - eapply rtc_l; [apply p_reload|]. apply rtc_once, sample_call_step.
  - split_and!; [done|vm_compute; reflexivity|].
    eexists. split_and!; [vm_compute; reflexivity|reflexivity|vm_compute; reflexivity].
  - rewrite Hr. by left.
Defined.

End Production.
