(* ===== verification/Traffic.v ===== *)
(** * The transports on the shared database

    The handlers of package [api] for the services that [buildServices] makes in
    production: evaluate service, whitelist, review queue and audit trail, and
    the handle for publishing are all on one database.  A request is served by
    the handlers of [Api]; what it changed through the handle of its handler is
    then seen through all the others ([share_services]).

    [tstep] is what happens to the running process: REST and gRPC requests,
    reloads and turns of the audit worker.  Every such step is simulated by the
    steps of [Production]. *)
From Stdlib Require Import ZArith Lia Ascii String SpecFloat.
From stdpp Require Import base gmap strings list relations.
From S2P Require Import Prelude GoLib Float64 Json.
From S2P Require Import Caps Velocity Whitelist Review AuditLog Metrics Engine Evaluate EvaluateProps.
From S2P Require Import Auth Api ApiProps Db DbTables DbProps Production.

Open Scope Z_scope.
Open Scope go_scope.

Module Traffic.
Import Json Db Api.

(** [db.ActivatePolicyVersion] behind the rules endpoint. *)
#[global] Instance database_PolicyDB : PolicyDB database := {
  ActivatePolicyVersion := fun d scope version hash source by_ =>
    match Db.ActivatePolicyVersion (Some d) scope version hash source by_ with
    | (d', res) => (default d d', match res with inl err => Some err | inr _ => None end)
    end }.

Section Traffic.
Context `{Fmt} `{Audit.Ed25519} `{Engine.OPA} `{Auth.Decoder} `{BodyDecoder} `{Postgres}
  {C K : Type} `{Velocity.Counter C} `{Audit.Sink K}.

(** The evaluate service whose stores share the database. *)
#[local] Instance shared_evaluator
  : Evaluate.Evaluator (Evaluate.Service Engine.OPAEngine C database database AuditStore K) | 0 := {|
  Evaluate.evaluate := Production.Evaluate_db |}.

Abbreviation Svcs := (@Services _ _ C database database AuditStore K database).

Definition share_services (d : database) (s : Svcs) : Svcs :=
  with_db (with_eval s (Production.share d (Evaluate_ s))) d.

(** The database behind the handle a route changes. *)
Definition left_db (t : target) (s : Svcs) : database :=
  match t with
  | RResolveReview _ => Production.review_db (Evaluate_ s)
  | RPublishRules => default (Evaluate.whitelist (Evaluate_ s)) (DB s)
  | _ => Evaluate.whitelist (Evaluate_ s)
  end.

Definition serve_db (s : Svcs) (w : world) (r : Auth.http_request) : Svcs * answer :=
  let '(s', a) := serve s w r in (share_services (left_db (mux r) s') s', a).

Definition grpc_db (s : Svcs) (w : world) (req : EvaluateRequest) : Svcs * grpc_answer :=
  let '(s', a) := grpc_Evaluate s w req in
  (share_services (Evaluate.whitelist (Evaluate_ s')) s', a).

(** The clock of a request does not show the zero time. *)
Inductive tstep : Svcs -> Svcs -> Prop :=
| t_rest s w r : w_now w <> zero_time -> tstep s (fst (serve_db s w r))
| t_grpc s w req : tstep s (fst (grpc_db s w req))
| t_reload s e' : tstep s (with_eval s (Production.set_engine (Evaluate_ s) e'))
| t_work s a a' :
    Evaluate.audit (Evaluate_ s) = Some a -> Audit.work a = Some a' ->
    tstep s (with_eval s (Evaluate.set_audit (Evaluate_ s) (Some a'))).

(** All handles are on the database [d]. *)
Definition on_database (d : database) (pv : uuid) (s : Svcs) : Prop :=
  Production.wired d pv (Evaluate_ s) /\ DB s = Some d.

Abbreviation psteps := (rtc (Production.pstep (E := Engine.OPAEngine) (C := C) (K := K))).

(** ** Simulation *)

Lemma share_services_same d pv s : on_database d pv s -> share_services d s = s.
Proof.
  intros [Hw Hd]. unfold share_services. rewrite (Production.share_same d pv) by done.
  destruct s; unfold with_db, with_eval; simpl in *. by subst.
Qed.

Lemma left_db_same d pv s t : on_database d pv s -> left_db t s = d.
Proof.
  intros [(Hw & Hr & _) Hd]. unfold left_db, Production.review_db. rewrite Hd, Hr, Hw. by destruct t.
Qed.

(** A handler that did nothing leaves everything as it was. *)
Lemma unchanged_steps d pv s t :
  on_database d pv s -> psteps (Evaluate_ s) (Evaluate_ (share_services (left_db t s) s)).
Proof. intros Hs. rewrite (left_db_same d pv), (share_services_same d pv) by done. apply rtc_refl. Qed.

(** An evaluation is a step, whoever asks for it. *)
Lemma evaluate_steps d pv s o req e' out t :
  on_database d pv s -> t = REvaluate -> Production.Evaluate_db (Evaluate_ s) o req = (e', out) ->
  psteps (Evaluate_ s) (Evaluate_ (share_services (left_db t (with_eval s e')) (with_eval s e'))).
Proof.
  intros [Hw Hd] -> He. destruct (Production.Evaluate_db_calls _ _ _ _ _ _ _ Hw He) as (cs & Hw' & _).
  simpl. pose proof Hw' as (-> & _). rewrite (Production.share_same _ pv) by exact Hw'.
  apply rtc_once. by econstructor.
Qed.

Lemma add_steps d pv s w r :
  on_database d pv s ->
  let s' := fst (addWhitelistHandler s w r) in
  psteps (Evaluate_ s) (Evaluate_ (share_services (left_db RAddWhitelist s') s')).
Proof.
  intros Hs. unfold addWhitelistHandler. destruct (decodeJSON _ _) as [|req]; [by eapply unchanged_steps|].
  case_bool_decide; [by eapply unchanged_steps|].
  pose proof (Production.p_add (Evaluate_ s) (w_now w) (a_UserID req) (a_Chain req) (a_Address req)
    (a_Label req)) as Hstep.
  destruct (Whitelist.Add _ _ _ _ _ _) as [wl [e [err|]]]; apply rtc_once; exact Hstep.
Qed.

Lemma verify_steps d pv s w r u :
  on_database d pv s ->
  let s' := fst (verifyWhitelistHandler s w r u) in
  psteps (Evaluate_ s) (Evaluate_ (share_services (left_db (RVerifyWhitelist u) s') s')).
Proof.
  intros Hs. unfold verifyWhitelistHandler. destruct (decodeJSON _ _) as [|req]; [by eapply unchanged_steps|].
  pose proof (Production.p_verify (Evaluate_ s) (w_now w) u (v_Chain req) (v_Address req)) as Hstep.
  destruct (Whitelist.Verify _ _ _ _ _) as [wl [e [err|]]]; apply rtc_once; exact Hstep.
Qed.

Lemma resolve_steps d pv s w r id :
  on_database d pv s -> w_now w <> zero_time ->
  let s' := fst (resolveReviewHandler s w r id) in
  psteps (Evaluate_ s) (Evaluate_ (share_services (left_db (RResolveReview id) s') s')).
Proof.
  intros Hs Hnow. unfold resolveReviewHandler. case_bool_decide; [by eapply unchanged_steps|].
  destruct (decodeJSON _ _) as [|req]; [by eapply unchanged_steps|].
  pose proof Hs as [(_ & Hr & _) _]. rewrite Hr.
  pose proof (Production.p_resolve (Evaluate_ s) d (Notifier s) (w_net w) (w_now w) id (r_Assignee req)
    (r_Resolution req) Hnow Hr) as Hstep.
  destruct (Review.Resolve _ _ _ _ _ _ _) as [[rv [i [err|]]] posts]; apply rtc_once;
    unfold Production.share in Hstep |- *; rewrite Hr in Hstep; exact Hstep.
Qed.

Lemma publish_steps d pv s r :
  on_database d pv s ->
  let s' := fst (publishRulesHandler s r) in
  psteps (Evaluate_ s) (Evaluate_ (share_services (left_db RPublishRules s') s')).
Proof.
  intros Hs. unfold publishRulesHandler. destruct (Auth.Body r) as [|text]; [by eapply unchanged_steps|].
  case_bool_decide; [by eapply unchanged_steps|].
  destruct (HasEngine s); [|by eapply unchanged_steps].
  destruct (publishBundle _ text) as [|b]; [by eapply unchanged_steps|].
  unfold store_version. pose proof Hs as [(Hw & _) Hd]. rewrite Hd. cbn [ActivatePolicyVersion database_PolicyDB].
  destruct (Db.ActivatePolicyVersion (Some d) _ _ _ _ _) as [[d'|] res] eqn:Ha.
  2:{ unfold Db.ActivatePolicyVersion in Ha. destruct (_ == ""); [done|]. by destruct (transaction _ _). }
  rewrite <- Hw in Ha.
  pose proof (fun e m => Production.p_publish (Evaluate_ s) _ _ _ _ _ d' res e m Ha) as Hstep.
  destruct res as [err|vid]; [|destruct (EqualFoldASCII _ _)]; apply rtc_once; apply Hstep.
Qed.

Lemma run_evaluate_steps d pv s w req :
  on_database d pv s ->
  let s' := fst (run_evaluate s w req) in
  psteps (Evaluate_ s) (Evaluate_ (share_services (left_db REvaluate s') s')).
Proof.
  intros Hs. unfold run_evaluate. cbn [Evaluate.evaluate shared_evaluator].
  destruct (Production.Evaluate_db _ _ _) as [e' out] eqn:He.
  destruct out as [resp [err|]|]; by eapply evaluate_steps.
Qed.

Lemma evaluate_handler_steps d pv s w r :
  on_database d pv s ->
  let s' := fst (evaluateHandler s w r) in
  psteps (Evaluate_ s) (Evaluate_ (share_services (left_db REvaluate s') s')).
Proof.
  intros Hs. unfold evaluateHandler. destruct (decodeJSON _ _) as [|req]; [by eapply unchanged_steps|].
  destruct (Auth s) as [c|]; [|by eapply run_evaluate_steps].
  destruct (Auth.Enabled _); [|by eapply run_evaluate_steps].
  destruct (Auth.validateBearer _ _ _); [by eapply unchanged_steps|by eapply run_evaluate_steps].
Qed.

Lemma serve_steps d pv s w r :
  on_database d pv s -> w_now w <> zero_time ->
  psteps (Evaluate_ s) (Evaluate_ (fst (serve_db s w r))).
Proof.
  intros Hs Hnow. unfold serve_db.
  assert (let s' := fst (serve s w r) in
    psteps (Evaluate_ s) (Evaluate_ (share_services (left_db (mux r) s') s'))) as Hsteps.
  { cbn zeta. unfold serve. destruct (Auth.authMiddleware _ _ _); [by eapply unchanged_steps|].
    unfold dispatch. destruct (mux r); try by eapply unchanged_steps.
    - by eapply evaluate_handler_steps.
    - by eapply add_steps.
    - by eapply verify_steps.
    - by eapply resolve_steps.
    - by eapply publish_steps. }
  by destruct (serve s w r).
Qed.

Lemma grpc_steps d pv s w req :
  on_database d pv s -> psteps (Evaluate_ s) (Evaluate_ (fst (grpc_db s w req))).
Proof.
  intros Hs. unfold grpc_db, grpc_Evaluate. cbn [Evaluate.evaluate shared_evaluator].
  destruct (Production.Evaluate_db _ _ _) as [e' out] eqn:He.
  pose proof (evaluate_steps d pv s _ _ e' out REvaluate Hs eq_refl He) as Hsteps.
  by destruct out as [resp [err|]|].
Qed.

Lemma psteps_wired d pv e e' :
  Production.wired d pv e -> psteps e e' -> exists d', Production.wired d' pv e'.
Proof.
  intros Hw Hs. revert d Hw. induction Hs as [e|e e1 e' Hstep _ IH]; intros d Hw; [eauto|].
  destruct (Production.pstep_writes e e1 d pv Hw Hstep) as (cs & _ & Hw1). eauto.
Qed.

(** After sharing, publishing goes to the database the stores are on. *)
Lemma shared_on_database d pv s d' s' :
  on_database d pv s -> psteps (Evaluate_ s) (Evaluate_ (share_services d' s')) ->
  on_database d' pv (share_services d' s').
Proof.
  intros [Hw _] Hs. destruct (psteps_wired d pv _ _ Hw Hs) as (d2 & Hw2).
  pose proof Hw2 as (Hd & _). simpl in Hd. subst d2. by split.
Qed.

Lemma tstep_simulated d pv s s' :
  on_database d pv s -> tstep s s' ->
  psteps (Evaluate_ s) (Evaluate_ s') /\ exists d', on_database d' pv s'.
Proof.
  intros Hs Hstep. destruct Hstep as [s w r Hnow|s w req|s e'|s a a' Ha Hwork].
  - pose proof (serve_steps d pv s w r Hs Hnow) as Hsteps. split; [done|].
    unfold serve_db in *. destruct (serve s w r) as [s1 a]. simpl in *.
    eexists. by eapply shared_on_database.
  - pose proof (grpc_steps d pv s w req Hs) as Hsteps. split; [done|].
    unfold grpc_db in *. destruct (grpc_Evaluate s w req) as [s1 a]. simpl in *.
    eexists. by eapply shared_on_database.
  - split; [apply rtc_once; constructor|]. exists d. exact Hs.
  - split; [by apply rtc_once; econstructor|]. exists d. destruct Hs as [Hw Hd]. split; [|done].
    pose proof Hw as (Hwl & Hr & a1 & Ha1 & Hsy & Hst). assert (a1 = a) as -> by congruence.
    destruct (Production.work_store a a' Hwork Hsy) as [Hst' Hsy']. split_and!; [done|done|].
    exists a'. simpl. split_and!; [done|done|congruence].
Qed.

Lemma tsteps_simulated d pv s s' :
  on_database d pv s -> rtc tstep s s' ->
  psteps (Evaluate_ s) (Evaluate_ s') /\ exists d', on_database d' pv s'.
Proof.
  intros Hs Hsteps. revert d Hs.
  induction Hsteps as [s|s s1 s' Hstep _ IH]; intros d Hs; [split; [apply rtc_refl|eauto]|].
  destruct (tstep_simulated d pv s s1 Hs Hstep) as [Hp1 [d1 Hs1]].
  destruct (IH d1 Hs1) as [Hp2 Hd']. split; [by etransitivity|done].
Qed.

(** ** Properties *)

(** The transports refine the service: whatever requests arrive over REST and
    gRPC, with any method, path, token and body, interleaved with reloads and
    the audit worker, the state they lead to is one the steps of the service
    lead to, so that every invariant of those holds.  (That all handles, the one
    for publishing included, are on the same database is how [share_services]
    models the one connection pool of [main.go].) *)
Theorem traffic_refines_steps d pv s s' :
  on_database d pv s -> rtc tstep s s' ->
  psteps (Evaluate_ s) (Evaluate_ s') /\
  exists d', Production.wired d' pv (Evaluate_ s') /\ DB s' = Some d'.
Proof. apply tsteps_simulated. Qed.

(** With authentication enabled a REST request without an accepted token
    leaves the database as it was, and so does every request other than an
    evaluation whose token has no admin scope. *)
Theorem database_needs_authorization d pv s w r c :
  on_database d pv s -> Auth s = Some c -> Auth.JWTIssuer c <> "" ->
  fst (serve_db s w r) = s \/
  exists claims, Auth.validateBearer c (w_now w) r = inr claims /\
    (mux r = REvaluate \/ Auth.HasAnyScope claims (Auth.AdminScopes c) = true).
Proof.
  intros Hs Hc Hi. unfold serve_db.
  assert (fst (serve s w r) = s \/ exists claims, Auth.validateBearer c (w_now w) r = inr claims /\
    (mux r = REvaluate \/ Auth.HasAnyScope claims (Auth.AdminScopes c) = true)) as [He|He]
    by (by apply ApiProps.serve_effects); [|by right].
  left. destruct (serve s w r) as [s1 a]. simpl in *. subst s1.
  by rewrite (left_db_same d pv), (share_services_same d pv).
Qed.

End Traffic.

(** ** A concrete server *)

Definition sample_services (flag : string) :
    @Services Audit.sample_ed Engine.sample_opa Velocity.MemoryCounter database database AuditStore
      Audit.MemorySink database :=
  {| Evaluate_ := Evaluate.SetSessionValidDefault (Production.sample_prod flag) true; Notifier := None;
     HasEngine := true; Auth := None; DB := Some (adb Production.sample_store) |}.

Abbreviation sample_serve_db := (@serve_db Audit.sample_fmt Audit.sample_ed Engine.sample_opa
  Auth.sample_decoder ApiProps.sample_body DbProps.sample_pg Velocity.MemoryCounter Audit.MemorySink _).

(** A REST evaluation that ends in manual review. *)
Lemma traffic_refines_steps_witness :
  let s := sample_services "manual_review" in
  let s' := fst (sample_serve_db s ApiProps.sample_world ApiProps.sample_evaluate) in
  (exists d', @Production.wired Audit.sample_ed _ _ _ d' 3%N (Evaluate_ s') /\ DB s' = Some d') /\
  map q_decision_id (review_queue (tabs (Evaluate.whitelist (Evaluate_ s')))) = ["dec_1"].
Proof.
  cbn zeta. split; [|vm_compute; reflexivity].
  apply (@traffic_refines_steps Audit.sample_fmt Audit.sample_ed Engine.sample_opa Auth.sample_decoder
    ApiProps.sample_body DbProps.sample_pg Velocity.MemoryCounter Audit.MemorySink _ _
    (adb Production.sample_store) 3%N (sample_services "manual_review")).
  - split; [exact (Production.sample_prod_wired "manual_review")|reflexivity].
  - apply rtc_once. constructor. discriminate.
Defined.

End Traffic.
