(* ===== verification/Startup.v ===== *)
(** * Start of the service and of the migration tool
    ([cmd/policy-engine/main.go], [cmd/migrate/main.go], [internal/db/db.go], the
    server constructors of [internal/api/grpc.go] and [api.go])

    [run] wires the components from the environment.  The outside world is an
    argument: the files of the policy directory, the key server, the database
    server and the migration library, the Kafka client, certificates and
    sockets.  The result of a start is an error, the exit of the process by
    [log.Fatalf], a start that still waits for the database, or the running
    services. *)
From Stdlib Require Import ZArith Lia Ascii String SpecFloat.
From stdpp Require Import base gmap strings list relations.
From S2P Require Import Prelude GoLib Float64 Json.
From S2P Require Import Caps Velocity Whitelist Review AuditLog Metrics Engine Evaluate HotReload Auth Api ApiProps.
From S2P Require Import Db DbTables DbProps Production Traffic.

Open Scope Z_scope.
Open Scope go_scope.

Module Startup.
Import Json Db.

(** ** Results *)

Inductive start A :=
| Failed (e : error)
| Exited (msg : string)
| Waiting
| Started (a : A).
Arguments Failed {A} e.
Arguments Exited {A} msg.
Arguments Waiting {A}.
Arguments Started {A} a.

(** ** Environment *)

Definition envOr (env : environ) (key def : string) : string :=
  let v := env key in if v != "" then v else def.

Definition devMode (env : environ) : bool :=
  let v := env "DEV_MODE" in (v == "1") || (v == "true") || (v == "yes") || (v == "on").

Definition splitCSV (s : string) : list string :=
  List.filter (fun p => p != "") (TrimSpace <$> Split "," s).

(** ** Connecting to the database *)

(** A parsed URL: [Query().Get] and [String]. *)
Record url := { Scheme : string; QueryGet : string -> string; URLString : string }.

(** One connection attempt: the outcome of parsing and opening, the deadline of
    the context, the clock before the loop, and for each turn of the loop the
    error of the context, the clock and the ping. *)
Record connection := {
  parse_url : string -> option url;
  sql_open : string -> option error;
  ctx_deadline : option time;
  opened_at : time;
  ctx_err : nat -> option error;
  clock : nat -> time;
  ping : nat -> bool
}.

Definition defaultConnectTimeout : duration := 10 * second.
Definition defaultPingInterval : duration := 1 * second.

(** The loop from turn [i], for at most [fuel] turns. *)
Fixpoint wait_loop (w : connection) (deadline : time) (fuel i : nat) : option (option error) :=
  match fuel with
  | O => None
  | S fuel' =>
      match ctx_err w i with
      | Some e => Some (Some e)
      | None =>
          if deadline <? clock w i then Some (Some (Errorf "db: connect timed out"))
          else if ping w i then Some None
          else wait_loop w deadline fuel' (S i)
      end
  end.

(** The deadline of the context, or ten seconds from now. *)
Definition wait_deadline (w : connection) : time :=
  match ctx_deadline w with
  | Some d => d
  | None => opened_at w + defaultConnectTimeout
  end.

(** Each turn without an answer sleeps one second: as many turns as seconds are
    left at the first one, and two more, are enough. *)
Definition wait_fuel (w : connection) : nat :=
  Z.to_nat ((wait_deadline w - clock w 0) / second) + 2.

Definition waitForReady (w : connection) : option (option error) :=
  wait_loop w (wait_deadline w) (wait_fuel w) 0.

(** The parameter is set on a copy of the query, which is dropped. *)
Definition with_sslmode (w : connection) (dsn : string) : string :=
  match parse_url w dsn with
  | Some u => if (Scheme u == "postgres") && (QueryGet u "sslmode" == "") then URLString u else dsn
  | None => dsn
  end.

(** The outer [None] is a call that has not returned. *)
Definition Connect (w : connection) (dsn : string) : option (option error) :=
  if dsn == "" then Some (Some (Sentinel DbErrMissingDBURL))
  else match sql_open w (with_sslmode w dsn) with
       | Some e => Some (Some (Wrapf "open db" e))
       | None => waitForReady w
       end.

(** [context.WithTimeout] on a context without a deadline of its own. *)
Definition WithTimeout (w : connection) (d : duration) : connection :=
  {| parse_url := parse_url w; sql_open := sql_open w; ctx_deadline := Some (opened_at w + d);
     opened_at := opened_at w; ctx_err := ctx_err w; clock := clock w; ping := ping w |}.

(** ** Migrations *)

(** The migration library: opening source and database, and running; a run
    without pending migrations is [migrate.ErrNoChange]. *)
Inductive mig_result := MigDone | MigNoChange | MigError (e : error).

Record migrations := {
  mig_new : string -> string -> option error;
  mig_up : string -> string -> mig_result;
  mig_down : string -> string -> mig_result
}.

Definition migrate (m : migrations) (what : string) (go : string -> string -> mig_result)
    (dsn dir : string) : option error :=
  match mig_new m ("file://" +:+ dir) dsn with
  | Some e => Some (Wrapf "migrate init" e)
  | None =>
      match go ("file://" +:+ dir) dsn with
      | MigError e => Some (Wrapf what e)
      | MigDone | MigNoChange => None
      end
  end.

Definition MigrateUp (m : migrations) : string -> string -> option error :=
  migrate m "migrate up" (mig_up m).
Definition MigrateDown (m : migrations) : string -> string -> option error :=
  migrate m "migrate down" (mig_down m).

(** The command [migrate]. *)
Definition migrate_run (m : migrations) (env : environ) (args : list string) : option error :=
  match args with
  | _ :: direction :: rest =>
      let dsn := env "DB_URL" in
      if dsn == "" then Some (Sentinel DbErrMissingDBURL)
      else
        let dir := match rest with d :: _ => d | [] => "migrations" end in
        if direction == "up" then
          match MigrateUp m dsn dir with Some e => Some (Wrapf "migrate up" e) | None => None end
        else if direction == "down" then
          match MigrateDown m dsn dir with Some e => Some (Wrapf "migrate down" e) | None => None end
        else Some (Errorf ("unknown direction " +:+ direction))
  | _ => Some (Errorf "usage: migrate <up|down> [migrations-dir]")
  end.

(** ** TLS of the gRPC server *)

Record certificates := {
  read_file : string -> Res string;
  append_certs : string -> bool;
  load_keypair : string -> string -> Res string
}.

Inductive client_auth := NoClientCert | RequireAndVerifyClientCert.

#[global] Instance client_auth_eq_dec : EqDecision client_auth.
Proof. solve_decision. Defined.

Record tls_config := { ClientCAs : string; ClientAuth : client_auth; Certificates : list string }.

Definition buildServerTLSConfig (c : certificates) (env : environ) (caCertPath : string)
  : Res tls_config :=
  match read_file c caCertPath with
  | inl e => inl (Wrapf "read ca cert" e)
  | inr caPEM =>
      if negb (append_certs c caPEM) then inl (Errorf "failed to parse ca cert")
      else
        let cfg certs := {| ClientCAs := caPEM; ClientAuth := RequireAndVerifyClientCert;
                            Certificates := certs |} in
        let certPath := env "SERVER_TLS_CERT" in
        if certPath != "" then
          let keyPath := env "SERVER_TLS_KEY" in
          if keyPath == "" then inl (Errorf "SERVER_TLS_CERT set but SERVER_TLS_KEY missing")
          else match load_keypair c certPath keyPath with
               | inl e => inl (Wrapf "load server keypair" e)
               | inr cert => inr (cfg [cert])
               end
        else inr (cfg [])
  end.

(** The server's address and credentials; [None] is a server without TLS. *)
Record grpc_server := { g_addr : string; g_creds : option tls_config }.

Definition NewGRPCServer (c : certificates) (listen : string -> option error) (env : environ)
    (grpcPort : string) : Res grpc_server :=
  let addr := ":" +:+ grpcPort in
  match listen addr with
  | Some e => inl (Wrapf "grpc listen" e)
  | None =>
      let caCertPath := env "MTLS_CA_CERT" in
      if caCertPath != "" then
        match buildServerTLSConfig c env caCertPath with
        | inl e => inl (Wrapf "grpc mtls" e)
        | inr cfg => inr {| g_addr := addr; g_creds := Some cfg |}
        end
      else inr {| g_addr := addr; g_creds := None |}
  end.

(** ** Wiring *)

Section Wiring.
Context `{Fmt} `{Audit.Ed25519} `{Engine.OPA} `{Auth.Decoder} {W : Type}.

(** The sinks of the audit service. *)
Abbreviation AnySink := (Audit.MemorySink + Audit.KafkaSink (W := W))%type.

(** What a start reads from outside. *)
Record outside := {
  env : environ;
  files : string -> list Engine.file;
  jwks : string -> Auth.jwks_answer;
  conn : connection;
  server : database;
  migs : migrations;
  certs : certificates;
  listen : string -> option error;
  dial : list string -> W;
  generated_key : Audit.PrivateKey
}.

Definition newAuditSink (o : outside) : start AnySink :=
  let brokers := env o "KAFKA_BROKERS" in
  if brokers == "" then
    if devMode (env o) then Started (inl Audit.NewMemorySink)
    else Exited "KAFKA_BROKERS unset and DEV_MODE not set; cannot start audit producer"
  else match Audit.NewKafkaSink (dial o) (splitCSV brokers) with
       | inl err =>
           if devMode (env o) then Started (inl Audit.NewMemorySink)
           else Exited ("audit kafka init: " +:+ error_msg err)
       | inr sink => Started (inr sink)
       end.

Abbreviation EvalSvc WS RS AS :=
  (Evaluate.Service Engine.OPAEngine Velocity.MemoryCounter WS RS AS AnySink).
Abbreviation MemServices := (Api.Services (C := Velocity.MemoryCounter) (WS := Whitelist.MemoryStore)
  (RS := Review.MemoryStore) (AS := Audit.MemoryStore) (K := AnySink) (D := database)).
Abbreviation DbServices := (Api.Services (C := Velocity.MemoryCounter) (WS := database)
  (RS := database) (AS := AuditStore) (K := AnySink) (D := database)).

Inductive services :=
| InMemory (s : MemServices)
| OnDatabase (s : DbServices).

(** The session counts as valid by default when there is no authentication. *)
Definition session_default {WS RS AS} (authCfg : Auth.AuthConfig) (e : EvalSvc WS RS AS) : EvalSvc WS RS AS :=
  if negb (Auth.Enabled (Some authCfg)) then Evaluate.SetSessionValidDefault e true else e.

Definition buildInMemoryServices (o : outside) (eng : Engine.OPAEngine) (capsCfg : Caps.Config)
    (authCfg : Auth.AuthConfig) : start MemServices :=
  match newAuditSink o with
  | Failed e => Failed e
  | Exited m => Exited m
  | Waiting => Waiting
  | Started sink =>
      let aud := Audit.NewService (Audit.NewSigner None (generated_key o))
                   (Some Audit.NewMemoryStore) (Some sink) 1024 in
      let e := Evaluate.NewService eng (Some Velocity.NewMemoryCounter) (Some capsCfg)
                 Whitelist.NewMemoryStore (Some Review.NewMemoryStore) (Some aud) Metrics.zero in
      Started {| Api.Evaluate_ := session_default authCfg e; Api.Notifier := None;
                 Api.HasEngine := true; Api.Auth := Some authCfg; Api.DB := None |}
  end.

(** The services on the database, once it is connected and migrated. *)
Definition buildDbServices (o : outside) (eng : Engine.OPAEngine) (capsCfg : Caps.Config)
    (authCfg : Auth.AuthConfig) : start DbServices :=
  match EnsurePolicyVersion (NewAuditStore (server o)) (Engine.eng_Version eng) (Engine.eng_Hash eng)
          "" "policy-engine" with
  | (_, Some err) => Failed err
  | (audStore, None) =>
      let database_ := adb audStore in
      match newAuditSink o with
      | Failed e => Failed e
      | Exited m => Exited m
      | Waiting => Waiting
      | Started sink =>
          let aud := Audit.WithSyncPersist
                       (Audit.NewService (Audit.NewSigner None (generated_key o))
                          (Some audStore) (Some sink) 1024) in
          let e := Evaluate.NewService eng (Some Velocity.NewMemoryCounter) (Some capsCfg)
                     database_ (Some database_) (Some aud) Metrics.zero in
          Started {| Api.Evaluate_ := session_default authCfg e;
                     Api.Notifier := Some (Review.NewNotifier (env o));
                     Api.HasEngine := true; Api.Auth := Some authCfg; Api.DB := Some database_ |}
      end
  end.

Definition buildServices (o : outside) : start services :=
  let devMode := env o "DEV_MODE" == "1" in
  match Engine.LoadBundleFromDir (files o (envOr (env o) "POLICIES_DIR" "policies")) with
  | inl err => Failed err
  | inr bundle =>
      let eng := Engine.NewOPAEngine bundle in
      let capsCfg := Caps.DefaultConfig (env o) in
      let authCfg := Auth.NewAuthConfig (env o) (jwks o) in
      let dsn := env o "DB_URL" in
      if dsn == "" then
        if negb devMode then
          Failed (Errorf "DB_URL not set and DEV_MODE!=1; refusing to start in production mode")
        else match buildInMemoryServices o eng capsCfg authCfg with
             | Failed e => Failed e
             | Exited m => Exited m
             | Waiting => Waiting
             | Started s => Started (InMemory s)
             end
      else if negb devMode && (env o "REDIS_URL" == "") then
        Failed (Errorf "REDIS_URL not set and DEV_MODE!=1; refusing to start in production mode (velocity counter requires Redis)")
      else match Connect (WithTimeout (conn o) (30 * second)) dsn with
           | None => Waiting
           | Some (Some err) => Failed err
           | Some None =>
               match MigrateUp (migs o) dsn (envOr (env o) "MIGRATIONS_DIR" "migrations") with
               | Some err => Failed err
               | None =>
                   match buildDbServices o eng capsCfg authCfg with
                   | Failed e => Failed e
                   | Exited m => Exited m
                   | Waiting => Waiting
                   | Started s => Started (OnDatabase s)
                   end
               end
           end
  end.

(** ** The process *)

Inductive reload :=
| NoReload
| Polling (p : HotReload.Poller)
| Reloading (h : HotReload.HotReloader).

Definition engine_of (s : services) : Engine.OPAEngine :=
  match s with
  | InMemory m => Evaluate.engine (Api.Evaluate_ m)
  | OnDatabase d => Evaluate.engine (Api.Evaluate_ d)
  end.

(** The bundle poller or the hot reloader, from the environment. *)
Definition start_reload (e : environ) (eng : Engine.OPAEngine) : reload :=
  let bundleURL := e "OPA_BUNDLE_URL" in
  if bundleURL != "" then
    if e "POLICY_HOT_RELOAD_INTERVAL" != "" then
      Reloading (HotReload.NewHotReloader e bundleURL 0 (Some eng))
    else Polling (HotReload.NewPoller e bundleURL 0 (Some eng))
  else NoReload.

(** What runs until the context is cancelled: the gRPC server is left out when
    it cannot be made. *)
Record process := {
  p_services : services;
  p_http : string;
  p_grpc : option grpc_server;
  p_reload : reload
}.

Definition run (o : outside) : start process :=
  match buildServices o with
  | Failed e => Failed e
  | Exited m => Exited m
  | Waiting => Waiting
  | Started s =>
      let port := envOr (env o) "PORT" "8080" in
      let grpcPort := envOr (env o) "GRPC_PORT" "9090" in
      Started {| p_services := s; p_http := ":" +:+ port;
                 p_grpc := match NewGRPCServer (certs o) (listen o) (env o) grpcPort with
                           | inl _ => None
                           | inr g => Some g
                           end;
                 p_reload := start_reload (env o) (engine_of s) |}
  end.

End Wiring.
(** ** Waiting for the database *)

Definition turn_failed (w : connection) (i : nat) : Prop :=
  ctx_err w i = None /\ clock w i <= wait_deadline w /\ ping w i = false.

(** How the loop ends at turn [i]. *)
Definition ends_at (w : connection) (i : nat) (r : option error) : Prop :=
  match r with
  | None => ctx_err w i = None /\ clock w i <= wait_deadline w /\ ping w i = true
  | Some e =>
      ctx_err w i = Some e \/
      (ctx_err w i = None /\ wait_deadline w < clock w i /\ e = Errorf "db: connect timed out")
  end.

Lemma wait_loop_ends w fuel i :
  (forall j, clock w j + second <= clock w (S j)) ->
  wait_deadline w - clock w i < Z.of_nat fuel * second ->
  exists r n, wait_loop w (wait_deadline w) (S fuel) i = Some r /\ (i <= n <= i + fuel)%nat /\
    (forall j, (i <= j < n)%nat -> turn_failed w j) /\ ends_at w n r.
Proof.
  intros Hclock. revert i. induction fuel as [|fuel IH]; intros i Hf; simpl;
    destruct (ctx_err w i) as [e|] eqn:Hc; try destruct (Z.ltb_spec (wait_deadline w) (clock w i));
    try (eexists _, i; split_and!; [done|lia|lia|lia|simpl; auto; fail]); [lia|].
  destruct (ping w i) eqn:Hp.
  { eexists _, i; split_and!; [done|lia|lia|lia|done..]. }
  destruct (IH (S i)) as (r & n & Hl & Hn & Hfail & He).
  { specialize (Hclock i). unfold second in *. lia. }
  exists r, n. split_and!; [exact Hl|lia|lia| |done].
  intros j Hj. destruct (decide (j = i)) as [->|]; [done|]. apply Hfail. lia.
Qed.

(** C35. Waiting for the database ends: as long as the clock moves on by the
    second slept between two turns, the loop returns within the turns that fit
    before the deadline and two more.  It returns success exactly if a ping
    succeeds before the deadline while the context is alive, after turns that
    all failed, and otherwise the error of the context or the timeout. *)
Theorem wait_terminates w :
  (forall j, clock w j + second <= clock w (S j)) ->
  exists r n, waitForReady w = Some r /\ (n < wait_fuel w)%nat /\
    (forall j, (j < n)%nat -> turn_failed w j) /\ ends_at w n r.
Proof.
  intros Hclock.
  destruct (wait_loop_ends w (Z.to_nat ((wait_deadline w - clock w 0) / second) + 1) 0 Hclock)
    as (r & n & Hl & Hn & Hfail & He).
  { unfold second. pose proof (Z.mod_pos_bound (wait_deadline w - clock w 0) 1000000000).
    pose proof (Z.div_mod (wait_deadline w - clock w 0) 1000000000). lia. }
  exists r, n. unfold waitForReady, wait_fuel.
  replace (Z.to_nat _ + 2)%nat with (S (Z.to_nat ((wait_deadline w - clock w 0) / second) + 1)) by lia.
  split_and!; [done|lia| |done]. intros j Hj. apply Hfail. lia.
Qed.

(** The same bound in turns for the deadline [buildServices] sets. *)
Lemma thirty_seconds w :
  opened_at w <= clock w 0 -> (wait_fuel (WithTimeout w (30 * second)) <= 32)%nat.
Proof.
  intros Ho. unfold wait_fuel, wait_deadline. simpl.
  assert ((opened_at w + 30 * second - clock w 0) / second <= 30); [|lia].
  unfold second. apply Z.div_le_upper_bound; lia.
Qed.

(** ** Client certificates *)

(** The gRPC server never serves clients it should have checked: it is made
    without TLS only if no CA is configured; with one, it asks every client for
    a certificate signed by the configured CA, whose file was read and parsed,
    and has a certificate of its own exactly if one is configured with its
    key. *)
Theorem mtls_enforced c listen_ env grpcPort g :
  NewGRPCServer c listen_ env grpcPort = inr g ->
  match g_creds g with
  | None => env "MTLS_CA_CERT" = ""
  | Some cfg =>
      env "MTLS_CA_CERT" <> "" /\ ClientAuth cfg = RequireAndVerifyClientCert /\
      read_file c (env "MTLS_CA_CERT") = inr (ClientCAs cfg) /\ append_certs c (ClientCAs cfg) = true /\
      (Certificates cfg = [] <-> env "SERVER_TLS_CERT" = "") /\
      (env "SERVER_TLS_CERT" <> "" -> env "SERVER_TLS_KEY" <> "")
  end.
Proof.
  unfold NewGRPCServer, buildServerTLSConfig.
  intros Hg. repeat (go_case_in Hg; simplify_eq/=); simpl; try done;
    go_bool; simplify_eq/=; try done; split_and!; try done.
Qed.

(** ** The started service *)

Section Started.
Context `{Fmt} `{Audit.Ed25519} `{Engine.OPA} `{Auth.Decoder} `{Api.BodyDecoder} `{Postgres}
  {W : Type} `{Audit.Writer W}.

(** How the sink formats times and what the clock shows when it publishes a
    record without one. *)
Context (fmt_utc : time -> string) (publish_now : time).

#[local] Instance any_sink : Audit.Sink (Audit.MemorySink + Audit.KafkaSink (W := W)) := {
  Audit.sink_Publish := fun k rec =>
    match k with
    | inl m => let '(m', err) := Audit.sink_Publish m rec in (inl m', err)
    | inr k => let '(k', err) := Audit.kafka_Publish fmt_utc k publish_now rec in (inr k', err)
    end }.

(** The store after [EnsurePolicyVersion] has recorded the policy the process
    starts with. *)
Definition boot_store (o : outside (W := W)) (eng : Engine.OPAEngine) : AuditStore * option error :=
  EnsurePolicyVersion (NewAuditStore (server o)) (Engine.eng_Version eng) (Engine.eng_Hash eng)
    "" "policy-engine".

Definition the_bundle (o : outside (W := W)) : Res Engine.Bundle :=
  Engine.LoadBundleFromDir (files o (envOr (env o) "POLICIES_DIR" "policies")).

Lemma issuer_enabled (o : outside (W := W)) :
  negb (Auth.Enabled (Some (Auth.NewAuthConfig (env o) (jwks o)))) = (env o "JWT_ISSUER" == "").
Proof.
  simpl. unfold Auth.envOr. destruct (env o "JWT_ISSUER" == "") eqn:Hj; simpl; [done|]. by rewrite Hj.
Qed.

(** What a start on the database went through, and what it made. *)
Lemma buildServices_db (o : outside (W := W)) s :
  buildServices o = Started (OnDatabase s) ->
  let e := Api.Evaluate_ s in
  exists bundle st sink a,
    the_bundle o = inr bundle /\ boot_store o (Engine.NewOPAEngine bundle) = (st, None) /\ newAuditSink o = Started sink /\
    env o "DB_URL" <> "" /\ (env o "DEV_MODE" <> "1" -> env o "REDIS_URL" <> "") /\
    Connect (WithTimeout (conn o) (30 * second)) (env o "DB_URL") = Some None /\
    Evaluate.engine e = Engine.NewOPAEngine bundle /\ Evaluate.velocity e = Some Velocity.NewMemoryCounter /\
    Evaluate.whitelist e = adb st /\ Evaluate.review e = Some (adb st) /\ Api.DB s = Some (adb st) /\
    Evaluate.audit e = Some a /\ Audit.syncPersist a = true /\ Audit.store a = Some st /\
    Audit.sink a = Some sink /\
    Evaluate.sessionValidDefault e = (env o "JWT_ISSUER" == "").
Proof.
  unfold buildServices. fold (the_bundle o). destruct (the_bundle o) as [|bundle]; [done|].
  case_bool_decide as Hdsn.
  { repeat (case_match; try done). }
  destruct (negb _ && _) eqn:Hredis; [done|].
  destruct (Connect _ _) as [[|]|] eqn:Hc; try done. destruct (MigrateUp _ _ _); [done|].
  unfold buildDbServices.
  change (EnsurePolicyVersion _ _ _ _ _) with (boot_store o (Engine.NewOPAEngine bundle)).
  destruct (boot_store o (Engine.NewOPAEngine bundle)) as [st [|]] eqn:Hst; [done|].
  destruct (newAuditSink o) as [| | |sink] eqn:Hsink; try done.
  intros [= <-]. cbn zeta.
  assert (env o "DEV_MODE" <> "1" -> env o "REDIS_URL" <> "") as Hr.
  { intros Hdev Hr. by rewrite Hr, bool_decide_eq_false_2 in Hredis. }
  exists bundle, st, sink. rewrite <- issuer_enabled. unfold session_default.
  destruct (Auth.Enabled _); simpl; eexists; split_and!; done.
Qed.

Lemma buildServices_memory (o : outside (W := W)) s :
  buildServices o = Started (InMemory s) -> env o "DB_URL" = "" /\ env o "DEV_MODE" = "1".
Proof.
  unfold buildServices. intros Hb. repeat (go_case_in Hb; simplify_eq/=); go_bool; done.
Qed.

Lemma newAuditSink_kafka (o : outside (W := W)) sink :
  devMode (env o) = false -> newAuditSink o = Started sink ->
  splitCSV (env o "KAFKA_BROKERS") <> [] /\
  sink = inr {| Audit.writer := Some (dial o (splitCSV (env o "KAFKA_BROKERS"))) |}.
Proof.
  unfold newAuditSink, Audit.NewKafkaSink. intros ->.
  case_bool_decide; [done|]. destruct (splitCSV _); [done|]. by intros [= <-].
Qed.

Lemma run_started (o : outside (W := W)) s :
  buildServices o = Started s -> exists p, run o = Started p /\ p_services p = s.
Proof. unfold run. intros ->. by eexists. Qed.

(** C13. Outside development mode the service runs on real infrastructure only:
    it starts only with a database, a Redis URL and at least one Kafka broker
    configured, on the database, with decisions written before they are
    answered and published to those brokers.  But the velocity counters are in
    memory all the same and begin empty; and requests count as coming from a
    valid session exactly if no token issuer is configured. *)
Theorem production_start (o : outside (W := W)) p :
  devMode (env o) = false -> run o = Started p ->
  env o "DB_URL" <> "" /\ env o "REDIS_URL" <> "" /\ splitCSV (env o "KAFKA_BROKERS") <> [] /\
  exists s a, p_services p = OnDatabase s /\ Api.DB s = Some (Evaluate.whitelist (Api.Evaluate_ s)) /\
    Evaluate.audit (Api.Evaluate_ s) = Some a /\ Audit.syncPersist a = true /\
    Audit.sink a = Some (inr {| Audit.writer := Some (dial o (splitCSV (env o "KAFKA_BROKERS"))) |}) /\
    Evaluate.velocity (Api.Evaluate_ s) = Some Velocity.NewMemoryCounter /\
    Evaluate.sessionValidDefault (Api.Evaluate_ s) = (env o "JWT_ISSUER" == "").
Proof.
  intros Hdev. unfold run. destruct (buildServices o) as [| | |[s|s]] eqn:Hb; try done; intros [= <-]; simpl.
  { apply buildServices_memory in Hb as [_ Hb]. unfold devMode in Hdev. by rewrite Hb in Hdev. }
  destruct (buildServices_db o s Hb) as (bundle & st & sink & a & _ & _ & Hsink & Hdsn & Hredis & _ & _ &
    Hv & Hwl & _ & Hdb & Ha & Hsy & _ & Hsk & Hsess).
  destruct (newAuditSink_kafka o sink Hdev Hsink) as [Hb1 ->].
  split_and!; [done| |done|].
  - apply Hredis. intros Hone. unfold devMode in Hdev. by rewrite Hone in Hdev.
  - exists s, a. split_and!; try done. by rewrite Hwl.
Qed.

(** ** Lives of the service *)

Lemma NewOPAEngine_bundle b : Engine.bundle (Engine.NewOPAEngine b) = b.
Proof. unfold Engine.NewOPAEngine, Engine.rebuild. by case_match. Qed.

(** A new audit store that has ensured a version names its row. *)
Lemma EnsurePolicyVersion_new d version h src by_ st :
  DbProps.db_ok (tabs d) -> EnsurePolicyVersion (NewAuditStore d) version h src by_ = (st, None) ->
  exists v n, v ∈ policy_versions (tabs (adb st)) /\ v_id v = policyVersionID st /\
    versionToInt version = inr n /\ v_version v = n /\ v_rego_hash v = h.
Proof.
  intros Hok He. apply DbProps.EnsurePolicyVersion_spec in He as [_ [[_ Hn]|(_ & _ & Hv)]]; [|done|done].
  by destruct (Hn eq_refl).
Qed.

(** Recording the policy at start touches the policy tables only. *)
Lemma boot_store_fine (o : outside (W := W)) eng :
  DbProps.db_ok (tabs (server o)) -> Production.queue_fine (tabs (server o)) ->
  let st := fst (boot_store o eng) in
  DbProps.store_ok st /\ Production.queue_fine (tabs (adb st)).
Proof.
  intros Hok Hq. cbn zeta. unfold boot_store.
  set (c := DbProps.CEnsureVersion (Engine.eng_Version eng) (Engine.eng_Hash eng) "" "policy-engine").
  change (EnsurePolicyVersion _ _ _ _ _) with (EnsurePolicyVersion (NewAuditStore (server o))
    (Engine.eng_Version eng) (Engine.eng_Hash eng) "" "policy-engine").
  change (fst _) with (DbProps.do_call (NewAuditStore (server o)) c).
  split; [apply DbProps.do_call_ok; by split|].
  unfold Production.queue_fine. by rewrite (Production.other_calls_queue _ c eq_refl).
Qed.

Abbreviation step := (Traffic.tstep (C := Velocity.MemoryCounter)
  (K := (Audit.MemorySink + Audit.KafkaSink (W := W))%type)).

(** The databases that come to be: a new one; one a start left behind that did
    not succeed, or was stopped, after it had recorded its policy; and one on
    which the service was started and ran. *)
Inductive served : database -> Prop :=
| served_new faults_ uuids_ :
    served {| tabs := empty_tables; seq := 0; faults := faults_; uuids := uuids_ |}
| served_aborted (o : outside (W := W)) bundle :
    served (server o) -> the_bundle o = inr bundle ->
    served (adb (fst (boot_store o (Engine.NewOPAEngine bundle))))
| served_run (o : outside (W := W)) s s' :
    served (server o) -> buildServices o = Started (OnDatabase s) ->
    rtc step s s' -> served (Evaluate.whitelist (Api.Evaluate_ s')).

Lemma started_inv (o : outside (W := W)) s :
  DbProps.db_ok (tabs (server o)) -> Production.queue_fine (tabs (server o)) ->
  buildServices o = Started (OnDatabase s) ->
  exists bundle st, the_bundle o = inr bundle /\ boot_store o (Engine.NewOPAEngine bundle) = (st, None) /\
    Traffic.on_database (adb st) (policyVersionID st) s /\
    Production.prod_inv (policyVersionID st) (Api.Evaluate_ s).
Proof.
  intros Hok Hq Hb. destruct (buildServices_db o s Hb) as (bundle & st & sink & a & Hbu & Hst & _ & _ & _ & _ &
    _ & _ & Hwl & Hrev & Hdb & Ha & Hsy & Hsto & _).
  assert (Production.wired (adb st) (policyVersionID st) (Api.Evaluate_ s)) as Hw.
  { split_and!; [done|done|]. exists a. split_and!; [done|done|]. rewrite Hsto. by destruct st. }
  exists bundle, st. split_and!; [done..|]. exists (adb st). split; [done|].
  destruct (boot_store_fine o (Engine.NewOPAEngine bundle) Hok Hq) as [Hs1 Hq1].
  rewrite Hst in Hs1, Hq1. split; [by destruct st|done].
Qed.

Lemma served_fine d : served d -> DbProps.db_ok (tabs d) /\ Production.queue_fine (tabs d).
Proof.
  induction 1 as [f u|o bundle _ [Hok Hq] Hb|o s s' _ [Hok Hq] Hb Hs].
  - split; [apply (DbProps.new_database_ok f)|]. split; [apply NoDup_nil_2|constructor].
  - destruct (boot_store_fine o (Engine.NewOPAEngine bundle) Hok Hq) as [Hs Hq']. split; [apply Hs|done].
  - destruct (started_inv o s Hok Hq Hb) as (bundle & st & _ & _ & Hdb & Hi).
    destruct (Traffic.tsteps_simulated _ _ _ _ Hdb Hs) as [Hps _].
    destruct (Production.psteps_inv _ _ _ Hi Hps) as (d & (<- & _) & [Hd _] & Hq'). done.
Qed.

(** C11. Restarts are safe: on a database the service has served before, through
    any number of lives and failed starts, a start that succeeds records its
    policy in a row with the number and hash of the loaded bundle and from then
    on keeps the invariant of the running service, whatever requests arrive over
    REST and gRPC, whatever is reloaded and whatever the audit worker does. *)
Theorem restart_keeps_invariant o s s' :
  served (server o) -> buildServices o = Started (OnDatabase s) -> rtc step s s' ->
  exists bundle pv v n, the_bundle o = inr bundle /\
    v ∈ policy_versions (tabs (Evaluate.whitelist (Api.Evaluate_ s))) /\ v_id v = pv /\
    versionToInt (Engine.Version bundle) = inr n /\ v_version v = n /\
    v_rego_hash v = Engine.Hash bundle /\
    Production.prod_inv pv (Api.Evaluate_ s') /\ served (Evaluate.whitelist (Api.Evaluate_ s')).
Proof.
  intros Hd Hb Hs. destruct (served_fine _ Hd) as [Hok Hq].
  destruct (started_inv o s Hok Hq Hb) as (bundle & st & Hbu & Hst & Hdb & Hi).
  pose proof Hdb as [(Hw & _) _]. destruct (Traffic.tsteps_simulated _ _ _ _ Hdb Hs) as [Hps _].
  pose proof Hst as Hst'. unfold boot_store in Hst'. simpl in Hst'. rewrite NewOPAEngine_bundle in Hst'.
  destruct (EnsurePolicyVersion_new _ _ _ _ _ _ Hok Hst') as (v & n & Hv & Hid & Hn & Hvn & Hh).
  exists bundle, (policyVersionID st), v, n. rewrite Hw. split_and!; try done.
  - by apply (Production.psteps_inv _ (Api.Evaluate_ s)).
  - by apply (served_run o s).
Qed.
End Started.

(** ** A concrete start *)

(** The database answers the second ping. *)
Definition sample_connection : connection :=
  {| parse_url := fun _ => None; sql_open := fun _ => None; ctx_deadline := None; opened_at := 0;
     ctx_err := fun _ => None; clock := fun i => Z.of_nat i * second; ping := fun i => (1 <=? i)%nat |}.

Definition sample_environ : environ := fun key =>
  if key == "DB_URL" then "postgres://db/policy"
  else if key == "REDIS_URL" then "redis://cache"
  else if key == "KAFKA_BROKERS" then "k1:9092, k2:9092"
  else if key == "MTLS_CA_CERT" then "ca.pem" else "".

Definition sample_certificates : certificates :=
  {| read_file := fun _ => inr "pem"; append_certs := fun _ => true; load_keypair := fun _ _ => inr "" |}.

#[global] Instance sample_writer : Audit.Writer (list string) := {
  Audit.WriteMessages := fun brokers _ => (brokers, None) }.

Definition sample_outside (d : database) : @outside Audit.sample_ed (list string) :=
  {| env := sample_environ; files := fun _ => [Engine.RegoFile "decisions.rego" "allow"];
     jwks := fun _ => Auth.JwksFailed (Errorf ""); conn := sample_connection; server := d;
     migs := {| mig_new := fun _ _ => None; mig_up := fun _ _ => MigNoChange;
                mig_down := fun _ _ => MigNoChange |};
     certs := sample_certificates; listen := fun _ => None; dial := fun b => b; generated_key := (tt : @Audit.PrivateKey Audit.sample_ed) |}.

Abbreviation sample_run := (@run Audit.sample_fmt Audit.sample_ed Engine.sample_opa Auth.sample_decoder
  (list string)).
Abbreviation sample_build := (@buildServices Audit.sample_fmt Audit.sample_ed Engine.sample_opa
  Auth.sample_decoder (list string)).

Lemma wait_terminates_witness :
  exists r n, waitForReady sample_connection = Some r /\ (n < 12)%nat /\
    (forall j, (j < n)%nat -> turn_failed sample_connection j) /\ ends_at sample_connection n r.
Proof. apply (wait_terminates sample_connection). intros j. simpl. lia. Defined.

Lemma mtls_enforced_witness :
  match NewGRPCServer sample_certificates (fun _ => None) sample_environ "9090" with
  | inr g => match g_creds g with
             | None => False
             | Some cfg => ClientAuth cfg = RequireAndVerifyClientCert /\ ClientCAs cfg = "pem"
             end
  | inl _ => False
  end.
Proof.
  pose proof (mtls_enforced sample_certificates (fun _ => None) sample_environ "9090" _ eq_refl) as Hm.
  simpl in Hm. simpl. split; [apply Hm|done].
Defined.
Definition new_outside : @outside Audit.sample_ed (list string) := sample_outside DbProps.sample_database.

Lemma new_outside_starts : exists s, sample_build new_outside = Started (OnDatabase s).
Proof.
  assert (match sample_build new_outside with Started (OnDatabase _) => true | _ => false end = true) as Hb
    by (vm_compute; reflexivity).
  revert Hb. generalize (sample_build new_outside). intros [e|m| |[s|s]] Hb; try discriminate. by exists s.
Qed.

Lemma production_start_witness :
  exists p s a, sample_run new_outside = Started p /\ p_services p = OnDatabase s /\
    Evaluate.audit (Api.Evaluate_ s) = Some a /\
    Audit.sink a = Some (inr {| Audit.writer := Some ["k1:9092"; "k2:9092"] |}).
Proof.
  destruct new_outside_starts as [s0 Hs0]. destruct (run_started _ _ Hs0) as (p & Hp & _).
  destruct (@production_start Audit.sample_fmt Audit.sample_ed Engine.sample_opa Auth.sample_decoder
    (list string) new_outside p eq_refl Hp) as (_ & _ & _ & s & a & Hs & _ & Ha & _ & Hk & _).
  exists p, s, a. split; [exact Hp|]. split; [exact Hs|]. split; [exact Ha|]. rewrite Hk. vm_compute. reflexivity.
Defined.

Lemma restart_keeps_invariant_witness :
  exists s bundle pv v n, sample_build new_outside = Started (OnDatabase s) /\
    @the_bundle Audit.sample_fmt Audit.sample_ed (list string) new_outside = inr bundle /\
    v ∈ policy_versions (tabs (Evaluate.whitelist (Api.Evaluate_ s))) /\ v_id v = pv /\
    versionToInt (Engine.Version bundle) = inr n /\ v_version v = n /\
    Production.prod_inv pv (Api.Evaluate_ s).
Proof.
  destruct new_outside_starts as [s Hb].
  destruct (@restart_keeps_invariant Audit.sample_fmt Audit.sample_ed Engine.sample_opa Auth.sample_decoder
    ApiProps.sample_body DbProps.sample_pg (list string) _ (fun _ => "") 0 new_outside s s)
    as (bundle & pv & v & n & Hbu & Hv & Hid & Hn & Hvn & _ & Hi & _); [constructor|exact Hb|apply rtc_refl|].
  exists s, bundle, pv, v, n. repeat (split; [eassumption|]). exact Hi.
Defined.

End Startup.
