(* ===== verification/Lifecycle.v ===== *)
(** * Serving and shutting down ([run] of [cmd/policy-engine/main.go])

    [Startup.run] ends with a process whose servers are up.  Here is what comes
    after: the calls in flight, the signal, and the main goroutine on its way out
    (the graceful stop of the gRPC server, the shutdown of the HTTP server with
    its ten seconds, the deferred stop of the reload loop and close of the audit
    service), interleaved with the end of the calls and of the goroutines that
    are waited for.

    What a call does is [Api] and [Concurrent]; here it is only in flight or not. *)
From Stdlib Require Import ZArith Lia Ascii String.
From stdpp Require Import base gmap strings list.
From S2P Require Import Prelude GoLib Float64 Sha256 Json.
From S2P Require Import Caps Velocity Whitelist Review AuditLog Metrics Engine Evaluate HotReload Auth Api.
From S2P Require Import Db DbTables Startup.

Open Scope Z_scope.
Open Scope go_scope.

Module Lifecycle.

(** ** State *)

(** Where the main goroutine is.  [Stopping] is in [grpcSrv.GracefulStop],
    [Closing] in [srv.Shutdown], which has looked for idle connections or not yet,
    [StoppingLoop] and [ClosingAudit] in the deferred calls with the result of
    [run]. *)
Inductive place :=
| Serving
| Stopping
| Closing (polled : bool)
| StoppingLoop (err : option error)
| ClosingAudit (err : option error)
| Returned (err : option error)
| Killed (msg : string).

(** [shutdown_ctx] is the deadline of [shutdownCtx], once it has been made. *)
Record life := {
  clock : time;
  shutdown_ctx : option time;
  cancelled : bool;
  http_open : bool;
  http_calls : nat;
  has_grpc : bool;
  grpc_open : bool;
  grpc_calls : nat;
  has_loop : bool;
  loop_alive : bool;
  loop_stop : bool;
  worker_alive : bool;
  audit_stop : bool;
  at_ : place
}.

Definition set_at (l : life) (p : place) : life :=
  {| clock := clock l; shutdown_ctx := shutdown_ctx l; cancelled := cancelled l; http_open := http_open l; http_calls := http_calls l;
     has_grpc := has_grpc l; grpc_open := grpc_open l; grpc_calls := grpc_calls l; has_loop := has_loop l;
     loop_alive := loop_alive l; loop_stop := loop_stop l; worker_alive := worker_alive l;
     audit_stop := audit_stop l; at_ := p |}.
Definition set_http (l : life) (open : bool) (calls : nat) : life :=
  {| clock := clock l; shutdown_ctx := shutdown_ctx l; cancelled := cancelled l; http_open := open; http_calls := calls;
     has_grpc := has_grpc l; grpc_open := grpc_open l; grpc_calls := grpc_calls l; has_loop := has_loop l;
     loop_alive := loop_alive l; loop_stop := loop_stop l; worker_alive := worker_alive l;
     audit_stop := audit_stop l; at_ := at_ l |}.
Definition set_grpc (l : life) (open : bool) (calls : nat) : life :=
  {| clock := clock l; shutdown_ctx := shutdown_ctx l; cancelled := cancelled l; http_open := http_open l; http_calls := http_calls l;
     has_grpc := has_grpc l; grpc_open := open; grpc_calls := calls; has_loop := has_loop l;
     loop_alive := loop_alive l; loop_stop := loop_stop l; worker_alive := worker_alive l;
     audit_stop := audit_stop l; at_ := at_ l |}.
Definition set_loop (l : life) (alive stop : bool) : life :=
  {| clock := clock l; shutdown_ctx := shutdown_ctx l; cancelled := cancelled l; http_open := http_open l; http_calls := http_calls l;
     has_grpc := has_grpc l; grpc_open := grpc_open l; grpc_calls := grpc_calls l; has_loop := has_loop l;
     loop_alive := alive; loop_stop := stop; worker_alive := worker_alive l;
     audit_stop := audit_stop l; at_ := at_ l |}.
Definition set_worker (l : life) (alive stop : bool) : life :=
  {| clock := clock l; shutdown_ctx := shutdown_ctx l; cancelled := cancelled l; http_open := http_open l; http_calls := http_calls l;
     has_grpc := has_grpc l; grpc_open := grpc_open l; grpc_calls := grpc_calls l; has_loop := has_loop l;
     loop_alive := loop_alive l; loop_stop := loop_stop l; worker_alive := alive;
     audit_stop := stop; at_ := at_ l |}.
Definition set_ctx (l : life) (d : time) : life :=
  {| clock := clock l; shutdown_ctx := Some d; cancelled := cancelled l; http_open := http_open l;
     http_calls := http_calls l; has_grpc := has_grpc l; grpc_open := grpc_open l; grpc_calls := grpc_calls l;
     has_loop := has_loop l; loop_alive := loop_alive l; loop_stop := loop_stop l;
     worker_alive := worker_alive l; audit_stop := audit_stop l; at_ := at_ l |}.
Definition set_clock (l : life) (now : time) (c : bool) : life :=
  {| clock := now; shutdown_ctx := shutdown_ctx l; cancelled := c; http_open := http_open l; http_calls := http_calls l;
     has_grpc := has_grpc l; grpc_open := grpc_open l; grpc_calls := grpc_calls l; has_loop := has_loop l;
     loop_alive := loop_alive l; loop_stop := loop_stop l; worker_alive := worker_alive l;
     audit_stop := audit_stop l; at_ := at_ l |}.

(** The process as [run] leaves it waiting for the signal. *)
Definition serving (now : time) (grpc loop : bool) : life :=
  {| clock := now; shutdown_ctx := None; cancelled := false; http_open := true; http_calls := 0;
     has_grpc := grpc; grpc_open := grpc; grpc_calls := 0;
     has_loop := loop; loop_alive := loop; loop_stop := false;
     worker_alive := true; audit_stop := false; at_ := Serving |}.

Definition life_of `{Audit.Ed25519} `{Engine.OPA} {W} (now : time) (p : Startup.process (W := W)) : life :=
  serving now (match Startup.p_grpc p with Some _ => true | None => false end)
    (match Startup.p_reload p with Startup.NoReload => false | _ => true end).

(** ** Events *)

Inductive event :=
| Signal
| Tick (d : duration)
| HttpCall
| HttpReturn
| GrpcCall
| GrpcReturn
| LoopExit
| WorkerExit
| ListenError (msg : string)
| Main
| TimedOut.

Definition shutdownTimeout : duration := 10 * second.

Definition over (l : life) : bool := match at_ l with Returned _ | Killed _ => true | _ => false end.

(** The next action of the main goroutine; [None] while it is blocked.  The
    context of the shutdown is made when the signal is seen, before the gRPC
    server is stopped, so its ten seconds run during that stop too.  [srv.Shutdown]
    closes the listeners, looks for calls in flight, and then waits: for a look
    that finds none, or for the deadline ([time_out]). *)
Definition main_step (l : life) : option life :=
  match at_ l with
  | Serving =>
      if cancelled l then
        let l := set_ctx l (clock l + shutdownTimeout) in
        if has_grpc l then Some (set_at (set_grpc l false (grpc_calls l)) Stopping)
        else Some (set_at (set_http l false (http_calls l)) (Closing false))
      else None
  | Stopping =>
      if (grpc_calls l =? 0)%nat then Some (set_at (set_http l false (http_calls l)) (Closing false))
      else None
  | Closing polled =>
      if (http_calls l =? 0)%nat then Some (set_at l (StoppingLoop None))
      else if polled then None else Some (set_at l (Closing true))
  | StoppingLoop err =>
      if negb (has_loop l) then Some (set_at l (ClosingAudit err))
      else if negb (loop_stop l) then Some (set_loop l (loop_alive l) true)
      else if loop_alive l then None
      else Some (set_at l (ClosingAudit err))
  | ClosingAudit err =>
      if negb (audit_stop l) then Some (set_worker l (worker_alive l) true)
      else if worker_alive l then None
      else Some (set_at l (Returned err))
  | Returned _ | Killed _ => None
  end.

(** [ctx.Done()] in [srv.Shutdown]: possible from the deadline on, whether or not
    the last call has just returned. *)
Definition time_out (l : life) : option life :=
  match at_ l, shutdown_ctx l with
  | Closing true, Some d =>
      if d <=? clock l then Some (set_at l (StoppingLoop (Some (Errorf "context deadline exceeded")))) else None
  | _, _ => None
  end.

Definition next (l : life) (e : event) : option life :=
  if over l then None else
  match e with
  | Signal => Some (set_clock l (clock l) true)
  | Tick d => if 0 <=? d then Some (set_clock l (clock l + d) (cancelled l)) else None
  | HttpCall => if http_open l then Some (set_http l true (S (http_calls l))) else None
  | HttpReturn => match http_calls l with S n => Some (set_http l (http_open l) n) | O => None end
  | GrpcCall => if grpc_open l then Some (set_grpc l true (S (grpc_calls l))) else None
  | GrpcReturn => match grpc_calls l with S n => Some (set_grpc l (grpc_open l) n) | O => None end
  | LoopExit => if loop_alive l && (cancelled l || loop_stop l) then Some (set_loop l false (loop_stop l)) else None
  | WorkerExit => if worker_alive l && audit_stop l then Some (set_worker l false true) else None
  | ListenError msg => if http_open l then Some (set_at l (Killed msg)) else None
  | Main => main_step l
  | TimedOut => time_out l
  end.

Fixpoint runs (l : life) (es : list event) : option life :=
  match es with
  | [] => Some l
  | e :: es' => match next l e with Some l' => runs l' es' | None => None end
  end.

(** [main]: the exit code of the process. *)
Definition exit_code (l : life) : option Z :=
  match at_ l with
  | Returned None => Some 0
  | Returned (Some _) | Killed _ => Some 1
  | _ => None
  end.

(** ** Invariant *)

(** What holds at each place of the main goroutine; [stopped] once it is past
    [srv.Shutdown]. *)
Definition stopped (l : life) (err : option error) : Prop :=
  cancelled l = true /\ http_open l = false /\ grpc_open l = false /\ grpc_calls l = 0%nat /\
  exists d, shutdown_ctx l = Some d /\ match err with None => http_calls l = 0%nat | Some _ => d <= clock l end.

Definition life_ok (l : life) : Prop :=
  (has_grpc l = false -> grpc_open l = false /\ grpc_calls l = 0%nat) /\
  (has_loop l = false -> loop_alive l = false) /\
  match at_ l with
  | Serving =>
      http_open l = true /\ grpc_open l = has_grpc l /\ audit_stop l = false /\ loop_stop l = false /\
      worker_alive l = true /\ shutdown_ctx l = None
  | Stopping =>
      cancelled l = true /\ http_open l = true /\ grpc_open l = false /\ audit_stop l = false /\ loop_stop l = false
      /\ worker_alive l = true /\ exists d, shutdown_ctx l = Some d
  | Closing _ =>
      cancelled l = true /\ http_open l = false /\ grpc_open l = false /\ grpc_calls l = 0%nat /\
      audit_stop l = false /\ loop_stop l = false /\ worker_alive l = true /\ exists d, shutdown_ctx l = Some d
  | StoppingLoop err => stopped l err /\ audit_stop l = false /\ worker_alive l = true
  | ClosingAudit err => stopped l err /\ loop_alive l = false
  | Returned err => stopped l err /\ loop_alive l = false /\ audit_stop l = true /\ worker_alive l = false
  | Killed _ => http_open l = true /\ audit_stop l = false
  end.

Lemma serving_ok now grpc loop : life_ok (serving now grpc loop).
Proof. unfold life_ok, serving. simpl. by destruct grpc, loop. Qed.

Lemma life_main_ok l l' : life_ok l -> main_step l = Some l' -> life_ok l'.
Proof.
  intros (Hg & Hl & Hp). destruct l as [ck sc ca ho hc hg go gc hl la ls wa au at0]. unfold main_step. cbn in *.
  destruct at0; cbn in *; try done.
  - destruct ca; [|done]. destruct hg; intros [= <-]; unfold life_ok; cbn; intuition eauto.
  - destruct (Nat.eqb_spec gc 0); [|done]. intros [= <-]. unfold life_ok; cbn; intuition.
  - destruct (Nat.eqb_spec hc 0); [|destruct polled; [done|]]; intros [= <-]; unfold life_ok, stopped; cbn;
      destruct Hp as (? & ? & ? & ? & ? & ? & ? & d & ->); intuition eauto.
  - destruct hl; cbn; [destruct ls; cbn; [destruct la; [done|]|]|]; intros [= <-];
      unfold life_ok, stopped in *; cbn in *; intuition.
  - destruct au; cbn; [destruct wa; [done|]|]; intros [= <-]; unfold life_ok, stopped in *; cbn in *; intuition.
Qed.

Lemma life_timeout_ok l l' : life_ok l -> time_out l = Some l' -> life_ok l'.
Proof.
  intros (Hg & Hl & Hp). destruct l as [ck sc ca ho hc hg go gc hl la ls wa au at0]. unfold time_out. cbn in *.
  destruct at0 as [| |[]| | | |]; try done. destruct sc as [d|]; [|done]. destruct (d <=? ck) eqn:Hd; [|done].
  intros [= <-]. go_bool. unfold life_ok, stopped. cbn. intuition eauto.
Qed.

Lemma life_next_ok l e l' : life_ok l -> next l e = Some l' -> life_ok l'.
Proof.
  intros Hok. unfold next. destruct (over l) eqn:Ho; [done|].
  destruct e; try (by apply life_main_ok); try (by apply life_timeout_ok); destruct Hok as (Hg & Hl & Hp);
    destruct l as [ck sc ca ho hc hg go gc hl la ls wa au at0]; unfold over in Ho; cbn in *; intros Hn;
    repeat case_match; simplify_eq; unfold life_ok, stopped in *; cbn in *; go_bool; subst;
    repeat match goal with Hx : _ /\ _ |- _ => destruct Hx | Hx : exists _, _ |- _ => destruct Hx end;
    intuition (try done; try congruence; eauto);
    (eexists; split; [eassumption|]; try case_match; simplify_eq; done || lia).
Qed.

Lemma runs_snoc l es e :
  runs l (es ++ [e]) = match runs l es with Some l' => next l' e | None => None end.
Proof.
  revert l. induction es as [|x es IH]; intros l; cbn [app runs]; [by destruct (next l e)|].
  destruct (next l x); [apply IH|done].
Qed.

Lemma runs_app l es es' l' : runs l es = Some l' -> runs l (es ++ es') = runs l' es'.
Proof.
  revert l. induction es as [|x es IH]; intros l; cbn [app runs]; [by intros [= <-]|].
  destruct (next l x); [apply IH|done].
Qed.

Lemma life_runs_ok l es l' : life_ok l -> runs l es = Some l' -> life_ok l'.
Proof.
  revert l. induction es as [|e es IH]; cbn [runs]; intros l Hok; [by intros [= <-]|].
  destruct (next l e) as [l1|] eqn:Hn; [|done]. apply IH. by eapply life_next_ok.
Qed.

(** The main goroutine saw the signal at the time [t] of the run. *)
Definition signal_handled (l : life) (es : list event) (t : time) : Prop :=
  exists es1 es2 l1, es = es1 ++ Main :: es2 /\ runs l es1 = Some l1 /\ at_ l1 = Serving /\
    cancelled l1 = true /\ clock l1 = t.

Lemma signal_handled_snoc l es e t : signal_handled l es t -> signal_handled l (es ++ [e]) t.
Proof.
  intros (es1 & es2 & l1 & -> & Hr). exists es1, (es2 ++ [e]), l1. split; [by rewrite <- app_assoc|done].
Qed.

(** Only the main goroutine makes the context, when it sees the signal. *)
Lemma next_ctx l e l' : next l e = Some l' ->
  shutdown_ctx l' = shutdown_ctx l \/
  (e = Main /\ at_ l = Serving /\ cancelled l = true /\ shutdown_ctx l' = Some (clock l + shutdownTimeout)).
Proof.
  unfold next, main_step, time_out. destruct (over l); [done|]. intros Hn.
  destruct e; repeat case_match; simplify_eq/=; auto.
Qed.

Lemma ctx_history now grpc loop es l d :
  runs (serving now grpc loop) es = Some l -> shutdown_ctx l = Some d ->
  exists t, signal_handled (serving now grpc loop) es t /\ d = t + shutdownTimeout.
Proof.
  revert l. induction es as [|e es IH] using rev_ind; intros l; [by intros [= <-]|].
  rewrite runs_snoc. destruct (runs _ es) as [l0|] eqn:Hr; [|done]. intros Hn Hd.
  destruct (next_ctx l0 e l Hn) as [Hc|(-> & Ha & Hca & Hc)].
  - destruct (IH l0 eq_refl) as (t & Ht & ->); [congruence|]. exists t. split; [by apply signal_handled_snoc|done].
  - exists (clock l0). split; [|congruence]. by exists es, [], l0.
Qed.

(** ** Progress *)

(** The events of a process that winds down: calls and goroutines end, the main
    goroutine goes on. *)
Definition main_event (e : event) : bool := match e with Main | TimedOut => true | _ => false end.
Definition ending (e : event) : bool :=
  match e with HttpReturn | GrpcReturn | LoopExit | WorkerExit => true | _ => main_event e end.

(** The actions the main goroutine has left, at most. *)
Definition rank (l : life) : nat :=
  match at_ l with
  | Serving => 8
  | Stopping => 7
  | Closing false => 6
  | Closing true => 5
  | StoppingLoop _ => 3 + (if loop_stop l then 0 else 1)
  | ClosingAudit _ => 1 + (if audit_stop l then 0 else 1)
  | Returned _ | Killed _ => 0
  end%nat.

(** What has still to end. *)
Definition pending (l : life) : nat :=
  (http_calls l + grpc_calls l + (if loop_alive l then 1 else 0) + (if worker_alive l then 1 else 0))%nat.

Lemma next_rank l e l' : next l e = Some l' -> (rank l' + (if main_event e then 1 else 0) <= rank l)%nat.
Proof.
  unfold next, rank, main_step, time_out. destruct l as [ck sc ca ho hc hg go gc hl la ls wa au at0].
  unfold over. cbn. destruct at0; intros Hn; try done; destruct e; cbn in *;
    repeat case_match; simplify_eq/=; try lia; repeat case_match; simplify_eq/=; try lia.
Qed.

Lemma next_pending l e l' : ending e = true -> next l e = Some l' -> (rank l' + pending l' < rank l + pending l)%nat.
Proof.
  intros He Hn. pose proof (next_rank _ _ _ Hn) as Hr.
  assert (pending l' + (if main_event e then 0 else 1) = pending l)%nat as Hp; [|destruct (main_event e); lia].
  clear Hr. unfold next, pending, main_step, time_out in *. destruct l as [ck sc ca ho hc hg go gc hl la ls wa au at0].
  unfold over in Hn. cbn in *. destruct e; try done; cbn in *; repeat case_match; simplify_eq/=; go_bool; subst; lia || done.
Qed.

Lemma runs_rank l es l' :
  runs l es = Some l' -> (length (List.filter main_event es) + rank l' <= rank l)%nat.
Proof.
  revert l. induction es as [|e es IH]; cbn [runs List.filter]; intros l; [intros [= ->]; simpl; lia|].
  destruct (next l e) as [l1|] eqn:Hn; [|done]. intros Hr. apply IH in Hr. apply next_rank in Hn.
  destruct (main_event e); simpl; lia.
Qed.

Lemma runs_pending l es l' :
  forallb ending es = true -> runs l es = Some l' -> (length es + rank l' + pending l' <= rank l + pending l)%nat.
Proof.
  revert l. induction es as [|e es IH]; cbn [runs forallb]; intros l; [intros _ [= ->]; simpl; lia|].
  intros [He Hes]%andb_true_iff. destruct (next l e) as [l1|] eqn:Hn; [|done]. intros Hr.
  apply (IH l1 Hes) in Hr. apply next_pending in Hn; [|done]. simpl. lia.
Qed.

(** What the main goroutine waits for, when it cannot go on. *)
Inductive waits (l : life) : Prop :=
| waits_grpc : at_ l = Stopping -> grpc_calls l <> 0%nat -> waits l
| waits_http d : at_ l = Closing true -> http_calls l <> 0%nat -> shutdown_ctx l = Some d -> clock l < d -> waits l
| waits_loop err : at_ l = StoppingLoop err -> loop_alive l = true -> loop_stop l = true -> waits l
| waits_worker err : at_ l = ClosingAudit err -> worker_alive l = true -> audit_stop l = true -> waits l.

Lemma moves_or_waits l :
  life_ok l -> cancelled l = true -> over l = false ->
  (exists e l', main_event e = true /\ next l e = Some l') \/ waits l.
Proof.
  intros (_ & _ & Hp) Hc Ho.
  assert (forall l', main_step l = Some l' -> exists e l', main_event e = true /\ next l e = Some l') as Hm.
  { intros l' Hl. exists Main, l'. unfold next. by rewrite Ho. }
  assert (forall l', time_out l = Some l' -> exists e l', main_event e = true /\ next l e = Some l') as Ht.
  { intros l' Hl. exists TimedOut, l'. unfold next. by rewrite Ho. }
  destruct (main_step l) as [l'|] eqn:Hs; [left; by eapply Hm|].
  destruct (time_out l) as [l'|] eqn:Hd; [left; by eapply Ht|]. right. clear Hm Ht.
  unfold main_step, time_out, over in *. destruct (at_ l) as [| |polled|err|err| |] eqn:Ha; try done.
  - rewrite Hc in Hs. by destruct (has_grpc _).
  - destruct (Nat.eqb_spec (grpc_calls l) 0); [done|]. by apply waits_grpc.
  - destruct Hp as (_ & _ & _ & _ & _ & _ & _ & d & Hctx). rewrite Hctx in Hd.
    destruct (Nat.eqb_spec (http_calls l) 0); [done|]. destruct polled; [|done].
    destruct (d <=? clock l) eqn:Hx; [done|]. go_bool. by apply (waits_http l d).
  - destruct (has_loop l); [|done]. destruct (loop_stop l) eqn:Hls, (loop_alive l) eqn:Hla; try done.
    by apply (waits_loop l err).
  - destruct (audit_stop l) eqn:Hau, (worker_alive l) eqn:Hwa; try done. by apply (waits_worker l err).
Qed.

(** What is waited for can end. *)
Lemma waits_ends l : waits l -> cancelled l = true -> exists e l', ending e = true /\ next l e = Some l'.
Proof.
  intros Hw Hc. destruct l as [ck sc ca ho hc hg go gc hl la ls wa au at0]. cbn in *.
  inversion Hw as [Ha Hn|d Ha Hn Hd Hlt|err Ha Hla Hls|err Ha Hla Hls]; cbn in *; subst.
  - destruct gc as [|gc]; [done|]. by eexists GrpcReturn, _.
  - destruct hc as [|hc]; [done|]. by eexists HttpReturn, _.
  - by eexists LoopExit, _.
  - by eexists WorkerExit, _.
Qed.

(** A signal is not taken back, and only a failing listener kills the process. *)
Lemma next_cancelled l e l' : next l e = Some l' -> cancelled l = true -> cancelled l' = true.
Proof.
  unfold next, main_step, time_out. destruct (over l); [done|]. intros Hn Hc.
  destruct e; repeat case_match; simplify_eq/=; done.
Qed.

Lemma runs_cancelled l es l' : runs l es = Some l' -> cancelled l = true -> cancelled l' = true.
Proof.
  revert l. induction es as [|e es IH]; cbn [runs]; intros l; [by intros [= ->]|].
  destruct (next l e) as [l1|] eqn:Hn; [|done]. intros Hr Hc. eapply IH; [done|]. by eapply next_cancelled.
Qed.

Lemma ending_not_killed l e l' msg :
  ending e = true -> next l e = Some l' -> at_ l' <> Killed msg.
Proof.
  unfold next, main_step, time_out, over. intros He Hn Hk.
  destruct e; try done; repeat case_match; simplify_eq/=; congruence.
Qed.

Lemma ending_returns l es l' :
  forallb ending es = true -> runs l es = Some l' -> over l = false -> over l' = true -> exists err, at_ l' = Returned err.
Proof.
  destruct es as [|e es] using rev_ind; [intros _ [= ->]; congruence|]. clear IHes.
  rewrite forallb_app, runs_snoc. cbn. rewrite andb_true_r. intros [_ He]%andb_true_iff.
  destruct (runs l es) as [l0|]; [|done]. intros Hn _ Ho. unfold over in Ho.
  destruct (at_ l') as [| | | | |err|msg] eqn:Ha; try done; [by exists err|].
  by apply (ending_not_killed _ _ _ msg) in Hn.
Qed.

(** ** Properties *)

(** C28. The shutdown is in order: from the start of the process, whatever calls
    come and end and whenever the signal arrives, the audit service is closed
    only when both servers have stopped accepting calls, no gRPC call is in
    flight, the reload loop has ended, and every HTTP call has returned or ten
    seconds have passed since the main goroutine saw the signal; a process that
    exits with code 0 got the signal and has nothing left running, and one that
    returns an error does so not before those ten seconds. *)
Theorem shutdown_in_order now grpc loop es l :
  runs (serving now grpc loop) es = Some l ->
  (audit_stop l = true ->
     http_open l = false /\ grpc_open l = false /\ grpc_calls l = 0%nat /\ loop_alive l = false /\
     exists t, signal_handled (serving now grpc loop) es t /\
       (http_calls l = 0%nat \/ t + shutdownTimeout <= clock l)) /\
  (exit_code l = Some 0 ->
     cancelled l = true /\ http_calls l = 0%nat /\ grpc_calls l = 0%nat /\ loop_alive l = false /\
     worker_alive l = false) /\
  (forall e, at_ l = Returned (Some e) ->
     exists t, signal_handled (serving now grpc loop) es t /\ t + shutdownTimeout <= clock l).
Proof.
  intros Hr. pose proof (fun d => ctx_history _ _ _ _ _ d Hr) as Hctx.
  apply (life_runs_ok _ _ _ (serving_ok now grpc loop)) in Hr as (_ & _ & Hp). unfold exit_code.
  assert (forall err, stopped l err -> exists t, signal_handled (serving now grpc loop) es t /\
    match err with None => http_calls l = 0%nat | Some _ => t + shutdownTimeout <= clock l end) as Hst.
  { intros err (_ & _ & _ & _ & d & Hd & He). destruct (Hctx d Hd) as (t & Ht & ->). by exists t. }
  destruct (at_ l) as [| | |err|err|err|m]; try (split_and!; [intros Hx; exfalso; intuition congruence|done|done]);
    destruct Hp as [Hs Hrest]; destruct (Hst err Hs) as (t & Ht & He);
    destruct Hs as (Hc & Hh & Hg & Hn & _); split_and!; try done.
  - intros _. split_and!; try done. exists t. split; [done|]. destruct err; auto.
  - intros _. split_and!; [done..|apply Hrest|]. exists t. split; [done|]. destruct err; auto.
  - destruct err; [done|]. intros _. split_and!; try done; apply Hrest.
  - intros e [= ->]. by exists t.
Qed.

(** C29. The shutdown cannot get stuck.  In every state the process can be in after
    the signal and before it is over, the main goroutine can go on, or it waits
    for one thing that can end: a gRPC call, an HTTP call before the deadline, the
    reload loop it has told to stop, the audit worker it has told to stop.
    Whatever else happens, it takes at most eight more actions; and if calls and
    goroutines only end, in whatever order, there are at most [rank] and [pending]
    many events, after the last of which the process has returned. *)
Theorem shutdown_completes now grpc loop es l :
  runs (serving now grpc loop) es = Some l -> cancelled l = true -> over l = false ->
  ((exists e l', main_event e = true /\ next l e = Some l') \/ waits l) /\
  (forall es' l', runs l es' = Some l' -> (length (List.filter main_event es') <= 8)%nat) /\
  (forall es' l', forallb ending es' = true -> runs l es' = Some l' ->
     (length es' <= rank l + pending l)%nat /\
     ((forall e, ending e = true -> next l' e = None) -> exists err, at_ l' = Returned err)).
Proof.
  intros Hr Hc Ho. pose proof (life_runs_ok _ _ _ (serving_ok now grpc loop) Hr) as Hok. split_and!.
  - by apply moves_or_waits.
  - intros es' l' Hr'. apply runs_rank in Hr'. assert (rank l <= 8)%nat; [|lia].
    unfold rank. repeat case_match; lia.
  - intros es' l' Hes Hr'. split; [apply runs_pending in Hr'; [lia|done]|]. intros Hmax.
    apply (ending_returns l es'); [done..|]. destruct (over l') eqn:Ho'; [done|]. exfalso.
    pose proof (runs_cancelled _ _ _ Hr' Hc) as Hc'. pose proof (life_runs_ok _ _ _ Hok Hr') as Hok'.
    destruct (moves_or_waits l' Hok' Hc' Ho') as [(e & l2 & He & Hn)|Hw].
    + rewrite Hmax in Hn; [done|]. by destruct e.
    + destruct (waits_ends l' Hw Hc') as (e & l2 & He & Hn). by rewrite Hmax in Hn.
Qed.

(** [GracefulStop] has no deadline: a gRPC call that does not return keeps the
    process, with the HTTP server open, for any time. *)
Lemma graceful_stop_waits l es l' :
  at_ l = Stopping -> grpc_calls l <> 0%nat -> http_open l = true ->
  forallb (fun e => match e with GrpcReturn | ListenError _ => false | _ => true end) es = true ->
  runs l es = Some l' -> at_ l' = Stopping /\ http_open l' = true.
Proof.
  revert l. induction es as [|e es IH]; cbn [runs forallb]; intros l Ha Hg Hh He; [by intros [= <-]|].
  apply andb_true_iff in He as [He Hes]. destruct (next l e) as [l1|] eqn:Hn; [|done].
  unfold next, over in Hn. rewrite Ha in Hn.
  assert (at_ l1 = Stopping /\ grpc_calls l1 <> 0%nat /\ http_open l1 = true) as (Ha1 & Hg1 & Hh1).
  { destruct e; try done; unfold main_step, time_out in Hn; rewrite ?Ha, ?Hh in Hn; repeat case_match; simplify_eq/=;
      try done; try (by apply Nat.eqb_eq in H). }
  by apply IH.
Qed.

(** ** Witnesses *)

Definition sample_events : list event :=
  [HttpCall; GrpcCall; Signal; Main; HttpReturn; GrpcReturn; Main; Main; LoopExit; Main; Main; Main; WorkerExit; Main].

Example sample_shutdown :
  (fun l => (at_ l, exit_code l)) <$> runs (serving 0 true true) sample_events = Some (Returned None, Some 0).
Proof. vm_compute. reflexivity. Qed.

(** The ten seconds are used up by the gRPC server: a gRPC call that takes eleven
    leaves an HTTP call that is in flight no time at all, and the process exits
    with an error. *)
Definition slow_grpc : list event :=
  [GrpcCall; Signal; Main; Tick (11 * second); HttpCall; GrpcReturn; Main; Main; TimedOut; Main; Main; LoopExit; Main;
   Main; WorkerExit; Main].

Example slow_grpc_cuts_http :
  (fun l => (at_ l, exit_code l, http_calls l, clock l)) <$> runs (serving 0 true true) (take 9 slow_grpc)
    = Some (StoppingLoop (Some (Errorf "context deadline exceeded")), None, 1%nat, 11 * second).
Proof. vm_compute. reflexivity. Qed.

Definition sample_life (n : nat) : life := default (serving 0 true true) (runs (serving 0 true true) (take n sample_events)).

Lemma shutdown_in_order_witness :
  let l := sample_life 14 in
  (audit_stop l = true ->
     http_open l = false /\ grpc_open l = false /\ grpc_calls l = 0%nat /\ loop_alive l = false /\
     exists t, signal_handled (serving 0 true true) sample_events t /\
       (http_calls l = 0%nat \/ t + shutdownTimeout <= clock l)) /\
  (exit_code l = Some 0 ->
     cancelled l = true /\ http_calls l = 0%nat /\ grpc_calls l = 0%nat /\ loop_alive l = false /\
     worker_alive l = false) /\
  (forall e, at_ l = Returned (Some e) ->
     exists t, signal_handled (serving 0 true true) sample_events t /\ t + shutdownTimeout <= clock l).
Proof. cbn zeta. apply (shutdown_in_order 0 true true sample_events). vm_compute. reflexivity. Defined.

Lemma shutdown_completes_witness :
  let l := sample_life 4 in
  ((exists e l', main_event e = true /\ next l e = Some l') \/ waits l) /\
  (forall es' l', runs l es' = Some l' -> (length (List.filter main_event es') <= 8)%nat) /\
  (forall es' l', forallb ending es' = true -> runs l es' = Some l' ->
     (length es' <= rank l + pending l)%nat /\
     ((forall e, ending e = true -> next l' e = None) -> exists err, at_ l' = Returned err)).
Proof.
  cbn zeta. apply (shutdown_completes 0 true true (take 4 sample_events)); vm_compute; reflexivity.
Defined.

End Lifecycle.
